(* ===== verification/_CoqProject ===== *)
-Q . S2P
Pink.v
Prelude.v
Sys.v
Slash.v
StdMap.v
RedisParser.v
RedisInline.v
RedisParserFacts.v
RedisCodec.v
RedisCodecFacts.v
RedisStream.v
RedisTheorems.v
PinkCli.v
PinkCliFacts.v
PbConn.v
PbCli.v
PbConnFacts.v
PbTheorems.v
RedisCli.v
RedisCliFacts.v
RedisCliTheorems.v
PinkConn.v
PinkEpoll.v
Cron.v
ServerConns.v
ServerFacts.v
CronFacts.v
WorkerThread.v
WorkerFacts.v
WorkerLife.v
WorkerTheorems.v
HolyThread.v
ServerThread.v
ServerLoop.v
ServerTheorems.v
HolyLoop.v
Lifecycle.v
LifecycleTheorems.v
ServerSocket.v
ServerSocketTheorems.v
TaskQueue.v
TaskFacts.v
TaskTheorems.v
PubSub.v
PubSubThread.v
PubSubFacts.v
PubSubTheorems.v
PubSubPublish.v
PubSubWitness.v
HttpConn.v
HttpFacts.v
HttpParse.v
HttpServe.v
HttpTheorems.v
HttpPipeline.v
HttpSend.v
HttpReply.v
SimpleHttp.v
SimpleHttpFacts.v
SimpleHttpServe.v
SimpleHttpTheorems.v
SimpleHttpReply.v
ServeFacts.v
HttpServer.v
SimpleHttpServer.v
SimpleHttpTyped.v
PeerConns.v
PeerFacts.v
BackendThread.v
ClientThread.v
ClientFacts.v
ClientInvariant.v
ClientTheorems.v
ClientMessages.v
BackendTheorems.v
RedisConn.v
RedisConnFacts.v
RedisConnTheorems.v
RedisServer.v
PbServer.v
