(* ===== verification/Pink.v ===== *)
(** * Verification of pink

    pink is a C++ network library: servers that accept TCP connections, connection
    classes that parse requests and send replies, the clients that talk to them,
    and the threads, pollers and task queues under all of them. This development
    is a shallow embedding of its core. Every definition that models code keeps
    the name of what it models (or says in its comment which lines it is), and the
    theorems are about those definitions.

    ** How the parts of the program interact

    A server is either a [HolyThread] (src/pink/src/holy_thread.cc), which accepts
    and serves connections itself, or a [DispatchThread] (dispatch_thread.cc), which
    accepts them in [ServerThread::ThreadMain] (server_thread.cc) and hands each one
    to a [WorkerThread] (worker_thread.cc) through the pipe of the worker's
    [PinkEpoll] (pink_epoll.cc). The event loop calls [GetRequest] and [SendReply]
    of the connection, a [PbConn] (pb_conn.cc, messages with a length in front) or
    a [RedisConn] (redis_conn.cc, the RESP protocol, read by the [RedisParser] of
    redis_parser.cc); user code handles the message, perhaps in a [ThreadPool] or
    [BGThread], and announces its reply through the pipe. A connection may also be
    moved to a [PubSubThread] (pink_pubsub.cc). An [HTTPConn] (http_conn.cc) is a
    connection that hands the parts of a request to the user's [HTTPHandles] and
    asks them for the parts of the reply; a [SimpleHTTPConn] (simple_http_conn.cc)
    keeps the whole request and the whole response in memory and makes one call,
    [DealMessage]. All threads derive from [Thread] (pink_thread.cc), and the
    servers and connection threads start, stop and equip them with data of the
    user. The clients are [PbCli] and [RedisCli]
    over [PinkCli] (pb_cli.cc, redis_cli.cc, pink_cli.cc), which block, and two
    threads with an event loop of their own: [ClientThread] (client_thread.cc),
    which names its connections by address and dials them itself, and
    [BackendThread] (backend_thread.cc), which names them by descriptor.

    ** The files

    Shared:
    - Pink (this file): the enumerations and limits of pink_define.h;
    - Prelude: bytes, C integers with their width, decimal numerals, the [outcome]
      monad ([Ret] or the [fault] that stops the program), tactics and hints;
    - Sys: [read] and [write] on a socket that is a script of arrivals and grants;
    - Slash: the string helpers of the slash library, as a class with laws;
    - StdMap: [std::map] as an ordered association list, with its laws.

    The redis protocol:
    - RedisParser, RedisInline, RedisParserFacts: redis_parser.cc; the memory of the
      caller, the positions in it and the half-read argument are explicit;
    - RedisCodec, RedisCodecFacts: the formatting half of redis_cli.cc;
    - RedisStream, RedisTheorems: serializer and parser together;
    - RedisConn, RedisConnFacts, RedisConnTheorems: redis_conn.cc, with its buffer;
    - RedisServer: it as an instance of [ConnOps] and [ConnLaws], under the loop of
      [HolyThread];
    - RedisCli, RedisCliFacts, RedisCliTheorems: the reply reader of redis_cli.cc.

    The protobuf framing:
    - PbConn, PbCli, PbConnFacts, PbTheorems: pb_conn.cc and pb_cli.cc;
    - PbServer: the connection as an instance of the two classes, under the loop of
      [HolyThread], between two ends of [PbCli].

    HTTP:
    - HttpConn, HttpFacts: http_conn.cc; the handles are a class over a state of the
      user;
    - HttpParse, HttpServe, HttpTheorems, HttpPipeline: receiving a request;
    - HttpSend, HttpReply: sending the response; [BodySource] is what the user's body
      promises;
    - HttpServer: the connection under the loops of both servers, and the handles of
      examples/http_server.cc, which meet the contract [answering] for every request;
    - SimpleHttp, SimpleHttpFacts: simple_http_conn.cc; [DealMessage] is a parameter
      that yields the calls it makes on the response; the head parser is shown to do
      what that of [HttpConn] does;
    - SimpleHttpServe, SimpleHttpTheorems, SimpleHttpReply, SimpleHttpTyped: its
      requests, its responses, and the types of its members;
    - SimpleHttpServer: it as an instance of [ConnOps] and [ConnLaws], under the
      loops of both servers.

    Clients:
    - PinkCli, PinkCliFacts: pink_cli.cc; [Connect] runs on a script
      of the kernel's answers;
    - PeerConns, PeerFacts: what [ClientThread] and [BackendThread] share: dialling,
      which runs on the same kind of script, and the parts of an event;
    - ClientThread, ClientFacts, ClientInvariant, ClientTheorems, ClientMessages:
      client_thread.cc; [agree] of ClientFacts is its invariant;
    - BackendThread, BackendTheorems: backend_thread.cc; whether its mutex is
      recursive is a parameter, as the mutex is a class of the slash library.

    Servers:
    - PinkConn: pink_conn.cc, and the class [ConnOps] of the virtual operations with
      [ConnLaws], what the event loops rely on; the loops are proved against it;
    - PinkEpoll: the interest table, the pipe, and the [world]: objects behind
      pointers, references other threads hold, open descriptors, the calls of the
      user's handle. An object goes when its last reference does; following a
      pointer to it afterwards is the fault [UseAfterFree];
    - Cron: the clock at the head of every event loop;
    - ServerConns, ServerFacts, CronFacts: the table of connections, the kill list
      and the cron task, which [WorkerThread] and [HolyThread] share;
    - WorkerThread, WorkerFacts, WorkerLife, WorkerTheorems: the worker, an event at a
      time with other threads in between; [life_turn] of WorkerLife is the abstract
      machine of one connection: the next of its five states as a function of what
      its calls return;
    - HolyThread, ServerThread, ServerTheorems: the other two servers; the event of a
      [HolyThread] is split where it leaves its lock ([find_event_conn],
      [copy_event_conn], [serve_event]);
    - ServerLoop, HolyLoop: the rounds of [ServerThread::ThreadMain] over the parts a
      derived class provides, and [HolyThread] as the whole server it makes;
    - ServeFacts: what one event of either loop does to a connection whose call is
      known, which joins a connection's theorems with those of the loops; a kind of
      connection that meets the interface [answers_all] (each read or write makes
      progress towards a known output) gets all its answers out of a [HolyThread]
      ([holy_answers]), and the redis, protobuf and HTTP connections do;
    - Lifecycle, LifecycleTheorems: pink_thread.cc and the starting and stopping of
      all the threads, over a [process] that says what [pthread_create] and the
      user's handle answer and keeps a trace;
    - ServerSocket, ServerSocketTheorems: server_socket.cc and the [InitHandle], start,
      end and destructor of server_thread.cc, over a table of descriptors and a
      script of what the system answers.

    Tasks:
    - TaskQueue, TaskFacts, TaskTheorems: bg_thread.cc and thread_pool.cc as one
      interleaving relation [gstep]: a program counter for every point of the code
      that touches shared state, condition variables with lost and chosen wake-ups.

    Publish and subscribe:
    - PubSub, PubSubThread: pink_pubsub.cc; a C++ reference into a vector is a value
      of [conn_ref], read again at each use;
    - PubSubFacts, PubSubTheorems: a table as the set of its subscriptions;
    - PubSubPublish, PubSubWitness: publishing against a reference definition.

    ** What the theorems show

    - Redis: serialized commands cut into any pieces are parsed back; the parser ends,
      stays inside its buffer and consumes what it reports on every input; the
      connection executes pipelined commands once each and in order; nothing of a
      reply is lost or repeated; in a synchronous [HolyThread] every command gets its
      response within a bound on the events; the client reads every reply of the
      protocol whose nested arrays come last, and a part of any other; where inline
      commands, negative lengths and split bulk replies go wrong, and what the int
      that an announced length is narrowed to decides.
    - Protobuf: requests and replies survive any cut; in a synchronous [HolyThread] a
      service answers every request that a client sends, and the client receives
      what it answered; the resize keeps what is in use;
      empty and oversized messages do not behave.
    - Servers: a worker never follows a dead pointer, whatever other threads do between
      two of its events, as long as nobody kills all its connections, announces one
      that is not in the table, or moves one out that has an event pending, and three
      runs in which each of these is violated and it does; it refines the
      machine of a connection's life; a cron task closes what it should; cron tasks
      are not late; connections are dispatched in turn; a [HolyThread] closes a
      connection completely or not at all, and the whole server never follows a dead
      pointer or iterator unless the connection of an event is taken over between its
      lookup and the copy of its reference; [Connect] leaves the descriptors it says.
    - Threads: stopping a dispatcher gives back all that starting it took, each
      thread before its data, when creating the threads and deleting the data
      succeed; the other threads delete the data first; a thread that
      cannot be created counts as running; a pool that cannot start strands threads;
      deleting a server gives back every descriptor its start took, and a server that
      listens cannot be started again before its loop has ended.
    - HTTP: a request in any pieces reaches the handles whole, if its head and body
      fit together into the largest head and it neither expects 100 Continue nor
      names a host in its url; the response is sent
      without gap or repetition; receiving ends for whatever arrives; bytes behind a
      request leave it unanswered, a malformed length throws, and a reply after 100
      Continue may be cut; under a synchronous [HolyThread] a request gets exactly its answer and
      the next one can follow, under a [WorkerThread], which the example uses, the
      answer is never sent. For the simple connection also: its members keep their
      machine types and both calls end; under the two loops it does as [HTTPConn]
      does; without a header Host the path loses its beginning.
    - Connection threads: the two tables of a [ClientThread] agree in every run, and
      no null pointer is followed; written messages reach their connection in
      order; messages are lost behind an unreachable address; a [BackendThread]
      stops for ever when it closes a connection, and uses an erased iterator when
      one has timed out.
    - Tasks: mutual exclusion, the bound and the order of the queue in every
      interleaving; a background thread that has ended has run every task, and every
      timer but those that were not due when it looked; no queued task is slept on,
      and no timer past its time; the two interleavings in which stopping hangs.
    - Publish and subscribe: the operations as set operations with the counts they
      report; channels are never registered; a publication reaches each ready
      subscriber of each match once; a failed send hits the wrong connection.

    ** Bounds and fuel

    Loops that recurse on the data need no fuel. The others take a measure that a
    theorem shows to be enough: the parser its unread bytes, the senders the size of
    their queue and the grants of the socket, [send_vec] the first size of a vector
    that does not grow. A fuel that runs out is the fault [Diverges], and each
    property that says a function returns shows that it does not occur. Integers are
    [Z]; where the code narrows or may overflow the conversion is written
    out ([to_u32], [to_i32], ...). Counters that are bounded by the number of open
    descriptors or subscriptions are left unbounded.

    ** How the model limits what the theorems say

    A [HolyThread] is made asynchronous by default: it then sends nothing before a
    notification. The theorems on answers are about one made with [async] false; the
    loop itself is modelled for both, and ServeFacts shows what a read does in the
    other. One event of an event loop is one step, but for the lookup of a
    [HolyThread]; other threads act between events, also within one batch of
    [epoll_wait]. The pipe of a [PinkEpoll] has no capacity and its [write] does not
    fail. [read] with a count above [SSIZE_MAX] fails, as it does on Linux, where the
    check of the user's memory range refuses it. The redis parser is that of the
    default build, which defines NDEBUG: its asserts are not there. The others that
    matter, on the status code of a response and the length of a formatted command,
    are the fault [AssertFailed], where a build without them goes on.

    ** Not modelled

    The examples, but for the handles of http_server.cc: they print what they get, and
    those for redis and protobuf do not fit the interfaces as they are now. SSL (not in
    the default build); logging and the histogram of command times;
    that a thread told to stop ends, which [pthread_join] takes for granted;
    epoll's choice of events, which is any list that satisfies [fired]. Operations
    that run under one lock are one step; only the task queue is modelled at the
    granularity of its locks and waits. Spurious wake-ups of a condition variable
    are not modelled: they add interleavings only to the waits that test again. *)
From Stdlib Require Import ZArith.
From stdpp Require Import base decidable.
Open Scope Z_scope.

(** * [pink/include/pink_define.h]: the vocabulary of the library *)

Inductive NotifyType : Type :=
  | kNotiConnect | kNotiClose | kNotiEpollout | kNotiEpollin
  | kNotiEpolloutAndEpollin | kNotiWrite | kNotiWait.

Inductive ConnStatus : Type :=
  | kHeader | kPacket | kComplete | kBuildObuf | kWriteObuf.

Inductive ReadStatus : Type :=
  | kReadHalf | kReadAll | kReadError | kReadClose
  | kFullError | kParseError | kDealError | kOk.

Inductive WriteStatus : Type := kWriteHalf | kWriteAll | kWriteError.

Inductive RetCode : Type :=
  | kSuccess | kBindError | kCreateThreadError | kListenError
  | kSetSockOptError | kCreateThreadPoolError.

#[export] Instance NotifyType_eq_dec : EqDecision NotifyType.
Proof. solve_decision. Defined.
#[export] Instance ConnStatus_eq_dec : EqDecision ConnStatus.
Proof. solve_decision. Defined.
#[export] Instance ReadStatus_eq_dec : EqDecision ReadStatus.
Proof. solve_decision. Defined.
#[export] Instance WriteStatus_eq_dec : EqDecision WriteStatus.
Proof. solve_decision. Defined.
#[export] Instance RetCode_eq_dec : EqDecision RetCode.
Proof. solve_decision. Defined.

(** The protobuf framing. *)
Definition kProtoMaxMessage : Z := 512 * 1024 * 1024.
Definition PB_IOBUF_LEN : Z := 67108864.
Definition COMMAND_HEADER_LENGTH : Z := 4.
Definition kCommandHeaderLength : Z := 4.

(** The redis protocol. *)
Definition REDIS_MAX_MESSAGE : Z := 2 ^ 28.
Definition REDIS_MBULK_BIG_ARG : Z := 1024 * 32.
Definition REDIS_INLINE_MAXLEN : Z := 1024 * 64.
Definition REDIS_IOBUF_LEN : Z := 16384.
Definition REDIS_REQ_INLINE : Z := 1.
Definition REDIS_REQ_MULTIBULK : Z := 2.

Definition PINK_CRON_INTERVAL : Z := 1000.
