(* ===== verification/Prelude.v ===== *)
(** Prelude of the development: byte strings, C integer conversions, decimal
    numerals, the [outcome] monad for code that can abort, and the tactics and
    hint databases the components share.

    The root file [Pink.v] documents the whole development. *)
From Stdlib Require Export Ascii ZArith Lia.
From stdpp Require Export base tactics numbers list strings gmap.

(** * Byte strings *)

(** [std::string], [char*] regions and [terark::valvec<char>] hold bytes. *)
Abbreviation bytes := (list ascii).

Declare Scope pink_scope.
Delimit Scope pink_scope with pink.
Open Scope Z_scope.

(** A C string literal. *)
Definition bs (s : string) : bytes := String.list_ascii_of_string s.

Definition NUL : ascii := "000"%char.
Definition LF : ascii := "010"%char.
Definition CR : ascii := "013"%char.
Definition TAB : ascii := "009"%char.
Definition BEL : ascii := "007"%char.
Definition BS : ascii := "008"%char.
Definition SP : ascii := " "%char.
Definition CRLF : bytes := [CR; LF].

(** Byte equality, the C [==] on [char]. *)
Definition ceq (a b : ascii) : bool := bool_decide (a = b).
#[global] Arguments ceq : simpl never.
Infix "=?c" := ceq (at level 70) : pink_scope.
Open Scope pink_scope.

(** The C locale's [isspace], [isxdigit], [isdigit] and [tolower]. *)
Definition code (c : ascii) : Z := Z.of_N (N_of_ascii c).
Definition isspace (c : ascii) : bool :=
  ((9 <=? code c) && (code c <=? 13)) || (code c =? 32).
Definition isdigit (c : ascii) : bool := (48 <=? code c) && (code c <=? 57).
Definition isxdigit (c : ascii) : bool :=
  isdigit c || ((65 <=? code c) && (code c <=? 70))
            || ((97 <=? code c) && (code c <=? 102)).
Definition tolower (c : ascii) : ascii :=
  if (65 <=? code c) && (code c <=? 90)
  then ascii_of_N (N_of_ascii c + 32) else c.

(** The byte with value [z mod 256]: a conversion to [unsigned char]. *)
Definition chr (z : Z) : ascii := ascii_of_N (Z.to_N (z mod 256)).

(** Size of a container as an integer. *)
Definition zlen {A} (l : list A) : Z := Z.of_nat (length l).

(** [l] from index [i] on, for an integer index. *)
Definition zdrop {A} (i : Z) (l : list A) : list A := drop (Z.to_nat i) l.
Definition ztake {A} (n : Z) (l : list A) : list A := take (Z.to_nat n) l.

#[global] Arguments zlen : simpl never.
#[global] Arguments zdrop : simpl never.
#[global] Arguments ztake : simpl never.
#[global] Arguments chr : simpl never.
#[global] Arguments code : simpl never.

(** * C integers *)

Definition INT_MAX : Z := 2 ^ 31 - 1.
Definition INT_MIN : Z := - 2 ^ 31.
Definition LONG_MAX : Z := 2 ^ 63 - 1.
Definition LONG_MIN : Z := - 2 ^ 63.
Definition SIZE_MAX : Z := 2 ^ 64 - 1.

(** Conversions to a narrower type, modulo as the supported compilers do. *)
Definition to_u32 (z : Z) : Z := z mod 2 ^ 32.
Definition to_u64 (z : Z) : Z := z mod 2 ^ 64.
Definition to_i32 (z : Z) : Z := (z + 2 ^ 31) mod 2 ^ 32 - 2 ^ 31.
Definition to_i64 (z : Z) : Z := (z + 2 ^ 63) mod 2 ^ 64 - 2 ^ 63.

#[global] Arguments to_u32 : simpl never.
#[global] Arguments to_u64 : simpl never.
#[global] Arguments to_i32 : simpl never.
#[global] Arguments to_i64 : simpl never.

Create Rewrite HintDb cint.

Lemma to_u32_id z : 0 <= z < 2 ^ 32 -> to_u32 z = z.
Proof. apply Z.mod_small. Qed.

Lemma to_u64_id z : 0 <= z < 2 ^ 64 -> to_u64 z = z.
Proof. apply Z.mod_small. Qed.

Lemma to_i32_id z : INT_MIN <= z <= INT_MAX -> to_i32 z = z.
Proof. unfold to_i32, INT_MIN, INT_MAX. intros ?. rewrite Z.mod_small; lia. Qed.

Lemma to_i64_id z : LONG_MIN <= z <= LONG_MAX -> to_i64 z = z.
Proof. unfold to_i64, LONG_MIN, LONG_MAX. intros ?. rewrite Z.mod_small; lia. Qed.

Lemma to_u32_range z : 0 <= to_u32 z < 2 ^ 32.
Proof. apply Z.mod_pos_bound. lia. Qed.

Lemma to_u64_range z : 0 <= to_u64 z < 2 ^ 64.
Proof. apply Z.mod_pos_bound. lia. Qed.

Lemma to_i32_range z : INT_MIN <= to_i32 z <= INT_MAX.
Proof.
  unfold to_i32, INT_MIN, INT_MAX.
  pose proof (Z.mod_pos_bound (z + 2 ^ 31) (2 ^ 32) ltac:(lia)). lia.
Qed.

#[export] Hint Rewrite to_u32_id to_u64_id to_i32_id to_i64_id
  using (unfold INT_MAX, INT_MIN, LONG_MAX, LONG_MIN in *; lia) : cint.

(** Discharge arithmetic goals that mention the width constants. *)
Ltac clia := unfold INT_MAX, INT_MIN, LONG_MAX, LONG_MIN, SIZE_MAX, zlen in *; lia.

(** * Outcomes of code that can abort *)

(** What stops the C++ program instead of returning. [Diverges] is the result
    of a loop whose fuel runs out: the theorems show where it cannot happen. *)
Inductive fault : Type :=
  | AssertFailed    (** an [assert] of the source is violated *)
  | LengthError     (** [std::length_error] thrown by a [std::string] constructor *)
  | InvalidArgument (** [std::invalid_argument] thrown by [std::stoul] *)
  | OutOfRange      (** [std::out_of_range] thrown by [at] or [std::stoul] *)
  | Overflow        (** signed integer overflow, undefined behaviour *)
  | OutOfBounds     (** an access outside the buffer, undefined behaviour *)
  | UseAfterFree    (** an object is used after its last owner is gone *)
  | BadVaArg        (** [va_arg] of a missing or differently typed argument *)
  | BadThread       (** a thread is joined that was not created, or twice *)
  | Diverges.       (** the loop does not end *)

#[export] Instance fault_eq_dec : EqDecision fault.
Proof. solve_decision. Defined.

Inductive outcome (A : Type) : Type :=
  | Ret (a : A)
  | Fault (f : fault).
Arguments Ret {A} a.
Arguments Fault {A} f.

Definition obind {A B} (m : outcome A) (k : A -> outcome B) : outcome B :=
  match m with Ret a => k a | Fault f => Fault f end.

Notation "'let!' x := m 'in' k" := (obind m (fun x => k))
  (at level 10, x pattern, m at level 100, k at level 200) : pink_scope.

Lemma obind_ret_inv {A B} (m : outcome A) (k : A -> outcome B) b :
  obind m k = Ret b -> exists a, m = Ret a /\ k a = Ret b.
Proof. destruct m; simpl; eauto; discriminate. Qed.

(** Split every [let!] of a hypothesis. *)
Ltac obind_inv :=
  repeat match goal with
  | H : obind _ _ = Ret _ |- _ =>
      let a := fresh "a" in let E := fresh "E" in
      apply obind_ret_inv in H as (a & E & H)
  | H : Ret _ = Ret _ |- _ => injection H as H; subst
  end.

(** Case analysis on the boolean tests of a program text. *)
Ltac btests :=
  repeat match goal with
  | |- context [ (if ?b then _ else _) ] => let E := fresh "Hb" in destruct b eqn:E
  end.

Ltac b2p :=
  repeat match goal with
  | H : (_ && _)%bool = true |- _ => apply andb_true_iff in H as [? ?]
  | H : (_ || _)%bool = false |- _ => apply orb_false_iff in H as [? ?]
  | H : negb _ = true |- _ => apply negb_true_iff in H
  | H : negb _ = false |- _ => apply negb_false_iff in H
  | H : (_ =? _) = true |- _ => apply Z.eqb_eq in H
  | H : (_ =? _) = false |- _ => apply Z.eqb_neq in H
  | H : (_ <? _) = true |- _ => apply Z.ltb_lt in H
  | H : (_ <? _) = false |- _ => apply Z.ltb_ge in H
  | H : (_ <=? _) = true |- _ => apply Z.leb_le in H
  | H : (_ <=? _) = false |- _ => apply Z.leb_gt in H
  | H : bool_decide _ = true |- _ => apply bool_decide_eq_true in H
  | H : bool_decide _ = false |- _ => apply bool_decide_eq_false in H
  | H : ceq _ _ = true |- _ => apply bool_decide_eq_true in H
  | H : ceq _ _ = false |- _ => apply bool_decide_eq_false in H
  end.

(** * Lists *)

Section lists.
Context {A : Type}.
Implicit Types l : list A.

Lemma zlen_nil : zlen (@nil A) = 0.
Proof. done. Qed.

Lemma zlen_cons x l : zlen (x :: l) = 1 + zlen l.
Proof. unfold zlen. simpl. lia. Qed.

Lemma zlen_app l k : zlen (l ++ k) = zlen l + zlen k.
Proof. unfold zlen. rewrite length_app. lia. Qed.

Lemma zlen_nonneg l : 0 <= zlen l.
Proof. unfold zlen. lia. Qed.

Lemma zlen_zero l : zlen l = 0 -> l = [].
Proof. destruct l; [done|]. unfold zlen. simpl. lia. Qed.

Lemma zdrop_0 l : zdrop 0 l = l.
Proof. done. Qed.

Lemma zdrop_app i l k : i = zlen l -> zdrop i (l ++ k) = k.
Proof. intros ->. unfold zdrop, zlen. rewrite Nat2Z.id. apply drop_app_length. Qed.

Lemma ztake_app i l k : i = zlen l -> ztake i (l ++ k) = l.
Proof. intros ->. unfold ztake, zlen. rewrite Nat2Z.id. apply take_app_length. Qed.

Lemma zdrop_zdrop i j l : 0 <= i -> 0 <= j -> zdrop j (zdrop i l) = zdrop (i + j) l.
Proof. intros. unfold zdrop. rewrite drop_drop. f_equal. lia. Qed.

Lemma zdrop_all i l : zlen l <= i -> zdrop i l = [].
Proof. intros. unfold zdrop, zlen in *. apply drop_ge. lia. Qed.

Lemma ztake_all i l : zlen l <= i -> ztake i l = l.
Proof. intros. unfold ztake, zlen in *. apply take_ge. lia. Qed.

Lemma zlen_zdrop i l : 0 <= i <= zlen l -> zlen (zdrop i l) = zlen l - i.
Proof. unfold zdrop, zlen. rewrite length_drop. lia. Qed.

Lemma zlen_ztake i l : 0 <= i <= zlen l -> zlen (ztake i l) = i.
Proof. unfold ztake, zlen. rewrite length_take. lia. Qed.

Lemma ztake_zdrop i l : ztake i l ++ zdrop i l = l.
Proof. apply take_drop. Qed.

Lemma zdrop_cons_lt i l : 0 <= i < zlen l -> exists x k, zdrop i l = x :: k.
Proof.
  intros Hi. destruct (zdrop i l) as [|x k] eqn:E; eauto.
  assert (H : zlen (zdrop i l) = zlen l - i) by (apply zlen_zdrop; lia).
  rewrite E, zlen_nil in H. lia.
Qed.
End lists.

Create HintDb pink discriminated.
#[export] Hint Resolve zlen_nonneg zdrop_0 zdrop_all ztake_all ztake_zdrop : pink.
Create Rewrite HintDb zlen.
#[export] Hint Rewrite @zlen_nil @zlen_cons @zlen_app : zlen.

(** Record that sizes are not negative. *)
Ltac zlen_pos :=
  repeat match goal with
  | |- context [zlen ?l] =>
      lazymatch goal with
      | _ : 0 <= zlen l |- _ => fail
      | _ => pose proof (zlen_nonneg l)
      end
  | H : context [zlen ?l] |- _ =>
      lazymatch goal with
      | _ : 0 <= zlen l |- _ => fail
      | _ => pose proof (zlen_nonneg l)
      end
  end.

(** Close a goal on sizes. *)
Ltac zlen_lia := autorewrite with zlen in *; zlen_pos; lia.

(** Right-nest concatenations. *)
Ltac app_norm := repeat first [rewrite <- app_assoc | progress cbn [app]].

(** * Searching *)

(** [memchr]: the index of the first [c]. *)
Fixpoint index_of (c : ascii) (l : bytes) : option nat :=
  match l with
  | [] => None
  | x :: l' => if x =?c c then Some O else S <$> index_of c l'
  end.

Lemma ceq_refl c : (c =?c c) = true.
Proof. unfold ceq. by apply bool_decide_eq_true. Qed.

Lemma ceq_neq a b : a <> b -> (a =?c b) = false.
Proof. intros. unfold ceq. by apply bool_decide_eq_false. Qed.

Lemma index_of_app c pre post :
  c ∉ pre -> index_of c (pre ++ c :: post) = Some (length pre).
Proof.
  induction pre as [|x pre IH]; intros Hn; simpl.
  - by rewrite ceq_refl.
  - rewrite ceq_neq by set_solver. rewrite IH by set_solver. done.
Qed.

Lemma index_of_None c l : index_of c l = None <-> c ∉ l.
Proof.
  induction l as [|x l IH]; simpl; [set_solver|].
  destruct (x =?c c) eqn:E; b2p.
  - subst. split; [done|set_solver].
  - destruct (index_of c l); simpl; split; try done; try set_solver.
Qed.

Lemma index_of_Some c l n :
  index_of c l = Some n ->
  exists pre post, l = pre ++ c :: post /\ length pre = n /\ c ∉ pre.
Proof.
  revert n. induction l as [|x l IH]; intros n; simpl; [done|].
  destruct (x =?c c) eqn:E; b2p.
  - intros [= <-]. subst. exists [], l. set_solver.
  - destruct (index_of c l) as [m|]; simpl; [|done]. intros [= <-].
    destruct (IH m) as (pre & post & -> & <- & Hn); [done|].
    exists (x :: pre), post. set_solver.
Qed.

(** The C string that starts at the head of [l]. *)
Fixpoint cstr (l : bytes) : bytes :=
  match l with
  | [] => []
  | x :: l' => if x =?c NUL then [] else x :: cstr l'
  end.

Lemma cstr_no_nul l k : NUL ∉ l -> cstr (l ++ NUL :: k) = l.
Proof.
  induction l as [|x l IH]; intros Hn; simpl; [done|].
  rewrite ceq_neq by set_solver. rewrite IH by set_solver. done.
Qed.

Lemma cstr_app a b : NUL ∉ a -> cstr (a ++ b) = a ++ cstr b.
Proof.
  induction a as [|x a IH]; intros Hn; [done|]. rewrite not_elem_of_cons in Hn. destruct Hn as [Hx Hn].
  cbn [app cstr]. rewrite ceq_neq by done. by rewrite IH.
Qed.

Lemma cstr_id l : NUL ∉ l -> cstr l = l.
Proof.
  induction l as [|x l IH]; intros Hn; simpl; [done|].
  rewrite ceq_neq by set_solver. rewrite IH by set_solver. done.
Qed.

(** * Decimal numerals *)

Definition digit (z : Z) : ascii := chr (48 + z).

Fixpoint dec_digits (fuel : nat) (n : Z) : bytes :=
  match fuel with
  | O => []
  | S f => (if n <? 10 then [] else dec_digits f (n / 10)) ++ [digit (n mod 10)]
  end.

(** [std::to_string] of a non-negative integer; [Z.log2 n] digits are enough. *)
Definition to_dec (n : Z) : bytes := dec_digits (S (Z.to_nat (Z.log2 n))) n.

Definition to_string (z : Z) : bytes :=
  if z <? 0 then "-"%char :: to_dec (- z) else to_dec z.

#[global] Arguments to_dec : simpl never.
#[global] Arguments to_string : simpl never.

(** The number a string of digits denotes. *)
Definition dec_value (l : bytes) : Z :=
  fold_left (fun v c => 10 * v + (code c - 48)) l 0.

Lemma code_digit z : 0 <= z < 10 -> code (digit z) = 48 + z.
Proof.
  intros ?. unfold code, digit, chr. rewrite Z.mod_small by lia.
  rewrite N_ascii_embedding by lia. lia.
Qed.

Lemma isdigit_digit z : 0 <= z < 10 -> isdigit (digit z) = true.
Proof. intros ?. unfold isdigit. rewrite code_digit by lia. lia. Qed.

Lemma dec_digits_spec fuel n :
  0 <= n < 2 ^ Z.of_nat fuel ->
  dec_value (dec_digits fuel n) = n /\ Forall (fun c => isdigit c = true) (dec_digits fuel n).
Proof.
  revert n. induction fuel as [|f IH]; intros n Hn; simpl.
  { change (2 ^ Z.of_nat 0) with 1 in Hn. split; [cbn; lia|done]. }
  rewrite Nat2Z.inj_succ, Z.pow_succ_r in Hn by lia.
  pose proof (Z.mod_pos_bound n 10 ltac:(lia)).
  pose proof (Z.div_mod n 10 ltac:(lia)).
  destruct (n <? 10) eqn:E; b2p.
  - rewrite (Z.mod_small n 10) by lia. split.
    + cbn. rewrite code_digit by lia. lia.
    + repeat constructor. apply isdigit_digit. lia.
  - destruct (IH (n / 10)) as [IHv IHd]; [lia|]. split.
    + unfold dec_value in *. rewrite fold_left_app, IHv. simpl.
      rewrite code_digit by lia. lia.
    + apply Forall_app; split; [done|]. repeat constructor. apply isdigit_digit. lia.
Qed.

Lemma to_dec_fuel n : 0 <= n -> 0 <= n < 2 ^ Z.of_nat (S (Z.to_nat (Z.log2 n))).
Proof.
  intros Hn. split; [done|].
  rewrite Nat2Z.inj_succ, Z2Nat.id by apply Z.log2_nonneg.
  destruct (decide (n = 0)) as [->|]; [done|]. apply Z.log2_spec. lia.
Qed.

Lemma dec_value_to_dec n : 0 <= n -> dec_value (to_dec n) = n.
Proof. intros. by apply dec_digits_spec, to_dec_fuel. Qed.

Lemma to_dec_digits n : 0 <= n -> Forall (fun c => isdigit c = true) (to_dec n).
Proof. intros. by apply dec_digits_spec, to_dec_fuel. Qed.

Lemma dec_digits_nonempty fuel n : dec_digits (S fuel) n <> [].
Proof. simpl. by destruct (n <? 10), (dec_digits fuel (n / 10)). Qed.

Lemma to_dec_nonempty n : to_dec n <> [].
Proof. apply dec_digits_nonempty. Qed.

Lemma to_string_nonneg n : 0 <= n -> to_string n = to_dec n.
Proof. intros. unfold to_string. by rewrite (proj2 (Z.ltb_ge n 0)). Qed.

(** No byte that is not a digit occurs in a decimal numeral. *)
Lemma to_dec_not_in c n : 0 <= n -> isdigit c = false -> c ∉ to_dec n.
Proof.
  intros Hn Hc Hin. pose proof (to_dec_digits n Hn) as H.
  rewrite Forall_forall in H. apply H in Hin. congruence.
Qed.

(** * Predicates on outcomes *)

(** [P] of the result, or [F] of the fault. *)
Definition wp {A} (F : fault -> Prop) (P : A -> Prop) (m : outcome A) : Prop :=
  match m with Ret a => P a | Fault f => F f end.

#[global] Arguments wp {A} F P !m /.

Lemma wp_bind {A B} F (P : B -> Prop) (m : outcome A) k :
  wp F (fun a => wp F P (k a)) m -> wp F P (obind m k).
Proof. by destruct m. Qed.

Lemma wp_mono {A} F (P Q : A -> Prop) m :
  (forall a, P a -> Q a) -> wp F P m -> wp F Q m.
Proof. destruct m; simpl; auto. Qed.

Lemma wp_ret_inv {A} F (P : A -> Prop) m a : wp F P m -> m = Ret a -> P a.
Proof. by intros H ->. Qed.
