(* ===== verification/Sys.v ===== *)
(** The system calls the library makes on a connected socket: [read], [write]
    and their [errno] values.

    The peer and the kernel are an explicit script. The receive side is a queue
    of arrivals: a [read] takes at most the bytes asked for from the head
    arrival and leaves the rest, so every way the kernel can cut the stream
    into short reads is some queue. The send side is a queue of grants, each
    the number of bytes the kernel accepts next; what it accepted is [sent]. *)
From S2P Require Import Prelude.

Inductive errno : Type := EAGAIN | EINTR | EDEADLK | EOTHER.

(** The codes of [slash::Status] the library returns, without the messages. *)
Inductive Status : Type := OK | Timeout | IOError | EndFile | Corruption | NotFound.

#[export] Instance Status_eq_dec : EqDecision Status.
Proof. solve_decision. Defined.

#[export] Instance errno_eq_dec : EqDecision errno.
Proof. solve_decision. Defined.

(** What the next [read] meets. *)
Inductive arrival : Type :=
  | Arrive (d : bytes)    (** bytes from the peer *)
  | Hangup                (** the peer has shut its side down *)
  | RdFails (e : errno).

(** What the next [write] meets. *)
Inductive grant : Type :=
  | Accepts (n : nat)     (** at most [n] bytes fit *)
  | WrFails (e : errno).

Record sock : Type := mkSock {
  rdq : list arrival;
  wrq : list grant;
  sent : bytes
}.

(** The value returned by [read]/[write] and, when it is -1, [errno]. *)
Inductive ioret : Type :=
  | IoLen (n : Z)
  | IoErr (e : errno).

(** The largest [ssize_t]. *)
Definition SSIZE_MAX : Z := 2 ^ 63 - 1.

(** [read(fd, buf, count)]: the result and the bytes stored in [buf]. An empty
    receive queue is [EAGAIN]; a count of zero reads nothing and returns 0; a count
    above [SSIZE_MAX], such as a negative one made into a [size_t], fails ([EFAULT])
    and stores nothing. *)
Definition sys_read (count : Z) (s : sock) : ioret * bytes * sock :=
  if SSIZE_MAX <? count then (IoErr EOTHER, [], s)
  else if count =? 0 then (IoLen 0, [], s)
  else match rdq s with
  | [] => (IoErr EAGAIN, [], s)
  | Hangup :: _ => (IoLen 0, [], s)
  | RdFails e :: q => (IoErr e, [], mkSock q (wrq s) (sent s))
  | Arrive d :: q =>
      if zlen d <=? count
      then (IoLen (zlen d), d, mkSock q (wrq s) (sent s))
      else (IoLen count, ztake count d,
            mkSock (Arrive (zdrop count d) :: q) (wrq s) (sent s))
  end.

(** [write(fd, buf, count)] with [buf] holding [d]. *)
Definition sys_write (d : bytes) (s : sock) : ioret * sock :=
  match wrq s with
  | [] => (IoErr EAGAIN, s)
  | WrFails e :: q => (IoErr e, mkSock (rdq s) q (sent s))
  | Accepts n :: q =>
      let k := Z.min (Z.of_nat n) (zlen d) in
      (IoLen k, mkSock (rdq s) q (sent s ++ ztake k d))
  end.

(** [sys_write] never sends anything but a prefix of what it is given. *)
Lemma sys_write_prefix d s r s' :
  sys_write d s = (r, s') ->
  match r with
  | IoLen n => 0 <= n <= zlen d /\ sent s' = sent s ++ ztake n d
  | IoErr _ => sent s' = sent s
  end /\ rdq s' = rdq s.
Proof.
  unfold sys_write. intros H. destruct (wrq s) as [|[n|e] q]; simplify_eq; simpl; auto.
  unfold zlen. repeat split; lia.
Qed.

(** [sys_write] uses one grant of the script unless the script is empty. *)
Lemma sys_write_grants d s r s' :
  sys_write d s = (r, s') ->
  (wrq s = [] /\ s' = s /\ r = IoErr EAGAIN) \/
  (exists g, wrq s = g :: wrq s').
Proof.
  unfold sys_write. intros H. destruct (wrq s) as [|[n|e] q]; simplify_eq; simpl; eauto.
Qed.

(** A grant for all of [d] sends all of it. *)
Lemma sys_write_all d s n q :
  wrq s = Accepts n :: q -> zlen d <= Z.of_nat n ->
  sys_write d s = (IoLen (zlen d), mkSock (rdq s) q (sent s ++ d)).
Proof.
  intros Hq Hn. unfold sys_write. rewrite Hq, Z.min_r by done.
  by rewrite ztake_all by done.
Qed.

(** The bytes still to arrive before anything but an interruption happens. *)
Fixpoint incoming (q : list arrival) : bytes :=
  match q with
  | Arrive d :: q' => d ++ incoming q'
  | RdFails EINTR :: q' => incoming q'
  | _ => []
  end.

(** A count that is no [ssize_t]. *)
Lemma sys_read_huge count s : SSIZE_MAX < count -> sys_read count s = (IoErr EOTHER, [], s).
Proof. intros Hc. unfold sys_read. by rewrite (proj2 (Z.ltb_lt _ _)). Qed.

(** A negative count made into a [size_t]. *)
Lemma sys_read_negative n s : - 2 ^ 63 <= n < 0 -> sys_read (to_u64 n) s = (IoErr EOTHER, [], s).
Proof.
  intros Hn. apply sys_read_huge. unfold to_u64. replace n with (n + 2 ^ 64 + -1 * 2 ^ 64) by lia.
  rewrite Z.mod_add, Z.mod_small by lia. unfold SSIZE_MAX. lia.
Qed.

(** [sys_read] returns the next bytes of the stream, in order. *)
Lemma sys_read_incoming count s r d s' :
  0 <= count -> sys_read count s = (r, d, s') ->
  (match r with IoLen n => n = zlen d /\ n <= count | IoErr _ => d = [] end) /\
  wrq s' = wrq s /\ sent s' = sent s /\
  (d = [] \/ incoming (rdq s) = d ++ incoming (rdq s')).
Proof.
  intros Hc. unfold sys_read. destruct (SSIZE_MAX <? count); [intros [= <- <- <-]; auto|].
  destruct (count =? 0) eqn:E0; b2p.
  { intros [= <- <- <-]. repeat split; auto; lia. }
  destruct (rdq s) as [|[a| |e] q]; try (intros [= <- <- <-]; repeat split; auto; lia).
  destruct (zlen a <=? count) eqn:E; b2p; intros [= <- <- <-]; simpl.
  - repeat split; auto.
  - rewrite zlen_ztake by lia. repeat split; auto; [lia|].
    right. by rewrite app_assoc, ztake_zdrop.
Qed.

(** What a [read] uses up of the script. *)
Definition rd_bytes (q : list arrival) : nat :=
  sum_list_with (fun a => match a with Arrive d => length d | _ => 0%nat end) q.

(** A bound on the reads of a script that do not report [EAGAIN] or the end. *)
Definition rd_work (q : list arrival) : nat := (length q + rd_bytes q)%nat.

Lemma sys_read_work count s r d s' :
  0 <= count -> sys_read count s = (r, d, s') ->
  match r with
  | IoErr EAGAIN => True
  | IoLen 0 | IoErr EOTHER => (rd_work (rdq s') <= rd_work (rdq s))%nat
  | _ => (rd_work (rdq s') < rd_work (rdq s))%nat
  end.
Proof.
  intros Hc. unfold sys_read, rd_work, rd_bytes. destruct (SSIZE_MAX <? count); [intros [= <- <- <-]; lia|].
  destruct (count =? 0) eqn:E0; b2p.
  { intros [= <- <- <-]. lia. }
  destruct (rdq s) as [|[a| |e] q] eqn:Eq; simpl.
  - by intros [= <- <- <-].
  - destruct (zlen a <=? count) eqn:E; b2p; intros [= <- <- <-]; simpl.
    + destruct (zlen a) eqn:Ez; unfold zlen in *; simpl; lia.
    + unfold zdrop, zlen in *. rewrite length_drop. destruct count; simpl; lia.
  - intros [= <- <- <-]. rewrite Eq. done.
  - intros [= <- <- <-]. simpl. destruct e; lia.
Qed.

(** A stream with nothing but data in it. *)
Definition plain_queue (q : list arrival) : Prop := Forall (fun a => exists d, a = Arrive d /\ d <> []) q.

Lemma sys_read_plain count s :
  0 < count <= SSIZE_MAX -> plain_queue (rdq s) ->
  (rdq s = [] /\ sys_read count s = (IoErr EAGAIN, [], s)) \/
  (exists d s', sys_read count s = (IoLen (zlen d), d, s') /\ 0 < zlen d <= count /\
     incoming (rdq s) = d ++ incoming (rdq s') /\ plain_queue (rdq s') /\
     (rd_work (rdq s') < rd_work (rdq s))%nat /\ wrq s' = wrq s /\ sent s' = sent s).
Proof.
  intros Hc Hp. destruct (sys_read count s) as [[r d] s'] eqn:R.
  assert (Hc0 : 0 <= count) by lia.
  pose proof (sys_read_work count s r d s' Hc0 R) as Hw.
  pose proof (sys_read_incoming count s r d s' Hc0 R) as (Hr & Hwq & Hse & Hi).
  revert R. unfold sys_read. rewrite (proj2 (Z.ltb_ge _ _)), (proj2 (Z.eqb_neq _ _)) by lia.
  destruct (rdq s) as [|a q] eqn:Eq; [intros [= <- <- <-]; by left|].
  apply Forall_cons in Hp as [(a' & -> & Ha) Hp].
  assert (0 < zlen a') by (destruct a'; [done|zlen_lia]).
  assert (Hd : r = IoLen (zlen d) /\ 0 < zlen d /\ plain_queue (rdq s') ->
    (exists d0 s0, (r, d, s') = (IoLen (zlen d0), d0, s0) /\ 0 < zlen d0 <= count /\
       incoming (Arrive a' :: q) = d0 ++ incoming (rdq s0) /\ plain_queue (rdq s0) /\
       (rd_work (rdq s0) < rd_work (Arrive a' :: q))%nat /\ wrq s0 = wrq s /\ sent s0 = sent s)).
  { intros (-> & Hpos & Hq). exists d, s'. destruct Hr as [_ Hle].
    split_and!; try done; [by destruct Hi as [->|Hi]|]. by destruct (zlen d). }
  destruct (zlen a' <=? count) eqn:E; b2p; intros [= <- <- <-]; right; apply Hd.
  - by split_and!.
  - rewrite zlen_ztake by lia. split_and!; [done|lia|]. apply Forall_cons. split; [|done].
    eexists. split; [done|]. intros H0. apply (f_equal zlen) in H0.
    rewrite zlen_zdrop, zlen_nil in H0; lia.
Qed.

(** A socket that takes something at every grant or asks to wait; how many grants
    and how many waits it has. *)
Definition patient (q : list grant) : Prop := Forall (fun g => (exists k, g = Accepts (S k)) \/ g = WrFails EAGAIN) q.
Fixpoint accepting (q : list grant) : Z :=
  match q with [] => 0 | Accepts _ :: q => 1 + accepting q | _ :: q => accepting q end.
Fixpoint holdups (q : list grant) : nat :=
  match q with [] => 0 | WrFails EAGAIN :: q => S (holdups q) | _ :: q => holdups q end.

(** Such a socket takes some of the bytes, or asks once to wait. *)
Lemma sys_write_patient d s r s' :
  patient (wrq s) -> d <> [] -> zlen d <= accepting (wrq s) -> sys_write d s = (r, s') ->
  patient (wrq s') /\ rdq s' = rdq s /\
  ((exists n, r = IoLen n /\ 0 < n <= zlen d /\ sent s' = sent s ++ ztake n d /\
      accepting (wrq s) <= accepting (wrq s') + 1 /\ holdups (wrq s') = holdups (wrq s)) \/
   (r = IoErr EAGAIN /\ sent s' = sent s /\ accepting (wrq s') = accepting (wrq s) /\
      holdups (wrq s) = S (holdups (wrq s')))).
Proof.
  intros Hp Hd Ha. assert (0 < zlen d) by (destruct d; [done|zlen_lia]). unfold sys_write.
  destruct (wrq s) as [|g q]; [simpl in Ha; lia|]. apply Forall_cons in Hp as [Hg Hp].
  destruct Hg as [[k ->]| ->]; intros [= <- <-]; (split; [done|]); (split; [done|]); [left|by right].
  eexists. split; [done|]. simpl. split_and!; done || lia.
Qed.
