(* ===== verification/Slash.v ===== *)
(** The string helpers of the [slash] library that pink calls. [slash] is a
    separate package, so each helper is a member of a class, with what its
    documentation promises and pink relies on as the laws of a second class.
    [ref_slash] is a concrete instance: it shows the laws can hold and lets the
    witnesses compute. *)
From S2P Require Import Prelude.

Class Slash : Type := {
  (** [slash::string2l(s, slen, &value)]: [s] is given as the bytes from the
      pointer on; [None] is the failure return. *)
  string2l : bytes -> Z -> option Z
}.

Class SlashLaws (S : Slash) : Prop := {
  string2l_dec n rest :
    0 <= n <= LONG_MAX -> string2l (to_dec n ++ rest) (zlen (to_dec n)) = Some n;
  string2l_neg n rest :
    0 < n <= LONG_MAX ->
    string2l ("-"%char :: to_dec n ++ rest) (1 + zlen (to_dec n)) = Some (- n);
  string2l_range s n v : string2l s n = Some v -> LONG_MIN <= v <= LONG_MAX
}.

(** * A concrete instance *)

Definition parse_digits (s : bytes) : option Z :=
  if negb (bool_decide (s = [])) && forallb isdigit s then Some (dec_value s) else None.

Definition ref_string2l (s : bytes) (n : Z) : option Z :=
  let t := ztake n s in
  let v := match t with
           | c :: d => if c =?c "-"%char then Z.opp <$> parse_digits d else parse_digits t
           | [] => None
           end in
  match v with
  | Some z => if (LONG_MIN <=? z) && (z <=? LONG_MAX) then Some z else None
  | None => None
  end.

#[export] Instance ref_slash : Slash := { string2l := ref_string2l }.

Lemma parse_digits_to_dec n : 0 <= n -> parse_digits (to_dec n) = Some n.
Proof.
  intros Hn. unfold parse_digits.
  rewrite bool_decide_eq_false_2 by apply to_dec_nonempty.
  replace (forallb isdigit (to_dec n)) with true.
  - simpl. by rewrite dec_value_to_dec.
  - symmetry. apply Is_true_true_1, forallb_True.
    eapply Forall_impl; [by apply to_dec_digits|]. by intros c ->.
Qed.

#[export] Instance ref_slash_laws : SlashLaws ref_slash.
Proof.
  split; simpl; unfold ref_string2l.
  - intros n rest Hn. rewrite ztake_app by done.
    destruct (to_dec n) as [|c d] eqn:E; [by apply to_dec_nonempty in E|].
    assert ((c =?c "-"%char) = false) as ->.
    { apply ceq_neq. intros ->. pose proof (to_dec_not_in "-"%char n).
      rewrite E in H. apply H; [lia|done|set_solver]. }
    rewrite <- E, parse_digits_to_dec by lia.
    by rewrite (proj2 (Z.leb_le _ _)), (proj2 (Z.leb_le n _)) by clia.
  - intros n rest Hn.
    rewrite (ztake_app _ ("-"%char :: to_dec n) rest) by (autorewrite with zlen; done).
    rewrite ceq_refl, parse_digits_to_dec by lia. simpl.
    by rewrite (proj2 (Z.leb_le _ _)), (proj2 (Z.leb_le _ LONG_MAX)) by clia.
  - intros s n v H. repeat case_match; simplify_eq; b2p; lia.
Qed.
