(* ===== verification/StdMap.v ===== *)
(** [std::map]: an association list in increasing order of its keys, which is
    the order in which the library iterates over its maps. *)
From S2P Require Import Prelude.
From stdpp Require Import sorting.
Open Scope Z_scope.
Open Scope pink_scope.

(** * The order of the keys *)

(** [std::less], and that it is a strict total order. *)
Class StdLess (K : Type) : Type := less : K -> K -> bool.

Class StdLessLaws (K : Type) {L : StdLess K} : Prop := {
  less_irrefl (a : K) : less a a = false;
  less_trans (a b c : K) : less a b = true -> less b c = true -> less a c = true;
  less_total (a b : K) : less a b = false -> less b a = false -> a = b
}.

#[export] Instance int_less : StdLess Z := Z.ltb.

#[export] Instance int_less_laws : StdLessLaws Z.
Proof. split; unfold less, int_less; intros; b2p; try apply Z.ltb_ge; try apply Z.ltb_lt; lia. Qed.

(** [std::string] compares its bytes as [unsigned char]. *)
Fixpoint bytes_ltb (a b : bytes) : bool :=
  match a, b with
  | _, [] => false
  | [], _ :: _ => true
  | x :: a, y :: b =>
      if code x <? code y then true else if code y <? code x then false else bytes_ltb a b
  end.

#[export] Instance string_less : StdLess bytes := bytes_ltb.

Lemma code_inj a b : code a = code b -> a = b.
Proof. unfold code. intros H. rewrite <- (ascii_N_embedding a), <- (ascii_N_embedding b). f_equal. lia. Qed.

#[export] Instance string_less_laws : StdLessLaws bytes.
Proof.
  split; unfold less, string_less.
  - intros a. induction a as [|x a IH]; simpl; [done|]. by rewrite !Z.ltb_irrefl.
  - intros a. induction a as [|x a IH]; intros [|y b] [|z c]; simpl; try done.
    destruct (code x <? code y) eqn:E1, (code y <? code x) eqn:E2, (code y <? code z) eqn:E3,
      (code z <? code y) eqn:E4, (code x <? code z) eqn:E5, (code z <? code x) eqn:E6; b2p;
      try done; try lia; by eauto.
  - intros a. induction a as [|x a IH]; intros [|y b]; simpl; try done.
    destruct (code x <? code y) eqn:E1, (code y <? code x) eqn:E2; b2p; try done.
    intros H1 H2. assert (x = y) as -> by (apply code_inj; lia). f_equal. by apply IH.
Qed.

(** * The operations *)

Definition stdmap (K V : Type) : Type := list (K * V).

Section ops.
Context {K V : Type} {L : StdLess K}.
Implicit Types m : stdmap K V.

(** [find]: the value, [None] for [end()]. *)
Fixpoint sm_find (k : K) (m : stdmap K V) : option V :=
  match m with
  | [] => None
  | (k', v) :: m' =>
      if less k k' then None else if less k' k then sm_find k m' else Some v
  end.

(** [m[k] = v] *)
Fixpoint sm_set (k : K) (v : V) (m : stdmap K V) : stdmap K V :=
  match m with
  | [] => [(k, v)]
  | (k', v') :: m' =>
      if less k k' then (k, v) :: m
      else if less k' k then (k', v') :: sm_set k v m'
      else (k', v) :: m'
  end.

(** [erase] of a key *)
Fixpoint sm_erase (k : K) (m : stdmap K V) : stdmap K V :=
  match m with
  | [] => []
  | (k', v') :: m' =>
      if less k k' then m else if less k' k then (k', v') :: sm_erase k m' else m'
  end.

(** [insert({k, v})]: the map and whether the key is new. *)
Definition sm_insert (k : K) (v : V) (m : stdmap K V) : stdmap K V * bool :=
  match sm_find k m with
  | Some _ => (m, false)
  | None => (sm_set k v m, true)
  end.

(** The keys increase. *)
Definition sm_sorted (m : stdmap K V) : Prop :=
  StronglySorted (fun a b => less a.1 b.1 = true) m.
End ops.

(** * Their laws *)

Section laws.
Context {K V : Type} {L : StdLess K} {LL : StdLessLaws K}.
Implicit Types m : stdmap K V.

Lemma less_asym (a b : K) : less a b = true -> less b a = false.
Proof.
  intros H. destruct (less b a) eqn:E; [|done].
  pose proof (less_trans a b a H E) as F. by rewrite less_irrefl in F.
Qed.

Lemma sm_find_set_eq k v m : sm_find k (sm_set k v m) = Some v.
Proof.
  induction m as [|[k' v'] m IH]; simpl; [by rewrite less_irrefl|].
  destruct (less k k') eqn:E1; simpl; [by rewrite less_irrefl|].
  destruct (less k' k) eqn:E2; simpl; by rewrite E1, E2.
Qed.

Lemma sm_find_set_ne k k0 v m : k <> k0 -> sm_find k (sm_set k0 v m) = sm_find k m.
Proof.
  intros Hne. induction m as [|[k' v'] m IH]; simpl.
  - destruct (less k k0) eqn:E1; [done|]. destruct (less k0 k) eqn:E2; [done|].
    destruct Hne. by apply less_total.
  - destruct (less k0 k') eqn:E1; simpl.
    + destruct (less k k0) eqn:E2.
      * by rewrite (less_trans _ _ _ E2 E1).
      * destruct (less k0 k) eqn:E3; [done|]. destruct Hne. by apply less_total.
    + destruct (less k' k0) eqn:E2; simpl; [by rewrite IH|].
      assert (k0 = k') as -> by by apply less_total.
      destruct (less k k') eqn:E3; [done|]. destruct (less k' k) eqn:E4; [done|].
      destruct Hne. by apply less_total.
Qed.

Lemma sm_sorted_cons p m :
  sm_sorted (p :: m) <-> sm_sorted m /\ (forall q, q ∈ m -> less p.1 q.1 = true).
Proof.
  unfold sm_sorted. rewrite StronglySorted_cons, Forall_forall. naive_solver.
Qed.

Lemma sm_find_absent k m : (forall q, q ∈ m -> less k q.1 = true) -> sm_find k m = None.
Proof.
  destruct m as [|[k' v'] m]; simpl; [done|]. intros H.
  assert (less k k' = true) as E by (apply (H (k', v')); set_solver). by rewrite E.
Qed.

Lemma sm_find_erase_eq k m : sm_sorted m -> sm_find k (sm_erase k m) = None.
Proof.
  induction m as [|[k' v'] m IH]; simpl; [done|]. intros [Hs Hlt]%sm_sorted_cons.
  destruct (less k k') eqn:E1; simpl; [by rewrite E1|].
  destruct (less k' k) eqn:E2; simpl; [by rewrite E1, E2, IH|].
  assert (k = k') as -> by by apply less_total. by apply sm_find_absent.
Qed.

Lemma sm_find_erase_ne k k0 m : sm_sorted m -> k <> k0 -> sm_find k (sm_erase k0 m) = sm_find k m.
Proof.
  intros Hs Hne. induction m as [|[k' v'] m IH]; simpl; [done|].
  apply sm_sorted_cons in Hs as [Hs Hlt].
  destruct (less k0 k') eqn:E1; simpl; [done|].
  destruct (less k' k0) eqn:E2; simpl; [by rewrite IH|].
  assert (k0 = k') as -> by by apply less_total.
  destruct (less k k') eqn:E3.
  - apply sm_find_absent. intros q Hq. apply less_trans with k'; auto.
  - destruct (less k' k) eqn:E4; [done|]. destruct Hne. by apply less_total.
Qed.

Lemma elem_of_sm_set q k v m : q ∈ sm_set k v m -> q = (k, v) \/ q ∈ m.
Proof.
  induction m as [|[k' v'] m IH]; simpl; [set_solver|].
  destruct (less k k') eqn:E1; [set_solver|].
  destruct (less k' k) eqn:E2; [set_solver|].
  assert (k = k') as -> by by apply less_total. set_solver.
Qed.

Lemma elem_of_sm_erase q k m : q ∈ sm_erase k m -> q ∈ m.
Proof.
  induction m as [|[k' v'] m IH]; simpl; [done|].
  destruct (less k k'); [done|]. destruct (less k' k); set_solver.
Qed.

Lemma sm_set_sorted k v m : sm_sorted m -> sm_sorted (sm_set k v m).
Proof.
  induction m as [|[k' v'] m IH]; simpl; intros Hs.
  { apply sm_sorted_cons. split; [done|set_solver]. }
  pose proof Hs as [Hs' Hlt]%sm_sorted_cons.
  destruct (less k k') eqn:E1.
  - apply sm_sorted_cons. split; [done|]. intros q [->|Hq]%elem_of_cons; [done|].
    apply less_trans with k'; [done|]. by apply (Hlt q).
  - destruct (less k' k) eqn:E2.
    + apply sm_sorted_cons. split; [auto|]. intros q [->|Hq]%elem_of_sm_set; auto.
    + apply sm_sorted_cons. auto.
Qed.

Lemma sm_erase_sorted k m : sm_sorted m -> sm_sorted (sm_erase k m).
Proof.
  induction m as [|[k' v'] m IH]; simpl; intros Hs; [done|].
  pose proof Hs as [Hs' Hlt]%sm_sorted_cons.
  destruct (less k k'); [done|]. destruct (less k' k); [|done].
  apply sm_sorted_cons. split; [auto|]. intros q Hq%elem_of_sm_erase. auto.
Qed.

(** Lookup and iteration agree. *)
Lemma sm_find_elem k v m : sm_sorted m -> sm_find k m = Some v <-> (k, v) ∈ m.
Proof.
  induction m as [|[k' v'] m IH]; simpl; intros Hs; [set_solver|].
  apply sm_sorted_cons in Hs as [Hs Hlt]. rewrite elem_of_cons.
  destruct (less k k') eqn:E1.
  - split; [done|]. intros [[= -> ->]|H]; [by rewrite less_irrefl in E1|].
    apply Hlt in H. simpl in H. by rewrite (less_asym _ _ E1) in H.
  - destruct (less k' k) eqn:E2.
    + rewrite IH by done. split; [by right|]. intros [[= -> ->]|H]; [by rewrite less_irrefl in E2|done].
    + assert (k = k') as -> by by apply less_total.
      split; [intros [= ->]; by left|]. intros [[= ->]|H]; [done|].
      apply Hlt in H. simpl in H. by rewrite less_irrefl in H.
Qed.

Lemma sm_find_elem_1 k v m : sm_find k m = Some v -> (k, v) ∈ m.
Proof.
  induction m as [|[k' v'] m IH]; simpl; [done|].
  destruct (less k k') eqn:E1; [done|]. destruct (less k' k) eqn:E2; [set_solver|].
  intros [= ->]. assert (k = k') as -> by by apply less_total. set_solver.
Qed.

Lemma sm_erase_absent k m : sm_find k m = None -> sm_sorted m -> sm_erase k m = m.
Proof.
  induction m as [|[k' v'] m IH]; simpl; [done|]. intros H [Hs Hlt]%sm_sorted_cons.
  destruct (less k k'); [done|]. destruct (less k' k); [|done]. by rewrite IH.
Qed.

Lemma sm_sorted_nodup m : sm_sorted m -> NoDup (map fst m).
Proof.
  induction m as [|[k' v'] m IH]; simpl; [constructor|]. intros [Hs Hlt]%sm_sorted_cons.
  constructor; [|auto]. intros ([k v] & -> & Hq)%list_elem_of_fmap.
  apply Hlt in Hq. simpl in Hq. by rewrite less_irrefl in Hq.
Qed.
End laws.

#[export] Hint Resolve sm_set_sorted sm_erase_sorted : pink.
