(* ===== verification/RedisParser.v ===== *)
(** [pink/include/redis_parser.h] and [pink/src/redis_parser.cc]: the incremental
    parser of the redis protocol (RESP requests).

    [RedisParser] is the class's state; the parser is fed the bytes of a
    connection chunk by chunk with [ProcessInputBuffer], keeps an incomplete
    tail in [half_argv] and reports every complete command through the two
    callbacks of [RedisParserSettings]. *)
From S2P Require Import Pink Prelude Slash.

(** * Tokenizing an inline command *)

(** The hexadecimal digit conversion of the source, as written there. *)
Definition HexDigitToInt32 (ch : ascii) : Z :=
  if (code ch <=? 57) && (48 <=? code ch) then code ch - 48
  else if (code ch <=? 70) && (65 <=? code ch) then code ch - 65
  else if (code ch <=? 102) && (97 <=? code ch) then code ch - 97
  else 0.

(** The escapes of a double-quoted argument. *)
Definition unescape (c : ascii) : ascii :=
  if c =?c "n"%char then LF else if c =?c "r"%char then CR
  else if c =?c "t"%char then TAB else if c =?c "b"%char then BS
  else if c =?c "a"%char then BEL else c.

Definition is_blank (c : ascii) : bool :=
  (c =?c SP) || (c =?c LF) || (c =?c CR) || (c =?c TAB).

Definition DQUOTE : ascii := "034"%char.
Definition SQUOTE : ascii := "039"%char.
Definition BACKSLASH : ascii := "092"%char.

(** A closing quote must be followed by a space or by the end of the string. *)
Definition closes (p : bytes) : bool :=
  match p with [] => true | c :: _ => isspace c end.

(** The [while (!done)] loop of [split2args]: the token that starts at [p], with
    the flags [inq] and [insq] and the bytes gathered so far. [p] is the rest
    of a C string, so [[]] is the terminating zero. [None] is the -1 return. *)
Fixpoint get_token (inq insq : bool) (arg : bytes) (p : bytes) {struct p}
    : option (bytes * bytes) :=
  if inq then
    match p with
    | [] => None
    | c :: p1 =>
        if c =?c BACKSLASH then
          match p1 with
          | [] => get_token inq insq (arg ++ [c]) p1
          | x :: p2 =>
              match p2 with
              | h1 :: h2 :: p4 =>
                  if (x =?c "x"%char) && isxdigit h1 && isxdigit h2
                  then get_token inq insq
                         (arg ++ [chr (HexDigitToInt32 h1 * 16 + HexDigitToInt32 h2)]) p4
                  else get_token inq insq (arg ++ [unescape x]) p2
              | _ => get_token inq insq (arg ++ [unescape x]) p2
              end
          end
        else if c =?c DQUOTE then
          if closes p1 then Some (arg, p1) else None
        else get_token inq insq (arg ++ [c]) p1
    end
  else if insq then
    match p with
    | [] => None
    | c :: p1 =>
        if c =?c SQUOTE then
          if closes p1 then Some (arg, p1) else None
        else
          match p1 with
          | q :: p2 =>
              if (c =?c BACKSLASH) && (q =?c SQUOTE)
              then get_token inq insq (arg ++ [SQUOTE]) p2
              else get_token inq insq (arg ++ [c]) p1
          | [] => get_token inq insq (arg ++ [c]) p1
          end
    end
  else
    match p with
    | [] => Some (arg, [])
    | c :: p1 =>
        if is_blank c then Some (arg, p1)
        else if c =?c DQUOTE then get_token true insq arg p1
        else if c =?c SQUOTE then get_token inq true arg p1
        else get_token inq insq (arg ++ [c]) p1
    end.

Fixpoint skip_blanks (p : bytes) : bytes :=
  match p with
  | c :: p1 => if isspace c then skip_blanks p1 else p
  | [] => []
  end.

(** [while (1)] of [split2args]. [Some argv] is the 0 return, [None] is -1. *)
Fixpoint split2args_loop (fuel : nat) (p : bytes) (argv : list bytes)
    : outcome (option (list bytes)) :=
  match fuel with
  | O => Fault Diverges
  | S f =>
      match skip_blanks p with
      | [] => Ret (Some argv)
      | q => match get_token false false [] q with
             | None => Ret None
             | Some (arg, rest) => split2args_loop f rest (argv ++ [arg])
             end
      end
  end.

(** [req_buf] is a C string: it ends at its first zero byte. *)
Definition split2args (req_buf : bytes) (argv : list bytes) : outcome (option (list bytes)) :=
  let p := cstr req_buf in split2args_loop (S (length p)) p argv.

(** * The parser's state *)

Inductive RedisParserStatus : Type :=
  | kRedisParserNone | kRedisParserInitDone | kRedisParserHalf
  | kRedisParserDone | kRedisParserError.

Inductive RedisParserError : Type :=
  | kRedisParserOk | kRedisParserInitError | kRedisParserFullError
  | kRedisParserProtoError | kRedisParserDealError | kRedisParserCompleteError.

#[export] Instance RedisParserStatus_eq_dec : EqDecision RedisParserStatus.
Proof. solve_decision. Defined.
#[export] Instance RedisParserError_eq_dec : EqDecision RedisParserError.
Proof. solve_decision. Defined.

Definition REDIS_PARSER_REQUEST : Z := 1.
Definition REDIS_PARSER_RESPONSE : Z := 2.

(** A command: the arguments of a [RedisCmdArgsType]. *)
Abbreviation RedisCmdArgsType := (list bytes).

Section parser.
Context `{SL : Slash}.
(** The object behind the parser's [data] pointer: the callbacks change it. *)
Context {U : Type}.

(** The callbacks return the C++ result code and the new object. A null
    pointer is [None]. *)
Record RedisParserSettings : Type := {
  DealMessage : option (RedisCmdArgsType -> U -> Z * U);
  Complete : option (list RedisCmdArgsType -> U -> Z * U)
}.

(** [input_buf] is the contents of [input_str_] while [input_buf_] points to
    it, and [[]] when [input_buf_] is null. *)
Record RedisParser : Type := mkParser {
  parser_settings : RedisParserSettings;
  status_code : RedisParserStatus;
  error_code : RedisParserError;
  redis_type : Z;
  redis_parser_type : Z;
  multibulk_len : Z;
  bulk_len : Z;
  half_argv : bytes;
  argv : RedisCmdArgsType;
  argvs : list RedisCmdArgsType;
  cur_pos : Z;
  length_ : Z;
  input_buf : bytes
}.

Definition set_parser_settings (v : RedisParserSettings) (p : RedisParser) : RedisParser :=
  {| parser_settings := v; status_code := status_code p; error_code := error_code p;
     redis_type := redis_type p; redis_parser_type := redis_parser_type p; multibulk_len :=
     multibulk_len p; bulk_len := bulk_len p; half_argv := half_argv p; argv := argv p;
     argvs := argvs p; cur_pos := cur_pos p; length_ := length_ p; input_buf := input_buf p
     |}.
Definition set_status_code (v : RedisParserStatus) (p : RedisParser) : RedisParser :=
  {| parser_settings := parser_settings p; status_code := v; error_code := error_code p;
     redis_type := redis_type p; redis_parser_type := redis_parser_type p; multibulk_len :=
     multibulk_len p; bulk_len := bulk_len p; half_argv := half_argv p; argv := argv p;
     argvs := argvs p; cur_pos := cur_pos p; length_ := length_ p; input_buf := input_buf p
     |}.
Definition set_error_code (v : RedisParserError) (p : RedisParser) : RedisParser :=
  {| parser_settings := parser_settings p; status_code := status_code p; error_code := v;
     redis_type := redis_type p; redis_parser_type := redis_parser_type p; multibulk_len :=
     multibulk_len p; bulk_len := bulk_len p; half_argv := half_argv p; argv := argv p;
     argvs := argvs p; cur_pos := cur_pos p; length_ := length_ p; input_buf := input_buf p
     |}.
Definition set_redis_type (v : Z) (p : RedisParser) : RedisParser :=
  {| parser_settings := parser_settings p; status_code := status_code p; error_code :=
     error_code p; redis_type := v; redis_parser_type := redis_parser_type p; multibulk_len
     := multibulk_len p; bulk_len := bulk_len p; half_argv := half_argv p; argv := argv p;
     argvs := argvs p; cur_pos := cur_pos p; length_ := length_ p; input_buf := input_buf p
     |}.
Definition set_redis_parser_type (v : Z) (p : RedisParser) : RedisParser :=
  {| parser_settings := parser_settings p; status_code := status_code p; error_code :=
     error_code p; redis_type := redis_type p; redis_parser_type := v; multibulk_len :=
     multibulk_len p; bulk_len := bulk_len p; half_argv := half_argv p; argv := argv p;
     argvs := argvs p; cur_pos := cur_pos p; length_ := length_ p; input_buf := input_buf p
     |}.
Definition set_multibulk_len (v : Z) (p : RedisParser) : RedisParser :=
  {| parser_settings := parser_settings p; status_code := status_code p; error_code :=
     error_code p; redis_type := redis_type p; redis_parser_type := redis_parser_type p;
     multibulk_len := v; bulk_len := bulk_len p; half_argv := half_argv p; argv := argv p;
     argvs := argvs p; cur_pos := cur_pos p; length_ := length_ p; input_buf := input_buf p
     |}.
Definition set_bulk_len (v : Z) (p : RedisParser) : RedisParser :=
  {| parser_settings := parser_settings p; status_code := status_code p; error_code :=
     error_code p; redis_type := redis_type p; redis_parser_type := redis_parser_type p;
     multibulk_len := multibulk_len p; bulk_len := v; half_argv := half_argv p; argv := argv
     p; argvs := argvs p; cur_pos := cur_pos p; length_ := length_ p; input_buf := input_buf
     p |}.
Definition set_half_argv (v : bytes) (p : RedisParser) : RedisParser :=
  {| parser_settings := parser_settings p; status_code := status_code p; error_code :=
     error_code p; redis_type := redis_type p; redis_parser_type := redis_parser_type p;
     multibulk_len := multibulk_len p; bulk_len := bulk_len p; half_argv := v; argv := argv
     p; argvs := argvs p; cur_pos := cur_pos p; length_ := length_ p; input_buf := input_buf
     p |}.
Definition set_argv (v : RedisCmdArgsType) (p : RedisParser) : RedisParser :=
  {| parser_settings := parser_settings p; status_code := status_code p; error_code :=
     error_code p; redis_type := redis_type p; redis_parser_type := redis_parser_type p;
     multibulk_len := multibulk_len p; bulk_len := bulk_len p; half_argv := half_argv p;
     argv := v; argvs := argvs p; cur_pos := cur_pos p; length_ := length_ p; input_buf :=
     input_buf p |}.
Definition set_argvs (v : list RedisCmdArgsType) (p : RedisParser) : RedisParser :=
  {| parser_settings := parser_settings p; status_code := status_code p; error_code :=
     error_code p; redis_type := redis_type p; redis_parser_type := redis_parser_type p;
     multibulk_len := multibulk_len p; bulk_len := bulk_len p; half_argv := half_argv p;
     argv := argv p; argvs := v; cur_pos := cur_pos p; length_ := length_ p; input_buf :=
     input_buf p |}.
Definition set_cur_pos (v : Z) (p : RedisParser) : RedisParser :=
  {| parser_settings := parser_settings p; status_code := status_code p; error_code :=
     error_code p; redis_type := redis_type p; redis_parser_type := redis_parser_type p;
     multibulk_len := multibulk_len p; bulk_len := bulk_len p; half_argv := half_argv p;
     argv := argv p; argvs := argvs p; cur_pos := v; length_ := length_ p; input_buf :=
     input_buf p |}.
Definition set_length_ (v : Z) (p : RedisParser) : RedisParser :=
  {| parser_settings := parser_settings p; status_code := status_code p; error_code :=
     error_code p; redis_type := redis_type p; redis_parser_type := redis_parser_type p;
     multibulk_len := multibulk_len p; bulk_len := bulk_len p; half_argv := half_argv p;
     argv := argv p; argvs := argvs p; cur_pos := cur_pos p; length_ := v; input_buf :=
     input_buf p |}.
Definition set_input_buf (v : bytes) (p : RedisParser) : RedisParser :=
  {| parser_settings := parser_settings p; status_code := status_code p; error_code :=
     error_code p; redis_type := redis_type p; redis_parser_type := redis_parser_type p;
     multibulk_len := multibulk_len p; bulk_len := bulk_len p; half_argv := half_argv p;
     argv := argv p; argvs := argvs p; cur_pos := cur_pos p; length_ := length_ p; input_buf
     := v |}.

(** The default member initializers. *)
Definition new_parser : RedisParser :=
  {| parser_settings := {| DealMessage := None; Complete := None |};
     status_code := kRedisParserNone; error_code := kRedisParserOk;
     redis_type := 0; redis_parser_type := REDIS_PARSER_REQUEST;
     multibulk_len := 0; bulk_len := -1; half_argv := []; argv := []; argvs := [];
     cur_pos := 0; length_ := 0; input_buf := [] |}.

(** * Operations *)

Definition get_bulk_len (p : RedisParser) : Z := bulk_len p.
Definition get_error_code (p : RedisParser) : RedisParserError := error_code p.

(** The bytes from [input_buf_ + cur_pos_] to the end of the buffer. *)
Definition unread (p : RedisParser) : bytes := zdrop (cur_pos p) (input_buf p).

Definition CacheHalfArgv (p : RedisParser) : RedisParser :=
  set_cur_pos (length_ p)
    (set_half_argv (ztake (length_ p - cur_pos p) (unread p)) p).

Definition SetParserStatus (s : RedisParserStatus) (e : RedisParserError)
    (p : RedisParser) : RedisParser :=
  let p := match s with kRedisParserHalf => CacheHalfArgv p | _ => p end in
  set_error_code e (set_status_code s p).

(** [memchr] from the cursor; -1 when there is no line feed. The assertion is not
    compiled ([-DNDEBUG] by default): from a cursor behind the end, with a negative
    length made into a [size_t], the search would leave the buffer. *)
Definition FindNextSeparators (p : RedisParser) : outcome Z :=
  if cur_pos p <=? length_ p then
    match index_of LF (ztake (length_ p - cur_pos p) (unread p)) with
    | Some n => Ret (cur_pos p + Z.of_nat n)
    | None => Ret (-1)
    end
  else Fault OutOfBounds.

(** [string2l] on the bytes after the type byte. The length, computed in
    [int], is converted to [size_t]; the zero byte ends the buffer. The assertion is
    not compiled: for a line that is only a line feed the length is a huge [size_t],
    and the answer is whatever [string2l] gives for it. *)
Definition GetNextNum (pos : Z) (p : RedisParser) : option Z :=
  string2l (zdrop (cur_pos p + 1) (input_buf p) ++ [NUL]) (to_u64 (pos - cur_pos p - 2)).

Definition RedisParserInit (type : Z) (settings : RedisParserSettings)
    (p : RedisParser) : RedisParserStatus * RedisParser :=
  let p' :=
    if negb (bool_decide (status_code p = kRedisParserNone))
    then SetParserStatus kRedisParserError kRedisParserInitError p
    else if negb (type =? REDIS_PARSER_REQUEST) && negb (type =? REDIS_PARSER_RESPONSE)
    then SetParserStatus kRedisParserError kRedisParserInitError p
    else SetParserStatus kRedisParserInitDone kRedisParserOk
           (set_parser_settings settings (set_redis_parser_type type p)) in
  (status_code p', p').

(** Every [return] of the two command parsers returns [status_code_]. *)
Definition ProcessInlineBuffer (p : RedisParser) : outcome RedisParser :=
  let! pos := FindNextSeparators p in
  if pos =? -1 then
    Ret (if REDIS_INLINE_MAXLEN <? length_ p
         then SetParserStatus kRedisParserError kRedisParserFullError p
         else SetParserStatus kRedisParserHalf kRedisParserOk p)
  else
    let! ret := split2args (unread p) [] in
    let p := set_argv (default [] ret) p in
    let p := set_cur_pos (pos + 1) p in
    Ret (match ret with
         | None => SetParserStatus kRedisParserError kRedisParserProtoError p
         | Some _ => SetParserStatus kRedisParserDone kRedisParserOk p
         end).

(** A block that may [return] from the function around it. *)
Inductive flow : Type := Returns (p : RedisParser) | Continues (p : RedisParser).

(** [if (multibulk_len_ == 0) { ... }]: the [*N] header. *)
Definition multibulk_header (p : RedisParser) : outcome flow :=
  if multibulk_len p =? 0 then
    let! pos := FindNextSeparators p in
    if pos =? -1 then Ret (Returns (SetParserStatus kRedisParserHalf kRedisParserOk p))
    else
      match GetNextNum pos p with
      | None => Ret (Returns (SetParserStatus kRedisParserError kRedisParserProtoError p))
      | Some n =>
          let p := set_argv [] (set_cur_pos (pos + 1) (set_multibulk_len n p)) in
          Ret (if length_ p - 1 <? cur_pos p
               then Returns (SetParserStatus kRedisParserHalf kRedisParserOk p)
               else Continues p)
      end
  else Ret (Continues p).

(** [if (bulk_len_ == -1) { ... }]: the [$N] header. *)
Definition bulk_header (p : RedisParser) : outcome flow :=
  if bulk_len p =? -1 then
    let! pos := FindNextSeparators p in
    if pos =? -1 then Ret (Returns (SetParserStatus kRedisParserHalf kRedisParserOk p))
    else if negb (nth 0 (unread p) NUL =?c "$"%char)
    then Ret (Returns (SetParserStatus kRedisParserError kRedisParserProtoError p))
    else
      match GetNextNum pos p with
      | None => Ret (Returns (SetParserStatus kRedisParserError kRedisParserProtoError p))
      | Some n =>
          let p := set_cur_pos (pos + 1) (set_bulk_len n p) in
          Ret (if length_ p - 1 <? cur_pos p
               then Returns (SetParserStatus kRedisParserHalf kRedisParserOk p)
               else Continues p)
      end
  else Ret (Continues p).

(** [std::string(s, n)] with [n] converted to [size_t]. *)
Definition mk_string (s : bytes) (n : Z) : outcome bytes :=
  if n <? 0 then Fault LengthError
  else if zlen s <? n then Fault OutOfBounds
  else Ret (ztake n s).

(** The [else] branch of the loop body: one bulk argument is complete. *)
Definition take_bulk (p : RedisParser) : outcome RedisParser :=
  let! arg := mk_string (unread p) (bulk_len p) in
  if multibulk_len p =? LONG_MIN then Fault Overflow
  else Ret (set_multibulk_len (multibulk_len p - 1)
             (set_bulk_len (-1)
               (set_cur_pos (to_i32 (cur_pos p + bulk_len p + 2))
                 (set_argv (argv p ++ [arg]) p)))).

(** [while (multibulk_len_) { ... }]. *)
Fixpoint multibulk_loop (fuel : nat) (p : RedisParser) : outcome flow :=
  match fuel with
  | O => Fault Diverges
  | S f =>
      if multibulk_len p =? 0 then Ret (Continues p)
      else
        let! h := bulk_header p in
        match h with
        | Returns p => Ret (Returns p)
        | Continues p =>
            if LONG_MAX - 2 <? bulk_len p then Fault Overflow
            else if (length_ p - 1) - cur_pos p + 1 <? bulk_len p + 2
            then Ret (Continues p)
            else let! p := take_bulk p in multibulk_loop f p
        end
  end.

(** Every full iteration moves the cursor, so the bytes in hand bound them. *)
Definition multibulk_fuel (p : RedisParser) : nat :=
  S (Z.to_nat (length_ p - cur_pos p)).

Definition ProcessMultibulkBuffer (p : RedisParser) : outcome RedisParser :=
  let! h := multibulk_header p in
  match h with
  | Returns p => Ret p
  | Continues p =>
      let! l := multibulk_loop (multibulk_fuel p) p in
      match l with
      | Returns p => Ret p
      | Continues p =>
          Ret (if multibulk_len p =? 0
               then SetParserStatus kRedisParserDone kRedisParserOk p
               else SetParserStatus kRedisParserHalf kRedisParserOk p)
      end
  end.

Definition ResetCommandStatus (p : RedisParser) : RedisParser :=
  set_half_argv [] (set_bulk_len (-1) (set_multibulk_len 0 (set_redis_type 0 p))).

Definition ResetRedisParser (p : RedisParser) : RedisParser :=
  set_length_ 0 (set_input_buf [] (set_cur_pos 0 p)).

(** [if (!redis_type_) { ... }]: the type, from the command's first byte. *)
Definition choose_type (p : RedisParser) : RedisParser :=
  if redis_type p =? 0 then
    set_redis_type (if nth 0 (unread p) NUL =?c "*"%char
                    then REDIS_REQ_MULTIBULK else REDIS_REQ_INLINE) p
  else p.

(** One command, by type: the value [ret] and the new state. *)
Definition parse_command (p : RedisParser) : outcome (RedisParserStatus * RedisParser) :=
  let p := choose_type p in
  if redis_type p =? REDIS_REQ_INLINE then
    let! p := ProcessInlineBuffer p in Ret (status_code p, p)
  else if redis_type p =? REDIS_REQ_MULTIBULK then
    let! p := ProcessMultibulkBuffer p in Ret (status_code p, p)
  else Ret (kRedisParserError, p).

(** [if (!argv_.empty()) { ... }]: hand the command over; [false] when the
    callback refused it. *)
Definition deliver (p : RedisParser) (u : U) : bool * RedisParser * U :=
  match argv p with
  | [] => (true, p, u)
  | cmd =>
      let p := set_argv [] (set_argvs (argvs p ++ [cmd]) p) in
      match DealMessage (parser_settings p) with
      | None => (true, p, u)
      | Some f =>
          let '(r, u) := f cmd u in
          if r =? 0 then (true, p, u)
          else (false, SetParserStatus kRedisParserError kRedisParserDealError p, u)
      end
  end.

(** Lower-case the command name. *)
Definition lower_name (cmd : RedisCmdArgsType) : RedisCmdArgsType :=
  match cmd with [] => [] | name :: args => map tolower name :: args end.

(** What follows the loop of [ProcessRequestBuffer]. *)
Definition finish_request (p : RedisParser) (u : U) : RedisParser * U :=
  match Complete (parser_settings p) with
  | None => (SetParserStatus kRedisParserDone kRedisParserOk (set_argvs [] p), u)
  | Some f =>
      let p := set_argvs (map lower_name (argvs p)) p in
      let '(r, u) := f (argvs p) u in
      if r =? 0 then (SetParserStatus kRedisParserDone kRedisParserOk (set_argvs [] p), u)
      else (SetParserStatus kRedisParserError kRedisParserCompleteError p, u)
  end.

Fixpoint ProcessRequestBuffer (fuel : nat) (p : RedisParser) (u : U)
    : outcome (RedisParser * U) :=
  match fuel with
  | O => Fault Diverges
  | S f =>
      if cur_pos p <=? length_ p - 1 then
        let! (ret, p) := parse_command p in
        if negb (bool_decide (ret = kRedisParserDone)) then Ret (p, u)
        else
          let '(ok, p, u) := deliver p u in
          if ok then ProcessRequestBuffer f (ResetCommandStatus p) u
          else Ret (p, u)
      else Ret (finish_request p u)
  end.

Definition ProcessResponseBuffer (p : RedisParser) : RedisParser :=
  SetParserStatus kRedisParserDone kRedisParserOk p.

(** [ProcessInputBuffer(input_buf, length)] with the [length] bytes [input].
    The size is narrowed to the [int] [length_]. *)
Definition ProcessInputBuffer (input : bytes) (p : RedisParser) (u : U)
    : outcome (RedisParserStatus * RedisParser * U) :=
  if bool_decide (status_code p = kRedisParserInitDone) ||
     bool_decide (status_code p = kRedisParserHalf) ||
     bool_decide (status_code p = kRedisParserDone)
  then
    let full := half_argv p ++ input in
    let p := set_length_ (to_i32 (zlen full)) (set_input_buf full p) in
    if redis_parser_type p =? REDIS_PARSER_REQUEST then
      let! (p, u) := ProcessRequestBuffer (S (length full)) p u in
      let p := ResetRedisParser p in
      Ret (status_code p, p, u)
    else if redis_parser_type p =? REDIS_PARSER_RESPONSE then
      let p := ResetRedisParser (ProcessResponseBuffer p) in
      Ret (status_code p, p, u)
    else
      let p := SetParserStatus kRedisParserError kRedisParserInitError p in
      Ret (status_code p, p, u)
  else
    let p := SetParserStatus kRedisParserError kRedisParserInitError p in
    Ret (status_code p, p, u).
End parser.

Arguments RedisParserSettings U : clear implicits.
Arguments RedisParser U : clear implicits.
Arguments flow U : clear implicits.

#[global] Arguments multibulk_loop {SL U} fuel p : simpl never.
#[global] Arguments multibulk_fuel {U} p : simpl never.
#[global] Arguments unread {U} p : simpl never.
#[global] Arguments ProcessRequestBuffer {SL U} fuel p u : simpl never.
