(* ===== verification/RedisInline.v ===== *)
(** Facts about [split2args], the tokenizer of inline redis commands: it always
    ends, it splits plain words at blanks, it reads back quoted arguments, and
    what it does with a hexadecimal escape. *)
From S2P Require Import Pink Prelude Slash RedisParser.

(** * The loops end *)

Lemma get_token_shorter inq insq arg p a rest :
  get_token inq insq arg p = Some (a, rest) ->
  (length rest <= length p)%nat /\
  (forall c q, p = c :: q -> (length rest < length p)%nat).
Proof.
  enough (forall n inq insq arg p a rest, (length p <= n)%nat ->
    get_token inq insq arg p = Some (a, rest) ->
    (length rest <= length p)%nat /\ (p <> [] -> (length rest < length p)%nat)) as H.
  { intros Hg. apply (H (length p)) in Hg as [H1 H2]; [|done].
    split; [done|]. intros c q ->. by apply H2. }
  clear. induction n as [|n IH]; intros inq insq arg p a rest Hn.
  { destruct p; [|simpl in Hn; lia]. simpl. repeat case_match; intros; by simplify_eq. }
  destruct p as [|c p]; [simpl; repeat case_match; intros; by simplify_eq|].
  simpl in Hn. cbn [get_token].
  repeat case_match; intros Hg; simplify_eq;
    try (apply IH in Hg as [Hg _]; [|simpl in *; lia]); simpl in *; split; intros; lia.
Qed.

Lemma skip_blanks_length p : (length (skip_blanks p) <= length p)%nat.
Proof. induction p as [|c p IH]; simpl; [lia|]. destruct (isspace c); simpl; lia. Qed.

Lemma split2args_loop_S f p argv :
  split2args_loop (S f) p argv =
    match skip_blanks p with
    | [] => Ret (Some argv)
    | q => match get_token false false [] q with
           | None => Ret None
           | Some (arg, rest) => split2args_loop f rest (argv ++ [arg])
           end
    end.
Proof. done. Qed.

Lemma split2args_loop_ends fuel p argv :
  (length p < fuel)%nat -> exists r, split2args_loop fuel p argv = Ret r.
Proof.
  revert p argv. induction fuel as [|f IH]; intros p argv Hf; [lia|].
  rewrite split2args_loop_S.
  pose proof (skip_blanks_length p) as Hs.
  destruct (skip_blanks p) as [|c q]; [by eexists|].
  destruct (get_token false false [] (c :: q)) as [[a rest]|] eqn:E; [|by eexists].
  apply get_token_shorter in E as [_ E]. specialize (E c q eq_refl).
  apply IH. simpl in *. lia.
Qed.

Lemma split2args_ends p argv : exists r, split2args p argv = Ret r.
Proof. apply split2args_loop_ends. lia. Qed.

(** More fuel changes nothing. *)
Lemma split2args_loop_fuel f1 f2 p argv r :
  split2args_loop f1 p argv = Ret r -> (f1 <= f2)%nat -> split2args_loop f2 p argv = Ret r.
Proof.
  revert f2 p argv. induction f1 as [|f1 IH]; intros [|f2] p argv; try (simpl; done || lia).
  rewrite !split2args_loop_S. intros H Hf. repeat case_match; simplify_eq; try done. apply IH; [done|lia].
Qed.

(** * Plain words *)

(** A byte that the unquoted state of the tokenizer copies. *)
Definition plain (c : ascii) : Prop :=
  isspace c = false /\ c <> DQUOTE /\ c <> SQUOTE.

Lemma is_blank_isspace c : isspace c = false -> is_blank c = false.
Proof.
  unfold is_blank. intros H.
  rewrite !orb_false_iff. repeat split; apply ceq_neq; intros ->; done.
Qed.

Lemma get_token_plain arg w p :
  Forall plain w -> get_token false false arg (w ++ p) = get_token false false (arg ++ w) p.
Proof.
  revert arg. induction w as [|c w IH]; intros arg Hw; [by rewrite app_nil_r|].
  apply Forall_cons in Hw as [(Hs & Hd & Hq) Hw]. simpl.
  rewrite is_blank_isspace, !ceq_neq, IH by done. by rewrite <- app_assoc.
Qed.

Lemma skip_blanks_plain c p : isspace c = false -> skip_blanks (c :: p) = c :: p.
Proof. simpl. by intros ->. Qed.

(** A separator: what may stand between two arguments. *)
Definition blank (c : ascii) : Prop := is_blank c = true.

Lemma is_blank_true c : blank c -> c = SP \/ c = LF \/ c = CR \/ c = TAB.
Proof. unfold blank, is_blank. intros H. rewrite !orb_true_iff in H. naive_solver (b2p; auto). Qed.

Lemma blank_isspace c : blank c -> isspace c = true.
Proof. intros H. by destruct (is_blank_true c H) as [-> | [-> | [-> | ->]]]. Qed.

Lemma skip_blanks_app b p : Forall blank b -> skip_blanks (b ++ p) = skip_blanks p.
Proof.
  induction b as [|c b IH]; intros Hb; [done|]. apply Forall_cons in Hb as [Hc Hb].
  simpl. rewrite blank_isspace by done. auto.
Qed.

(** One token that the text [q] stands for, followed by a separator or the end. *)
Lemma split2args_loop_token f (q : bytes) (a c : bytes) argv :
  (exists x q', q = x :: q' /\ isspace x = false) ->
  get_token false false [] (q ++ c) = Some (a, drop 1 c) ->
  split2args_loop (S f) (q ++ c) argv = split2args_loop f (drop 1 c) (argv ++ [a]).
Proof.
  intros (x & q' & -> & Hx) Hg. rewrite split2args_loop_S. cbn [app] in *.
  rewrite skip_blanks_plain by done. by rewrite Hg.
Qed.

Lemma get_token_word w c :
  Forall plain w -> (c = [] \/ exists b c', c = b :: c' /\ blank b) ->
  get_token false false [] (w ++ c) = Some (w, drop 1 c).
Proof.
  intros Hw [-> | (b & c' & -> & Hb)]; rewrite get_token_plain by done; simpl; [done|].
  unfold blank in Hb. by rewrite Hb.
Qed.

(** * Quoted arguments *)

(** An argument in double quotes with its quotes and backslashes escaped. *)
Definition escape (c : ascii) : bytes :=
  if (c =?c DQUOTE) || (c =?c BACKSLASH) then [BACKSLASH; c] else [c].
Definition quote (a : bytes) : bytes := DQUOTE :: concat (map escape a) ++ [DQUOTE].

Lemma get_token_escape arg c p :
  get_token true false arg (escape c ++ p) = get_token true false (arg ++ [c]) p.
Proof.
  unfold escape. destruct (c =?c DQUOTE) eqn:E1; [|destruct (c =?c BACKSLASH) eqn:E2]; b2p; subst.
  - by destruct p as [|h1 [|h2 p]].
  - by destruct p as [|h1 [|h2 p]].
  - simpl. by rewrite !ceq_neq by done.
Qed.

Lemma get_token_quoted arg a p :
  closes p = true ->
  get_token true false arg (concat (map escape a) ++ DQUOTE :: p) = Some (arg ++ a, p).
Proof.
  intros Hp. revert arg. induction a as [|c a IH]; intros arg; cbn [map concat].
  - simpl. by rewrite Hp, app_nil_r.
  - rewrite <- app_assoc, get_token_escape, IH. by rewrite <- app_assoc.
Qed.

Lemma get_token_quote a p :
  closes p = true -> get_token false false [] (quote a ++ p) = Some (a, p).
Proof.
  intros Hp. unfold quote.
  change (get_token true false [] ((concat (map escape a) ++ [DQUOTE]) ++ p) = Some (a, p)).
  rewrite <- app_assoc. by apply get_token_quoted.
Qed.

(** * Whole lines *)

(** The texts an argument may be written as: in a C string, no zero byte. *)
Inductive spells : bytes -> bytes -> Prop :=
  | SpellsWord w : w <> [] -> Forall plain w -> (NUL ∉ w) -> spells w w
  | SpellsQuoted a : (NUL ∉ a) -> spells (quote a) a.

Lemma spells_starts q a : spells q a -> exists x q', q = x :: q' /\ isspace x = false.
Proof.
  intros [w Hne Hw _|b _]; [|by eexists _, _].
  destruct w as [|x w]; [done|]. apply Forall_cons in Hw as [(Hx & _) _]. eauto.
Qed.

Lemma split2args_loop_blanks f b p argv :
  Forall blank b -> split2args_loop f (b ++ p) argv = split2args_loop f p argv.
Proof. intros Hb. destruct f; [done|]. by rewrite !split2args_loop_S, skip_blanks_app. Qed.

Lemma split2args_loop_spells f q a s p argv :
  spells q a -> s <> [] -> Forall blank s ->
  split2args_loop (S f) (q ++ s ++ p) argv = split2args_loop f p (argv ++ [a]).
Proof.
  intros Hq Hs Hb. destruct s as [|c s]; [done|].
  pose proof Hb as [Hc Hbs]%Forall_cons.
  rewrite split2args_loop_S. destruct (spells_starts q a Hq) as (x & q' & Eq & Hx).
  rewrite Eq. cbn [app]. rewrite skip_blanks_plain, app_comm_cons, <- Eq by done.
  destruct Hq as [w Hne Hw _|b _].
  - rewrite get_token_word by eauto. cbn [drop]. by apply split2args_loop_blanks.
  - rewrite get_token_quote by (cbn [closes]; by apply blank_isspace).
    rewrite app_comm_cons. by apply split2args_loop_blanks.
Qed.

(** Arguments, each with the text it is written as and the blanks after it. *)
Definition item : Type := bytes * bytes * bytes.
Definition item_ok (t : item) : Prop :=
  let '(q, a, s) := t in spells q a /\ s <> [] /\ Forall blank s.
Definition items_text (ts : list item) : bytes := concat (map (fun '(q, _, s) => q ++ s) ts).
Definition items_args (ts : list item) : list bytes := map (fun '(_, a, _) => a) ts.

Lemma split2args_loop_items f ts argv :
  Forall item_ok ts -> (length ts < f)%nat ->
  split2args_loop f (items_text ts) argv = Ret (Some (argv ++ items_args ts)).
Proof.
  revert f argv. induction ts as [|[[q a] s] ts IH]; intros [|f] argv Hts Hf; try (simpl in Hf; lia).
  - cbn. by rewrite app_nil_r.
  - apply Forall_cons in Hts as [(Hq & Hs & Hb) Hts]. unfold items_text. cbn [map concat].
    rewrite <- app_assoc, split2args_loop_spells with (a := a) by done.
    rewrite IH by (try done; simpl in Hf; lia). unfold items_args. cbn [map]. by rewrite <- app_assoc.
Qed.

Lemma length_items_text ts : Forall item_ok ts -> (length ts <= length (items_text ts))%nat.
Proof.
  induction 1 as [|[[q a] s] ts (Hq & Hs & _) _ IH]; [done|].
  unfold items_text in *. cbn [map concat length]. rewrite !length_app.
  destruct s; [done|]. simpl. lia.
Qed.

(** No text of an argument has a zero byte. *)
Lemma blank_nul s : Forall blank s -> NUL ∉ s.
Proof. intros Hs Hn. rewrite Forall_forall in Hs. by apply Hs in Hn. Qed.

Lemma escape_nul a : NUL ∉ a -> NUL ∉ concat (map escape a).
Proof.
  induction a as [|c a IH]; intros Hn; [done|]. rewrite not_elem_of_cons in Hn. destruct Hn as [Hc Hn].
  cbn [map concat]. rewrite elem_of_app. intros [H|H]; [|by apply IH]. revert H. unfold escape.
  destruct (_ || _); rewrite ?elem_of_cons, ?elem_of_nil; intros [?|?]; try done; naive_solver.
Qed.

Lemma spells_nul q a : spells q a -> NUL ∉ q.
Proof.
  intros [w _ _ Hn|b Hn]; [done|]. unfold quote. rewrite elem_of_cons, elem_of_app, list_elem_of_singleton.
  pose proof (escape_nul b Hn). by intros [?|[?|?]].
Qed.

Lemma items_text_nul ts : Forall item_ok ts -> NUL ∉ items_text ts.
Proof.
  induction 1 as [|[[q a] s] ts (Hq & _ & Hb) _ IH]; [by apply not_elem_of_nil|].
  unfold items_text in *. cbn [map concat]. pose proof (spells_nul q a Hq). pose proof (blank_nul s Hb).
  rewrite !elem_of_app. tauto.
Qed.

(** What stands behind the zero byte does not count. *)
Lemma split2args_items lead ts tail argv :
  Forall blank lead -> Forall item_ok ts -> cstr tail = [] ->
  split2args (lead ++ items_text ts ++ tail) argv = Ret (Some (argv ++ items_args ts)).
Proof.
  intros Hl Hts Ht. unfold split2args. rewrite cstr_app, cstr_app, Ht, app_nil_r by (by apply items_text_nul || by apply blank_nul).
  rewrite split2args_loop_blanks by done.
  apply split2args_loop_items; [done|]. pose proof (length_items_text ts Hts).
  rewrite length_app. lia.
Qed.

(** A quoted argument that a zero byte cuts off. *)
Lemma get_token_unclosed arg a : get_token true false arg (concat (map escape a)) = None.
Proof.
  revert arg. induction a as [|c a IH]; intros arg; [done|]. cbn [map concat]. by rewrite get_token_escape, IH.
Qed.

Lemma split2args_unclosed a rest argv :
  (NUL ∉ a) -> split2args (DQUOTE :: concat (map escape a) ++ NUL :: rest) argv = Ret None.
Proof.
  intros Hn. unfold split2args. rewrite app_comm_cons, cstr_no_nul.
  2:{ rewrite not_elem_of_cons. split; [done|]. by apply escape_nul. }
  rewrite split2args_loop_S, skip_blanks_plain by done.
  change (get_token false false [] (DQUOTE :: concat (map escape a))) with (get_token true false [] (concat (map escape a))).
  by rewrite get_token_unclosed.
Qed.

(** * Hexadecimal escapes *)

(** The value of a hexadecimal digit. *)
Definition hex_value (c : ascii) : Z :=
  if isdigit c then code c - 48
  else if (65 <=? code c) && (code c <=? 70) then code c - 55 else code c - 87.

Lemma HexDigitToInt32_spec c :
  isxdigit c = true -> HexDigitToInt32 c = hex_value c - (if isdigit c then 0 else 10).
Proof.
  unfold HexDigitToInt32, hex_value, isxdigit, isdigit. intros H.
  rewrite !orb_true_iff, !andb_true_iff, !Z.leb_le in H.
  repeat (case_match; b2p); lia.
Qed.
