(* ===== verification/RedisParserFacts.v ===== *)
(** The parser on arbitrary input: every operation stays inside the buffer,
    every loop ends, and the state between two calls is well formed. *)
From S2P Require Import Pink Prelude Slash RedisParser RedisInline.

(** The faults the source allows: an assertion on the input, the exception of
    [std::string] on a negative bulk length, and an overflowing length. An
    access outside the buffer and a loop without end are not among them. *)
Definition input_fault (f : fault) : Prop :=
  f = LengthError \/ f = Overflow.

Section facts.
Context {SL : Slash} {SLL : SlashLaws SL} {U : Type}.
Implicit Types p : RedisParser U.

(** * The buffer *)

(** The cursor is inside the buffer, whose size an [int] can hold. *)
Record buffered p : Prop := {
  buf_len : length_ p = zlen (input_buf p);
  buf_cur : 0 <= cur_pos p <= length_ p;
  buf_max : length_ p <= INT_MAX
}.

(** What a step on one command keeps: everything but the command's own state. *)
Record advances p p' : Prop := {
  adv_buf : input_buf p' = input_buf p;
  adv_len : length_ p' = length_ p;
  adv_cur : cur_pos p <= cur_pos p' <= length_ p;
  adv_settings : parser_settings p' = parser_settings p;
  adv_kind : redis_parser_type p' = redis_parser_type p;
  adv_argvs : argvs p' = argvs p;
  adv_type : redis_type p' = redis_type p
}.

Lemma advances_refl p : cur_pos p <= length_ p -> advances p p.
Proof. by constructor. Qed.

Lemma advances_self p : buffered p -> advances p p.
Proof. intros []. apply advances_refl. lia. Qed.

Lemma advances_trans p1 p2 p3 : advances p1 p2 -> advances p2 p3 -> advances p1 p3.
Proof. intros [] []. constructor; first [congruence | lia]. Qed.

Lemma advances_buffered p p' : buffered p -> advances p p' -> buffered p'.
Proof. intros [] []. constructor; first [congruence | lia]. Qed.

Lemma zlen_unread p : buffered p -> zlen (unread p) = length_ p - cur_pos p.
Proof. intros []. unfold unread. rewrite zlen_zdrop; lia. Qed.

Lemma unread_window p :
  buffered p -> ztake (length_ p - cur_pos p) (unread p) = unread p.
Proof. intros Hb. apply ztake_all. rewrite zlen_unread by done. lia. Qed.

Lemma FindNextSeparators_spec p :
  buffered p ->
  (FindNextSeparators p = Ret (-1) /\ LF ∉ unread p) \/
  (exists pre post, unread p = pre ++ LF :: post /\ (LF ∉ pre) /\
     FindNextSeparators p = Ret (cur_pos p + zlen pre) /\
     cur_pos p + zlen pre + 1 <= length_ p).
Proof.
  intros Hb. unfold FindNextSeparators.
  rewrite (proj2 (Z.leb_le _ _)) by apply Hb. rewrite unread_window by done.
  destruct (index_of LF (unread p)) as [n|] eqn:E.
  - right. apply index_of_Some in E as (pre & post & E & Hn & Hpre).
    exists pre, post. split_and!; [done..|by rewrite <- Hn|].
    pose proof (zlen_unread p Hb) as Hl. rewrite E in Hl. zlen_lia.
  - left. by apply index_of_None in E.
Qed.

(** * One multi-bulk command *)

(** The counters hold values [string2l] stored, or the initial ones; an
    argument length is pending only inside a command. *)
Definition long_fields p : Prop :=
  LONG_MIN <= multibulk_len p <= LONG_MAX /\ LONG_MIN <= bulk_len p <= LONG_MAX /\
  (multibulk_len p = 0 -> bulk_len p = -1).

(** The cached tail holds no complete element: it was worth waiting for more. *)
Definition tail_incomplete p : Prop :=
  if bulk_len p =? -1 then LF ∉ half_argv p
  else zlen (half_argv p) < Z.max (bulk_len p + 2) 1.

(** A step returned from the command parser. *)
Definition stopped p p' : Prop :=
  advances p p' /\
  (status_code p' = kRedisParserError /\ error_code p' <> kRedisParserOk \/
   status_code p' = kRedisParserHalf /\ error_code p' = kRedisParserOk /\
     tail_incomplete p' /\ long_fields p' /\ zlen (half_argv p') <= length_ p').

Lemma stopped_error e p0 p :
  buffered p -> advances p0 p -> e <> kRedisParserOk ->
  stopped p0 (SetParserStatus kRedisParserError e p).
Proof. intros Hb Ha He. split; [by destruct Ha|left; done]. Qed.

Lemma stopped_half p0 p :
  buffered p -> advances p0 p -> long_fields p ->
  (if bulk_len p =? -1 then LF ∉ unread p
   else zlen (unread p) < Z.max (bulk_len p + 2) 1) ->
  stopped p0 (SetParserStatus kRedisParserHalf kRedisParserOk p).
Proof.
  intros Hb Ha Hl Ht. split; [|right; split_and!; [done|done| |done|]].
  - destruct Hb, Ha. constructor; simpl; first [done | lia].
  - unfold tail_incomplete. cbn -[unread]. rewrite unread_window by done. done.
  - cbn -[unread]. rewrite unread_window, zlen_unread by done. pose proof (buf_cur p Hb). lia.
Qed.

Lemma unread_nil p : buffered p -> length_ p - 1 < cur_pos p -> unread p = [].
Proof. intros Hb Hl. apply zlen_zero. rewrite zlen_unread by done. destruct Hb. lia. Qed.

(** The result of parsing a length line, in a form both headers share. *)
Lemma GetNextNum_range pos p n : GetNextNum pos p = Some n -> LONG_MIN <= n <= LONG_MAX.
Proof. apply string2l_range. Qed.

Definition flow_ok (stop : RedisParser U -> Prop) (go : RedisParser U -> Prop)
    (r : flow U) : Prop :=
  match r with Returns p => stop p | Continues p => go p end.

(** After [bulk_header] the data of the argument is awaited. *)
Lemma bulk_header_wp p :
  buffered p -> long_fields p -> multibulk_len p <> 0 ->
  wp input_fault
    (flow_ok (stopped p)
       (fun p' => advances p p' /\ long_fields p' /\ multibulk_len p' = multibulk_len p /\
                  (bulk_len p = -1 -> cur_pos p' < length_ p') /\
                  (bulk_len p <> -1 -> p' = p)))
    (bulk_header p).
Proof.
  intros Hb Hl H0. unfold bulk_header. destruct (bulk_len p =? -1) eqn:E; b2p;
    [|simpl; split_and!; auto; try done; apply advances_refl, Hb].
  apply wp_bind.
  destruct (FindNextSeparators_spec p Hb) as [[-> Hn] | (pre & post & Hu & Hn & -> & Hle)]; simpl.
  { apply stopped_half; auto using advances_refl. apply advances_refl, Hb.
    rewrite E. done. }
  pose proof (zlen_nonneg pre). destruct Hb as [Hbl [Hc0 Hc] Hm] eqn:HB.
  rewrite (proj2 (Z.eqb_neq _ _)) by lia.
  case_match; [simpl; apply stopped_error; auto using advances_refl; done|].
  destruct (GetNextNum _ p) as [n|] eqn:Hr; simpl;
    [|apply stopped_error; [done|apply advances_refl; lia|done]].
  apply GetNextNum_range in Hr.
  set (p' := set_cur_pos _ _).
  assert (Ha : advances p p') by (constructor; simpl; first [done | lia]).
  assert (Hb' : buffered p') by eauto using advances_buffered.
  case_match; b2p; simpl in *.
  - apply stopped_half; auto. { destruct Hl as (? & ? & ?). unfold long_fields. simpl. split_and!; intros; lia. }
    rewrite unread_nil by (simpl; lia || done). case_match; [set_solver|].
    rewrite zlen_nil. lia.
  - destruct Hl as (? & ? & ?). unfold long_fields. simpl.
    split_and!; try done; intros; lia.
Qed.

Lemma take_bulk_wp p :
  buffered p -> long_fields p -> bulk_len p + 2 <= length_ p - cur_pos p ->
  wp input_fault
    (fun p' => advances p p' /\ long_fields p' /\ bulk_len p' = -1 /\
               cur_pos p + 2 <= cur_pos p')
    (take_bulk p).
Proof.
  intros Hb (Hm & Hk & _) Hd. unfold take_bulk, mk_string, input_fault.
  destruct (bulk_len p <? 0) eqn:E; b2p; simpl; [auto|].
  rewrite (proj2 (Z.ltb_ge _ _)) by (rewrite zlen_unread by done; lia). simpl.
  case_match; b2p; simpl; [auto|]. destruct Hb.
  rewrite to_i32_id by clia. split_and!; try lia.
  - constructor; simpl; rewrite ?to_i32_id by clia; first [done | lia].
  - split_and!; simpl; try done; clia.
Qed.

(** Leaving the loop: the command is complete, or its next argument is not. *)
Definition loop_exit p p' : Prop :=
  advances p p' /\ long_fields p' /\
  (multibulk_len p' = 0 /\ (multibulk_len p <> 0 -> cur_pos p < cur_pos p') \/
   multibulk_len p' <> 0 /\ bulk_len p' <> -1 /\
     zlen (unread p') < Z.max (bulk_len p' + 2) 1).

Lemma multibulk_loop_S f p :
  multibulk_loop (S f) p =
    if multibulk_len p =? 0 then Ret (Continues p)
    else
      let! h := bulk_header p in
      match h with
      | Returns p => Ret (Returns p)
      | Continues p =>
          if LONG_MAX - 2 <? bulk_len p then Fault Overflow
          else if (length_ p - 1) - cur_pos p + 1 <? bulk_len p + 2
          then Ret (Continues p)
          else let! p := take_bulk p in multibulk_loop f p
      end.
Proof. done. Qed.

Lemma multibulk_loop_wp fuel p :
  buffered p -> long_fields p -> (Z.to_nat (length_ p - cur_pos p) < fuel)%nat ->
  wp input_fault (flow_ok (stopped p) (loop_exit p)) (multibulk_loop fuel p).
Proof.
  revert p. induction fuel as [|f IH]; intros p Hb Hl Hf; [lia|]. rewrite multibulk_loop_S.
  destruct (multibulk_len p =? 0) eqn:E0; b2p.
  { simpl. split_and!; auto; [apply advances_refl, Hb|]. left. split; [done|lia]. }
  apply wp_bind. eapply wp_mono; [|by apply bulk_header_wp].
  intros [p1|p1]; simpl; [done|]. intros (Ha & Hl1 & Hmb & Hlt & Heq).
  assert (Hb1 : buffered p1) by eauto using advances_buffered.
  case_match; simpl; [unfold input_fault; auto|]. case_match; b2p.
  - simpl. split_and!; auto. right. rewrite Hmb. split_and!; [done| |].
    + destruct (decide (bulk_len p = -1)) as [Hk|Hk]; [specialize (Hlt Hk); lia|].
      by rewrite Heq.
    + rewrite zlen_unread by done. lia.
  - apply wp_bind. eapply wp_mono; [|apply take_bulk_wp; auto; lia].
    simpl. intros p2 (Ha2 & Hl2 & Hk2 & Hc2).
    assert (Hb2 : buffered p2) by eauto using advances_buffered.
    assert (Hadv : advances p p2) by eauto using advances_trans.
    eapply wp_mono; [|apply IH; auto].
    + intros [p3|p3]; simpl.
      * intros [Ha3 Hs]. split; [eauto using advances_trans|done].
      * intros (Ha3 & Hl3 & Hex). split_and!; eauto using advances_trans.
        destruct Hex as [[? _]|?]; [left|by right]. split; [done|]. intros _.
        destruct Ha3, Ha. lia.
    + destruct Ha2, Ha, Hb. lia.
Qed.

Lemma multibulk_header_wp p :
  buffered p -> long_fields p ->
  wp input_fault
    (flow_ok (stopped p)
       (fun p' => advances p p' /\ long_fields p' /\
                  (multibulk_len p = 0 -> cur_pos p < cur_pos p') /\
                  (multibulk_len p <> 0 -> p' = p)))
    (multibulk_header p).
Proof.
  intros Hb Hl. unfold multibulk_header. destruct (multibulk_len p =? 0) eqn:E; b2p;
    [|simpl; split_and!; auto; try done; apply advances_refl, Hb].
  assert (Hk : bulk_len p = -1) by by apply Hl. apply wp_bind.
  destruct (FindNextSeparators_spec p Hb) as [[-> Hn] | (pre & post & Hu & Hn & -> & Hle)]; simpl.
  { apply stopped_half; auto using advances_refl. apply advances_refl, Hb.
    by rewrite Hk. }
  pose proof (zlen_nonneg pre). pose proof (buf_cur p Hb).
  rewrite (proj2 (Z.eqb_neq _ _)) by lia.
  destruct (GetNextNum _ p) as [n|] eqn:Hr; simpl;
    [|apply stopped_error; [done|apply advances_refl; lia|done]].
  apply GetNextNum_range in Hr.
  set (p' := set_argv _ _).
  assert (Ha : advances p p') by (constructor; simpl; first [done | lia]).
  assert (Hb' : buffered p') by eauto using advances_buffered.
  case_match; b2p; simpl in *.
  - apply stopped_half; auto. { destruct Hl as (? & ? & ?). unfold long_fields. simpl. split_and!; intros; lia. }
    rewrite unread_nil by (simpl; lia || done). case_match; [set_solver|].
    rewrite zlen_nil. lia.
  - destruct Hl as (? & ? & ?). unfold long_fields. simpl.
    split_and!; try done; intros; lia.
Qed.

(** A command parser's result: stopped, or one command consumed. *)
Definition command_result p p' : Prop :=
  stopped p p' \/
  (advances p p' /\ status_code p' = kRedisParserDone /\ error_code p' = kRedisParserOk /\
   cur_pos p < cur_pos p').

Lemma ProcessMultibulkBuffer_wp p :
  buffered p -> long_fields p ->
  wp input_fault (command_result p) (ProcessMultibulkBuffer p).
Proof.
  intros Hb Hl. unfold ProcessMultibulkBuffer.
  apply wp_bind. eapply wp_mono; [|by apply multibulk_header_wp].
  intros [p1|p1]; simpl; [by left|]. intros (Ha & Hl1 & Hlt & Heq).
  assert (Hb1 : buffered p1) by eauto using advances_buffered.
  apply wp_bind. eapply wp_mono; [|apply multibulk_loop_wp; unfold multibulk_fuel; auto; lia].
  intros [p2|p2]; simpl.
  { intros [Ha2 Hs]. left. split; [eauto using advances_trans|done]. }
  intros (Ha2 & Hl2 & Hex). assert (Hadv : advances p p2) by eauto using advances_trans.
  assert (Hb2 : buffered p2) by eauto using advances_buffered.
  destruct (multibulk_len p2 =? 0) eqn:E2; b2p.
  - right. split_and!; [by destruct Hadv|done|done|].
    destruct Hex as [[_ Hc]|[? _]]; [|lia]. destruct Ha, Ha2.
    destruct (decide (multibulk_len p = 0)) as [H0|H0]; [specialize (Hlt H0); simpl; lia|].
    rewrite (Heq H0) in Hc. simpl. specialize (Hc H0). lia.
  - left. apply stopped_half; auto. destruct Hex as [[? _]|(_ & Hk2 & Hz)]; [lia|].
    by rewrite (proj2 (Z.eqb_neq _ _)) by done.
Qed.

Lemma ProcessInlineBuffer_wp p :
  buffered p -> long_fields p -> bulk_len p = -1 ->
  wp input_fault
    (fun p' => command_result p p' /\
       multibulk_len p' = multibulk_len p /\
       (status_code p' = kRedisParserHalf -> zlen (half_argv p') <= REDIS_INLINE_MAXLEN))
    (ProcessInlineBuffer p).
Proof.
  intros Hb Hl Hk. unfold ProcessInlineBuffer. apply wp_bind.
  destruct (FindNextSeparators_spec p Hb) as [[-> Hn] | (pre & post & Hu & Hn & -> & Hle)]; simpl.
  { pose proof (advances_refl p (proj2 (buf_cur p Hb))).
    case_match; b2p; (split; [left|split; [done|]]); [by apply stopped_error|done| |].
    - apply stopped_half; [done..|by rewrite Hk].
    - intros _. simpl. rewrite unread_window, zlen_unread by done.
      pose proof (buf_cur p Hb). lia. }
  pose proof (zlen_nonneg pre). pose proof (buf_cur p Hb).
  rewrite (proj2 (Z.eqb_neq _ _)) by lia.
  destruct (split2args_ends (unread p) []) as [r ->]. simpl.
  set (p' := set_cur_pos _ _).
  assert (Ha : advances p p') by (constructor; simpl; first [done | lia]).
  destruct r as [args|]; (split; [|done..]); [right|left].
  - split_and!; [by destruct Ha|done|done|simpl; lia].
  - apply stopped_error; by eauto using advances_buffered.
Qed.

(** * The request loop *)

(** The fields that describe a command in progress. *)
Definition cmd_state p : Prop :=
  long_fields p /\ (redis_type p = 0 \/ redis_type p = 1 \/ redis_type p = 2) /\
  (redis_type p <> 2 -> multibulk_len p = 0).

(** Between two commands. *)
Definition clean p : Prop :=
  redis_type p = 0 /\ multibulk_len p = 0 /\ bulk_len p = -1 /\ half_argv p = [] /\
  argv p = [].

Lemma clean_cmd_state p : clean p -> cmd_state p.
Proof.
  intros (? & Hm & Hk & _). unfold cmd_state, long_fields. rewrite Hm, Hk.
  split_and!; try done; auto; clia.
Qed.

(** Waiting for the rest of a command. *)
Definition waiting p : Prop :=
  status_code p = kRedisParserHalf /\ error_code p = kRedisParserOk /\
  cmd_state p /\ redis_type p <> 0 /\ tail_incomplete p /\
  (redis_type p = 1 -> zlen (half_argv p) <= REDIS_INLINE_MAXLEN).

Definition failed p : Prop :=
  status_code p = kRedisParserError /\ error_code p <> kRedisParserOk.

(** What one command leaves of the surrounding state. *)
Record same_input p p' : Prop := {
  same_buf : input_buf p' = input_buf p;
  same_len : length_ p' = length_ p;
  same_settings : parser_settings p' = parser_settings p;
  same_kind : redis_parser_type p' = redis_parser_type p
}.

Lemma advances_same p p' : advances p p' -> same_input p p'.
Proof. intros []. by constructor. Qed.

Lemma same_input_trans p1 p2 p3 : same_input p1 p2 -> same_input p2 p3 -> same_input p1 p3.
Proof. intros [] []. constructor; congruence. Qed.

Lemma choose_type_spec p :
  buffered p -> cmd_state p ->
  buffered (choose_type p) /\ cmd_state (choose_type p) /\ same_input p (choose_type p) /\
  (redis_type (choose_type p) = 1 \/ redis_type (choose_type p) = 2) /\
  cur_pos (choose_type p) = cur_pos p /\ argvs (choose_type p) = argvs p.
Proof.
  intros [? ? ?] (Hl & Ht & Hm). unfold choose_type, cmd_state.
  destruct (redis_type p =? 0) eqn:E; b2p.
  - assert (multibulk_len p = 0) by (apply Hm; lia).
    split; [by constructor|]. split; [split; [done|split; [|done]]|].
    { simpl. unfold REDIS_REQ_INLINE, REDIS_REQ_MULTIBULK. case_match; lia. }
    split; [by constructor|]. split; [|done].
    simpl. unfold REDIS_REQ_INLINE, REDIS_REQ_MULTIBULK. case_match; lia.
  - split; [by constructor|]. split; [done|]. split; [by constructor|]. split; [lia|done].
Qed.

Lemma parse_command_wp p :
  buffered p -> cmd_state p ->
  wp input_fault
    (fun '(ret, p') => ret = status_code p' /\ same_input p p' /\ argvs p' = argvs p /\
       (waiting p' /\ zlen (half_argv p') <= length_ p \/ failed p' \/
        ret = kRedisParserDone /\ buffered p' /\ cur_pos p < cur_pos p'))
    (parse_command p).
Proof.
  intros Hb Hs. unfold parse_command.
  destruct (choose_type_spec p Hb Hs) as (Hb1 & (Hl & _ & Hm) & Hsi & Ht & Hc & Hav).
  set (p1 := choose_type p) in *.
  assert (forall p', command_result p1 p' ->
    (redis_type p1 = 1 -> status_code p' = kRedisParserHalf ->
       zlen (half_argv p') <= REDIS_INLINE_MAXLEN /\ multibulk_len p' = 0) ->
    same_input p p' /\ argvs p' = argvs p /\
    (waiting p' /\ zlen (half_argv p') <= length_ p \/ failed p' \/
     status_code p' = kRedisParserDone /\ buffered p' /\ cur_pos p < cur_pos p')) as Hres.
  { intros p' Hr Hh. assert (Ha : advances p1 p') by (destruct Hr as [[? _]|[? _]]; done).
    split_and!; [eauto using same_input_trans, advances_same|destruct Ha; congruence|].
    pose proof (adv_type _ _ Ha) as Hat.
    destruct Hr as [(_ & [Hf|(Hst & He & Hti & Hlf & Hlen)])|(_ & Hst & _ & Hlt)].
    - right. by left.
    - left. split; [|destruct Ha, Hsi; congruence]. unfold waiting, cmd_state. rewrite Hat. split_and!; try done; try lia.
      + intros ?. apply Hh; [lia|done].
      + intros ?. by apply Hh.
    - right. right. split_and!; [done|by eapply advances_buffered|lia]. }
  destruct Ht as [Ht|Ht]; rewrite Ht; simpl.
  - assert (Hm0 : multibulk_len p1 = 0) by (apply Hm; lia).
    apply wp_bind. eapply wp_mono; [|apply ProcessInlineBuffer_wp; auto; by apply Hl].
    simpl. intros p' (Hr & Hm' & Hh). split; [done|].
    apply Hres; [done|]. intros _ ?. split; [auto|lia].
  - apply wp_bind. eapply wp_mono; [|by apply ProcessMultibulkBuffer_wp].
    simpl. intros p' Hr. split; [done|]. apply Hres; [done|lia].
Qed.

Lemma deliver_spec p u :
  let '(ok, p', u') := deliver p u in
  same_input p p' /\ argv p' = [] /\ cur_pos p' = cur_pos p /\
  argvs p' = argvs p ++ (if bool_decide (argv p = []) then [] else [argv p]) /\
  (if ok then status_code p' = status_code p else failed p').
Proof.
  unfold deliver. destruct (argv p) as [|a cmd] eqn:E; simpl.
  { rewrite app_nil_r. split_and!; try done. }
  destruct (DealMessage (parser_settings p)) as [f|]; [|by split_and!].
  destruct (f (a :: cmd) u) as [r u']. destruct (r =? 0); by split_and!.
Qed.

Lemma finish_request_spec p u :
  let '(p', u') := finish_request p u in
  same_input p p' /\
  (failed p' \/
   status_code p' = kRedisParserDone /\ error_code p' = kRedisParserOk /\ argvs p' = [] /\
     (clean p -> clean p')).
Proof.
  unfold finish_request. destruct (Complete (parser_settings p)) as [f|]; simpl.
  - destruct (f _ u) as [r u']. destruct (r =? 0); (split; [done|]).
    + right. by split_and!.
    + by left.
  - split; [done|]. right. by split_and!.
Qed.

Definition commands_kept p : Prop := Forall (fun c => c <> []) (argvs p).

(** The result of the request loop. *)
Definition request_result p p' : Prop :=
  same_input p p' /\
  (failed p' \/ (waiting p' /\ zlen (half_argv p') <= length_ p) /\ commands_kept p' \/
   status_code p' = kRedisParserDone /\ error_code p' = kRedisParserOk /\
     argvs p' = [] /\ clean p').

Lemma ProcessRequestBuffer_S f p u :
  ProcessRequestBuffer (S f) p u =
    if cur_pos p <=? length_ p - 1 then
      let! (ret, p) := parse_command p in
      if negb (bool_decide (ret = kRedisParserDone)) then Ret (p, u)
      else
        let '(ok, p, u) := deliver p u in
        if ok then ProcessRequestBuffer f (ResetCommandStatus p) u
        else Ret (p, u)
    else Ret (finish_request p u).
Proof. done. Qed.

Lemma ProcessRequestBuffer_wp fuel p u :
  buffered p -> cmd_state p -> commands_kept p -> (clean p \/ cur_pos p < length_ p) ->
  (Z.to_nat (length_ p - cur_pos p) < fuel)%nat ->
  wp input_fault (fun '(p', u') => request_result p p') (ProcessRequestBuffer fuel p u).
Proof.
  revert p u. induction fuel as [|f IH]; intros p u Hb Hs Hk Hc Hf; [lia|].
  rewrite ProcessRequestBuffer_S. destruct (cur_pos p <=? length_ p - 1) eqn:E; b2p.
  - apply wp_bind. eapply wp_mono; [|by apply parse_command_wp].
    intros [ret p1] (-> & Hsi & Hav & Hr). case_bool_decide as Hd; simpl.
    + destruct Hr as [((Hw & _) & _)|[(Hw & _)|(_ & Hb1 & Hlt)]]; [congruence..|].
      pose proof (deliver_spec p1 u) as Hdel.
      destruct (deliver p1 u) as [[ok p2] u2]. destruct Hdel as (Hsi2 & Ha2 & Hc2 & Hav2 & Hok).
      assert (Hsi' : same_input p p2) by eauto using same_input_trans.
      destruct ok; simpl; [|by split; [|left]].
      assert (Hclean : clean (ResetCommandStatus p2)) by done.
      assert (Hb2 : buffered (ResetCommandStatus p2)).
      { destruct Hb1, Hsi2. constructor; simpl; congruence || lia. }
      assert (Hkept : commands_kept (ResetCommandStatus p2)).
      { unfold commands_kept in *. simpl. rewrite Hav2, Hav. apply Forall_app. split; [done|].
        case_bool_decide; repeat constructor; done. }
      eapply wp_mono; [|apply IH; auto using clean_cmd_state].
      * intros [p3 u3] [Hsi3 Hr3]. split; [|by destruct Hsi' as [_ Hlp _ _]; rewrite <- Hlp].
        eapply same_input_trans; [exact Hsi'|]. eapply same_input_trans; [|exact Hsi3].
        by constructor.
      * simpl. destruct Hsi', Hb. lia.
    + destruct Hr as [Hw|[Hw|(? & _)]]; [..|done]; (split; [done|]); [|by left].
      right. left. split; [done|]. unfold commands_kept. by rewrite Hav.
  - pose proof (finish_request_spec p u) as Hfin. destruct (finish_request p u) as [p' u'].
    simpl. destruct Hfin as [Hsi [Hfl|(Hst & He & Hav & Hcl)]]; (split; [done|]); [by left|].
    right. right. split_and!; try done. apply Hcl. destruct Hc; [done|lia].
Qed.

(** * Between two calls *)

(** The state the class is in whenever no call is in progress. *)
Record idle p : Prop := {
  idle_cur : cur_pos p = 0;
  idle_len : length_ p = 0;
  idle_buf : input_buf p = [];
  idle_kind : redis_parser_type p = REDIS_PARSER_REQUEST;
  idle_state :
    match status_code p with
    | kRedisParserNone => False
    | kRedisParserInitDone | kRedisParserDone =>
        error_code p = kRedisParserOk /\ clean p /\ argvs p = []
    | kRedisParserHalf => waiting p /\ commands_kept p
    | kRedisParserError => error_code p <> kRedisParserOk
    end
}.

Lemma idle_live p :
  idle p -> status_code p <> kRedisParserError ->
  cmd_state p /\ commands_kept p /\
  bool_decide (status_code p = kRedisParserInitDone) ||
  bool_decide (status_code p = kRedisParserHalf) ||
  bool_decide (status_code p = kRedisParserDone) = true.
Proof.
  intros [_ _ _ _ Hst] He. unfold commands_kept. destruct (status_code p); try done.
  - destruct Hst as (_ & Hc & ->). split_and!; auto using clean_cmd_state.
  - destruct Hst as ((_ & _ & Hc & _) & Hk). by split_and!.
  - destruct Hst as (_ & Hc & ->). split_and!; auto using clean_cmd_state.
Qed.

Lemma ProcessInputBuffer_wp input p u :
  idle p -> input <> [] -> zlen (half_argv p ++ input) <= INT_MAX ->
  wp input_fault
    (fun '(s, p', u') => s = status_code p' /\ idle p' /\
       parser_settings p' = parser_settings p /\
       (s <> kRedisParserError -> zlen (half_argv p') <= zlen (half_argv p ++ input)) /\
       (status_code p = kRedisParserError ->
          s = kRedisParserError /\ error_code p' = kRedisParserInitError /\ u' = u))
    (ProcessInputBuffer input p u).
Proof.
  intros Hi Hne Hmax. unfold ProcessInputBuffer.
  destruct (decide (status_code p = kRedisParserError)) as [He|He].
  { rewrite He. simpl. destruct Hi. by split_and!. }
  destruct (idle_live p Hi He) as (Hcs & Hk & Hlive). rewrite Hlive.
  destruct Hi as [Hcur Hlen Hbuf Hkind _].
  set (p1 := set_length_ _ _). simpl. rewrite Hkind. simpl.
  assert (Hlen1 : length_ p1 = zlen (half_argv p ++ input)).
  { simpl. apply to_i32_id. pose proof (zlen_nonneg (half_argv p ++ input)). clia. }
  assert (Hpos : 0 < zlen (half_argv p ++ input)).
  { destruct input; [done|]. zlen_lia. }
  apply wp_bind. eapply wp_mono; [|apply ProcessRequestBuffer_wp].
  - intros [p2 u2] [[_ _ Hset Hkd] Hr]. simpl. split_and!; try done.
    2:{ intros Hs. rewrite <- Hlen1.
        destruct Hr as [[Hst _]|[[[_ Hw] _]|(_ & _ & _ & (_ & _ & _ & -> & _))]]; [done|done|].
        rewrite Hlen1. zlen_lia. }
    assert (Hkd2 : redis_parser_type p2 = REDIS_PARSER_REQUEST) by (simpl in Hkd; congruence).
    constructor; try done.
    destruct Hr as [[Hst Her]|[[Hw Hk2]|(Hst & Her & Hav & Hcl)]]; simpl.
    + by rewrite Hst.
    + destruct Hw as ((Hst & Hrest) & _). rewrite Hst. split; [|done]. by split.
    + by rewrite Hst.
  - constructor; rewrite ?Hlen1; simpl; rewrite ?Hcur; done || lia.
  - done.
  - done.
  - right. rewrite Hlen1. simpl. lia.
  - rewrite Hlen1. simpl. rewrite Hcur. unfold zlen. lia.
Qed.
End facts.
