(* ===== verification/RedisCodec.v ===== *)
(** The serialization of redis commands: the functions of
    [pink/src/redis_cli.cc] below "Redis protocol related functions", which
    [SerializeRedisCommand] exports. [resp_command] is the wire format they
    must produce, and what [RedisParser] reads back. *)
From S2P Require Import Pink Prelude.

(** * The wire format *)

Definition resp_bulk (a : bytes) : bytes :=
  "$"%char :: to_dec (zlen a) ++ CRLF ++ a ++ CRLF.

Definition resp_bulks (args : list bytes) : bytes := concat (map resp_bulk args).

Definition resp_command (argv : list bytes) : bytes :=
  "*"%char :: to_dec (zlen argv) ++ CRLF ++ resp_bulks argv.

(** * Lengths *)

Definition REDIS_OK : Z := 0.
Definition REDIS_ERR : Z := -1.

(** [do { len++; i /= 10; } while (i);] *)
Fixpoint intlen_loop (fuel : nat) (len i : Z) : outcome Z :=
  match fuel with
  | O => Fault Diverges
  | S f =>
      let len := len + 1 in
      let i := Z.quot i 10 in
      if i =? 0 then Ret len else intlen_loop f len i
  end.

(** The argument is converted to [int]; an [int] has at most ten digits. *)
Definition intlen (i : Z) : outcome Z :=
  let i := to_i32 i in
  if i <? 0 then
    if i =? INT_MIN then Fault Overflow else intlen_loop 10 1 (- i)
  else intlen_loop 10 0 i.

Definition bulklen (len : Z) : outcome Z :=
  let! n := intlen len in Ret (to_u64 (1 + n + 2 + len + 2)).

(** * Building the command *)

(** The [for] loop both formatters end with. *)
Definition append_args (cmd : bytes) (args : list bytes) : bytes :=
  fold_left (fun cmd a =>
    cmd ++ ["$"%char] ++ to_string (zlen a) ++ CRLF ++ a ++ CRLF) args cmd.

(** [cmd->clear()] to the end of the loop. *)
Definition build_command (args : list bytes) : bytes :=
  append_args (["*"%char] ++ to_string (zlen args) ++ CRLF) args.

(** [for (...) totlen += bulklen(argv[i].size())] with [int totlen]. *)
Fixpoint argv_totlen (totlen : Z) (args : list bytes) : outcome Z :=
  match args with
  | [] => Ret totlen
  | a :: args => let! n := bulklen (zlen a) in argv_totlen (to_i32 (totlen + n)) args
  end.

(** [cmd->reserve(n)]: a size over [max_size()] throws. *)
Definition reserve (n : Z) : outcome () :=
  if LONG_MAX <? to_u64 n then Fault LengthError else Ret ().

(** The result code and the new contents of [*cmd]. *)
Definition redisFormatCommandArgv (argv : list bytes) : outcome (Z * bytes) :=
  let! n := intlen (zlen argv) in
  let! totlen := argv_totlen (to_i32 (1 + n + 2)) argv in
  let! _ := reserve totlen in
  Ret (REDIS_OK, build_command argv).

(** * The printf-like interface *)

(** The variable arguments. *)
Inductive vaarg : Type :=
  | VaPtr (s : bytes)         (** a [char*] and the bytes it points to *)
  | VaSize (n : Z)
  | VaInt (n : Z)
  | VaLong (n : Z)
  | VaLongLong (n : Z)
  | VaDouble (text : bytes).  (** a [double], by its exact decimal expansion *)

Inductive vakind : Type := KInt | KLong | KLongLong | KDouble.

(** [va_arg(ap, T)]. *)
Definition va_next (k : vakind) (ap : list vaarg) : outcome (vaarg * list vaarg) :=
  match k, ap with
  | KInt, (VaInt _ as v) :: ap => Ret (v, ap)
  | KLong, (VaLong _ as v) :: ap => Ret (v, ap)
  | KLongLong, (VaLongLong _ as v) :: ap => Ret (v, ap)
  | KDouble, (VaDouble _ as v) :: ap => Ret (v, ap)
  | _, _ => Fault BadVaArg
  end.

(** [strchr(set, c) != NULL]: the terminating zero is part of the string. *)
Definition strchr (set : bytes) (c : ascii) : bool :=
  (c =?c NUL) || existsb (ceq c) set.

(** The character [*p] at the head of a C string. *)
Definition at0 (p : bytes) : ascii := nth 0 p NUL.
Definition at1 (p : bytes) : ascii := nth 1 p NUL.

Definition skip_flag (f : ascii) (p : bytes) : bytes :=
  match p with c :: p' => if c =?c f then p' else p | [] => [] end.

Fixpoint skip_digits (p : bytes) : bytes :=
  match p with c :: p' => if isdigit c then skip_digits p' else p | [] => [] end.

(** Flags, field width and precision. *)
Definition skip_modifiers (p : bytes) : bytes :=
  let p := skip_flag "#"%char p in
  let p := skip_flag "0"%char p in
  let p := skip_flag "-"%char p in
  let p := skip_flag " "%char p in
  let p := skip_flag "+"%char p in
  let p := skip_digits p in
  if at0 p =?c "."%char then skip_digits (drop 1 p) else p.

Definition intfmts : bytes := bs "diouxX".
Definition fltfmts : bytes := bs "eEfFgGaA".

(** The conversion at [p]: the kind of its argument and the position of the
    conversion letter. [None]: [fmt_valid] stays false. *)
Definition conversion (p : bytes) : option (vakind * bytes) :=
  let modified (k : vakind) (p : bytes) :=
    if negb (at0 p =?c NUL) && strchr intfmts (at0 p) then Some (k, p) else None in
  if strchr intfmts (at0 p) then Some (KInt, p)
  else if strchr fltfmts (at0 p) then Some (KDouble, p)
  else if (at0 p =?c "h"%char) && (at1 p =?c "h"%char) then modified KInt (drop 2 p)
  else if at0 p =?c "h"%char then modified KInt (drop 1 p)
  else if (at0 p =?c "l"%char) && (at1 p =?c "l"%char) then modified KLongLong (drop 2 p)
  else if at0 p =?c "l"%char then modified KLong (drop 1 p)
  else None.

Definition FORMAT_SIZE : Z := 16.
Definition BUF_SIZE : Z := 1048576.

Section format.
(** [vsnprintf] of one conversion: the full text it stands for. *)
Context (vsnprintf : bytes -> vaarg -> bytes).

(** [vsnprintf(buf, sizeof(buf), ...)] then [curarg.append(buf, n)]. *)
Definition append_printed (fmt : bytes) (v : vaarg) (curarg : bytes) : outcome bytes :=
  let t := vsnprintf fmt v in
  if BUF_SIZE <? zlen t then Fault OutOfBounds
  else if BUF_SIZE =? zlen t then Ret (curarg ++ ztake (BUF_SIZE - 1) t ++ [NUL])
  else Ret (curarg ++ t).

(** The [default:] case: [None] is the [REDIS_ERR] return; otherwise the new
    [curarg], the rest of [ap] and the new [c]. *)
Definition format_default (c : bytes) (ap : list vaarg) (curarg : bytes)
    : outcome (option (bytes * list vaarg * bytes)) :=
  match conversion (skip_modifiers (drop 1 c)) with
  | None => Ret None
  | Some (k, p) =>
      let! (v, ap) := va_next k ap in
      let l := zlen c - zlen p + 1 in
      if l <? FORMAT_SIZE - 2 then
        let! curarg := append_printed (cstr (ztake l (c ++ [NUL]))) v curarg in
        Ret (Some (curarg, ap, zdrop (zlen c - zlen p - 1) c))
      else Ret (Some (curarg, ap, c))
  end.

(** The [switch (c[1])]. *)
Definition format_conversion (c : bytes) (ap : list vaarg) (curarg : bytes)
    : outcome (option (bytes * list vaarg * bytes)) :=
  if at1 c =?c "s"%char then
    match ap with
    | VaPtr s :: ap => Ret (Some (curarg ++ cstr s, ap, c))
    | _ => Fault BadVaArg
    end
  else if at1 c =?c "b"%char then
    match ap with
    | VaPtr s :: VaSize n :: ap =>
        if zlen s <? n then Fault OutOfBounds
        else Ret (Some (curarg ++ ztake n s, ap, c))
    | _ => Fault BadVaArg
    end
  else if at1 c =?c "%"%char then
    (* append(arg, size) with arg = nullptr and size = 0 *)
    Ret (Some (curarg, ap, c))
  else format_default c ap curarg.

(** [c++] of a C string must not move past its terminating zero. *)
Definition advance (n : nat) (c : bytes) : outcome bytes :=
  if (length c <? n)%nat then Fault OutOfBounds else Ret (drop n c).

(** The loop over the format, to its terminating zero; [touched] is whether an argument is being built. *)
Fixpoint format_loop (fuel : nat) (c : bytes) (ap : list vaarg) (args : list bytes)
    (curarg : bytes) (touched : bool) : outcome (option (list bytes)) :=
  match fuel with
  | O => Fault Diverges
  | S f =>
      match c with
      | [] => Ret (Some (if touched then args ++ [curarg] else args))
      | ch :: c1 =>
          if negb (ch =?c "%"%char) || bool_decide (c1 = []) then
            if ch =?c SP then
              if touched then format_loop f c1 ap (args ++ [curarg]) [] false
              else format_loop f c1 ap args curarg touched
            else format_loop f c1 ap args (curarg ++ [ch]) true
          else
            let! r := format_conversion c ap curarg in
            match r with
            | None => Ret None
            | Some (curarg, ap, c) =>
                if bool_decide (curarg = []) then Ret None
                else let! c := advance 2 c in format_loop f c ap args curarg true
            end
      end
  end.

(** [totlen], a [size_t], over the arguments gathered. *)
Fixpoint size_totlen (totlen : Z) (args : list bytes) : outcome Z :=
  match args with
  | [] => Ret totlen
  | a :: args => let! n := bulklen (zlen a) in size_totlen (to_u64 (totlen + n)) args
  end.

(** The returned length (or -1) and, on success, the new [*cmd]. *)
Definition redisvFormatCommand (format : bytes) (ap : list vaarg)
    : outcome (Z * option bytes) :=
  let! r := format_loop (S (length format)) format ap [] [] false in
  match r with
  | None => Ret (REDIS_ERR, None)
  | Some args =>
      let! totlen := size_totlen 0 args in
      let! n := intlen (zlen args) in
      let totlen := to_u64 (totlen + to_u64 (1 + n + 2)) in
      let! _ := reserve totlen in
      let cmd := build_command args in
      if zlen cmd =? totlen then Ret (to_i32 totlen, Some cmd) else Fault AssertFailed
  end.

Definition redisvAppendCommand (format : bytes) (ap : list vaarg)
    : outcome (Z * option bytes) :=
  let! (len, cmd) := redisvFormatCommand format ap in
  Ret (if len =? -1 then REDIS_ERR else REDIS_OK, cmd).

Definition SerializeRedisCommand_format (format : bytes) (ap : list vaarg)
    : outcome (Z * option bytes) := redisvAppendCommand format ap.
End format.

Definition SerializeRedisCommand (argv : list bytes) : outcome (Z * bytes) :=
  redisFormatCommandArgv argv.
