(* ===== verification/RedisCodecFacts.v ===== *)
(** What the command serializers of [RedisCodec.v] compute: the lengths, the
    wire format of the vector interface, and the arguments the printf-like
    interface builds from its directives. *)
From S2P Require Import Pink Prelude RedisCodec.

(** * Lengths *)

Lemma intlen_loop_S f len i :
  intlen_loop (S f) len i =
    if Z.quot i 10 =? 0 then Ret (len + 1) else intlen_loop f (len + 1) (Z.quot i 10).
Proof. done. Qed.

Lemma dec_digits_S f n :
  dec_digits (S f) n =
    (if n <? 10 then [] else dec_digits f (n / 10)) ++ [digit (n mod 10)].
Proof. done. Qed.

Lemma intlen_loop_spec fuel k len n :
  0 <= n < 10 ^ Z.of_nat (S fuel) -> 0 <= n < 2 ^ Z.of_nat (S k) ->
  intlen_loop (S fuel) len n = Ret (len + zlen (dec_digits (S k) n)).
Proof.
  revert k len n. induction fuel as [|f IH]; intros k len n H10 H2.
  - change (10 ^ Z.of_nat 1) with 10 in H10. rewrite intlen_loop_S, dec_digits_S.
    rewrite Z.quot_small, Z.eqb_refl, (proj2 (Z.ltb_lt n 10)) by lia. done.
  - rewrite !Nat2Z.inj_succ, Z.pow_succ_r in H10, H2 by lia.
    rewrite intlen_loop_S, dec_digits_S, Z.quot_div_nonneg by lia.
    pose proof (Z.div_mod n 10 ltac:(lia)). pose proof (Z.mod_pos_bound n 10 ltac:(lia)).
    destruct (n / 10 =? 0) eqn:E; b2p.
    + rewrite (proj2 (Z.ltb_lt n 10)) by lia. done.
    + destruct k as [|k]; [change (2 ^ Z.of_nat 0) with 1 in H2; lia|].
      rewrite IH with (k := k); [|rewrite Nat2Z.inj_succ; lia|lia].
      rewrite (proj2 (Z.ltb_ge n 10)) by lia.
      autorewrite with zlen. f_equal. lia.
Qed.

Lemma intlen_spec n : 0 <= n <= INT_MAX -> intlen n = Ret (zlen (to_dec n)).
Proof.
  intros Hn. unfold intlen. rewrite to_i32_id by clia.
  rewrite (proj2 (Z.ltb_ge n 0)) by lia.
  rewrite (intlen_loop_spec 9 (Z.to_nat (Z.log2 n))).
  - by rewrite Z.add_0_l.
  - change (10 ^ Z.of_nat 10) with 10000000000. clia.
  - apply to_dec_fuel. lia.
Qed.

Lemma zlen_to_dec_bound n : 0 <= n <= INT_MAX -> 1 <= zlen (to_dec n) <= 10.
Proof.
  intros Hn. pose proof (intlen_spec n Hn) as H.
  assert (forall f len i r, intlen_loop f len i = Ret r -> len + 1 <= r <= len + Z.of_nat f)
    as Hb.
  { induction f as [|f IH]; simpl; intros len i r Hr; [done|].
    destruct (Z.quot i 10 =? 0); [injection Hr as <-; lia|]. apply IH in Hr. lia. }
  unfold intlen in H. rewrite to_i32_id, (proj2 (Z.ltb_ge n 0)) in H by clia.
  apply Hb in H. lia.
Qed.

Lemma zlen_resp_bulk a : zlen (resp_bulk a) = 1 + zlen (to_dec (zlen a)) + 2 + zlen a + 2.
Proof. unfold resp_bulk, CRLF. zlen_lia. Qed.

Lemma bulklen_spec a :
  zlen (resp_bulk a) <= INT_MAX -> bulklen (zlen a) = Ret (zlen (resp_bulk a)).
Proof.
  intros Ha. pose proof (zlen_nonneg a). pose proof (zlen_nonneg (to_dec (zlen a))).
  rewrite zlen_resp_bulk in *. unfold bulklen. rewrite intlen_spec by lia. simpl.
  rewrite to_u64_id by clia. done.
Qed.

(** * The vector interface *)

Lemma append_args_spec cmd args : append_args cmd args = cmd ++ resp_bulks args.
Proof.
  unfold append_args, resp_bulks. revert cmd.
  induction args as [|a args IH]; intros cmd; cbn [fold_left concat map];
    [by rewrite app_nil_r|].
  rewrite IH, to_string_nonneg by apply zlen_nonneg.
  unfold resp_bulk. by app_norm.
Qed.

Lemma build_command_spec args : build_command args = resp_command args.
Proof.
  unfold build_command, resp_command. rewrite append_args_spec, to_string_nonneg by
    apply zlen_nonneg. by app_norm.
Qed.

Lemma resp_bulks_cons a args : resp_bulks (a :: args) = resp_bulk a ++ resp_bulks args.
Proof. done. Qed.

Lemma zlen_resp_command argv :
  zlen (resp_command argv) = 1 + zlen (to_dec (zlen argv)) + 2 + zlen (resp_bulks argv).
Proof. unfold resp_command, CRLF. zlen_lia. Qed.

Lemma zlen_argv_le argv : zlen argv <= zlen (resp_bulks argv).
Proof.
  induction argv as [|a argv IH]; [done|].
  rewrite resp_bulks_cons, zlen_app, zlen_cons, zlen_resp_bulk. zlen_lia.
Qed.

Lemma argv_totlen_spec t args :
  0 <= t -> t + zlen (resp_bulks args) <= INT_MAX ->
  argv_totlen t args = Ret (t + zlen (resp_bulks args)).
Proof.
  revert t. induction args as [|a args IH]; intros t Ht Hs; simpl.
  { f_equal. unfold resp_bulks. simpl. rewrite zlen_nil. lia. }
  rewrite resp_bulks_cons, zlen_app in *.
  pose proof (zlen_nonneg (resp_bulk a)). pose proof (zlen_nonneg (resp_bulks args)).
  rewrite bulklen_spec by lia. simpl. rewrite to_i32_id by clia.
  rewrite IH by lia. f_equal. lia.
Qed.

Lemma size_totlen_spec t args :
  0 <= t -> t + zlen (resp_bulks args) <= INT_MAX ->
  size_totlen t args = Ret (t + zlen (resp_bulks args)).
Proof.
  revert t. induction args as [|a args IH]; intros t Ht Hs; simpl.
  { f_equal. unfold resp_bulks. simpl. rewrite zlen_nil. lia. }
  rewrite resp_bulks_cons, zlen_app in *.
  pose proof (zlen_nonneg (resp_bulk a)). pose proof (zlen_nonneg (resp_bulks args)).
  rewrite bulklen_spec by lia. simpl. rewrite to_u64_id by clia.
  rewrite IH by lia. f_equal. lia.
Qed.

Lemma reserve_ok n : 0 <= n <= INT_MAX -> reserve n = Ret ().
Proof.
  intros Hn. unfold reserve. rewrite to_u64_id by clia.
  by rewrite (proj2 (Z.ltb_ge _ _)) by clia.
Qed.

Lemma redisFormatCommandArgv_spec argv :
  zlen (resp_command argv) <= INT_MAX ->
  redisFormatCommandArgv argv = Ret (REDIS_OK, resp_command argv).
Proof.
  rewrite zlen_resp_command. intros Hs.
  pose proof (zlen_argv_le argv). pose proof (zlen_nonneg argv).
  pose proof (zlen_nonneg (to_dec (zlen argv))).
  unfold redisFormatCommandArgv. rewrite intlen_spec by clia. simpl.
  rewrite to_i32_id by clia. rewrite argv_totlen_spec by lia. simpl.
  rewrite reserve_ok by lia. simpl. by rewrite build_command_spec.
Qed.

(** * The printf-like interface *)

Section format.
Context (vsnprintf : bytes -> vaarg -> bytes).

(** Once the arguments are known, the assertion on the computed size holds and
    the command is their encoding. *)
Lemma redisvFormatCommand_args format ap args :
  format_loop vsnprintf (S (length format)) format ap [] [] false = Ret (Some args) ->
  zlen (resp_command args) <= INT_MAX ->
  redisvFormatCommand vsnprintf format ap =
    Ret (zlen (resp_command args), Some (resp_command args)).
Proof.
  intros Hf. rewrite zlen_resp_command. intros Hs.
  pose proof (zlen_argv_le args). pose proof (zlen_nonneg args).
  pose proof (zlen_nonneg (to_dec (zlen args))).
  unfold redisvFormatCommand. rewrite Hf. simpl.
  rewrite size_totlen_spec by lia. simpl. rewrite intlen_spec by clia. simpl.
  rewrite !to_u64_id by (rewrite ?to_u64_id; clia).
  rewrite reserve_ok by clia. simpl.
  rewrite build_command_spec, zlen_resp_command, (proj2 (Z.eqb_eq _ _)) by lia.
  rewrite to_i32_id by clia. by replace (0 + _ + _) with
    (1 + zlen (to_dec (zlen args)) + 2 + zlen (resp_bulks args)) by lia.
Qed.

(** ["%s %s ... %s"]. *)
Fixpoint fmt_strings (n : nat) : bytes :=
  match n with
  | O => []
  | S O => bs "%s"
  | S n => bs "%s " ++ fmt_strings n
  end.

Lemma length_fmt_strings n : (2 * n < S (length (fmt_strings n)))%nat.
Proof.
  induction n as [|[|n] IH]; [simpl; lia..|].
  change (fmt_strings (S (S n))) with (bs "%s " ++ fmt_strings (S n)).
  rewrite length_app. change (length (bs "%s ")) with 3%nat. lia.
Qed.

(** One ["%s"] directive, the blank after it, and the end of the format. *)
Lemma format_loop_string f c a ap args :
  a <> [] -> NUL ∉ a ->
  format_loop vsnprintf (S f) (bs "%s" ++ c) (VaPtr a :: ap) args [] false =
  format_loop vsnprintf f c ap args a true.
Proof.
  intros Ha Hn. simpl. rewrite cstr_id by done. by rewrite bool_decide_eq_false_2.
Qed.

Lemma format_loop_blank f c ap args cur :
  format_loop vsnprintf (S f) (SP :: c) ap args cur true =
  format_loop vsnprintf f c ap (args ++ [cur]) [] false.
Proof. done. Qed.

Lemma format_loop_end f ap args cur :
  format_loop vsnprintf (S f) [] ap args cur true = Ret (Some (args ++ [cur])).
Proof. done. Qed.

Lemma fmt_strings_SS n : fmt_strings (S (S n)) = bs "%s" ++ SP :: fmt_strings (S n).
Proof. done. Qed.

(** Literal text. *)
Definition literal (c : ascii) : Prop := c <> "%"%char /\ c <> SP.

Lemma format_loop_text f w c ap args cur t :
  Forall literal w -> w <> [] ->
  format_loop vsnprintf (length w + f) (w ++ c) ap args cur t =
  format_loop vsnprintf f c ap args (cur ++ w) true.
Proof.
  intros Hw. revert cur t. induction Hw as [|x w [Hx Hs] Hw IH]; intros cur t Hne; [done|].
  cbn [length app Nat.add format_loop]. rewrite !(ceq_neq x) by done. cbn [negb orb].
  destruct w as [|y w]; [done|]. rewrite IH by done. by rewrite <- app_assoc.
Qed.

Lemma format_loop_percent f c ap args cur t :
  cur <> [] ->
  format_loop vsnprintf (S f) (bs "%%" ++ c) ap args cur t =
  format_loop vsnprintf f c ap args cur true.
Proof. intros Hc. simpl. by rewrite bool_decide_eq_false_2. Qed.

(** Every string argument becomes one command argument, whatever it holds. *)
Lemma format_loop_strings fuel args l :
  (2 * length l < fuel)%nat -> Forall (fun a => a <> [] /\ NUL ∉ a) l ->
  format_loop vsnprintf fuel (fmt_strings (length l)) (map VaPtr l) args [] false
    = Ret (Some (args ++ l)).
Proof.
  revert fuel args. induction l as [|a l IH]; intros fuel args Hf Hl.
  { destruct fuel; [simpl in Hf; lia|]. simpl. by rewrite app_nil_r. }
  apply Forall_cons in Hl as [[Ha Hn] Hl].
  destruct fuel as [|[|fuel]]; [simpl in Hf; lia..|].
  destruct l as [|b l].
  - clear IH. change (fmt_strings (length [a])) with (bs "%s" ++ []).
    cbn [map]. by rewrite format_loop_string, format_loop_end.
  - cbn [length map]. rewrite fmt_strings_SS, format_loop_string, format_loop_blank by done.
    rewrite <- (length_cons b l). change (VaPtr b :: map VaPtr l) with (map VaPtr (b :: l)).
    rewrite IH by (try done; cbn [length] in *; lia). by rewrite <- app_assoc.
Qed.
End format.
