(* ===== verification/RedisStream.v ===== *)
(** The parser on a well-formed stream: commands serialized by
    [RedisCodec.v] are read back, in order and unchanged, however the stream is
    cut into chunks. *)
From S2P Require Import Pink Prelude Slash RedisParser RedisParserFacts RedisCodec RedisCodecFacts.

(** The bytes of a pipeline of commands. *)
Definition stream (cmds : list (list bytes)) : bytes := concat (map resp_command cmds).

Lemma stream_cons c cs : stream (c :: cs) = resp_command c ++ stream cs.
Proof. done. Qed.

(** * Cutting a line *)

Lemma line_cut (x y pre t : bytes) :
  x ++ y = pre ++ LF :: t -> LF ∉ pre ->
  (LF ∉ x) \/ (exists x', x = pre ++ LF :: x' /\ x' ++ y = t).
Proof.
  intros H Hn. replace (pre ++ LF :: t) with ((pre ++ [LF]) ++ t) in H by (by app_norm).
  apply app_eq_inv in H as [(k & -> & ->) | (k & Hk & ->)].
  - right. exists k. split; [by app_norm|done].
  - destruct k as [|z k _] using rev_ind.
    + right. exists []. rewrite app_nil_r in Hk. by subst.
    + left. rewrite app_assoc in Hk. apply app_inj_tail in Hk as [-> _].
      rewrite elem_of_app in Hn. tauto.
Qed.

(** A length line: type byte, decimal length, CR LF. *)
Definition len_line (c : ascii) (n : Z) : bytes := c :: to_dec n ++ [CR].

Lemma len_line_no_LF c n : c <> LF -> 0 <= n -> LF ∉ len_line c n.
Proof.
  intros Hc Hn. unfold len_line. rewrite elem_of_cons, elem_of_app, list_elem_of_singleton.
  intros [?|[?|?]]; [congruence|by apply to_dec_not_in in H|done].
Qed.

Lemma resp_bulk_line a t :
  resp_bulk a ++ t = len_line "$"%char (zlen a) ++ LF :: a ++ CRLF ++ t.
Proof. unfold resp_bulk, len_line, CRLF. by app_norm. Qed.

Lemma resp_command_line argv t :
  resp_command argv ++ t = len_line "*"%char (zlen argv) ++ LF :: resp_bulks argv ++ t.
Proof. unfold resp_command, len_line, CRLF. by app_norm. Qed.

(** The data of an argument is all there, or it is not. *)
Lemma data_cut (x y a t : bytes) :
  x ++ y = a ++ CRLF ++ t -> zlen a + 2 <= zlen x ->
  exists x', x = a ++ CRLF ++ x' /\ x' ++ y = t.
Proof.
  intros H Hl. rewrite app_assoc in H. assert (H2 : zlen CRLF = 2) by done.
  apply app_eq_inv in H as [(k & -> & ->) | (k & Hk & ->)].
  - exists k. by rewrite <- app_assoc.
  - assert (k = []) as ->.
    { apply (f_equal zlen) in Hk. autorewrite with zlen in Hk. apply zlen_zero. zlen_lia. }
    exists []. rewrite app_nil_r in Hk. rewrite app_nil_r, Hk. done.
Qed.

Section stream.
Context {SL : Slash} {SLL : SlashLaws SL} {U : Type}.
Implicit Types p : RedisParser U.

(** * One length line in the buffer *)

(** A type byte, the text [ds] of a number [v], CR LF. *)
Lemma text_line p c ds v x :
  buffered p -> LF ∉ c :: ds -> (forall rest, string2l (ds ++ rest) (zlen ds) = Some v) ->
  unread p = (c :: ds ++ [CR]) ++ LF :: x ->
  exists pos, FindNextSeparators p = Ret pos /\ pos <> -1 /\
    GetNextNum pos p = Some v /\ cur_pos p < pos /\
    pos + 1 = length_ p - zlen x /\ zdrop (pos + 1) (input_buf p) = x.
Proof.
  intros Hb Hc Hv Hu. pose proof (zlen_unread p Hb) as Hl. pose proof (buf_cur p Hb).
  exists (cur_pos p + zlen (c :: ds ++ [CR])).
  assert (Hpos : zlen (c :: ds ++ [CR]) = 2 + zlen ds) by zlen_lia.
  rewrite Hu in Hl. autorewrite with zlen in Hl.
  assert (Hdrop : forall k : bytes, zdrop (cur_pos p + zlen k) (input_buf p) = zdrop (zlen k) (unread p)).
  { intros k. unfold unread. rewrite zdrop_zdrop by zlen_lia. done. }
  split_and!; try zlen_lia.
  - unfold FindNextSeparators. rewrite (proj2 (Z.leb_le _ _)), unread_window, Hu by (done || lia).
    rewrite index_of_app; [done|]. rewrite not_elem_of_cons in *.
    rewrite elem_of_app, list_elem_of_singleton. split; [tauto|]. by intros [?|?]; [tauto|].
  - unfold GetNextNum.
    replace (cur_pos p + zlen (c :: ds ++ [CR]) - cur_pos p - 2) with (zlen ds) by lia.
    change (cur_pos p + 1) with (cur_pos p + zlen [c]).
    rewrite (Hdrop [c]), Hu. cbn [app].
    change (zdrop (zlen [c]) (c :: (ds ++ [CR]) ++ LF :: x))
      with ((ds ++ [CR]) ++ LF :: x). app_norm.
    pose proof (buf_max p Hb). pose proof (zlen_nonneg x). pose proof (zlen_nonneg ds).
    rewrite to_u64_id by clia. apply Hv.
  - replace (cur_pos p + zlen (c :: ds ++ [CR]) + 1) with
      (cur_pos p + zlen ((c :: ds ++ [CR]) ++ [LF])) by zlen_lia.
    rewrite Hdrop, Hu. replace ((c :: ds ++ [CR]) ++ LF :: x)
      with (((c :: ds ++ [CR]) ++ [LF]) ++ x) by (by app_norm). by rewrite zdrop_app.
Qed.

Lemma number_line p c n x :
  buffered p -> c <> LF -> 0 <= n <= LONG_MAX -> unread p = len_line c n ++ LF :: x ->
  exists pos, FindNextSeparators p = Ret pos /\ pos <> -1 /\
    GetNextNum pos p = Some n /\ cur_pos p < pos /\
    pos + 1 = length_ p - zlen x /\ zdrop (pos + 1) (input_buf p) = x.
Proof.
  intros Hb Hc Hn. apply text_line; [done| |].
  - rewrite not_elem_of_cons. split; [congruence|]. apply to_dec_not_in; [lia|done].
  - intros rest. by apply string2l_dec.
Qed.

(** The line's end is not in the buffer yet: wait for it. *)
Lemma no_line p : buffered p -> LF ∉ unread p -> FindNextSeparators p = Ret (-1).
Proof.
  intros Hb Hn. destruct (FindNextSeparators_spec p Hb) as [[H _]|(pre & post & H & _)]; [done|].
  rewrite H in Hn. set_solver.
Qed.

Lemma last_byte p (x : bytes) :
  buffered p -> length_ p - zlen x = cur_pos p -> (length_ p - 1 <? cur_pos p) = bool_decide (x = []).
Proof.
  intros Hb Hx. case_bool_decide as E.
  - subst. rewrite zlen_nil in Hx. apply Z.ltb_lt. lia.
  - apply Z.ltb_ge. destruct x; [done|]. zlen_lia.
Qed.

(** * The position of the parser in the stream *)

(** The commands [cmds] are still to come if the bytes from the cursor on
    are [s]. *)
Inductive expects p (s : bytes) (cmds : list (list bytes)) : Prop :=
  | ExIdle
      (_ : redis_type p = 0) (_ : multibulk_len p = 0) (_ : bulk_len p = -1)
      (_ : argv p = []) (_ : s = stream cmds)
  | ExHeader
      (_ : redis_type p = 2) (_ : multibulk_len p = 0) (_ : bulk_len p = -1)
      (_ : cmds <> []) (_ : s = stream cmds)
  | ExArgs rest cs
      (_ : redis_type p = 2) (_ : multibulk_len p = zlen rest) (_ : bulk_len p = -1)
      (_ : rest <> []) (_ : cmds = (argv p ++ rest) :: cs)
      (_ : s = resp_bulks rest ++ stream cs)
  | ExData a rest cs
      (_ : redis_type p = 2) (_ : multibulk_len p = 1 + zlen rest) (_ : bulk_len p = zlen a)
      (_ : cmds = (argv p ++ a :: rest) :: cs)
      (_ : s = a ++ CRLF ++ resp_bulks rest ++ stream cs).

(** Inside a command, past its header. *)
Definition in_args p : Prop := multibulk_len p <> 0.

Section future.
(** The bytes that have not arrived yet. *)
Context (fut : bytes).

Definition on_track p cmds : Prop :=
  expects p (unread p ++ fut) cmds /\ zlen (unread p ++ fut) <= INT_MAX.

(** [Half]: the unread bytes are cached, the position is kept. *)
Definition half_way p p' cmds : Prop :=
  advances p p' /\ status_code p' = kRedisParserHalf /\ error_code p' = kRedisParserOk /\
  expects p' (half_argv p' ++ fut) cmds /\ zlen (half_argv p' ++ fut) <= INT_MAX.

Lemma half_way_intro p p1 cmds :
  buffered p1 -> advances p p1 -> on_track p1 cmds ->
  half_way p (SetParserStatus kRedisParserHalf kRedisParserOk p1) cmds.
Proof.
  intros Hb Ha [He Hl]. unfold half_way. simpl. rewrite unread_window by done.
  split; [|split; [done|split; [done|split; [|done]]]].
  - destruct Ha, Hb. constructor; simpl; done || lia.
  - destruct He; [eapply ExIdle|eapply ExHeader|eapply ExArgs|eapply ExData]; done.
Qed.

Lemma on_track_bound p cmds (s : bytes) : on_track p cmds -> unread p ++ fut = s -> zlen s <= INT_MAX.
Proof. intros [_ H] <-. done. Qed.

(** The length line of the next argument: wait for it, or read it. *)
Lemma bulk_header_track p cmds :
  buffered p -> on_track p cmds -> redis_type p = 2 -> in_args p ->
  (exists p', bulk_header p = Ret (Returns p') /\ half_way p p' cmds) \/
  (exists p' a rest cs, bulk_header p = Ret (Continues p') /\ advances p p' /\
     redis_type p' = 2 /\ multibulk_len p' = 1 + zlen rest /\ bulk_len p' = zlen a /\
     cmds = (argv p' ++ a :: rest) :: cs /\
     unread p' ++ fut = a ++ CRLF ++ resp_bulks rest ++ stream cs /\
     zlen (unread p' ++ fut) <= INT_MAX).
Proof.
  intros Hb [He Hmax] Ht Hin. unfold bulk_header. unfold in_args in Hin.
  destruct He as [? ? ? ? ?|? ? ? ? ?|rest cs _ Hm Hk Hr Hc Hs|a rest cs _ Hm Hk Hc Hs]; [lia..| |].
  2:{ right. exists p, a, rest, cs. rewrite Hk, (proj2 (Z.eqb_neq _ _)) by zlen_lia.
      split_and!; try done. by apply advances_self. }
  destruct rest as [|a rest]; [done|].
  rewrite Hk. simpl. pose proof Hs as Hs0.
  rewrite resp_bulks_cons, <- app_assoc, resp_bulk_line in Hs.
  assert (Ha : 0 <= zlen a <= LONG_MAX).
  { rewrite Hs in Hmax. clear -Hmax. unfold len_line in Hmax. autorewrite with zlen in Hmax.
    zlen_pos. clia. }
  assert (HnL : LF ∉ len_line "$"%char (zlen a)) by (apply len_line_no_LF; [done|lia]).
  destruct (line_cut _ _ _ _ Hs HnL) as [Hn|(x & Hu & Hx)].
  - left. rewrite no_line by done. eexists. split; [done|].
    apply half_way_intro; [done|by apply advances_self|]. split; [|done].
    by eapply (ExArgs _ _ _ (a :: rest) cs).
  - destruct (number_line p "$"%char (zlen a) x Hb) as (pos & HF & Hp1 & HG & Hlt & Hend & Hdr);
      [done..|]. rewrite HF. simpl. rewrite (proj2 (Z.eqb_neq _ _)) by done.
    replace (nth 0 (unread p) NUL =?c "$"%char) with true by (by rewrite Hu). simpl.
    rewrite HG. simpl.
    set (p' := set_cur_pos _ _).
    assert (Hadv : advances p p').
    { pose proof (zlen_nonneg x). constructor; simpl; done || lia. }
    assert (Hb' : buffered p') by (by eapply advances_buffered).
    assert (Hu' : unread p' = x) by done.
    assert (Hmax' : zlen (unread p' ++ fut) <= INT_MAX).
    { rewrite Hu', Hx. rewrite Hs in Hmax. clear -Hmax. zlen_lia. }
    assert (Htr : expects p' (unread p' ++ fut) cmds).
    { eapply (ExData _ _ _ a rest cs); try done; [simpl; zlen_lia|by rewrite Hu', Hx]. }
    assert (HL : (length_ p - 1 <? pos + 1) = bool_decide (x = [])).
    { apply (last_byte p' x Hb'). simpl. lia. }
    rewrite HL. case_bool_decide.
    + left. eexists. split; [done|]. by apply half_way_intro.
    + right. exists p', a, rest, cs. split_and!; try done; [simpl; zlen_lia|by rewrite Hu', Hx].
Qed.

(** One argument moves from the buffer to [argv]. *)
Lemma take_bulk_track p a t :
  buffered p -> bulk_len p = zlen a -> unread p ++ fut = a ++ CRLF ++ t ->
  LONG_MIN < multibulk_len p -> zlen a + 2 <= length_ p - cur_pos p ->
  exists p', take_bulk p = Ret p' /\ advances p p' /\ redis_type p' = redis_type p /\
    multibulk_len p' = multibulk_len p - 1 /\ bulk_len p' = -1 /\
    argv p' = argv p ++ [a] /\ cur_pos p + 2 <= cur_pos p' /\ unread p' ++ fut = t.
Proof.
  intros Hb Hk Hu Hm Hlen. pose proof (zlen_unread p Hb) as Hz. pose proof (zlen_nonneg a).
  apply data_cut in Hu as (x & Hu & Hx); [|lia]. destruct Hb as [Hbl Hbc Hbm].
  unfold take_bulk, mk_string. rewrite Hk, (proj2 (Z.ltb_ge _ _)), (proj2 (Z.ltb_ge _ _)) by lia.
  simpl. rewrite (proj2 (Z.eqb_neq _ _)) by lia. eexists. split; [done|].
  rewrite to_i32_id by clia. split_and!; try done.
  - constructor; simpl; done || lia.
  - simpl. by rewrite Hu, ztake_app.
  - simpl. lia.
  - unfold unread in *. cbn.
    replace (cur_pos p + zlen a + 2) with (cur_pos p + (zlen a + 2)) by lia.
    rewrite <- zdrop_zdrop, Hu, app_assoc by lia.
    by rewrite zdrop_app by (rewrite zlen_app; done).
Qed.

(** The loop over the arguments: it waits for more bytes, or it stops with
    the whole command in [argv]. *)
Lemma multibulk_loop_track fuel p cmds :
  buffered p -> on_track p cmds -> redis_type p = 2 -> in_args p ->
  (Z.to_nat (length_ p - cur_pos p) < fuel)%nat ->
  (exists p', multibulk_loop fuel p = Ret (Returns p') /\ half_way p p' cmds) \/
  (exists p', multibulk_loop fuel p = Ret (Continues p') /\ advances p p' /\
     in_args p' /\ on_track p' cmds) \/
  (exists p' cs, multibulk_loop fuel p = Ret (Continues p') /\ advances p p' /\
     multibulk_len p' = 0 /\ cmds = argv p' :: cs /\
     unread p' ++ fut = stream cs /\ zlen (unread p' ++ fut) <= INT_MAX).
Proof.
  revert p. induction fuel as [|f IH]; intros p Hb Htr Ht Hin Hf; [lia|].
  rewrite multibulk_loop_S. unfold in_args in Hin.
  rewrite (proj2 (Z.eqb_neq _ _)) by done.
  destruct (bulk_header_track p cmds Hb Htr Ht Hin) as
    [(p1 & -> & Hh)|(p1 & a & rest & cs & -> & Ha & Ht1 & Hm1 & Hk1 & Hc & Hu & Hmax)];
    [left; by exists p1|]. simpl.
  assert (Hb1 : buffered p1) by (by eapply advances_buffered).
  pose proof (zlen_nonneg a) as Hna. pose proof (zlen_nonneg rest) as Hnr.
  assert (zlen a <= INT_MAX).
  { rewrite Hu in Hmax. clear -Hmax. zlen_lia. }
  rewrite (proj2 (Z.ltb_ge _ _)) by clia.
  destruct (length_ p1 - 1 - cur_pos p1 + 1 <? bulk_len p1 + 2) eqn:E; b2p.
  { right. left. exists p1. split_and!; [done|done|unfold in_args; lia|].
    split; [|done]. by apply (ExData _ _ _ a rest cs). }
  destruct (take_bulk_track p1 a (resp_bulks rest ++ stream cs)) as
    (p2 & -> & Ha2 & Ht2 & Hm2 & Hk2 & Hav & Hcp & Hu2); [done|done|done|clia|lia|]. simpl.
  assert (Hb2 : buffered p2) by (by eapply advances_buffered).
  assert (Hadv : advances p p2) by (by eapply advances_trans).
  assert (Hmax2 : zlen (unread p2 ++ fut) <= INT_MAX).
  { rewrite Hu2. rewrite Hu in Hmax. clear -Hmax. zlen_lia. }
  destruct rest as [|b rest].
  - (* the last argument: the next test ends the loop *)
    right. right. exists p2, cs. rewrite zlen_nil in Hm1.
    destruct f as [|f]; [destruct Ha, Ha2, Hb2; pose proof (zlen_unread p2); lia|].
    rewrite multibulk_loop_S, (proj2 (Z.eqb_eq _ _)) by lia. split_and!; try done; [lia|].
    by rewrite Hav, Hc.
  - assert (Htr2 : on_track p2 cmds).
    { split; [|done]. apply (ExArgs _ _ _ (b :: rest) cs); try done; [congruence|lia|].
      by rewrite Hav, Hc, <- app_assoc. }
    destruct (IH p2) as [(p3 & -> & Hh)|[(p3 & -> & Ha3 & Hr)|(p3 & cs' & -> & Ha3 & Hr)]];
      try done; [congruence|unfold in_args; zlen_lia|..].
    + destruct Ha, Ha2, Hb1, Hb. lia.
    + left. exists p3. split; [done|]. destruct Hh as [Hh ?]. split; [|done].
      by eapply advances_trans.
    + right. left. exists p3. split_and!; try done; [by eapply advances_trans|tauto..].
    + right. right. exists p3, cs'. split; [done|]. split; [by eapply advances_trans|done].
Qed.

(** The [*N] header. *)
Lemma multibulk_header_track p cmds :
  buffered p -> on_track p cmds -> redis_type p = 2 -> Forall (fun c => c <> []) cmds ->
  (exists p', multibulk_header p = Ret (Returns p') /\ half_way p p' cmds) \/
  (exists p', multibulk_header p = Ret (Continues p') /\ advances p p' /\
     redis_type p' = 2 /\ in_args p' /\ on_track p' cmds).
Proof.
  intros Hb [He Hmax] Ht Hne. unfold multibulk_header.
  destruct (multibulk_len p =? 0) eqn:E; b2p.
  2:{ right. exists p. split_and!; try done. by apply advances_self. }
  destruct He as [? ? ? ? ?|_ _ Hk Hcs Hs|rest cs _ Hm _ Hr _ _|a rest cs _ Hm _ _ _];
    [congruence| |by destruct rest; [|zlen_lia]|zlen_lia].
  destruct cmds as [|c cs]; [done|]. apply Forall_cons in Hne as [Hc Hne].
  pose proof Hs as Hs0. rewrite stream_cons, resp_command_line in Hs.
  pose proof (zlen_argv_le c) as Hle. pose proof (zlen_nonneg c).
  assert (Hn : zlen c <= INT_MAX).
  { rewrite Hs in Hmax. clear -Hmax Hle. unfold len_line in Hmax.
    autorewrite with zlen in Hmax. zlen_pos. clia. }
  assert (HnL : LF ∉ len_line "*"%char (zlen c)) by (by apply len_line_no_LF).
  destruct (line_cut _ _ _ _ Hs HnL) as [HnLF|(x & Hu & Hx)].
  { left. rewrite no_line by done. eexists. split; [done|].
    apply half_way_intro; [done|by apply advances_self|]. split; [|done].
    by apply ExHeader. }
  destruct (number_line p "*"%char (zlen c) x Hb) as (pos & HF & Hp1 & HG & Hlt & Hend & Hdr);
    [done|clia|done|]. rewrite HF. simpl. rewrite (proj2 (Z.eqb_neq _ _)) by done.
  rewrite HG. simpl. set (p' := set_argv _ _).
  assert (Hadv : advances p p').
  { pose proof (zlen_nonneg x). constructor; simpl; done || lia. }
  assert (Hb' : buffered p') by (by eapply advances_buffered).
  assert (Hu' : unread p' = x) by done.
  assert (Htr : on_track p' (c :: cs)).
  { split; [|rewrite Hu', Hx; rewrite Hs in Hmax; clear -Hmax; zlen_lia].
    apply (ExArgs _ _ _ c cs); try done. by rewrite Hu'. }
  assert (HL : (length_ p - 1 <? pos + 1) = bool_decide (x = [])).
  { apply (last_byte p' x Hb'). simpl. lia. }
  rewrite HL. case_bool_decide.
  - left. eexists. split; [done|]. by apply half_way_intro.
  - right. exists p'. split_and!; try done. unfold in_args. simpl.
    destruct c; [done|]. zlen_lia.
Qed.

Lemma ProcessMultibulkBuffer_track p cmds :
  buffered p -> on_track p cmds -> redis_type p = 2 -> Forall (fun c => c <> []) cmds ->
  (exists p', ProcessMultibulkBuffer p = Ret p' /\ half_way p p' cmds) \/
  (exists p' cs, ProcessMultibulkBuffer p = Ret p' /\ advances p p' /\
     status_code p' = kRedisParserDone /\ cmds = argv p' :: cs /\
     unread p' ++ fut = stream cs /\ zlen (unread p' ++ fut) <= INT_MAX).
Proof.
  intros Hb Htr Ht Hne. unfold ProcessMultibulkBuffer.
  destruct (multibulk_header_track p cmds) as [(p1 & -> & Hh)|(p1 & -> & Ha & Ht1 & Hin & Htr1)];
    [done..|left; by exists p1|]. simpl.
  assert (Hb1 : buffered p1) by (by eapply advances_buffered).
  destruct (multibulk_loop_track (multibulk_fuel p1) p1 cmds) as
    [(p2 & -> & Hh)|[(p2 & -> & Ha2 & Hin2 & Htr2)|(p2 & cs & -> & Ha2 & Hm2 & Hc & Hu)]];
    try done; [unfold multibulk_fuel; lia|..]; simpl.
  - left. exists p2. split; [done|]. destruct Hh as [Hh ?]. split; [|done].
    by eapply advances_trans.
  - left. rewrite (proj2 (Z.eqb_neq _ _)) by done. eexists. split; [done|].
    apply half_way_intro; [by eapply advances_buffered|by eapply advances_trans|done].
  - right. rewrite (proj2 (Z.eqb_eq _ _)) by done. eexists _, cs. split; [done|].
    assert (Hadv : advances p p2) by (by eapply advances_trans).
    split; [by destruct Hadv|done].
Qed.

(** The bytes of a command are consumed when it is complete. *)
Lemma expects_longer p s c cs : expects p s (c :: cs) -> zlen (stream cs) < zlen s.
Proof.
  intros [? ? ? ? ->|? ? ? ? ->|rest cs' ? ? ? Hr Hc ->|a rest cs' ? ? ? Hc ->].
  1,2: rewrite stream_cons, zlen_app, zlen_resp_command; zlen_lia.
  - injection Hc as -> ->. destruct rest; [done|].
    rewrite resp_bulks_cons. unfold resp_bulk. zlen_lia.
  - injection Hc as -> ->. unfold CRLF. zlen_lia.
Qed.

Lemma parse_command_track p cmds :
  buffered p -> on_track p cmds -> unread p <> [] -> Forall (fun c => c <> []) cmds ->
  (exists p', parse_command p = Ret (kRedisParserHalf, p') /\ same_input p p' /\
     argvs p' = argvs p /\ status_code p' = kRedisParserHalf /\
     expects p' (half_argv p' ++ fut) cmds /\ zlen (half_argv p' ++ fut) <= INT_MAX) \/
  (exists p' cs, parse_command p = Ret (kRedisParserDone, p') /\ same_input p p' /\
     argvs p' = argvs p /\ buffered p' /\ cmds = argv p' :: cs /\ argv p' <> [] /\
     unread p' ++ fut = stream cs /\ zlen (unread p' ++ fut) <= INT_MAX /\
     cur_pos p < cur_pos p').
Proof.
  intros Hb [He Hmax] Hun Hne. unfold parse_command.
  assert (exists p1, choose_type p = p1 /\ buffered p1 /\ same_input p p1 /\
    argvs p1 = argvs p /\ redis_type p1 = 2 /\ cur_pos p1 = cur_pos p /\
    unread p1 = unread p /\ expects p1 (unread p ++ fut) cmds)
    as (p1 & -> & Hb1 & Hsi & Hav & Ht & Hcur & Hu1 & He1).
  { unfold choose_type. destruct (redis_type p =? 0) eqn:E; b2p.
    - destruct He as [? Hm Hk Ha Hs|? ? ? ? ?|? ? ? ? ? ? ? ?|? ? ? ? ? ? ? ?]; [|lia..].
      assert (Hstar : exists x, unread p = "*"%char :: x /\ cmds <> []).
      { destruct cmds as [|c cs]; [by apply app_eq_nil in Hs as [? _]|].
        destruct (unread p) as [|z x]; [done|]. injection Hs as -> _. by exists x. }
      destruct Hstar as (x & Hx & Hcs). 
      replace (nth 0 (unread p) NUL =?c "*"%char) with true by (by rewrite Hx).
      eexists. split; [done|]. destruct Hb. split; [by constructor|].
      split; [by constructor|]. split_and!; try done. by apply ExHeader.
    - exists p. split_and!; try done. destruct He; done || lia. }
  rewrite Ht. simpl.
  destruct (ProcessMultibulkBuffer_track p1 cmds) as
    [(p2 & -> & Ha & Hst & _ & He2 & Hm2)|(p2 & cs & -> & Ha & Hst & Hc & Hu & Hm2)];
    try done; [by rewrite <- Hu1 in *|..]; simpl; rewrite Hst.
  - left. exists p2. split_and!; try done; [|destruct Ha; congruence].
    by eapply same_input_trans; [|apply advances_same].
  - right. exists p2, cs.
    assert (Hb2 : buffered p2) by (by eapply advances_buffered).
    split_and!; try done; [|destruct Ha; congruence| |].
    + by eapply same_input_trans; [|apply advances_same].
    + rewrite Hc in Hne. by apply Forall_cons in Hne as [? _].
    + rewrite Hc in He1. apply expects_longer in He1. rewrite <- Hu, <- Hu1 in He1.
      autorewrite with zlen in He1. rewrite !zlen_unread in He1 by done.
      destruct Ha. lia.
Qed.
End future.

(** * The request loop with callbacks that accept *)

Context (deal : RedisCmdArgsType -> U -> Z * U).
Context (comp : list RedisCmdArgsType -> U -> Z * U).
Hypothesis deal_accepts : forall c u, (deal c u).1 = 0.
Hypothesis comp_accepts : forall cs u, (comp cs u).1 = 0.

Definition callbacks : RedisParserSettings U :=
  {| DealMessage := Some deal; Complete := Some comp |}.

(** [DealMessage] on each command of [cs], in order. *)
Definition deals (cs : list (list bytes)) (u : U) : U :=
  fold_left (fun u c => (deal c u).2) cs u.

(** A group of commands: [DealMessage] on each, then [Complete] on all, with
    the names in lower case. *)
Definition run_group (u : U) (g : list (list bytes)) : U :=
  (comp (map lower_name g) (deals g u)).2.

Lemma deliver_accepts p u :
  parser_settings p = callbacks -> argv p <> [] ->
  deliver p u = (true, set_argv [] (set_argvs (argvs p ++ [argv p]) p), (deal (argv p) u).2).
Proof.
  intros Hset Ha. unfold deliver. destruct (argv p) as [|a cmd] eqn:E; [done|].
  simpl. rewrite Hset. simpl. pose proof (deal_accepts (a :: cmd) u) as H0.
  destruct (deal (a :: cmd) u) as [r u']. simpl in *. by rewrite H0.
Qed.

Lemma finish_accepts p u :
  parser_settings p = callbacks ->
  exists p', finish_request p u = (p', (comp (map lower_name (argvs p)) u).2) /\
    same_input p p' /\ argvs p' = [] /\ status_code p' = kRedisParserDone /\
    redis_type p' = redis_type p /\ half_argv p' = half_argv p /\
    multibulk_len p' = multibulk_len p /\ bulk_len p' = bulk_len p /\ argv p' = argv p.
Proof.
  intros Hset. unfold finish_request. rewrite Hset. simpl.
  pose proof (comp_accepts (map lower_name (argvs p)) u) as H0.
  destruct (comp (map lower_name (argvs p)) u) as [r u']. simpl in *. rewrite H0.
  eexists. split; [done|]. split; [by constructor|]. done.
Qed.

(** The loop hands over the commands [done_] that are complete in the buffer. *)
Lemma ProcessRequestBuffer_track fut fuel p u cmds :
  parser_settings p = callbacks -> buffered p -> on_track fut p cmds ->
  Forall (fun c => c <> []) cmds ->
  unread p <> [] \/ redis_type p = 0 /\ half_argv p = [] ->
  (Z.to_nat (length_ p - cur_pos p) < fuel)%nat ->
  exists done_ todo p' u', cmds = done_ ++ todo /\
    ProcessRequestBuffer fuel p u = Ret (p', u') /\
    parser_settings p' = callbacks /\
    expects p' (half_argv p' ++ fut) todo /\ zlen (half_argv p' ++ fut) <= INT_MAX /\
    (status_code p' = kRedisParserHalf /\ argvs p' = argvs p ++ done_ /\ u' = deals done_ u \/
     status_code p' = kRedisParserDone /\ argvs p' = [] /\
       u' = (comp (map lower_name (argvs p ++ done_)) (deals done_ u)).2).
Proof.
  revert p u cmds. induction fuel as [|f IH]; intros p u cmds Hset Hb Htr Hne Hun Hf; [lia|].
  rewrite ProcessRequestBuffer_S. destruct (cur_pos p <=? length_ p - 1) eqn:E; b2p.
  - assert (Hun' : unread p <> []).
    { intros H0. pose proof (zlen_unread p Hb) as Hz. rewrite H0, zlen_nil in Hz. lia. }
    destruct (parse_command_track fut p cmds) as
      [(p1 & -> & Hsi & Hav & Hst & He & Hm)|
       (p1 & cs & -> & Hsi & Hav & Hb1 & Hc & Ha & Hu & Hm & Hlt)]; try done.
    { exists [], cmds, p1, u. rewrite app_nil_r. destruct Hsi.
      split_and!; try done; [congruence|by left]. }
    cbn [obind]. rewrite bool_decide_eq_true_2 by done. cbn [negb].
    rewrite deliver_accepts by (destruct Hsi; congruence || done). cbn match.
    set (p2 := ResetCommandStatus _).
    assert (Hb2 : buffered p2) by (destruct Hb1; by constructor).
    destruct (IH p2 (deal (argv p1) u).2 cs) as
      (d & todo & p' & u' & Hcs & -> & Hset' & He' & Hm' & Hres).
    + destruct Hsi. simpl. congruence.
    + done.
    + split; [|done]. by apply ExIdle.
    + rewrite Hc in Hne. by apply Forall_cons in Hne as [_ ?].
    + by right.
    + destruct Hsi, Hb1. simpl. lia.
    + exists (argv p1 :: d), todo, p', u'. rewrite Hc, Hcs.
      simpl in Hres. rewrite Hav in Hres. cbn [app deals fold_left].
      rewrite <- app_assoc in Hres. by split_and!.
  - assert (Hu0 : unread p = []) by (apply unread_nil; [done|lia]).
    destruct Hun as [?|[Ht Hh]]; [done|]. destruct Htr as [He Hm]. rewrite Hu0 in He, Hm.
    destruct (finish_accepts p u Hset) as (p' & -> & Hsi & Hav & Hst & Ht' & Hh' & Hm' & Hk' & Ha').
    exists [], cmds, p', (comp (map lower_name (argvs p)) u).2.
    rewrite Hh', Hh, app_nil_r. destruct Hsi.
    split_and!; try done; [congruence| |by right].
    destruct He as [? ? ? ? ?|? ? ? ? ?|? ? ? ? ? ? ? ?|? ? ? ? ? ? ? ?]; [|lia..].
    apply ExIdle; congruence.
Qed.

(** * Feeding a connection *)

(** The chunks a connection delivers, one [ProcessInputBuffer] each. *)
Fixpoint feed (chunks : list bytes) (p : RedisParser U) (u : U) : outcome (RedisParser U * U) :=
  match chunks with
  | [] => Ret (p, u)
  | c :: cs => let! (_, p, u) := ProcessInputBuffer c p u in feed cs p u
  end.

(** A tail worth caching is not the rest of the stream. *)
Lemma waiting_expects_more p todo : waiting p -> ~ expects p (half_argv p ++ []) todo.
Proof.
  unfold waiting, tail_incomplete. rewrite app_nil_r.
  intros (_ & _ & _ & Ht & Hti & _)
    [? ? ? ? ?|? ? Hk ? Hs|rest cs ? ? Hk ? ? Hs|a rest cs ? ? Hk ? Hs]; [done|..];
    rewrite Hk in Hti; simpl in Hti.
  - destruct todo as [|c cs]; [done|]. rewrite stream_cons, resp_command_line in Hs.
    rewrite Hs in Hti. set_solver.
  - destruct rest as [|a rest]; [done|].
    rewrite resp_bulks_cons, <- app_assoc, resp_bulk_line in Hs. rewrite Hs in Hti. set_solver.
  - rewrite (proj2 (Z.eqb_neq _ _)) in Hti by zlen_lia.
    rewrite Hs in Hti. unfold CRLF in Hti. zlen_lia.
Qed.

Lemma ProcessInputBuffer_track chunk fut p u todo :
  idle p -> status_code p <> kRedisParserError -> parser_settings p = callbacks ->
  chunk <> [] -> expects p (half_argv p ++ chunk ++ fut) todo ->
  zlen (half_argv p ++ chunk ++ fut) <= INT_MAX -> Forall (fun c => c <> []) todo ->
  exists done_ todo' s p' u', todo = done_ ++ todo' /\
    ProcessInputBuffer chunk p u = Ret (s, p', u') /\ idle p' /\
    parser_settings p' = callbacks /\
    expects p' (half_argv p' ++ fut) todo' /\ zlen (half_argv p' ++ fut) <= INT_MAX /\
    (status_code p' = kRedisParserHalf /\ argvs p' = argvs p ++ done_ /\ u' = deals done_ u \/
     status_code p' = kRedisParserDone /\ argvs p' = [] /\
       u' = (comp (map lower_name (argvs p ++ done_)) (deals done_ u)).2).
Proof.
  intros Hi Hne Hset Hch He Hm Htd. rewrite app_assoc in He, Hm.
  assert (Hm1 : zlen (half_argv p ++ chunk) <= INT_MAX) by (clear -Hm; zlen_lia).
  pose proof (ProcessInputBuffer_wp chunk p u Hi Hch Hm1) as Hwp.
  destruct (idle_live p Hi Hne) as (_ & _ & Hlive). destruct Hi as [Hcur _ _ Hkind _].
  unfold ProcessInputBuffer in *. rewrite Hlive in *.
  set (p1 := set_length_ _ _) in *.
  assert (Hk1 : redis_parser_type p1 = REDIS_PARSER_REQUEST) by done.
  rewrite Hk1 in *. simpl in Hwp |- *.
  assert (Hlen1 : length_ p1 = zlen (half_argv p ++ chunk)).
  { simpl. apply to_i32_id. pose proof (zlen_nonneg (half_argv p ++ chunk)). clia. }
  assert (Hu1 : unread p1 = half_argv p ++ chunk).
  { unfold unread. simpl. by rewrite Hcur. }
  assert (Hb1 : buffered p1).
  { constructor; rewrite ?Hlen1; simpl; rewrite ?Hcur; try done.
    pose proof (zlen_nonneg (half_argv p ++ chunk)). lia. }
  destruct (ProcessRequestBuffer_track fut (S (length (half_argv p ++ chunk))) p1 u todo) as
    (d & todo' & p' & u' & Hd & HR & Hset' & He' & Hm' & Hres); try done.
  - split; rewrite Hu1; [|done]. destruct He;
      [eapply ExIdle|eapply ExHeader|eapply ExArgs|eapply ExData]; done.
  - left. rewrite Hu1. by destruct (half_argv p), chunk.
  - rewrite Hlen1. simpl. rewrite Hcur. unfold zlen. lia.
  - rewrite HR in Hwp |- *. simpl in Hwp |- *. destruct Hwp as (_ & Hidle & _).
    exists d, todo', (status_code p'), (ResetRedisParser p'), u'. split_and!; try done.
    destruct He'; [eapply ExIdle|eapply ExHeader|eapply ExArgs|eapply ExData]; done.
Qed.

(** All chunks of the rest of a stream. [u0] is the callbacks' object when the
    group in progress, [argvs p], began. *)
Lemma feed_track chunks p u u0 todo :
  idle p -> status_code p <> kRedisParserError -> parser_settings p = callbacks ->
  Forall (fun c => c <> []) chunks -> Forall (fun c => c <> []) todo ->
  expects p (half_argv p ++ concat chunks) todo ->
  zlen (half_argv p ++ concat chunks) <= INT_MAX ->
  u = deals (argvs p) u0 ->
  exists groups p' u', argvs p ++ todo = concat groups /\
    feed chunks p u = Ret (p', u') /\ idle p' /\
    status_code p' <> kRedisParserHalf /\ status_code p' <> kRedisParserError /\
    u' = fold_left run_group groups u0.
Proof.
  revert p u u0 todo. induction chunks as [|c cs IH]; intros p u u0 todo Hi Hne Hset Hch Htd He Hm Hu.
  - simpl in *. assert (Hnw : ~ waiting p) by (intros Hw; by apply (waiting_expects_more p todo Hw)).
    pose proof (idle_state p Hi) as Hst. destruct (status_code p) eqn:Es; try done;
      [|destruct Hst; done|].
    all: destruct Hst as (_ & (Ht & _ & _ & Hh & _) & Hav);
      destruct He as [_ _ _ _ Hs|? _ _ _ _|? ? ? _ _ _ _ _|? ? ? ? _ _ _ _]; [|lia..];
      exists [], p, u; rewrite Hav in Hu |- *; rewrite Hh in Hs;
      split_and!; try done; try congruence;
      destruct todo as [|t todo]; [done|]; by destruct t.
  - apply Forall_cons in Hch as [Hc Hch]. cbn [feed concat] in *.
    destruct (ProcessInputBuffer_track c (concat cs) p u todo) as
      (d & todo' & s & p' & u' & -> & -> & Hi' & Hset' & He' & Hm' & Hres); try done.
    apply Forall_app in Htd as [_ Htd']. cbn [obind].
    destruct Hres as [(Hst & Hav & ->)|(Hst & Hav & ->)].
    + destruct (IH p' (deals d u) u0 todo') as (gs & p2 & u2 & Hg & Hf & Hrest);
        try done; [by rewrite Hst| |].
      { rewrite Hav, Hu. unfold deals. by rewrite fold_left_app. }
      exists gs, p2, u2. rewrite app_assoc, <- Hav. by split_and!; try apply Hrest.
    + set (u1 := (comp _ _).2).
      destruct (IH p' u1 u1 todo') as (gs & p2 & u2 & Hg & Hf & Hi2 & Hh2 & He2 & Hu2);
        try done; [by rewrite Hst|by rewrite Hav|].
      exists ((argvs p ++ d) :: gs), p2, u2. rewrite Hav in Hg. cbn [concat app] in *.
      rewrite <- Hg, app_assoc. split_and!; try done. rewrite Hu2. cbn [fold_left]. f_equal.
      unfold u1, run_group. rewrite Hu. unfold deals. by rewrite fold_left_app.
Qed.

(** The parser of a new connection. *)
Definition connection_parser : RedisParser U :=
  (RedisParserInit REDIS_PARSER_REQUEST callbacks new_parser).2.

Lemma connection_parser_idle :
  idle connection_parser /\ status_code connection_parser = kRedisParserInitDone /\
  parser_settings connection_parser = callbacks.
Proof. by split_and!. Qed.
End stream.
