(* ===== verification/RedisTheorems.v ===== *)
(** The theorems on the redis protocol: the request parser and the command
    serializer, separately and together. *)
From S2P Require Import Pink Prelude Slash RedisParser RedisInline RedisParserFacts.
From S2P Require Import RedisCodec RedisCodecFacts RedisStream.

(** * Callbacks that record what they are given *)

(** [DealMessage] and [Complete] of a client that logs both. *)
Inductive event : Type :=
  | Dealt (cmd : RedisCmdArgsType)
  | Completed (cmds : list RedisCmdArgsType).

Definition log_deal (cmd : RedisCmdArgsType) (l : list event) : Z * list event :=
  (0, l ++ [Dealt cmd]).
Definition log_complete (cmds : list RedisCmdArgsType) (l : list event) : Z * list event :=
  (0, l ++ [Completed cmds]).

(** The parser of a new connection with these callbacks. *)
Definition logging_parser : RedisParser (list event) := connection_parser log_deal log_complete.

(** * Serialized commands come back *)

Lemma SerializeRedisCommand_inv argv r cmd :
  SerializeRedisCommand argv = Ret (r, cmd) -> cmd = resp_command argv.
Proof.
  unfold SerializeRedisCommand, redisFormatCommandArgv. intros H. obind_inv.
  apply build_command_spec.
Qed.

Lemma serialized_stream cmds outs :
  Forall2 (fun c out => SerializeRedisCommand c = Ret (REDIS_OK, out)) cmds outs ->
  concat outs = stream cmds.
Proof.
  induction 1 as [|c out cs outs Hc _ IH]; [done|].
  rewrite stream_cons, <- IH. cbn [concat]. f_equal. by eapply SerializeRedisCommand_inv.
Qed.

(** C1: a pipeline of non-empty commands, each serialized by
    [SerializeRedisCommand], cut anywhere into non-empty chunks and fed to a
    fresh connection's parser, is delivered whole: [DealMessage] sees every
    command once, in order and with its arguments unchanged; [Complete] sees the
    same commands in consecutive groups, with the names in lower case; the
    parser ends between two commands. *)
Theorem redis_pipeline_roundtrip {SL : Slash} {SLL : SlashLaws SL} {U} deal comp
    (Hdeal : forall c (u : U), (deal c u).1 = 0) (Hcomp : forall cs (u : U), (comp cs u).1 = 0)
    cmds outs chunks u :
  Forall2 (fun c out => SerializeRedisCommand c = Ret (REDIS_OK, out)) cmds outs ->
  Forall (fun c => c <> []) cmds -> Forall (fun c => c <> []) chunks ->
  concat chunks = concat outs -> zlen (concat outs) <= INT_MAX ->
  exists groups p, concat groups = cmds /\
    feed chunks (connection_parser deal comp) u = Ret (p, fold_left (run_group deal comp) groups u) /\
    (status_code p = kRedisParserDone \/ status_code p = kRedisParserInitDone) /\
    half_argv p = [] /\ argvs p = [].
Proof.
  intros Hser Hcs Hch Hcat Hlen. rewrite (serialized_stream _ _ Hser) in *.
  destruct (connection_parser_idle deal comp) as (Hi & Hst & Hset).
  destruct (feed_track deal comp Hdeal Hcomp chunks (connection_parser deal comp) u u cmds)
    as (gs & p & u' & Hg & Hf & Hi' & Hnh & Hne & Hu); try done; try (by rewrite Hcat).
  - rewrite Hcat. by apply ExIdle.
  - exists gs, p. rewrite <- Hu. split_and!; try done.
    all: pose proof (idle_state p Hi'); destruct (status_code p); tauto || (unfold clean in *; naive_solver).
Qed.

Lemma redis_pipeline_roundtrip_witness :
  exists groups p, concat groups = [[bs "SET"; bs "k"; bs ""]; [bs "PING"]] /\
    feed [bs "*3"; CR :: LF :: bs "$3"; CRLF ++ bs "SET" ++ CRLF ++ bs "$1" ++ CRLF ++ bs "k";
          CRLF ++ bs "$0" ++ CRLF ++ CRLF; bs "*1" ++ CRLF ++ bs "$4" ++ CRLF ++ bs "PIN";
          bs "G" ++ CRLF]
      logging_parser [] = Ret (p, fold_left (run_group log_deal log_complete) groups []) /\
    (status_code p = kRedisParserDone \/ status_code p = kRedisParserInitDone) /\
    half_argv p = [] /\ argvs p = [].
Proof.
  apply (redis_pipeline_roundtrip log_deal log_complete)
    with (outs := [resp_command [bs "SET"; bs "k"; bs ""]; resp_command [bs "PING"]]);
    try done; repeat constructor; done.
Defined.

(** * The parser is safe on any input *)

(** C5: on every input that is not empty, well formed or hostile, a call of
    [ProcessInputBuffer] between two calls either returns or stops in one of two ways:
    by [std::length_error] on a negative bulk length, or by the overflow of a length near
    [LONG_MAX]. It never reads outside its buffer and never loops. When it returns it
    leaves the class in a well-formed state that caches no more than it was given,
    returns that state's status and, once in the error state, refuses every further byte
    without calling back. Assertions are not counted on: the library is compiled without
    them. *)
Theorem ProcessInputBuffer_invariant {SL : Slash} {SLL : SlashLaws SL} {U}
    input (p : RedisParser U) u :
  idle p -> input <> [] -> zlen (half_argv p ++ input) <= INT_MAX ->
  match ProcessInputBuffer input p u with
  | Ret (s, p', u') => s = status_code p' /\ idle p' /\ parser_settings p' = parser_settings p /\
      (s <> kRedisParserError -> zlen (half_argv p') <= zlen (half_argv p ++ input)) /\
      (status_code p = kRedisParserError ->
         s = kRedisParserError /\ error_code p' = kRedisParserInitError /\ u' = u)
  | Fault f => f = LengthError \/ f = Overflow
  end.
Proof.
  intros Hi Hne Hl. pose proof (ProcessInputBuffer_wp input p u Hi Hne Hl) as H.
  by destruct (ProcessInputBuffer input p u) as [[[s p'] u']|f].
Qed.

Lemma ProcessInputBuffer_invariant_witness :
  match ProcessInputBuffer (bs "*2x" ++ CRLF) logging_parser [] with
  | Ret (s, p', u') => s = status_code p' /\ idle p' /\
      parser_settings p' = parser_settings logging_parser /\
      (s <> kRedisParserError -> zlen (half_argv p') <= zlen (half_argv logging_parser ++ bs "*2x" ++ CRLF)) /\
      (status_code logging_parser = kRedisParserError ->
         s = kRedisParserError /\ error_code p' = kRedisParserInitError /\ u' = [])
  | Fault f => f = LengthError \/ f = Overflow
  end.
Proof.
  apply ProcessInputBuffer_invariant; [apply connection_parser_idle|done|done].
Defined.

(** * Inline commands *)

(** C6: a line whose arguments are written as plain words or, for any bytes but the
    zero byte, in double quotes with quotes and backslashes escaped, separated by
    blanks, is split into exactly those arguments, whatever stands behind the zero byte
    that ends it; and a quoted argument that a zero byte cuts off is refused. *)
Theorem split2args_roundtrip lead ts tail argv :
  Forall blank lead -> Forall item_ok ts -> cstr tail = [] ->
  split2args (lead ++ items_text ts ++ tail) argv = Ret (Some (argv ++ items_args ts)) /\
  (forall a rest, (NUL ∉ a) -> split2args (DQUOTE :: concat (map escape a) ++ NUL :: rest) argv = Ret None).
Proof. intros Hl Hts Ht. split; [by apply split2args_items|]. intros a rest. apply split2args_unclosed. Qed.

Lemma split2args_roundtrip_witness :
  split2args ([SP] ++ items_text [(bs "set", bs "set", [SP]); (quote (bs "a b"), bs "a b", CRLF)] ++ NUL :: bs "more") []
  = Ret (Some ([] ++ items_args [(bs "set", bs "set", [SP]); (quote (bs "a b"), bs "a b", CRLF)])).
Proof.
  apply split2args_roundtrip; [by repeat constructor| |done]. repeat constructor; try done; by vm_compute; set_solver.
Defined.

(** The two digits of a hexadecimal escape in a double-quoted argument are
    not read as a number: every letter digit counts ten less than its value, so
    the escape of the letter J, 4A, is read as the byte 0x40. *)
Theorem hex_escape_letters h1 h2 :
  isxdigit h1 = true -> isxdigit h2 = true ->
  split2args (DQUOTE :: BACKSLASH :: "x"%char :: h1 :: h2 :: [DQUOTE]) [] =
    Ret (Some [[chr ((hex_value h1 - (if isdigit h1 then 0 else 10)) * 16 +
                     (hex_value h2 - (if isdigit h2 then 0 else 10)))]]).
Proof.
  intros H1 H2. unfold split2args. rewrite cstr_id.
  2:{ rewrite !not_elem_of_cons. split_and!; try done; try (by intros <-). set_solver. }
  rewrite split2args_loop_S, skip_blanks_plain by done.
  rewrite <- !HexDigitToInt32_spec by done.
  change (get_token false false [] ?p) with (get_token true false [] (drop 1 p)). simpl.
  by rewrite H1, H2.
Qed.

Lemma hex_escape_letters_witness :
  split2args (DQUOTE :: BACKSLASH :: "x"%char :: "4"%char :: "A"%char :: [DQUOTE]) [] =
    Ret (Some [[chr ((hex_value "4"%char - 0) * 16 + (hex_value "A"%char - 10))]]).
Proof. apply (hex_escape_letters "4"%char "A"%char); reflexivity. Defined.

(** One-word inline commands, as a pipelining client sends them. *)
Definition word_line (w : bytes) : bytes := w ++ CRLF.

Definition inline_word (w : bytes) : Prop :=
  w <> [] /\ Forall plain w /\ (NUL ∉ w) /\ head w <> Some "*"%char.

Fixpoint suffixes {A} (l : list A) : list (list A) :=
  match l with [] => [] | x :: l' => l :: suffixes l' end.

Lemma plain_not_LF w : Forall plain w -> LF ∉ w.
Proof. rewrite Forall_forall. intros H Hin. by destruct (H LF Hin) as [? _]. Qed.

Lemma inline_words_args ws :
  Forall inline_word ws -> split2args (concat (map word_line ws)) [] = Ret (Some ws).
Proof.
  intros Hws. assert (concat (map word_line ws) = [] ++ items_text (map (fun w => (w, w, CRLF)) ws) ++ []) as ->.
  { unfold items_text. by rewrite map_map, app_nil_r. }
  rewrite split2args_items; [|done| |done].
  - unfold items_args. by rewrite map_map, map_id.
  - rewrite Forall_map. eapply Forall_impl; [done|]. intros w (Hne & Hp & Hn & _).
    split_and!; [by constructor|done|by repeat constructor].
Qed.
Section inline.
Context {SL : Slash}.
Implicit Types p : RedisParser (list event).

(** One inline command: its line ends the command, but its arguments are the
    tokens of all the bytes in hand. *)
Lemma inline_step p w ws :
  buffered p -> redis_type p = 0 -> Forall inline_word (w :: ws) ->
  unread p = concat (map word_line (w :: ws)) ->
  exists p', parse_command p = Ret (kRedisParserDone, p') /\ advances (choose_type p) p' /\
    argv p' = w :: ws /\ cur_pos p < cur_pos p' /\ unread p' = concat (map word_line ws).
Proof.
  intros Hb Ht Hws Hu. pose proof (inline_words_args _ Hws) as Hargs.
  apply Forall_cons in Hws as [(Hne & Hp & _ & Hstar) _].
  unfold parse_command, choose_type. rewrite Ht. simpl.
  assert ((nth 0 (unread p) NUL =?c "*"%char) = false) as Hns.
  { rewrite Hu. destruct w as [|c w]; [done|]. cbn in *. apply ceq_neq. congruence. }
  rewrite Hns. set (p1 := set_redis_type _ p).
  assert (Hb1 : buffered p1) by (destruct Hb; by constructor).
  assert (Hu1 : unread p1 = (w ++ [CR]) ++ LF :: concat (map word_line ws)).
  { change (unread p1) with (unread p). rewrite Hu. cbn [map concat].
    unfold word_line at 1, CRLF. by app_norm. }
  assert (HF : FindNextSeparators p1 = Ret (cur_pos p1 + zlen (w ++ [CR]))).
  { unfold FindNextSeparators. pose proof (buf_cur p1 Hb1).
    rewrite (proj2 (Z.leb_le _ _)), unread_window, Hu1, index_of_app; [done| |done|lia].
    rewrite elem_of_app, list_elem_of_singleton. intros [?|?]; [by eapply plain_not_LF|done]. }
  pose proof (zlen_unread p1 Hb1) as Hl. rewrite Hu1, zlen_app, zlen_cons in Hl.
  simpl. unfold ProcessInlineBuffer. rewrite HF. cbn [obind].
  pose proof (buf_cur p1 Hb1). pose proof (zlen_nonneg (w ++ [CR])).
  pose proof (zlen_nonneg (concat (map word_line ws))).
  rewrite (proj2 (Z.eqb_neq _ _)) by lia.
  change (unread p1) with (unread p). rewrite Hu, Hargs. simpl.
  eexists. split; [done|]. split_and!; simpl; try done; [constructor; simpl in *; done || lia|lia|].
  change (zdrop (cur_pos p + zlen (w ++ [CR]) + 1) (input_buf p) = concat (map word_line ws)).
  replace (cur_pos p + _ + 1) with (cur_pos p + zlen ((w ++ [CR]) ++ [LF])) by zlen_lia.
  pose proof (zlen_nonneg ((w ++ [CR]) ++ [LF])).
  rewrite <- zdrop_zdrop by (simpl in *; lia). fold (unread p).
  change (unread p) with (unread p1). rewrite Hu1.
  replace ((w ++ [CR]) ++ LF :: concat (map word_line ws))
    with (((w ++ [CR]) ++ [LF]) ++ concat (map word_line ws)) by (by app_norm).
  by apply zdrop_app.
Qed.
End inline.

(** The events of a run of [ProcessInputBuffer] over one-word lines: one command
    per line, which takes the words of the following lines too. *)
Definition inline_events (ws : list bytes) : list event :=
  map Dealt (suffixes ws) ++ [Completed (map lower_name (suffixes ws))].

Section inline.
Context {SL : Slash}.
Implicit Types p : RedisParser (list event).

Lemma inline_loop fuel ws p l :
  buffered p -> redis_type p = 0 -> Forall inline_word ws ->
  unread p = concat (map word_line ws) -> (length ws < fuel)%nat ->
  parser_settings p = parser_settings logging_parser ->
  exists p', ProcessRequestBuffer fuel p l =
    Ret (p', l ++ map Dealt (suffixes ws) ++
             [Completed (map lower_name (argvs p ++ suffixes ws))]) /\
    status_code p' = kRedisParserDone.
Proof.
  revert ws p l. induction fuel as [|f IH]; intros ws p l Hb Ht Hws Hu Hf Hset; [lia|].
  rewrite ProcessRequestBuffer_S. pose proof (zlen_unread p Hb) as Hl. rewrite Hu in Hl.
  destruct ws as [|w ws].
  - change (0 = length_ p - cur_pos p) in Hl. rewrite (proj2 (Z.leb_gt _ _)) by lia.
    unfold finish_request. rewrite Hset. simpl. rewrite app_nil_r. by eexists.
  - destruct (inline_step p w ws) as (p1 & HP & Ha & Hav & _ & Hu1); [done..|].
    assert (Hpos : cur_pos p < length_ p).
    { cbn [map concat] in Hl. unfold word_line at 1, CRLF in Hl. clear -Hl. zlen_lia. }
    rewrite (proj2 (Z.leb_le _ _)) by lia. rewrite HP. simpl.
    assert (Hset1 : parser_settings p1 = parser_settings p /\ argvs p1 = argvs p).
    { destruct Ha as [_ _ _ -> _ -> _]. by unfold choose_type; destruct (redis_type p =? 0). }
    destruct Hset1 as [Hset1 Hargvs]. unfold deliver. rewrite Hav. simpl. rewrite Hset1, Hset. simpl.
    assert (Hb1 : buffered p1).
    { eapply advances_buffered; [|done]. unfold choose_type. rewrite Ht. simpl.
      destruct Hb. by constructor. }
    apply Forall_cons in Hws as [_ Hws].
    destruct (IH ws (ResetCommandStatus (set_argv [] (set_argvs (argvs p1 ++ [w :: ws]) p1)))
      (l ++ [Dealt (w :: ws)])) as (p' & -> & Hst); try done.
    + destruct Hb1. by constructor.
    + simpl in Hf. lia.
    + by rewrite <- Hset, <- Hset1.
    + exists p'. split; [|done]. simpl. rewrite Hargvs.
      by rewrite <- !app_assoc.
Qed.
End inline.

(** Pipelined inline commands are not separated by their line ends. The
    tokenizer runs on all the bytes in hand, but only the first line is consumed,
    so of one-word lines w1, w2, ... received together the i-th command delivered
    is [wi w(i+1) ...], not [wi]. *)
Theorem inline_pipeline_overreads {SL : Slash} ws l :
  ws <> [] -> Forall inline_word ws -> zlen (concat (map word_line ws)) <= INT_MAX ->
  exists p, ProcessInputBuffer (concat (map word_line ws)) logging_parser l =
    Ret (kRedisParserDone, p, l ++ inline_events ws).
Proof.
  intros Hne Hws Hl. unfold ProcessInputBuffer. simpl.
  set (input := concat _) in *. set (p1 := set_length_ _ _).
  assert (Hlen : length_ p1 = zlen input) by (simpl; apply to_i32_id; zlen_pos; clia).
  destruct (inline_loop (S (length input)) ws p1 l) as (p' & -> & Hst); try done.
  - constructor; rewrite ?Hlen; simpl; zlen_pos; done || lia.
  - assert (length ws <= length input)%nat; [|lia]. unfold input. clear.
    induction ws as [|w ws IH]; [done|]. cbn [map concat length]. rewrite length_app.
    unfold word_line at 1. rewrite length_app. simpl. lia.
  - simpl. rewrite Hst. by eexists.
Qed.

Lemma inline_pipeline_overreads_witness :
  exists p, ProcessInputBuffer (bs "PING" ++ CRLF ++ bs "INFO" ++ CRLF) logging_parser [] =
    Ret (kRedisParserDone, p,
      [Dealt [bs "PING"; bs "INFO"]; Dealt [bs "INFO"];
       Completed [[bs "ping"; bs "INFO"]; [bs "info"]]]).
Proof.
  apply (inline_pipeline_overreads [bs "PING"; bs "INFO"] []); [done| |done].
  repeat constructor; try done; vm_compute; set_solver.
Defined.

(** * Hostile lengths *)

Section negative.
Context {SL : Slash} {SLL : SlashLaws SL} {U : Type}.
Implicit Types p : RedisParser U.

(** One argument announced with a negative length. *)
Definition negative_bulk (n : Z) : bytes := "$"%char :: "-"%char :: to_dec n ++ CRLF.

Lemma negative_bulk_loop fuel p n t :
  buffered p -> multibulk_len p = 1 -> bulk_len p = -1 -> 0 < n <= LONG_MAX -> t <> [] ->
  unread p = negative_bulk n ++ t ->
  multibulk_loop (S fuel) p = Fault LengthError.
Proof.
  intros Hb Hm Hk Hn Ht Hu. rewrite multibulk_loop_S, Hm. simpl. unfold bulk_header. rewrite Hk. simpl.
  destruct (text_line p "$"%char ("-"%char :: to_dec n) (- n) t) as
    (pos & -> & Hpos & HG & Hlt & Hend & Hdr); try done.
  { rewrite !not_elem_of_cons. split_and!; try done. apply to_dec_not_in; [lia|done]. }
  { intros rest. rewrite zlen_cons. by apply string2l_neg. }
  { rewrite Hu. unfold negative_bulk, CRLF. by app_norm. }
  cbn [obind]. rewrite (proj2 (Z.eqb_neq _ _)) by done.
  replace (nth 0 (unread p) NUL =?c "$"%char) with true by (by rewrite Hu).
  cbn [negb]. rewrite HG. cbn [obind].
  assert (0 < zlen t) by (destruct t; [done|zlen_lia]).
  rewrite (proj2 (Z.ltb_ge _ _)) by (simpl; lia). simpl.
  rewrite !(proj2 (Z.ltb_ge _ _)) by (clia || (simpl; lia)).
  unfold take_bulk, mk_string. simpl. by rewrite (proj2 (Z.ltb_lt _ _)) by lia.
Qed.
End negative.

(** A client can abort the server. Any request that announces a bulk of
    negative length and goes on by one byte at least makes [ProcessInputBuffer]
    construct a [std::string] of a negative size: [std::length_error], which
    nothing in the library catches. *)
Theorem negative_bulk_aborts {SL : Slash} {SLL : SlashLaws SL} {U} (p : RedisParser U) u n c t :
  idle p -> status_code p = kRedisParserInitDone \/ status_code p = kRedisParserDone ->
  0 < n <= LONG_MAX -> zlen ((bs "*1" ++ CRLF) ++ negative_bulk n ++ c :: t) <= INT_MAX ->
  ProcessInputBuffer ((bs "*1" ++ CRLF) ++ negative_bulk n ++ c :: t) p u = Fault LengthError.
Proof.
  intros Hi Hst Hn Hl. set (input := (bs "*1" ++ CRLF) ++ _) in *.
  assert (Hcl : clean p /\ argvs p = []).
  { pose proof (idle_state p Hi) as H. destruct Hst as [Hst|Hst]; rewrite Hst in H; tauto. }
  destruct Hcl as ((Ht & Hm & Hk & Hh & Ha) & _). destruct Hi as [Hcur _ _ Hkind _].
  unfold ProcessInputBuffer.
  replace (_ || _ || _) with true by (by destruct Hst as [-> | ->]).
  rewrite Hh. cbn [app]. set (p1 := set_length_ _ _). simpl redis_parser_type. rewrite Hkind. simpl.
  assert (Hlen : length_ p1 = zlen input) by (simpl; apply to_i32_id; zlen_pos; clia).
  assert (Hb1 : buffered p1).
  { constructor; rewrite ?Hlen; simpl; rewrite ?Hcur; zlen_pos; done || lia. }
  assert (Hu1 : unread p1 = input) by (unfold unread; simpl; by rewrite Hcur).
  assert (Hpos : 0 < zlen input) by (unfold input; zlen_lia).
  rewrite ProcessRequestBuffer_S. replace (cur_pos p1) with 0 by done.
  rewrite (proj2 (Z.leb_le _ _)) by lia.
  unfold parse_command, choose_type. replace (redis_type p1) with 0 by done. cbn [Z.eqb].
  rewrite Hu1. set (p2 := set_redis_type _ p1).
  replace (redis_type p2) with 2 by done. simpl (2 =? _). cbv iota.
  unfold ProcessMultibulkBuffer, multibulk_header. replace (multibulk_len p2) with 0 by done.
  assert (Hb2 : buffered p2) by (destruct Hb1; by constructor).
  destruct (number_line p2 "*"%char 1 (negative_bulk n ++ c :: t)) as
    (pos & -> & Hp & HG & Hlt & Hend & Hdr); try done.
  cbn [obind Z.eqb]. rewrite (proj2 (Z.eqb_neq _ _)) by done. rewrite HG. cbn [obind].
  assert (0 < zlen (negative_bulk n ++ c :: t)) by (unfold negative_bulk; zlen_lia).
  rewrite (proj2 (Z.ltb_ge _ _)) by (simpl in *; lia).
  cbn [obind]. unfold multibulk_fuel.
  rewrite (negative_bulk_loop _ _ n (c :: t)); [done| |done|done|done|done|].
  - destruct Hb2. constructor; simpl in *; done || lia.
  - done.
Qed.

Lemma negative_bulk_aborts_witness :
  ProcessInputBuffer (bs "*1" ++ CRLF ++ bs "$-7" ++ CRLF ++ bs "x") logging_parser [] = Fault LengthError.
Proof.
  apply (negative_bulk_aborts logging_parser [] 7 "x"%char []);
    [apply connection_parser_idle|by left|done|by vm_compute].
Defined.

(** * The serializer *)



(** Directives that append nothing. An escaped percent sign, which printf and
    the original of this code print as one, is dropped: text around it is glued
    together, and without text before it the call fails. An empty string argument
    makes the call fail too, so no command with an empty argument can be
    formatted; on failure nothing is written. *)
Theorem format_empty_directives vsnprintf (a b : bytes) ap :
  Forall literal a -> Forall literal b -> a <> [] -> b <> [] ->
  zlen (resp_command [a ++ b]) <= INT_MAX ->
  redisvFormatCommand vsnprintf (a ++ bs "%%" ++ b) ap =
    Ret (zlen (resp_command [a ++ b]), Some (resp_command [a ++ b])) /\
  redisvFormatCommand vsnprintf (bs "%%" ++ b) ap = Ret (REDIS_ERR, None) /\
  redisvFormatCommand vsnprintf (a ++ bs " %s") (VaPtr [] :: ap) = Ret (REDIS_ERR, None).
Proof.
  intros Ha Hb Hna Hnb Hl. split_and!.
  - apply redisvFormatCommand_args; [|done].
    replace (S (length (a ++ bs "%%" ++ b))) with (length a + (1 + (length b + 2)))%nat
      by (rewrite !length_app; simpl; lia).
    rewrite format_loop_text by done. cbn [Nat.add]. rewrite format_loop_percent by done.
    rewrite <- (app_nil_r b) at 2. rewrite format_loop_text by done. by rewrite format_loop_end.
  - unfold redisvFormatCommand. done.
  - unfold redisvFormatCommand.
    replace (S (length (a ++ bs " %s"))) with (length a + 4)%nat by (rewrite length_app; simpl; lia).
    rewrite format_loop_text by done. done.
Qed.

Lemma format_empty_directives_witness :
  redisvFormatCommand (fun _ _ => []) (bs "50%%off") [] =
    Ret (15, Some (resp_command [bs "50off"])) /\
  redisvFormatCommand (fun _ _ => []) (bs "%%off") [] = Ret (REDIS_ERR, None) /\
  redisvFormatCommand (fun _ _ => []) (bs "50 %s") [VaPtr []] = Ret (REDIS_ERR, None).
Proof.
  apply (format_empty_directives (fun _ _ => []) (bs "50") (bs "off") []); try done;
    repeat constructor; done.
Defined.
