(* ===== verification/PinkCli.v ===== *)
(** [pink/include/pink_cli.h] and [pink/src/pink_cli.cc]: the base class of the
    clients. [Connect] is modelled on a script of what the kernel answers for
    each address of the host; [SendRaw] and [RecvRaw] on the socket of [Sys.v]. *)
From S2P Require Import Pink Prelude Sys.

(** * The state *)

Record Rep : Type := mkRep {
  peer_ip : bytes;
  peer_port : Z;
  send_timeout : Z;
  recv_timeout : Z;
  connect_timeout : Z;
  keep_alive : bool;
  is_block : bool;
  sockfd : Z;
  available : bool
}.

Definition new_Rep (ip : bytes) (port : Z) : Rep :=
  {| peer_ip := ip; peer_port := port; send_timeout := 0; recv_timeout := 0;
     connect_timeout := 1000; keep_alive := false; is_block := true; sockfd := -1;
     available := false |}.

Definition set_sockfd (fd : Z) (r : Rep) : Rep :=
  {| peer_ip := peer_ip r; peer_port := peer_port r; send_timeout := send_timeout r;
     recv_timeout := recv_timeout r; connect_timeout := connect_timeout r;
     keep_alive := keep_alive r; is_block := is_block r; sockfd := fd;
     available := available r |}.

Definition set_available (b : bool) (r : Rep) : Rep :=
  {| peer_ip := peer_ip r; peer_port := peer_port r; send_timeout := send_timeout r;
     recv_timeout := recv_timeout r; connect_timeout := connect_timeout r;
     keep_alive := keep_alive r; is_block := is_block r; sockfd := sockfd r;
     available := b |}.

Definition Available (r : Rep) : bool := available r.

(** [fd()] *)
Definition cli_fd (r : Rep) : Z := sockfd r.

(** * Connecting *)

(** [poll] on the connecting socket, then [getsockopt(SO_ERROR)]: [None] is its
    -1, otherwise the pending error. *)
Inductive poll_answer : Type :=
  | PollFails
  | PollExpires
  | PollReady (so_error : option Z).

Inductive connect_answer : Type :=
  | Connected
  | Unreachable                     (** [EHOSTUNREACH] *)
  | InProgress (p : poll_answer)    (** [EINPROGRESS], [EAGAIN], [EWOULDBLOCK] *)
  | Refused.                        (** any other [errno] *)

(** What the kernel answers for one address: the descriptor of [socket], or
    [None]; the outcome of [connect]; the local address of [getsockname]. *)
Record address : Type := {
  a_socket : option Z;
  a_connect : connect_answer;
  a_local : bytes * Z
}.

(** The process-wide effects of a call. *)
Record kernel : Type := mkKernel {
  open_fds : list Z;      (** open descriptors *)
  nonblocking : list Z;   (** those with [O_NONBLOCK] *)
  nodelay : list Z;       (** those with [TCP_NODELAY] *)
  addrinfos : Z           (** address lists not given to [freeaddrinfo] *)
}.

Definition drop_fd (fd : Z) (l : list Z) : list Z := filter (fun x => x <> fd) l.

Definition k_open (fd : Z) (k : kernel) : kernel :=
  mkKernel (fd :: open_fds k) (nonblocking k) (nodelay k) (addrinfos k).
Definition k_close (fd : Z) (k : kernel) : kernel :=
  mkKernel (drop_fd fd (open_fds k)) (drop_fd fd (nonblocking k)) (drop_fd fd (nodelay k))
    (addrinfos k).
Definition k_nonblock (fd : Z) (k : kernel) : kernel :=
  mkKernel (open_fds k) (fd :: drop_fd fd (nonblocking k)) (nodelay k) (addrinfos k).
Definition k_block (fd : Z) (k : kernel) : kernel :=
  mkKernel (open_fds k) (drop_fd fd (nonblocking k)) (nodelay k) (addrinfos k).
Definition k_addrinfo (n : Z) (k : kernel) : kernel :=
  mkKernel (open_fds k) (nonblocking k) (nodelay k) (addrinfos k + n).

(** How the body of the [for] loop ends. *)
Inductive attempt : Type :=
  | NextAddress
  | GiveUp (s : Status)     (** close, free the list, return *)
  | Reached.

Definition try_poll (p : poll_answer) : attempt :=
  match p with
  | PollFails => GiveUp IOError
  | PollExpires => GiveUp Timeout
  | PollReady None => GiveUp IOError
  | PollReady (Some val) => if val =? 0 then Reached else GiveUp IOError
  end.

Definition try_connect (c : connect_answer) : attempt :=
  match c with
  | Connected => Reached
  | Unreachable => NextAddress
  | InProgress p => try_poll p
  | Refused => GiveUp IOError
  end.

(** [for (p = servinfo; p != NULL; p = p->ai_next)] and what follows it. When
    the loop runs out [p] is [NULL]: the code below that test is unreachable. *)
Fixpoint connect_loop (ip : bytes) (port : Z) (addrs : list address) (r : Rep) (k : kernel)
    : Status * Rep * kernel :=
  match addrs with
  | [] => (IOError, r, k)
  | a :: addrs =>
      match a_socket a with
      | None => connect_loop ip port addrs (set_sockfd (-1) r) k
      | Some fd =>
          let r := set_sockfd fd r in
          let k := k_nonblock fd (k_open fd k) in
          match try_connect (a_connect a) with
          | NextAddress => connect_loop ip port addrs r (k_close fd k)
          | GiveUp s => (s, r, k_addrinfo (-1) (k_close fd k))
          | Reached =>
              let '(lip, lport) := a_local a in
              if bool_decide (ip = lip) && (port =? lport) then (IOError, r, k)
              else (OK, set_available true r, k_addrinfo (-1) (k_block fd k))
          end
      end
  end.

(** [Connect(ip, port, bind_ip)]; [None] is a failing [getaddrinfo]. Binding the
    local address does not change the outcome: its result is ignored. *)
Definition Connect_to (ip : bytes) (port : Z) (answer : option (list address)) (r : Rep) (k : kernel)
    : Status * Rep * kernel :=
  match answer with
  | None => (IOError, r, k)
  | Some addrs => connect_loop ip port addrs r (k_addrinfo 1 k)
  end.

Definition Connect (answer : option (list address)) (r : Rep) (k : kernel) : Status * Rep * kernel :=
  Connect_to (peer_ip r) (peer_port r) answer r k.

Definition Close (r : Rep) (k : kernel) : Rep * kernel :=
  if available r then (set_sockfd (-1) (set_available false r), k_close (sockfd r) k) else (r, k).

(** [~PinkCli] closes the descriptor; the memory of [rep_] is not modelled. *)
Definition delete_PinkCli (r : Rep) (k : kernel) : kernel := (Close r k).2.

(** [setsockopt(fd, IPPROTO_TCP, TCP_NODELAY, ..)]: [ok] is whether the system
    accepts the option; a descriptor that is not open never does. *)
Definition k_nodelay (ok : bool) (fd : Z) (k : kernel) : Z * kernel :=
  if ok && bool_decide (fd ∈ open_fds k) then
    (0, mkKernel (open_fds k) (nonblocking k) (fd :: drop_fd fd (nodelay k)) (addrinfos k))
  else (-1, k).

Definition set_tcp_nodelay (ok : bool) (r : Rep) (k : kernel) : Z * kernel := k_nodelay ok (sockfd r) k.

(** The setters: the descriptor and the milliseconds given to [setsockopt], if
    it is called. *)
Definition set_connect_timeout (ms : Z) (r : Rep) : Rep :=
  {| peer_ip := peer_ip r; peer_port := peer_port r; send_timeout := send_timeout r;
     recv_timeout := recv_timeout r; connect_timeout := ms;
     keep_alive := keep_alive r; is_block := is_block r; sockfd := sockfd r;
     available := available r |}.

(** [{t / 1000, (t % 1000) * 1000}] *)
Definition timeval_of (ms : Z) : Z * Z := (Z.quot ms 1000, Z.rem ms 1000 * 1000).

Definition set_send_timeout (ms : Z) (r : Rep) : option (Z * (Z * Z)) * Rep :=
  if 0 <? ms then
    (Some (sockfd r, timeval_of ms),
     {| peer_ip := peer_ip r; peer_port := peer_port r; send_timeout := ms;
        recv_timeout := recv_timeout r; connect_timeout := connect_timeout r;
        keep_alive := keep_alive r; is_block := is_block r; sockfd := sockfd r;
        available := available r |})
  else (None, r).

Definition set_recv_timeout (ms : Z) (r : Rep) : option (Z * (Z * Z)) * Rep :=
  if 0 <? ms then
    (Some (sockfd r, timeval_of ms),
     {| peer_ip := peer_ip r; peer_port := peer_port r; send_timeout := send_timeout r;
        recv_timeout := ms; connect_timeout := connect_timeout r;
        keep_alive := keep_alive r; is_block := is_block r; sockfd := sockfd r;
        available := available r |})
  else (None, r).

(** * Liveness of a connection *)

(** [PollFd]: the events that are ready, or the result of [poll]. *)
Definition PollFd (ret revents : Z) : Z := if 0 <? ret then revents else ret.

(** [CheckSockAliveness]: what one [recv] with [MSG_PEEK] says. *)
Definition CheckSockAliveness (ret revents : Z) (s : sock) : Z :=
  if 0 <? PollFd ret revents then
    match (sys_read 1 s).1.1 with
    | IoLen num => if num =? 0 then -1 else 0
    | IoErr e => if bool_decide (e = EINTR) || bool_decide (e = EAGAIN) then 0 else -1
    end
  else 0.

(** [CheckAliveness]: the flags of the descriptor are put back. *)
Definition CheckAliveness (ret revents : Z) (s : sock) (r : Rep) (k : kernel) : Z * kernel :=
  let fd := cli_fd r in
  if fd <? 0 then (-1, k)
  else
    let block := negb (bool_decide (fd ∈ nonblocking k)) in
    let k := if block then k_nonblock fd k else k in
    let result := CheckSockAliveness ret revents s in
    (result, if block then k_block fd k else k).

(** * Raw transfers *)

(** [SendRaw]: the position is an [int]. *)
Fixpoint SendRaw_loop (fuel : nat) (wbuf : bytes) (nleft pos : Z) (s : sock)
    : outcome (Status * sock) :=
  match fuel with
  | O => Fault Diverges
  | S f =>
      if 0 <? nleft then
        if (pos <? 0) || (zlen wbuf <? pos + nleft) then Fault OutOfBounds
        else
          let '(res, s) := sys_write (ztake nleft (zdrop pos wbuf)) s in
          match res with
          | IoErr EINTR => SendRaw_loop f wbuf nleft pos s
          | IoErr EAGAIN => Ret (Timeout, s)
          | IoErr _ => Ret (IOError, s)
          | IoLen n =>
              if n =? 0 then Ret (IOError, s)
              else SendRaw_loop f wbuf (nleft - n) (to_i32 (pos + n)) s
          end
      else Ret (OK, s)
  end.

(** Every iteration uses a grant of the socket, or is the last. *)
Definition SendRaw (buf : bytes) (s : sock) : outcome (Status * sock) :=
  SendRaw_loop (S (S (length (wrq s)))) buf (zlen buf) 0 s.

(** [RecvRaw] into a buffer of [size] bytes: the bytes read so far. *)
Fixpoint RecvRaw_loop (fuel : nat) (size : Z) (rbuf : bytes) (nleft : Z) (s : sock)
    : outcome (Status * bytes * sock) :=
  match fuel with
  | O => Fault Diverges
  | S f =>
      if 0 <? nleft then
        let '(res, d, s) := sys_read nleft s in
        match res with
        | IoErr EINTR => RecvRaw_loop f size rbuf nleft s
        | IoErr EAGAIN => Ret (Timeout, rbuf, s)
        | IoErr _ => Ret (IOError, rbuf, s)
        | IoLen n =>
            if n =? 0 then Ret (EndFile, rbuf, s)
            else if size <? zlen rbuf + n then Fault OutOfBounds
            else RecvRaw_loop f size (rbuf ++ d) (nleft - n) s
        end
      else Ret (OK, rbuf, s)
  end.

Definition RecvRaw (size count : Z) (s : sock) : outcome (Status * bytes * sock) :=
  RecvRaw_loop (S (S (rd_work (rdq s)))) size [] count s.

#[global] Arguments SendRaw_loop : simpl never.
#[global] Arguments RecvRaw_loop : simpl never.
