(* ===== verification/PinkCliFacts.v ===== *)
(** Facts about the client base class: what the raw transfers move, that they
    end, and what a connection attempt leaves open. *)
From S2P Require Import Pink Prelude Sys PinkCli.

(** * Sending *)

Lemma SendRaw_loop_S f wbuf nleft pos s :
  SendRaw_loop (S f) wbuf nleft pos s =
    if 0 <? nleft then
      if (pos <? 0) || (zlen wbuf <? pos + nleft) then Fault OutOfBounds
      else
        let '(res, s) := sys_write (ztake nleft (zdrop pos wbuf)) s in
        match res with
        | IoErr EINTR => SendRaw_loop f wbuf nleft pos s
        | IoErr EAGAIN => Ret (Timeout, s)
        | IoErr _ => Ret (IOError, s)
        | IoLen n =>
            if n =? 0 then Ret (IOError, s)
            else SendRaw_loop f wbuf (nleft - n) (to_i32 (pos + n)) s
        end
    else Ret (OK, s).
Proof. done. Qed.

(** What a transfer of [d] has done, with result [st]. *)
Definition sent_up_to (d : bytes) (st : Status) (s s' : sock) : Prop :=
  rdq s' = rdq s /\ (exists k, sent s' = sent s ++ ztake k d) /\
  (st = OK -> sent s' = sent s ++ d).

Lemma ztake_cons_step (n k : Z) (d : bytes) :
  0 <= n <= zlen d -> 0 <= k -> ztake n d ++ ztake k (zdrop n d) = ztake (n + k) d.
Proof.
  intros Hn Hk. unfold ztake, zdrop. rewrite Z2Nat.inj_add by lia.
  rewrite <- (take_drop (Z.to_nat n) d) at 3.
  rewrite take_app_add'; [done|]. rewrite length_take. unfold zlen in *. lia.
Qed.

Lemma SendRaw_loop_spec fuel wbuf pos s :
  0 <= pos <= zlen wbuf -> zlen wbuf <= INT_MAX -> (S (length (wrq s)) < fuel)%nat ->
  exists st s', SendRaw_loop fuel wbuf (zlen wbuf - pos) pos s = Ret (st, s') /\
    sent_up_to (zdrop pos wbuf) st s s'.
Proof.
  revert pos s. induction fuel as [|f IH]; intros pos s Hp Hm Hf; [lia|].
  rewrite SendRaw_loop_S. pose proof (zlen_zdrop pos wbuf Hp) as Hl.
  destruct (0 <? zlen wbuf - pos) eqn:E; b2p.
  2:{ exists OK, s. split; [done|]. rewrite (zlen_zero (zdrop pos wbuf)) by lia.
      split_and!; [done|exists 0|intros _]; by rewrite app_nil_r. }
  rewrite (proj2 (Z.ltb_ge pos 0)), (proj2 (Z.ltb_ge _ _)) by lia. cbn [orb].
  rewrite ztake_all by lia.
  destruct (sys_write (zdrop pos wbuf) s) as [res s1] eqn:W.
  pose proof (sys_write_prefix _ _ _ _ W) as [Hs Hr].
  pose proof (sys_write_grants _ _ _ _ W) as Hg.
  assert (Hstop : forall st, st <> OK -> sent s1 = sent s -> sent_up_to (zdrop pos wbuf) st s s1).
  { intros st Hst Hse. split_and!; [done|exists 0; by rewrite app_nil_r|done]. }
  destruct res as [n|e].
  - destruct Hs as [Hn Hs]. rewrite Hl in Hn. destruct (n =? 0) eqn:E0; b2p.
    { subst. eexists _, _. split; [done|]. apply Hstop; [done|]. rewrite Hs. apply app_nil_r. }
    assert (Hq : (length (wrq s1) < length (wrq s))%nat).
    { destruct Hg as [(_ & _ & ?)|(g & ->)]; [done|simpl; lia]. }
    rewrite to_i32_id by clia. replace (zlen wbuf - pos - n) with (zlen wbuf - (pos + n)) by lia.
    destruct (IH (pos + n) s1) as (st & s' & -> & Hr' & (k & Hk) & Hok); [lia|done|lia|].
    exists st, s'. split; [done|]. rewrite <- zdrop_zdrop in Hk, Hok by lia.
    split_and!; [congruence| |].
    + exists (n + Z.max 0 k). rewrite Hk, Hs, <- app_assoc. f_equal.
      rewrite <- ztake_cons_step by lia. f_equal.
      unfold ztake. f_equal. lia.
    + intros Hst. rewrite Hok, Hs, <- app_assoc by done. f_equal. apply ztake_zdrop.
  - destruct e; try (eexists _, _; split; [done|]; by apply Hstop).
    destruct Hg as [(_ & _ & ?)|(g & Hg)]; [done|].
    destruct (IH pos s1) as (st & s' & -> & Hr' & (k & Hk) & Hok); [done|done|rewrite Hg in Hf; simpl in Hf; lia|].
    exists st, s'. split; [done|]. split_and!; [congruence|exists k; congruence|].
    intros ->. rewrite Hok by done. congruence.
Qed.

Lemma SendRaw_spec buf s :
  zlen buf <= INT_MAX ->
  exists st s', SendRaw buf s = Ret (st, s') /\ sent_up_to buf st s s'.
Proof.
  intros Hm. unfold SendRaw. rewrite <- (Z.sub_0_r (zlen buf)).
  apply (SendRaw_loop_spec _ buf 0 s); [|done|lia]. zlen_pos. lia.
Qed.

(** * Receiving *)

Lemma RecvRaw_loop_S f size rbuf nleft s :
  RecvRaw_loop (S f) size rbuf nleft s =
    if 0 <? nleft then
      let '(res, d, s) := sys_read nleft s in
      match res with
      | IoErr EINTR => RecvRaw_loop f size rbuf nleft s
      | IoErr EAGAIN => Ret (Timeout, rbuf, s)
      | IoErr _ => Ret (IOError, rbuf, s)
      | IoLen n =>
          if n =? 0 then Ret (EndFile, rbuf, s)
          else if size <? zlen rbuf + n then Fault OutOfBounds
          else RecvRaw_loop f size (rbuf ++ d) (nleft - n) s
      end
    else Ret (OK, rbuf, s).
Proof. done. Qed.

(** [sys_read] and the stream, interruptions included. *)
Lemma sys_read_stream count s r d s' :
  0 <= count -> sys_read count s = (r, d, s') ->
  match r with
  | IoLen n => n = zlen d /\ n <= count /\ (0 < n -> incoming (rdq s) = d ++ incoming (rdq s'))
  | IoErr EINTR => d = [] /\ incoming (rdq s) = incoming (rdq s')
  | IoErr _ => d = []
  end.
Proof.
  intros Hc H. pose proof (sys_read_incoming count s r d s' Hc H) as (Hr & _ & _ & Hi).
  destruct r as [n|e].
  - destruct Hr as [-> Hle]. split_and!; [done|done|]. intros Hpos. destruct Hi as [->|Hi]; [done|done].
  - subst. destruct e; try done. split; [done|]. revert H. unfold sys_read.
    destruct (SSIZE_MAX <? count); [done|]. destruct (count =? 0); [done|]. destruct (rdq s) as [|[a| |e] q]; try done.
    + by destruct (zlen a <=? count).
    + intros H. simplify_eq. done.
Qed.

(** What a transfer of [count] bytes has read, with result [st]. *)
Definition received (count : Z) (st : Status) (d : bytes) (s s' : sock) : Prop :=
  wrq s' = wrq s /\ sent s' = sent s /\ zlen d <= count /\
  (st = OK -> zlen d = count /\ incoming (rdq s) = d ++ incoming (rdq s')).

Lemma RecvRaw_loop_spec fuel size rbuf nleft s :
  0 <= nleft -> zlen rbuf + nleft <= size -> (S (rd_work (rdq s)) < fuel)%nat ->
  exists st d s', RecvRaw_loop fuel size rbuf nleft s = Ret (st, rbuf ++ d, s') /\
    received nleft st d s s'.
Proof.
  revert rbuf nleft s. induction fuel as [|f IH]; intros rbuf nleft s Hn Hsz Hf; [lia|].
  rewrite RecvRaw_loop_S. destruct (0 <? nleft) eqn:E; b2p.
  2:{ exists OK, [], s. rewrite app_nil_r. unfold received. rewrite (zlen_nil (A:=ascii)). split_and!; try done; try lia.
      intros _. split; [lia|done]. }
  destruct (sys_read nleft s) as [[res d] s1] eqn:R.
  pose proof (sys_read_stream _ _ _ _ _ Hn R) as Hs.
  pose proof (sys_read_work _ _ _ _ _ Hn R) as Hw.
  pose proof (sys_read_incoming _ _ _ _ _ Hn R) as (_ & Hwq & Hse & _).
  assert (Hstop : forall st, st <> OK -> exists d' s', Ret (st, rbuf, s1) = Ret (st, rbuf ++ d', s') /\
    received nleft st d' s s').
  { intros st Hst. exists [], s1. rewrite app_nil_r. split; [done|]. unfold received. split_and!; try done; zlen_lia. }
  destruct res as [n|e].
  - destruct Hs as (-> & Hle & Hin). destruct (zlen d =? 0) eqn:E0; b2p.
    { exists EndFile. by apply Hstop. }
    pose proof (zlen_nonneg d). rewrite (proj2 (Z.ltb_ge _ _)) by lia.
    destruct (IH (rbuf ++ d) (nleft - zlen d) s1) as (st & d2 & s' & -> & Hw2 & Hs2 & Hl2 & Hok);
      [lia|zlen_lia|destruct (zlen d); lia|].
    exists st, (d ++ d2), s'. rewrite app_assoc. split; [done|].
    split_and!; [congruence|congruence|zlen_lia|]. intros Hst.
    destruct (Hok Hst) as [Hd2 Hi2]. split; [zlen_lia|].
    rewrite Hin, Hi2, app_assoc by lia. done.
  - destruct e.
    + exists Timeout. by apply Hstop.
    + destruct Hs as [-> Hin].
      destruct (IH rbuf nleft s1) as (st & d2 & s' & -> & Hw2 & Hs2 & Hl2 & Hok); [done|done|lia|].
      exists st, d2, s'. split; [done|]. split_and!; [congruence|congruence|done|].
      by rewrite Hin.
    + exists IOError. by apply Hstop.
    + exists IOError. by apply Hstop.
Qed.

Lemma RecvRaw_spec size count s :
  0 <= count <= size ->
  exists st d s', RecvRaw size count s = Ret (st, d, s') /\ received count st d s s'.
Proof. intros Hc. apply (RecvRaw_loop_spec _ size [] count s); rewrite ?zlen_nil; lia. Qed.

(** Enough bytes in arrivals that nothing interrupts for good. *)
Inductive steady : list arrival -> Prop :=
  | SteadyNil : steady []
  | SteadyArrive d q : d <> [] -> steady q -> steady (Arrive d :: q)
  | SteadyIntr q : steady q -> steady (RdFails EINTR :: q).

Lemma sys_read_steady count s r d s' :
  0 < count <= SSIZE_MAX -> steady (rdq s) -> sys_read count s = (r, d, s') -> incoming (rdq s) <> [] ->
  steady (rdq s') /\ ((exists n, r = IoLen n /\ 0 < n) \/ r = IoErr EINTR).
Proof.
  unfold sys_read. intros Hc Hs. rewrite (proj2 (Z.ltb_ge _ _)), (proj2 (Z.eqb_neq _ _)) by lia.
  destruct Hs as [|a q Ha Hs|q Hs]; [done| |].
  - assert (0 < zlen a) by (destruct a; [done|zlen_lia]).
    destruct (zlen a <=? count) eqn:E; b2p; intros [= <- <- <-] _; simpl.
    + eauto.
    + split; [|left; exists count; split; [done|lia]]. constructor; [|done]. intros H0. apply (f_equal zlen) in H0.
      rewrite zlen_zdrop, zlen_nil in H0; lia.
  - intros [= <- <- <-] _. eauto.
Qed.

Lemma RecvRaw_loop_steady fuel size rbuf nleft s :
  0 <= nleft <= SSIZE_MAX -> zlen rbuf + nleft <= size -> (S (rd_work (rdq s)) < fuel)%nat ->
  steady (rdq s) -> nleft <= zlen (incoming (rdq s)) ->
  exists s', RecvRaw_loop fuel size rbuf nleft s =
      Ret (OK, rbuf ++ ztake nleft (incoming (rdq s)), s') /\
    incoming (rdq s') = zdrop nleft (incoming (rdq s)) /\ steady (rdq s') /\
    wrq s' = wrq s /\ sent s' = sent s.
Proof.
  revert rbuf nleft s. induction fuel as [|f IH]; intros rbuf nleft s Hn Hsz Hf Hst Hl; [lia|].
  rewrite RecvRaw_loop_S. destruct (0 <? nleft) eqn:E; b2p.
  2:{ assert (nleft = 0) as -> by lia. exists s. by rewrite app_nil_r. }
  destruct (sys_read nleft s) as [[res d] s1] eqn:R.
  pose proof (sys_read_stream _ _ _ _ _ (proj1 Hn) R) as Hs.
  pose proof (sys_read_work _ _ _ _ _ (proj1 Hn) R) as Hw.
  pose proof (sys_read_incoming _ _ _ _ _ (proj1 Hn) R) as (_ & Hwq & Hse & _).
  assert (Hne : incoming (rdq s) <> []) by (intros H0; rewrite H0, zlen_nil in Hl; lia).
  destruct (sys_read_steady _ _ _ _ _ (conj E (proj2 Hn)) Hst R Hne) as [Hst1 [(n & -> & Hpos)| ->]].
  - destruct Hs as (-> & Hle & Hin). rewrite Hin in * by lia.
    rewrite (proj2 (Z.eqb_neq _ _)), (proj2 (Z.ltb_ge _ _)) by lia.
    rewrite zlen_app in Hl.
    destruct (IH (rbuf ++ d) (nleft - zlen d) s1) as (s' & -> & Hi & Hs' & Hw' & Hse');
      [lia|zlen_lia|destruct (zlen d); lia|done|lia|].
    exists s'. split_and!; [|rewrite Hi|done|congruence|congruence].
    + rewrite <- app_assoc. do 4 f_equal.
      replace nleft with (zlen d + (nleft - zlen d)) at 2 by lia.
      rewrite <- ztake_cons_step by zlen_lia. by rewrite ztake_app, zdrop_app by done.
    + replace nleft with (zlen d + (nleft - zlen d)) at 2 by lia.
      rewrite <- zdrop_zdrop by lia. by rewrite zdrop_app by done.
  - destruct Hs as [-> Hin]. rewrite Hin in *.
    destruct (IH rbuf nleft s1) as (s' & -> & Hi & Hs' & Hw' & Hse'); [done|done|lia|done|done|].
    exists s'. split_and!; congruence || done.
Qed.

Lemma RecvRaw_steady size count s :
  0 <= count <= size -> size <= SSIZE_MAX -> steady (rdq s) -> count <= zlen (incoming (rdq s)) ->
  exists s', RecvRaw size count s = Ret (OK, ztake count (incoming (rdq s)), s') /\
    incoming (rdq s') = zdrop count (incoming (rdq s)) /\ steady (rdq s') /\
    wrq s' = wrq s /\ sent s' = sent s.
Proof. intros Hc Hm. apply (RecvRaw_loop_steady _ size [] count s); rewrite ?zlen_nil; lia. Qed.

(** * Connecting *)

(** The descriptors of the script, in order of creation. *)
Definition sockets (addrs : list address) : list Z := omap a_socket addrs.

Lemma drop_fd_fresh fd l : fd ∉ l -> drop_fd fd l = l.
Proof.
  unfold drop_fd. induction l as [|x l IH]; intros Hn; [done|].
  rewrite filter_cons_True by set_solver. f_equal. apply IH. set_solver.
Qed.

Lemma drop_fd_head fd l : fd ∉ l -> drop_fd fd (fd :: l) = l.
Proof. intros Hn. unfold drop_fd. rewrite filter_cons_False by set_solver. by apply drop_fd_fresh. Qed.

(** The kernel does not know the descriptor. *)
Definition fresh_fd (fd : Z) (k : kernel) : Prop :=
  (fd ∉ open_fds k) /\ (fd ∉ nonblocking k) /\ (fd ∉ nodelay k).

Lemma k_open_close fd k :
  fresh_fd fd k -> k_close fd (k_nonblock fd (k_open fd k)) = k.
Proof.
  intros (Ho & Hb & Hd). destruct k as [o b d n]. unfold k_close. simpl in *.
  rewrite !drop_fd_head, !(drop_fd_fresh fd) by (rewrite ?(drop_fd_fresh fd); done). done.
Qed.

Lemma connect_loop_spec ip port addrs r k :
  (forall fd, fd ∈ sockets addrs -> fresh_fd fd k) -> available r = false ->
  let '(st, r', k') := connect_loop ip port addrs r k in
  nodelay k' = nodelay k /\
  ((st = OK /\ available r' = true /\ sockfd r' ∈ sockets addrs /\
      open_fds k' = sockfd r' :: open_fds k /\ nonblocking k' = nonblocking k /\
      addrinfos k' = addrinfos k - 1) \/
   (st <> OK /\ available r' = false /\ open_fds k' = open_fds k) \/
   (st = IOError /\ available r' = false /\ sockfd r' ∈ sockets addrs /\
      open_fds k' = sockfd r' :: open_fds k /\ addrinfos k' = addrinfos k)).
Proof.
  revert r. induction addrs as [|a addrs IH]; intros r Hfresh Hav; cbn [connect_loop].
  { split; [done|]. right. left. by split_and!. }
  destruct (a_socket a) as [fd|] eqn:Ea.
  2:{ assert (sockets (a :: addrs) = sockets addrs) as Hs by (unfold sockets; simpl; by rewrite Ea).
      rewrite Hs in *. by apply (IH (set_sockfd (-1) r)). }
  assert (sockets (a :: addrs) = fd :: sockets addrs) as Hs by (unfold sockets; simpl; by rewrite Ea).
  rewrite Hs in *. assert (Hfd : fresh_fd fd k) by (apply Hfresh; set_solver).
  pose proof (k_open_close fd k Hfd) as Hclose. cbv zeta.
  destruct (try_connect (a_connect a)) as [|st|] eqn:Et.
  - rewrite Hclose. specialize (IH (set_sockfd fd r)).
    destruct (connect_loop _ _ _ _ _) as [[st r'] k'].
    destruct IH as [Hn [H|[H|H]]]; [set_solver|done|..]; (split; [done|]); set_solver.
  - rewrite Hclose. split; [done|]. right. left. split_and!; try done.
    destruct (a_connect a) as [| |[]|]; simpl in Et; repeat case_match; congruence.
  - destruct (a_local a) as [lip lport]. destruct Hfd as (Ho & Hb & Hd).
    destruct (bool_decide (ip = lip) && (port =? lport)).
    + split; [done|]. right. right. split_and!; try done. set_solver.
    + split; [done|]. left. split_and!; try done; [set_solver|].
      simpl. rewrite drop_fd_head; [by apply drop_fd_fresh|]. by rewrite drop_fd_fresh.
Qed.

(** * What [Connect] leaves behind *)

(** What [Connect] leaves open. For a host whose addresses the kernel gives
    fresh descriptors, on a client that is not connected: it returns [OK] with
    exactly one new descriptor, one of those, in blocking mode, and the address
    list freed; or another status with no descriptor left open; or, when the local
    end of the connection is the address asked for, an error that leaves the
    connected descriptor open and the address list allocated. [TCP_NODELAY] is
    never set: the code after the loop that would set it cannot be reached. *)
Theorem connect_descriptors ip port addrs r k :
  (forall fd, fd ∈ sockets addrs -> fresh_fd fd k) -> available r = false ->
  let '(st, r', k') := Connect_to ip port (Some addrs) r k in
  nodelay k' = nodelay k /\
  ((st = OK /\ available r' = true /\ sockfd r' ∈ sockets addrs /\
      open_fds k' = sockfd r' :: open_fds k /\ nonblocking k' = nonblocking k /\
      addrinfos k' = addrinfos k) \/
   (st <> OK /\ available r' = false /\ open_fds k' = open_fds k) \/
   (st = IOError /\ available r' = false /\ sockfd r' ∈ sockets addrs /\
      open_fds k' = sockfd r' :: open_fds k /\ addrinfos k' = addrinfos k + 1)).
Proof.
  intros Hf Ha. unfold Connect_to.
  pose proof (connect_loop_spec ip port addrs r (k_addrinfo 1 k) Hf Ha) as H.
  destruct (connect_loop ip port addrs r (k_addrinfo 1 k)) as [[st r'] k'].
  destruct H as [Hn [(? & ? & ? & ? & ? & ?)|[H|H]]]; (split; [done|]); [left|auto..].
  split_and!; try done. simpl in *. lia.
Qed.

(** The first address cannot be reached, the second answers. *)
Lemma connect_descriptors_witness :
  let addrs := [{| a_socket := Some 5; a_connect := Unreachable; a_local := (bs "10.0.0.1", 40000) |};
                {| a_socket := Some 6; a_connect := Connected; a_local := (bs "10.0.0.1", 40001) |}] in
  let k := mkKernel [3] [] [] 0 in
  let r := new_Rep (bs "10.0.0.2") 9221 in
  let '(st, r', k') := Connect_to (bs "10.0.0.2") 9221 (Some addrs) r k in
  nodelay k' = nodelay k /\
  ((st = OK /\ available r' = true /\ sockfd r' ∈ sockets addrs /\
      open_fds k' = sockfd r' :: open_fds k /\ nonblocking k' = nonblocking k /\
      addrinfos k' = addrinfos k) \/
   (st <> OK /\ available r' = false /\ open_fds k' = open_fds k) \/
   (st = IOError /\ available r' = false /\ sockfd r' ∈ sockets addrs /\
      open_fds k' = sockfd r' :: open_fds k /\ addrinfos k' = addrinfos k + 1)).
Proof.
  intros addrs k r. apply (connect_descriptors (bs "10.0.0.2") 9221 addrs r k); [|done].
  intros fd Hin. unfold fresh_fd, k. simpl. unfold addrs, sockets in Hin. simpl in Hin. set_solver.
Defined.
