(* ===== verification/PbConn.v ===== *)
(** [pink/include/pb_conn.h] and [pink/src/pb_conn.cc]: the server side of a
    connection that carries protobuf messages, each behind a four-byte
    big-endian length. *)
From S2P Require Import Pink Prelude Sys.

(** * The length prefix *)

(** [htonl] and [memcpy] of a [uint32_t]: its bytes, most significant first. *)
Definition be32 (n : Z) : bytes := [chr (n / 2 ^ 24); chr (n / 2 ^ 16); chr (n / 2 ^ 8); chr n].

(** [memcpy] to a [uint32_t] and [ntohl]. *)
Definition get_be32 (l : bytes) : Z :=
  fold_left (fun v c => 256 * v + code c) (ztake 4 l) 0.

(** A message on the wire. *)
Definition frame (m : bytes) : bytes := be32 (zlen m) ++ m.

Section conn.
(** [DealMessage] of the subclass: it looks at the connection and the object
    [U], returns its result and hands responses to [WriteResp]. *)
Context {U : Type}.
(** Whether [realloc] finds memory. *)
Context (realloc_ok : Z -> bool).

(** * The state *)

(** [rbuf_] holds what has been stored in the buffer up to [cur_pos_], the size
    allocated is [rbuf_len_]; bytes past [cur_pos_] are never looked at.
    [sec] is the time of the last interaction. *)
Record PbConn : Type := mkPbConn {
  header_len_ : Z;
  rbuf_ : bytes;
  cur_pos_ : Z;
  rbuf_len_ : Z;
  remain_packet_len_ : Z;
  connStatus_ : ConnStatus;
  queue_ : list bytes;
  item_pos_ : Z;
  is_reply_ : Z;
  sec : Z
}.

(** The constructor. [header_len_] is unsigned. *)
Definition new_PbConn (now : Z) : PbConn :=
  {| header_len_ := to_u32 (-1); rbuf_ := []; cur_pos_ := 0; rbuf_len_ := PB_IOBUF_LEN;
     remain_packet_len_ := 0; connStatus_ := kHeader; queue_ := []; item_pos_ := 0;
     is_reply_ := 0; sec := now |}.

Context (DealMessage : PbConn -> U -> Z * list bytes * U).

(** * Replies *)

Definition set_is_reply (is_reply : bool) (c : PbConn) : PbConn :=
  let n := if is_reply then is_reply_ c + 1 else is_reply_ c - 1 in
  mkPbConn (header_len_ c) (rbuf_ c) (cur_pos_ c) (rbuf_len_ c) (remain_packet_len_ c)
    (connStatus_ c) (queue_ c) (item_pos_ c) (if n <? 0 then 0 else n) (sec c).

Definition is_reply (c : PbConn) : bool := 0 <? is_reply_ c.

Definition set_queue (q : list bytes) (pos : Z) (c : PbConn) : PbConn :=
  mkPbConn (header_len_ c) (rbuf_ c) (cur_pos_ c) (rbuf_len_ c) (remain_packet_len_ c)
    (connStatus_ c) q pos (is_reply_ c) (sec c).

(** The size is converted to [uint32_t]. *)
Definition BuildInternalTag (resp : bytes) : bytes := be32 (to_u32 (zlen resp)).

Definition WriteResp (resp : bytes) (c : PbConn) : PbConn :=
  set_is_reply true (set_queue (queue_ c ++ [BuildInternalTag resp; resp]) (item_pos_ c) c).

(** * Reading requests *)

(** [cur_pos_ += nread] after the bytes [d] were stored at [cur_pos_]. *)
Definition store (d : bytes) (c : PbConn) : outcome PbConn :=
  if rbuf_len_ c <? cur_pos_ c + zlen d then Fault OutOfBounds
  else Ret (mkPbConn (header_len_ c) (ztake (cur_pos_ c) (rbuf_ c) ++ d)
              (to_u32 (cur_pos_ c + zlen d)) (rbuf_len_ c) (remain_packet_len_ c)
              (connStatus_ c) (queue_ c) (item_pos_ c) (is_reply_ c) (sec c)).

Definition set_packet (header_len remain : Z) (st : ConnStatus) (c : PbConn) : PbConn :=
  mkPbConn header_len (rbuf_ c) (cur_pos_ c) (rbuf_len_ c) remain st
    (queue_ c) (item_pos_ c) (is_reply_ c) (sec c).

Definition set_rbuf_len (n : Z) (c : PbConn) : PbConn :=
  mkPbConn (header_len_ c) (rbuf_ c) (cur_pos_ c) n (remain_packet_len_ c)
    (connStatus_ c) (queue_ c) (item_pos_ c) (is_reply_ c) (sec c).

(** A case of the [switch]: it returns, or [continue]s the loop. *)
Inductive next : Type :=
  | Done (r : ReadStatus) (c : PbConn)
  | Again (c : PbConn).

(** [case kHeader]. *)
Definition read_header (c : PbConn) (s : sock) : outcome (next * sock) :=
  let '(res, d, s) := sys_read (to_u32 (COMMAND_HEADER_LENGTH - cur_pos_ c)) s in
  match res with
  | IoErr EAGAIN => Ret (Done kReadHalf c, s)
  | IoErr _ => Ret (Done kReadError c, s)
  | IoLen n =>
      if n =? 0 then Ret (Done kReadClose c, s)
      else
        let! c := store d c in
        if cur_pos_ c =? COMMAND_HEADER_LENGTH then
          let len := get_be32 (rbuf_ c) in
          Ret (Again (set_packet len (to_i32 len) kPacket c), s)
        else Ret (Done kReadHalf c, s)
  end.

(** [if (header_len_ > rbuf_len_ - COMMAND_HEADER_LENGTH)]: make room, or
    [None] for [kFullError]. *)
Definition grow (c : PbConn) : option PbConn :=
  if to_u32 (rbuf_len_ c - COMMAND_HEADER_LENGTH) <? header_len_ c then
    let new_size := to_u32 (header_len_ c + COMMAND_HEADER_LENGTH) in
    if new_size <? kProtoMaxMessage then
      if realloc_ok new_size then Some (set_rbuf_len new_size c) else None
    else None
  else Some c.

(** [case kPacket]. A negative count becomes a huge [size_t]. *)
Definition read_packet (c : PbConn) (s : sock) : outcome (next * sock) :=
  match grow c with
  | None => Ret (Done kFullError c, s)
  | Some c =>
      let '(res, d, s) := sys_read (to_u64 (remain_packet_len_ c)) s in
      match res with
      | IoErr EAGAIN => Ret (Done kReadHalf c, s)
      | IoErr _ => Ret (Done kReadError c, s)
      | IoLen n =>
          if n =? 0 then Ret (Done kReadClose c, s)
          else
            let! c := store d c in
            let remain := to_i32 (remain_packet_len_ c - n) in
            if remain =? 0
            then Ret (Again (set_packet (header_len_ c) remain kComplete c), s)
            else Ret (Done kReadHalf (set_packet (header_len_ c) remain (connStatus_ c) c), s)
      end
  end.

(** [case kComplete]. *)
Definition complete (c : PbConn) (u : U) : next * U :=
  let '(r, resps, u) := DealMessage c u in
  let c := fold_left (fun c resp => WriteResp resp c) resps c in
  if r =? 0 then
    (Done kReadAll
       (mkPbConn (header_len_ c) (rbuf_ c) 0 (rbuf_len_ c) (remain_packet_len_ c) kHeader
          (queue_ c) (item_pos_ c) (is_reply_ c) (sec c)), u)
  else (Done kDealError c, u).

(** [while (true)]: the two states that no case handles leave the [switch] and
    loop for ever. *)
Fixpoint GetRequest_loop (fuel : nat) (c : PbConn) (u : U) (s : sock)
    : outcome (ReadStatus * PbConn * U * sock) :=
  match fuel with
  | O => Fault Diverges
  | S f =>
      let! (n, u, s) :=
        match connStatus_ c with
        | kHeader => let! (n, s) := read_header c s in Ret (n, u, s)
        | kPacket => let! (n, s) := read_packet c s in Ret (n, u, s)
        | kComplete => let '(n, u) := complete c u in Ret (n, u, s)
        | kBuildObuf | kWriteObuf => Ret (Again c, u, s)
        end in
      match n with
      | Done r c => Ret (r, c, u, s)
      | Again c => GetRequest_loop f c u s
      end
  end.

(** A call goes through each of the three states once at most. *)
Definition GetRequest : PbConn -> U -> sock -> outcome (ReadStatus * PbConn * U * sock) :=
  GetRequest_loop 3.

(** * Sending replies *)

(** The inner [while]: it writes the front item until an error, a write of
    nothing or its end. [item_len] and [nwritten] are the locals. *)
Fixpoint write_item (fuel : nat) (item : bytes) (item_len nwritten : Z) (c : PbConn) (s : sock)
    : outcome (Z * Z * option errno * PbConn * sock) :=
  match fuel with
  | O => Fault Diverges
  | S f =>
      if 0 <? to_u64 (item_len - item_pos_ c) then
        let '(res, s) := sys_write (zdrop (item_pos_ c) item) s in
        match res with
        | IoErr e => Ret (item_len, -1, Some e, c, s)
        | IoLen n =>
            if n =? 0 then Ret (item_len, n, None, c, s)
            else
              let pos := item_pos_ c + n in
              if pos =? item_len
              then write_item f item 0 n (set_queue (drop 1 (queue_ c)) 0 c) s
              else write_item f item item_len n (set_queue (queue_ c) pos c) s
        end
      else Ret (item_len, nwritten, None, c, s)
  end.

(** The outer [while]. *)
Fixpoint SendReply_loop (fuel : nat) (nwritten : Z) (c : PbConn) (s : sock)
    : outcome (WriteStatus * PbConn * sock) :=
  match fuel with
  | O => Fault Diverges
  | S f =>
      match queue_ c with
      | [] => Ret (kWriteAll, c, s)
      | item :: _ =>
          let! (item_len, nwritten, err, c, s) :=
            write_item (S (S (length (wrq s)))) item (zlen item) nwritten c s in
          if nwritten =? -1 then
            Ret (if bool_decide (err = Some EAGAIN) then kWriteHalf else kWriteError, c, s)
          else if negb (item_len - item_pos_ c =? 0) then Ret (kWriteHalf, c, s)
          else SendReply_loop f nwritten c s
      end
  end.

(** Every turn of the outer loop takes an item off the queue, if no item is
    empty. *)
Definition SendReply (c : PbConn) (s : sock) : outcome (WriteStatus * PbConn * sock) :=
  SendReply_loop (S (length (queue_ c))) 0 c s.

(** * Shrinking the buffer *)

Definition TryResizeBuffer (now : Z) (c : PbConn) : PbConn :=
  let idletime := to_i32 (now - sec c) in
  if (PB_IOBUF_LEN <? rbuf_len_ c) &&
     ((2 <? rbuf_len_ c / to_u32 (cur_pos_ c + 1)) || (2 <? idletime)) then
    let new_size := to_u32 (to_u32 (cur_pos_ c + PB_IOBUF_LEN) / PB_IOBUF_LEN * PB_IOBUF_LEN) in
    if new_size <? rbuf_len_ c then set_rbuf_len new_size c else c
  else c.
End conn.

(** * Notifications *)

(** The events [NotifyWrite] and [NotifyClose] register with the poller. *)
Definition NotifyWrite (fd : Z) : Z * NotifyType := (fd, kNotiWrite).
Definition NotifyClose (fd : Z) : Z * NotifyType := (fd, kNotiClose).

#[global] Arguments GetRequest_loop {U} realloc_ok DealMessage fuel c u s : simpl never.
#[global] Arguments write_item : simpl never.
#[global] Arguments SendReply_loop : simpl never.
#[global] Arguments be32 : simpl never.
#[global] Arguments get_be32 : simpl never.
