(* ===== verification/PbCli.v ===== *)
(** [pink/src/pb_cli.cc]: the protobuf client. Protobuf is a separate library:
    the messages and what it does with them are a class, and its documented
    behaviour the laws of another. *)
From S2P Require Import Pink Prelude Sys PinkCli PbConn.

(** [google::protobuf::Message]. *)
Class Protobuf (M : Type) : Type := {
  (** The bytes [SerializeToArray] stores; their number is [ByteSizeLong]. *)
  Serialize : M -> bytes;
  (** [ParseFromArray]: [None] is its [false]. *)
  ParseFromArray : bytes -> option M
}.

Class ProtobufLaws (M : Type) {P : Protobuf M} : Prop := {
  Parse_Serialize m : ParseFromArray (Serialize m) = Some m
}.

Section cli.
Context {M : Type} {P : Protobuf M}.

(** [PbCli::Send]. The size is an [int]; [wbuf_] has [kProtoMaxMessage] bytes. *)
Definition PbCli_Send (req : M) (s : sock) : outcome (Status * sock) :=
  let wbuf_len := to_i32 (zlen (Serialize req)) in
  if kProtoMaxMessage <? kCommandHeaderLength + zlen (Serialize req) then Fault OutOfBounds
  else SendRaw (be32 (to_u32 wbuf_len) ++ Serialize req) s.

(** [PbCli::Recv]. [rbuf_] has [kProtoMaxMessage] bytes, and the size the peer
    announces is not compared with it. *)
Definition PbCli_Recv (s : sock) : outcome (Status * option M * sock) :=
  let! (st, head, s) := RecvRaw kProtoMaxMessage kCommandHeaderLength s in
  if negb (bool_decide (st = OK)) then Ret (st, None, s)
  else
    let packet_len := get_be32 head in
    let! (st, body, s) := RecvRaw kProtoMaxMessage packet_len s in
    if negb (bool_decide (st = OK)) then Ret (st, None, s)
    else match ParseFromArray body with
         | Some m => Ret (OK, Some m, s)
         | None => Ret (Corruption, None, s)
         end.
End cli.

(** * A concrete instance *)

(** Messages that are their own encoding. *)
#[export] Instance raw_protobuf : Protobuf bytes := { Serialize := id; ParseFromArray := Some }.
#[export] Instance raw_protobuf_laws : ProtobufLaws bytes.
Proof. by split. Qed.
