(* ===== verification/PbConnFacts.v ===== *)
(** Facts about the protobuf connection: the length prefix, the position of the
    reader in a stream of messages, and the reply queue. *)
From S2P Require Import Pink Prelude Sys PbConn.

(** * The length prefix *)

Lemma code_chr z : code (chr z) = z mod 256.
Proof.
  unfold code, chr. pose proof (Z.mod_pos_bound z 256).
  rewrite N_ascii_embedding by lia. lia.
Qed.

Lemma zlen_be32 n : zlen (be32 n) = 4.
Proof. done. Qed.

Lemma get_be32_be32 n rest : 0 <= n < 2 ^ 32 -> get_be32 (be32 n ++ rest) = n.
Proof.
  intros Hn. unfold get_be32. rewrite ztake_app by done. unfold be32. simpl.
  rewrite !code_chr. change (2 ^ 24) with (256 * 256 * 256). change (2 ^ 16) with (256 * 256).
  change (2 ^ 8) with 256. rewrite <- !Z.div_div by lia.
  pose proof (Z.div_mod n 256 ltac:(lia)). pose proof (Z.div_mod (n / 256) 256 ltac:(lia)).
  pose proof (Z.div_mod (n / 256 / 256) 256 ltac:(lia)).
  rewrite (Z.mod_small (n / 256 / 256 / 256) 256); [lia|].
  rewrite !Z.div_div by lia. split; [apply Z.div_pos; lia|apply Z.div_lt_upper_bound; lia].
Qed.

Lemma zlen_frame m : zlen (frame m) = 4 + zlen m.
Proof. unfold frame. rewrite zlen_app, zlen_be32. done. Qed.

Definition frames (ms : list bytes) : bytes := concat (map frame ms).

Lemma frames_cons m ms : frames (m :: ms) = be32 (zlen m) ++ m ++ frames ms.
Proof. unfold frames. cbn [map concat]. unfold frame. by rewrite <- app_assoc. Qed.

(** A message the connection accepts: not empty, and within the limit. *)
Definition pb_message (m : bytes) : Prop := 0 < zlen m < kProtoMaxMessage - COMMAND_HEADER_LENGTH.

(** One turn of the [GetRequest] loop, for any handler. *)
Lemma GetRequest_loop_S {U} realloc_ok (D : PbConn -> U -> Z * list bytes * U) f c u s :
  GetRequest_loop realloc_ok D (S f) c u s =
    let! (n, u, s) :=
      match connStatus_ c with
      | kHeader => let! (n, s) := read_header c s in Ret (n, u, s)
      | kPacket => let! (n, s) := read_packet realloc_ok c s in Ret (n, u, s)
      | kComplete => let '(n, u) := complete D c u in Ret (n, u, s)
      | kBuildObuf | kWriteObuf => Ret (Again c, u, s)
      end in
    match n with
    | Done r c => Ret (r, c, u, s)
    | Again c => GetRequest_loop realloc_ok D f c u s
    end.
Proof. done. Qed.

Section conn.
Context {U : Type} (realloc_ok : Z -> bool).
Hypothesis realloc_works : forall n, realloc_ok n = true.
Implicit Types c : PbConn.

(** * The reader's position *)

(** [ms] are the messages to come if the bytes still to arrive are [rest]. *)
Record in_header c (rest : bytes) (ms : list bytes) : Prop := {
  ih_state : connStatus_ c = kHeader;
  ih_pos : 0 <= cur_pos_ c < 4;
  ih_buf : cur_pos_ c <= zlen (rbuf_ c);
  ih_room : PB_IOBUF_LEN <= rbuf_len_ c < 2 ^ 32;
  ih_rest : ztake (cur_pos_ c) (rbuf_ c) ++ rest = frames ms
}.

Record in_packet c (rest : bytes) (m : bytes) (ms : list bytes) : Prop := {
  ip_state : connStatus_ c = kPacket;
  ip_head : header_len_ c = zlen m;
  ip_pos : 4 <= cur_pos_ c < 4 + zlen m;
  ip_buf : cur_pos_ c = zlen (rbuf_ c);
  ip_room : PB_IOBUF_LEN <= rbuf_len_ c < 2 ^ 32;
  ip_remain : remain_packet_len_ c = 4 + zlen m - cur_pos_ c;
  ip_rest : rbuf_ c ++ rest = frames (m :: ms)
}.

Definition at_message c rest (ms : list bytes) : Prop :=
  in_header c rest ms \/ exists m ms', ms = m :: ms' /\ in_packet c rest m ms'.

(** The replies are untouched. *)
Definition same_replies c c' : Prop :=
  queue_ c' = queue_ c /\ item_pos_ c' = item_pos_ c /\ is_reply_ c' = is_reply_ c.

(** What a read step leaves of the socket. *)
Definition read_on (s s' : sock) : Prop :=
  plain_queue (rdq s') /\ wrq s' = wrq s /\ sent s' = sent s.

Lemma store_ok d c :
  0 <= cur_pos_ c -> cur_pos_ c + zlen d <= rbuf_len_ c < 2 ^ 32 ->
  exists c', store d c = Ret c' /\ rbuf_ c' = ztake (cur_pos_ c) (rbuf_ c) ++ d /\
    cur_pos_ c' = cur_pos_ c + zlen d /\ rbuf_len_ c' = rbuf_len_ c /\
    header_len_ c' = header_len_ c /\ remain_packet_len_ c' = remain_packet_len_ c /\
    connStatus_ c' = connStatus_ c /\ same_replies c c'.
Proof.
  intros Hp Hl. unfold store. rewrite (proj2 (Z.ltb_ge _ _)) by lia.
  eexists. split; [done|]. simpl. split_and!; try done. apply to_u32_id. zlen_pos. lia.
Qed.

(** Cutting the header out of the stream. *)
Lemma header_cut (h rest : bytes) m ms :
  h ++ rest = frames (m :: ms) -> zlen h = 4 -> h = be32 (zlen m) /\ rest = m ++ frames ms.
Proof. rewrite frames_cons. intros H Hl. apply app_inj_1 in H; [done|]. unfold zlen in Hl. simpl. lia. Qed.

Lemma read_header_at c s ms :
  in_header c (incoming (rdq s)) ms -> plain_queue (rdq s) -> Forall pb_message ms ->
  (rdq s = [] /\ read_header c s = Ret (Done kReadHalf c, s)) \/
  exists n s', read_header c s = Ret (n, s') /\ read_on s s' /\
    (rd_work (rdq s') < rd_work (rdq s))%nat /\
    ((exists c', n = Done kReadHalf c' /\ in_header c' (incoming (rdq s')) ms /\ same_replies c c') \/
     (exists c' m ms', n = Again c' /\ ms = m :: ms' /\ in_packet c' (incoming (rdq s')) m ms' /\
        same_replies c c')).
Proof.
  intros [Hst Hpos Hbuf Hroom Hrest] Hq Hms. unfold read_header.
  assert (Hroom' : 8 <= rbuf_len_ c) by (unfold PB_IOBUF_LEN in Hroom; lia).
  change COMMAND_HEADER_LENGTH with 4. rewrite to_u32_id by lia.
  destruct (sys_read_plain (4 - cur_pos_ c) s) as [[Hn ->]|(d & s' & -> & Hd & Hin & Hq' & Hw & Hwq & Hse)];
    [unfold SSIZE_MAX; lia|done|by left|right].
  rewrite (proj2 (Z.eqb_neq _ _)) by lia.
  destruct (store_ok d c) as (c' & -> & Hb & Hc & Hrl & Hh & Hr & Hcs & Hsame); [lia..|].
  rewrite Hin, app_assoc, <- Hb in Hrest. cbn [obind].
  assert (Hzb : zlen (rbuf_ c') = cur_pos_ c').
  { rewrite Hb, zlen_app, zlen_ztake by lia. lia. }
  destruct (cur_pos_ c' =? 4) eqn:E; b2p.
  - destruct ms as [|m ms].
    { apply (f_equal zlen) in Hrest. change (zlen (frames [])) with 0 in Hrest. exfalso. zlen_lia. }
    destruct (header_cut _ _ _ _ Hrest) as [Hhd Htl]; [lia|].
    apply Forall_cons in Hms as [Hm _]. unfold pb_message, kProtoMaxMessage, COMMAND_HEADER_LENGTH in Hm.
    assert (Hlen : get_be32 (rbuf_ c') = zlen m).
    { rewrite Hhd, <- (app_nil_r (be32 _)). apply get_be32_be32. lia. }
    eexists _, s'. split; [done|]. split; [done|]. split; [done|]. right.
    eexists _, m, ms. split; [done|]. split; [done|]. split; [|done].
    rewrite Hlen, to_i32_id by clia.
    constructor; simpl; rewrite ?E, ?Hrl; try done; lia.
  - eexists _, s'. split; [done|]. split; [done|]. split; [done|]. left.
    exists c'. split; [done|]. split; [|done].
    constructor; rewrite ?Hrl; try done; try lia; [congruence|].
    by rewrite ztake_all by lia.
Qed.

Lemma grow_ok c m ms rest :
  in_packet c rest m ms -> pb_message m ->
  exists c', grow realloc_ok c = Some c' /\ in_packet c' rest m ms /\ same_replies c c' /\
    4 + zlen m <= rbuf_len_ c'.
Proof.
  intros [Hst Hh Hp Hb Hroom Hr Hrest] Hm. unfold grow.
  change COMMAND_HEADER_LENGTH with 4. unfold pb_message, kProtoMaxMessage, COMMAND_HEADER_LENGTH in Hm.
  unfold PB_IOBUF_LEN in *. rewrite to_u32_id, Hh by lia.
  destruct (rbuf_len_ c - 4 <? zlen m) eqn:E; b2p.
  - rewrite to_u32_id by lia. unfold kProtoMaxMessage. rewrite (proj2 (Z.ltb_lt _ _)), realloc_works by lia.
    eexists. split; [done|]. split; [|by split_and!; simpl; try lia].
    constructor; simpl; unfold PB_IOBUF_LEN; try done; lia.
  - eexists. split; [done|]. split; [by constructor|]. by split_and!; try lia.
Qed.

Lemma packet_cut (b rest : bytes) m ms :
  b ++ rest = frames (m :: ms) -> zlen b = 4 + zlen m -> b = frame m /\ rest = frames ms.
Proof.
  unfold frames at 1. cbn [map concat]. intros H Hl. apply app_inj_1 in H; [done|].
  pose proof (zlen_frame m). unfold zlen in *. lia.
Qed.

Lemma read_packet_at c s m ms :
  in_packet c (incoming (rdq s)) m ms -> plain_queue (rdq s) -> pb_message m ->
  exists n s', read_packet realloc_ok c s = Ret (n, s') /\ read_on s s' /\
    ((exists c', n = Done kReadHalf c' /\ in_packet c' (incoming (rdq s')) m ms /\ same_replies c c' /\
        (rdq s = [] /\ s' = s \/ (rd_work (rdq s') < rd_work (rdq s))%nat)) \/
     (exists c', n = Again c' /\ connStatus_ c' = kComplete /\ same_replies c c' /\
        rbuf_ c' = frame m /\ header_len_ c' = zlen m /\ incoming (rdq s') = frames ms /\
        PB_IOBUF_LEN <= rbuf_len_ c' < 2 ^ 32 /\ (rd_work (rdq s') < rd_work (rdq s))%nat)).
Proof.
  intros Hat Hq Hm. unfold read_packet.
  destruct (grow_ok _ _ _ _ Hat Hm) as (c1 & -> & [Hst Hh Hp Hb Hroom Hr Hrest] & Hsame1 & Hbig).
  pose proof Hm as Hm'. unfold pb_message, kProtoMaxMessage, COMMAND_HEADER_LENGTH in Hm'.
  rewrite to_u64_id by lia.
  destruct (sys_read_plain (remain_packet_len_ c1) s) as
    [[Hn ->]|(d & s' & -> & Hd & Hin & Hq' & Hw & Hwq & Hse)]; [unfold SSIZE_MAX; lia|done| |].
  { eexists _, s. split; [done|]. split; [done|]. left. exists c1. split_and!; try done. by left. }
  rewrite (proj2 (Z.eqb_neq _ _)) by lia.
  destruct (store_ok d c1) as (c' & -> & Hb' & Hc & Hrl & Hh' & Hr' & Hcs & Hsame); [lia..|].
  cbn [obind]. rewrite Hin, app_assoc in Hrest. rewrite ztake_all in Hb' by lia. rewrite <- Hb' in Hrest.
  assert (Hzb : zlen (rbuf_ c') = cur_pos_ c') by (rewrite Hb', zlen_app; lia).
  assert (Hsame' : same_replies c c').
  { destruct Hsame as (? & ? & ?), Hsame1 as (? & ? & ?). split_and!; congruence. }
  rewrite to_i32_id by clia. destruct (_ =? 0) eqn:E; b2p.
  - destruct (packet_cut _ _ _ _ Hrest) as [Hf Hi]; [lia|].
    eexists _, s'. split; [done|]. split; [done|]. right. eexists. split; [done|].
    split_and!; try done; simpl; try lia; congruence.
  - eexists _, s'. split; [done|]. split; [done|]. left. eexists. split; [done|].
    split; [|split; [done|by right]].
    constructor; simpl; try done; try congruence; lia.
Qed.
(** Nothing more to come: nothing more expected. *)
Lemma at_message_end c ms : at_message c [] ms -> ms = [].
Proof.
  intros [[_ Hp _ _ Hr]|(m & ms' & -> & [_ _ Hp Hb _ _ Hr])]; rewrite app_nil_r in Hr.
  - destruct ms as [|m ms]; [done|]. apply (f_equal zlen) in Hr.
    unfold frames in Hr. cbn [map concat] in Hr. rewrite zlen_app, zlen_frame in Hr.
    assert (zlen (ztake (cur_pos_ c) (rbuf_ c)) <= cur_pos_ c).
    { unfold ztake, zlen. rewrite length_take. lia. }
    zlen_pos. lia.
  - apply (f_equal zlen) in Hr. unfold frames in Hr. cbn [map concat] in Hr.
    rewrite zlen_app, zlen_frame in Hr. zlen_pos. lia.
Qed.

(** * A handler of messages *)

(** What a subclass does in [DealMessage]: it parses the [header_len_] bytes after
    the prefix, answers, and reports success. *)
Context (handle : bytes -> U -> list bytes * U).

Definition message c : bytes := ztake (header_len_ c) (zdrop COMMAND_HEADER_LENGTH (rbuf_ c)).

Definition deal c (u : U) : Z * list bytes * U :=
  let '(resps, u) := handle (message c) u in (0, resps, u).

(** The answers to a sequence of messages, and the object after them. *)
Fixpoint answers (ms : list bytes) (u : U) : list bytes * U :=
  match ms with
  | [] => ([], u)
  | m :: ms =>
      let '(r, u) := handle m u in
      let '(rs, u) := answers ms u in (r ++ rs, u)
  end.

Lemma answers_app ms1 ms2 u :
  answers (ms1 ++ ms2) u =
    ((answers ms1 u).1 ++ (answers ms2 (answers ms1 u).2).1, (answers ms2 (answers ms1 u).2).2).
Proof.
  revert u. induction ms1 as [|m ms1 IH]; intros u; simpl; [by destruct (answers ms2 u)|].
  destruct (handle m u) as [r u1]. rewrite IH.
  destruct (answers ms1 u1) as [r1 u2]. simpl. by rewrite app_assoc.
Qed.

(** The items a response becomes in the queue. *)
Definition items (resps : list bytes) : list bytes :=
  concat (map (fun r => [BuildInternalTag r; r]) resps).

(** The responses [resps] have been queued. *)
Definition replied c (resps : list bytes) c' : Prop :=
  queue_ c' = queue_ c ++ items resps /\ item_pos_ c' = item_pos_ c.

Lemma same_replied c c' : same_replies c c' -> replied c [] c'.
Proof. intros (Hq & Hp & _). split; [by rewrite app_nil_r|done]. Qed.

Lemma items_app r1 r2 : items (r1 ++ r2) = items r1 ++ items r2.
Proof. unfold items. by rewrite map_app, concat_app. Qed.

Lemma replied_trans c1 c2 c3 r1 r2 : replied c1 r1 c2 -> replied c2 r2 c3 -> replied c1 (r1 ++ r2) c3.
Proof.
  intros [Hq Hp] [Hq' Hp']. split; [|congruence]. by rewrite Hq', Hq, items_app, app_assoc.
Qed.

Definition write_all (resps : list bytes) c : PbConn := fold_left (fun c resp => WriteResp resp c) resps c.

Lemma write_all_spec resps c :
  let c' := write_all resps c in
  replied c resps c' /\ rbuf_ c' = rbuf_ c /\ cur_pos_ c' = cur_pos_ c /\
  rbuf_len_ c' = rbuf_len_ c /\ header_len_ c' = header_len_ c /\ connStatus_ c' = connStatus_ c.
Proof.
  revert c. induction resps as [|r resps IH]; intros c; cbn [write_all fold_left].
  { split; [|done]. split; [by rewrite app_nil_r|done]. }
  destruct (IH (WriteResp r c)) as (Hr & Hb & Hc & Hl & Hh & Hs). split_and!; try done.
  eapply (replied_trans _ (WriteResp r c) _ [r]); [|done]. by split.
Qed.

Lemma complete_at c m ms u :
  rbuf_ c = frame m -> header_len_ c = zlen m -> PB_IOBUF_LEN <= rbuf_len_ c < 2 ^ 32 ->
  exists c', complete deal c u = (Done kReadAll c', (handle m u).2) /\
    in_header c' (frames ms) ms /\ replied c (handle m u).1 c'.
Proof.
  intros Hb Hh Hroom. unfold complete, deal, message. rewrite Hb, Hh. unfold frame.
  rewrite zdrop_app, ztake_all by done. destruct (handle m u) as [resps u'].
  fold (write_all resps c). destruct (write_all_spec resps c) as (Hr & Hb' & _ & Hl & _ & _).
  eexists. split; [done|]. split; [|done].
  constructor; simpl; try done; [|by rewrite Hl]. zlen_pos. lia.
Qed.

(** * One request *)

(** The outcome of a call: nothing complete yet, or one message handled. *)
Definition one_request c (ms : list bytes) (u : U) s (res : outcome (ReadStatus * PbConn * U * sock)) : Prop :=
  exists r c' s' done_ ms', res = Ret (r, c', (answers done_ u).2, s') /\
    ms = done_ ++ ms' /\ (r = kReadHalf \/ r = kReadAll) /\
    at_message c' (incoming (rdq s')) ms' /\ read_on s s' /\ replied c (answers done_ u).1 c' /\
    (rdq s = [] /\ rdq s' = [] \/ (rd_work (rdq s') < rd_work (rdq s))%nat).

Lemma at_packet_half c s m ms u c' s' :
  in_packet c' (incoming (rdq s')) m ms -> read_on s s' -> same_replies c c' ->
  (rdq s = [] /\ rdq s' = [] \/ (rd_work (rdq s') < rd_work (rdq s))%nat) ->
  one_request c (m :: ms) u s (Ret (kReadHalf, c', u, s')).
Proof.
  intros Hat Hon Hsame Hw. exists kReadHalf, c', s', [], (m :: ms).
  split_and!; try done; [by left|right; by eauto|by apply same_replied].
Qed.

Lemma GetRequest_packet f c s m ms u :
  in_packet c (incoming (rdq s)) m ms -> plain_queue (rdq s) -> pb_message m ->
  one_request c (m :: ms) u s (GetRequest_loop realloc_ok deal (S (S f)) c u s).
Proof.
  intros Hat Hq Hm. rewrite GetRequest_loop_S, (ip_state _ _ _ _ Hat).
  destruct (read_packet_at c s m ms Hat Hq Hm) as
    (n & s' & -> & Hon & [(c' & -> & Hat' & Hsame & Hw)|
      (c' & -> & Hst & Hsame & Hb & Hh & Hi & Hroom & Hw)]); cbn [obind].
  - apply at_packet_half; try done. destruct Hw as [[H0 ->]|Hw]; [by left|by right].
  - rewrite GetRequest_loop_S, Hst.
    destruct (complete_at c' m ms u Hb Hh Hroom) as (c2 & -> & Hat2 & Hr). cbn [obind].
    exists kReadAll, c2, s', [m], ms. unfold answers. destruct (handle m u) as [rs u'].
    split_and!; try done; [by right|left; by rewrite Hi| |by right].
    cbn [fst]. rewrite app_nil_r. change rs with ([] ++ rs).
    eapply replied_trans; [by apply same_replied|done].
Qed.

Lemma one_request_from c c1 s s1 ms u res :
  same_replies c c1 -> (rd_work (rdq s1) < rd_work (rdq s))%nat -> wrq s1 = wrq s -> sent s1 = sent s ->
  one_request c1 ms u s1 res -> one_request c ms u s res.
Proof.
  intros Hsame Hw Hwq Hse (r & c' & s' & d & ms' & -> & Hms & Hr & Hat & (Hp & Hwq' & Hse') & Hrep & Hw').
  exists r, c', s', d, ms'. split_and!; try done; try congruence.
  - split_and!; [done|congruence|congruence].
  - change (answers d u).1 with ([] ++ (answers d u).1).
    eapply replied_trans; [by apply same_replied|done].
  - right. destruct Hw' as [[H0 H1]|H1]; [rewrite H1, <- H0; lia|lia].
Qed.

Lemma GetRequest_at c s ms u :
  at_message c (incoming (rdq s)) ms -> plain_queue (rdq s) -> Forall pb_message ms ->
  one_request c ms u s (GetRequest realloc_ok deal c u s).
Proof.
  intros [Hat|(m & ms' & -> & Hat)] Hq Hms; unfold GetRequest.
  - rewrite GetRequest_loop_S, (ih_state _ _ _ Hat).
    destruct (read_header_at c s ms Hat Hq Hms) as [[H0 ->]|(n & s' & -> & Hon & Hw &
      [(c' & -> & Hat' & Hsame)|(c' & m & ms' & -> & -> & Hat' & Hsame)])]; cbn [obind].
    + exists kReadHalf, c, s, [], ms. split_and!; try done; [by left|by left| |by left].
      by apply same_replied.
    + exists kReadHalf, c', s', [], ms. split_and!; try done; [by left|by left| |by right].
      by apply same_replied.
    + apply Forall_cons in Hms as [Hm _]. destruct Hon as (Hq' & Hwq & Hse).
      eapply one_request_from; try done. by apply GetRequest_packet.
  - apply Forall_cons in Hms as [Hm _].
    by apply GetRequest_packet.
Qed.

(** * The life of a connection *)

(** [n] calls of [GetRequest], as the event loop makes them; the connection is
    given up on a status other than these two. *)
Fixpoint serve (n : nat) c (u : U) s : outcome (ReadStatus * PbConn * U * sock) :=
  match n with
  | O => Ret (kReadHalf, c, u, s)
  | S n =>
      let! (r, c, u, s) := GetRequest realloc_ok deal c u s in
      match r with
      | kReadHalf | kReadAll => serve n c u s
      | _ => Ret (r, c, u, s)
      end
  end.

Lemma serve_at n c s ms u :
  at_message c (incoming (rdq s)) ms -> plain_queue (rdq s) -> Forall pb_message ms ->
  (rd_work (rdq s) <= n)%nat ->
  exists c' s', serve n c u s = Ret (kReadHalf, c', (answers ms u).2, s') /\
    at_message c' [] [] /\ replied c (answers ms u).1 c' /\ rdq s' = [] /\
    wrq s' = wrq s /\ sent s' = sent s.
Proof.
  revert c s ms u. induction n as [|n IH]; intros c s ms u Hat Hq Hms Hn.
  - assert (H0 : rdq s = []) by (unfold rd_work in Hn; destruct (rdq s); [done|simpl in Hn; lia]).
    rewrite H0 in *. pose proof (at_message_end c ms Hat) as ->.
    exists c, s. split_and!; try done. by split; [rewrite app_nil_r|].
  - cbn [serve]. destruct (GetRequest_at c s ms u Hat Hq Hms) as
      (r & c' & s' & d & ms' & -> & -> & Hr & Hat' & (Hq' & Hwq & Hse) & Hrep & Hw). cbn [obind].
    apply Forall_app in Hms as [_ Hms'].
    destruct (IH c' s' ms' (answers d u).2) as (c2 & s2 & HS & Hat2 & Hrep2 & H0 & Hwq2 & Hse2); try done.
    { destruct Hw as [[H0 H1]|Hw]; [rewrite H1; unfold rd_work; simpl; lia|lia]. }
    rewrite answers_app. exists c2, s2. cbn [fst snd].
    split; [by destruct Hr as [-> | ->]|]. split_and!; try done; try congruence.
    by eapply replied_trans.
Qed.
End conn.

(** * The reply queue *)

Section replies.
Implicit Types c : PbConn.

(** The bytes still to be written. *)
Definition pending c : bytes := zdrop (item_pos_ c) (concat (queue_ c)).

(** No item is empty, and the position is inside the first. *)
Definition sendable c : Prop :=
  Forall (fun i : bytes => 0 < zlen i < 2 ^ 64) (queue_ c) /\
  match queue_ c with
  | [] => item_pos_ c = 0
  | i :: _ => 0 <= item_pos_ c < zlen i
  end.

Lemma zdrop_app_le (l k : bytes) n : 0 <= n <= zlen l -> zdrop n (l ++ k) = zdrop n l ++ k.
Proof. intros Hn. unfold zdrop, zlen in *. apply drop_app_le. lia. Qed.

Lemma pending_cons c i q :
  queue_ c = i :: q -> 0 <= item_pos_ c <= zlen i -> pending c = zdrop (item_pos_ c) i ++ concat q.
Proof. intros Hq Hp. unfold pending. rewrite Hq. by apply zdrop_app_le. Qed.

Lemma write_item_S f item item_len nwritten c s :
  write_item (S f) item item_len nwritten c s =
    if 0 <? to_u64 (item_len - item_pos_ c) then
      let '(res, s) := sys_write (zdrop (item_pos_ c) item) s in
      match res with
      | IoErr e => Ret (item_len, -1, Some e, c, s)
      | IoLen n =>
          if n =? 0 then Ret (item_len, n, None, c, s)
          else
            let pos := item_pos_ c + n in
            if pos =? item_len
            then write_item f item 0 n (set_queue (drop 1 (queue_ c)) 0 c) s
            else write_item f item item_len n (set_queue (queue_ c) pos c) s
      end
    else Ret (item_len, nwritten, None, c, s).
Proof. done. Qed.

(** How the inner loop ends: the item is gone, or some of it is left. *)
Definition item_result (item : bytes) (q : list bytes) (il nw : Z) (err : option errno) c : Prop :=
  (queue_ c = q /\ item_pos_ c = 0 /\ il = 0 /\ nw <> -1) \/
  (queue_ c = item :: q /\ 0 <= item_pos_ c < zlen item /\ il = zlen item /\
     ((nw = -1 /\ err <> None) \/ nw = 0)).

Lemma write_item_spec fuel item q nw0 c s :
  queue_ c = item :: q -> 0 <= item_pos_ c < zlen item -> zlen item < 2 ^ 64 ->
  (S (length (wrq s)) < fuel)%nat ->
  exists il nw err c' s', write_item fuel item (zlen item) nw0 c s = Ret (il, nw, err, c', s') /\
    rdq s' = rdq s /\ sent s' ++ pending c' = sent s ++ pending c /\
    item_result item q il nw err c'.
Proof.
  revert c s nw0. induction fuel as [|f IH]; intros c s nw0 Hq Hp Hl Hf; [lia|].
  rewrite write_item_S, to_u64_id, (proj2 (Z.ltb_lt _ _)) by lia.
  pose proof (zlen_zdrop (item_pos_ c) item ltac:(lia)) as Hz.
  destruct (sys_write (zdrop (item_pos_ c) item) s) as [res s1] eqn:W.
  pose proof (sys_write_prefix _ _ _ _ W) as [Hs Hr].
  pose proof (sys_write_grants _ _ _ _ W) as Hg.
  destruct res as [n|e].
  2:{ eexists _, _, _, c, s1. split; [done|]. split; [done|]. split; [by rewrite Hs|].
      right. split_and!; try done; lia || by left. }
  destruct Hs as [Hn Hs]. destruct (n =? 0) eqn:E0; b2p.
  { subst. eexists _, _, _, c, s1. split; [done|]. split; [done|].
    split; [by rewrite Hs, app_nil_r|]. right. split_and!; try done; lia || by right. }
  assert (Hgr : (length (wrq s1) < length (wrq s))%nat).
  { destruct Hg as [(_ & _ & ?)|(g & ->)]; [done|simpl; lia]. }
  cbv zeta. destruct (item_pos_ c + n =? zlen item) eqn:E; b2p.
  - destruct f as [|f]; [lia|]. rewrite write_item_S. simpl.
    eexists _, _, _, _, s1. split; [done|]. split; [done|]. split; [|left].
    + rewrite Hs, (pending_cons c item q) by (done || lia). unfold pending. simpl. rewrite Hq. simpl.
      rewrite ztake_all, zdrop_0 by lia. by rewrite app_assoc.
    + simpl. rewrite Hq. split_and!; try done. lia.
  - destruct (IH (set_queue (queue_ c) (item_pos_ c + n) c) s1 n) as
      (il & nw & err & c' & s' & -> & Hr' & Hse & Hres); try done; [simpl; lia|lia|].
    eexists _, _, _, c', s'. split; [done|]. split; [congruence|]. split; [|done].
    rewrite Hse, Hs, (pending_cons c item q), (pending_cons _ item q) by (done || simpl; lia).
    simpl. rewrite <- !app_assoc. f_equal. rewrite app_assoc. f_equal.
    rewrite <- zdrop_zdrop by lia. apply ztake_zdrop.
Qed.

Lemma SendReply_loop_S f nw c s :
  SendReply_loop (S f) nw c s =
    match queue_ c with
    | [] => Ret (kWriteAll, c, s)
    | item :: _ =>
        let! (item_len, nwritten, err, c, s) :=
          write_item (S (S (length (wrq s)))) item (zlen item) nw c s in
        if nwritten =? -1 then
          Ret (if bool_decide (err = Some EAGAIN) then kWriteHalf else kWriteError, c, s)
        else if negb (item_len - item_pos_ c =? 0) then Ret (kWriteHalf, c, s)
        else SendReply_loop f nwritten c s
    end.
Proof. done. Qed.

(** What a call has done: bytes moved from the queue to the socket, in order. *)
Definition reply_sent c s (st : WriteStatus) c' s' : Prop :=
  rdq s' = rdq s /\ sent s' ++ pending c' = sent s ++ pending c /\ sendable c' /\
  (st = kWriteAll -> queue_ c' = [] /\ sent s' = sent s ++ pending c).

Lemma SendReply_loop_spec fuel nw c s :
  sendable c -> (length (queue_ c) < fuel)%nat ->
  exists st c' s', SendReply_loop fuel nw c s = Ret (st, c', s') /\ reply_sent c s st c' s'.
Proof.
  revert nw c s. induction fuel as [|f IH]; intros nw c s [Hi Hp] Hf; [lia|].
  rewrite SendReply_loop_S. destruct (queue_ c) as [|item q] eqn:Eq.
  { exists kWriteAll, c, s. split; [done|]. unfold reply_sent, sendable, pending. rewrite Eq, Hp.
    split_and!; try done. intros _. split; [done|]. by rewrite app_nil_r. }
  apply Forall_cons in Hi as [Hl Hi].
  destruct (write_item_spec (S (S (length (wrq s)))) item q nw c s) as
    (il & nw' & err & c1 & s1 & -> & Hr & Hse & Hres); [done|lia|lia|lia|]. cbn [obind].
  destruct Hres as [(Hq & Hp1 & -> & Hnw)|(Hq & Hp1 & -> & Hnw)].
  - rewrite (proj2 (Z.eqb_neq _ _)), Hp1 by lia. cbn [negb Z.sub Z.eqb].
    destruct (IH nw' c1 s1) as (st & c' & s' & -> & Hr' & Hse' & Hw' & Hall).
    + unfold sendable. rewrite Hq. split; [done|]. destruct q; [done|].
      apply Forall_cons in Hi as [? _]. lia.
    + rewrite Hq. simpl in Hf. lia.
    + exists st, c', s'. split; [done|]. split_and!; [congruence|congruence|done|].
      intros Hst. destruct (Hall Hst) as [H1 H2]. split; [done|]. congruence.
  - assert (Hsend : sendable c1) by (unfold sendable; rewrite Hq; split; [by constructor|done]).
    destruct Hnw as [[-> He]| ->]; cbn [Z.eqb].
    + eexists _, c1, s1. split; [done|]. split_and!; try done. by case_bool_decide.
    + rewrite (proj2 (Z.eqb_neq _ _)) by lia. eexists _, c1, s1. split; [done|]. by split_and!.
Qed.

Lemma pb_SendReply_spec c s :
  sendable c -> exists st c' s', SendReply c s = Ret (st, c', s') /\ reply_sent c s st c' s'.
Proof. intros Hc. apply SendReply_loop_spec; [done|lia]. Qed.

(** Responses whose length fits the prefix. *)
Lemma items_frames resps :
  Forall (fun r : bytes => zlen r < 2 ^ 32) resps -> concat (items resps) = frames resps.
Proof.
  induction 1 as [|r resps Hr _ IH]; [done|]. unfold items, frames in *. cbn [map concat].
  rewrite concat_app, IH. simpl. unfold BuildInternalTag, frame.
  rewrite to_u32_id by (zlen_pos; lia). by rewrite app_nil_r.
Qed.
End replies.
