(* ===== verification/PbTheorems.v ===== *)
(** The theorems on the protobuf framing: the server's connection and the
    client, separately and together. *)
From S2P Require Import Pink Prelude Sys PinkCli PinkCliFacts PbConn PbConnFacts PbCli.

(** * From client to server *)

Section client.
Context {M : Type} {P : Protobuf M}.

(** Requests sent one after the other, each successfully. *)
Inductive sends : list M -> sock -> sock -> Prop :=
  | SendsNil s : sends [] s s
  | SendsCons m ms s s1 s2 : PbCli_Send m s = Ret (OK, s1) -> sends ms s1 s2 -> sends (m :: ms) s s2.

(** Replies received one after the other, each successfully. *)
Inductive recvs : list M -> sock -> sock -> Prop :=
  | RecvsNil s : recvs [] s s
  | RecvsCons m ms s s1 s2 :
      PbCli_Recv s = Ret (OK, Some m, s1) -> recvs ms s1 s2 -> recvs (m :: ms) s s2.

(** A message that fits the limit of the connection. *)
Definition pb_fits (m : M) : Prop := pb_message (Serialize m).

Lemma PbCli_Send_sent m s s' :
  pb_fits m -> PbCli_Send m s = Ret (OK, s') -> sent s' = sent s ++ frame (Serialize m).
Proof.
  unfold pb_fits, pb_message, PbCli_Send. intros Hm.
  assert (kProtoMaxMessage = 536870912) as Hk by done. rewrite Hk in *.
  unfold COMMAND_HEADER_LENGTH, kCommandHeaderLength in *.
  rewrite (proj2 (Z.ltb_ge _ _)) by lia. rewrite to_i32_id, to_u32_id by clia. fold (frame (Serialize m)).
  destruct (SendRaw_spec (frame (Serialize m)) s) as (st & s1 & -> & _ & _ & Hok).
  { rewrite zlen_frame. clia. }
  intros [= -> ->]. by apply Hok.
Qed.

Lemma sends_sent ms s s' :
  sends ms s s' -> Forall pb_fits ms -> sent s' = sent s ++ frames (map Serialize ms).
Proof.
  induction 1 as [|m ms s s1 s2 Hm _ IH]; intros Hf; [by rewrite app_nil_r|].
  apply Forall_cons in Hf as [Hf Hfs]. rewrite (IH Hfs), (PbCli_Send_sent m s s1 Hf Hm), <- app_assoc.
  done.
Qed.

Lemma PbCli_Recv_frame {L : ProtobufLaws M} m rest s :
  pb_fits m -> steady (rdq s) -> incoming (rdq s) = frame (Serialize m) ++ rest ->
  exists s', PbCli_Recv s = Ret (OK, Some m, s') /\ steady (rdq s') /\ incoming (rdq s') = rest.
Proof.
  unfold pb_fits, pb_message, PbCli_Recv. intros Hm Hst Hin.
  assert (kProtoMaxMessage = 536870912) as Hk by done. rewrite Hk in *.
  unfold COMMAND_HEADER_LENGTH, kCommandHeaderLength in *.
  assert (Hl : zlen (incoming (rdq s)) = 4 + zlen (Serialize m) + zlen rest).
  { rewrite Hin, zlen_app, zlen_frame. done. }
  pose proof (zlen_nonneg rest).
  destruct (RecvRaw_steady 536870912 4 s) as (s1 & -> & Hi1 & Hst1 & _ & _); [lia|done|done|lia|].
  rewrite Hin in *. unfold frame in Hi1 |- *. rewrite <- app_assoc in *.
  rewrite zdrop_app in Hi1 by done. rewrite ztake_app by done. cbn [obind]. simpl (negb _). cbv iota.
  replace (get_be32 (be32 (zlen (Serialize m)))) with (zlen (Serialize m)).
  2:{ symmetry. rewrite <- (app_nil_r (be32 _)). apply get_be32_be32. lia. }
  destruct (RecvRaw_steady 536870912 (zlen (Serialize m)) s1) as (s2 & -> & Hi2 & Hst2 & _ & _);
    [lia|done|done|rewrite Hi1, zlen_app; lia|].
  rewrite Hi1 in *. rewrite zdrop_app in Hi2 by done. rewrite ztake_app by done.
  cbn [obind]. simpl (negb _). cbv iota. rewrite Parse_Serialize. by exists s2.
Qed.

Lemma recvs_frames {L : ProtobufLaws M} ms rest s :
  Forall pb_fits ms -> steady (rdq s) -> incoming (rdq s) = frames (map Serialize ms) ++ rest ->
  exists s', recvs ms s s' /\ incoming (rdq s') = rest.
Proof.
  revert s. induction ms as [|m ms IH]; intros s Hf Hst Hin.
  { exists s. by split; [constructor|]. }
  apply Forall_cons in Hf as [Hf Hfs]. unfold frames in Hin. cbn [map concat] in Hin.
  rewrite <- app_assoc in Hin.
  destruct (PbCli_Recv_frame m _ s Hf Hst Hin) as (s1 & H1 & Hst1 & Hi1).
  destruct (IH s1 Hfs Hst1 Hi1) as (s' & H2 & Hi2).
  exists s'. split; [by econstructor|done].
Qed.
End client.

(** A handler of parsed messages, as the bytes of the connection reach it. *)
Definition parsing {M U} `{Protobuf M} (h : M -> U -> list bytes * U) (b : bytes) (u : U) : list bytes * U :=
  match ParseFromArray b with Some m => h m u | None => ([], u) end.

(** [h] on each message, in order: all the responses, and the last object. *)
Fixpoint handle_all {M U} (h : M -> U -> list bytes * U) (ms : list M) (u : U) : list bytes * U :=
  match ms with
  | [] => ([], u)
  | m :: ms =>
      let '(r, u) := h m u in
      let '(rs, u) := handle_all h ms u in (r ++ rs, u)
  end.

Lemma answers_parsing {M U} {P : Protobuf M} {L : ProtobufLaws M} (h : M -> U -> list bytes * U) ms u :
  answers (parsing h) (map Serialize ms) u = handle_all h ms u.
Proof.
  revert u. induction ms as [|m ms IH]; intros u; simpl; [done|].
  unfold parsing at 1. rewrite Parse_Serialize. destruct (h m u) as [r u1]. by rewrite IH.
Qed.



(** C9: the way back. What the server queues with [WriteResp] and [SendReply]
    reports as written, arriving at a client in any pieces, [PbCli::Recv] returns
    message by message, unchanged and in order. *)
Theorem pb_reply_roundtrip {M} {P : Protobuf M} {L : ProtobufLaws M} c resps s c' s' q w o rest :
  queue_ c = [] -> item_pos_ c = 0 -> Forall pb_fits resps ->
  SendReply (write_all (map Serialize resps) c) s = Ret (kWriteAll, c', s') ->
  steady q -> sent s' ++ rest = sent s ++ incoming q ->
  exists s2, recvs resps (mkSock q w o) s2 /\ incoming (rdq s2) = rest.
Proof.
  intros Hq Hp Hf HS Hst Hin.
  assert (Hfits : Forall (fun r : bytes => 0 < zlen r < 2 ^ 32) (map Serialize resps)).
  { apply Forall_map. eapply Forall_impl; [done|]. intros m Hm.
    unfold pb_fits, pb_message, kProtoMaxMessage in Hm. unfold COMMAND_HEADER_LENGTH in Hm. lia. }
  destruct (write_all_spec (map Serialize resps) c) as ([Hq' Hp'] & _). rewrite Hq, Hp in *.
  assert (Hpend : pending (write_all (map Serialize resps) c) = frames (map Serialize resps)).
  { unfold pending. rewrite Hq', Hp'. cbn [app]. rewrite items_frames; [done|].
    eapply Forall_impl; [done|]. simpl. lia. }
  destruct (pb_SendReply_spec (write_all (map Serialize resps) c) s) as (st & c2 & s2 & HS2 & Hsent).
  - split; rewrite Hq'; cbn [app].
    + clear -Hfits. induction Hfits as [|r rs Hr _ IH]; [constructor|].
      unfold items. cbn [map concat app]. constructor; [done|]. constructor; [lia|]. done.
    + destruct (items _) as [|i l] eqn:E; [done|]. rewrite Hp'. split; [done|].
      destruct resps; [done|]. injection E as <- _. done.
  - rewrite HS in HS2. injection HS2 as <- <- <-. destruct Hsent as (_ & _ & _ & Hall).
    destruct (Hall eq_refl) as [_ Hse]. rewrite Hse, Hpend, <- app_assoc in Hin.
    apply app_inv_head in Hin.
    destruct (recvs_frames resps rest (mkSock q w o) Hf Hst) as (s3 & Hr & Hi); [done|].
    by exists s3.
Qed.

Lemma pb_reply_roundtrip_witness :
  exists s2, recvs [bs "ok"; bs "no"]
      (mkSock [Arrive [NUL; NUL; NUL]; RdFails EINTR; Arrive ("002"%char :: bs "ok" ++ [NUL; NUL]);
               Arrive [NUL; "002"%char; "n"%char]; Arrive (bs "o!")] [] []) s2 /\
    incoming (rdq s2) = bs "!".
Proof.
  eapply (pb_reply_roundtrip (M:=bytes) (new_PbConn 0) [bs "ok"; bs "no"]
    (mkSock [] (replicate 4 (Accepts 5)) [])).
  - done.
  - done.
  - repeat constructor.
  - vm_compute. reflexivity.
  - repeat constructor; done.
  - vm_compute. reflexivity.
Defined.

(** * The reply queue *)

(** An empty item at the head of the queue is never taken off. *)
Lemma SendReply_loop_empty q fuel nwritten c s :
  queue_ c = [] :: q -> item_pos_ c = 0 -> nwritten <> -1 -> SendReply_loop fuel nwritten c s = Fault Diverges.
Proof.
  intros Hq Hp Hnw. induction fuel as [|f IH]; [done|].
  rewrite SendReply_loop_S, Hq, write_item_S, Hp. change (0 <? to_u64 (zlen [] - 0)) with false. cbn [obind].
  rewrite (proj2 (Z.eqb_neq nwritten (-1))), Hp by done. by change (negb (zlen [] - 0 =? 0)) with false.
Qed.

(** C10: when no queued item is empty, [SendReply] returns, and loses, duplicates and
    reorders nothing: what it has written followed by what is still queued is what was
    written and queued before, and [kWriteAll] means that the queue is empty. When the
    item at the head is empty it never returns, whatever the socket does: no number of
    turns of its loop is enough. *)
Theorem pb_SendReply_conserves c s :
  (sendable c ->
   exists st c' s', SendReply c s = Ret (st, c', s') /\
     sent s' ++ pending c' = sent s ++ pending c /\ sendable c' /\
     (st = kWriteAll -> queue_ c' = [] /\ sent s' = sent s ++ pending c)) /\
  (forall q fuel, queue_ c = [] :: q -> item_pos_ c = 0 -> SendReply_loop fuel 0 c s = Fault Diverges).
Proof.
  split; [|intros q fuel Hq Hp; by eapply SendReply_loop_empty].
  intros Hc. destruct (pb_SendReply_spec c s Hc) as (st & c' & s' & HS & _ & H1 & H2 & H3).
  by exists st, c', s'.
Qed.

Lemma pb_SendReply_conserves_witness :
  let c := WriteResp (bs "hello") (new_PbConn 0) in
  exists st c' s', SendReply c (mkSock [] [Accepts 6] []) = Ret (st, c', s') /\
    sent s' ++ pending c' = [] ++ pending c /\ sendable c' /\
    (st = kWriteAll -> queue_ c' = [] /\ sent s' = [] ++ pending c).
Proof.
  apply (pb_SendReply_conserves (WriteResp (bs "hello") (new_PbConn 0)) (mkSock [] [Accepts 6] [])).
  split; [|done]. repeat constructor.
Defined.

(** An empty response hangs the thread. Once the length of an empty response
    has been written, the empty item stays at the head of the queue and the loop
    of [SendReply] turns for ever: no number of iterations is enough. *)
Theorem empty_response_hangs c s n g fuel :
  queue_ c = [] -> item_pos_ c = 0 -> wrq s = Accepts n :: g -> (4 <= n)%nat ->
  SendReply_loop fuel 0 (WriteResp [] c) s = Fault Diverges.
Proof.
  intros Hq Hp Hw Hn.
  destruct fuel as [|f]; [done|]. rewrite SendReply_loop_S. simpl queue_. rewrite Hq.
  cbn [app]. change (BuildInternalTag []) with (be32 0). rewrite write_item_S. simpl item_pos_.
  rewrite Hp. change (0 <? to_u64 (zlen (be32 0) - 0)) with true. cbv iota.
  rewrite zdrop_0, (sys_write_all _ s n g) by (rewrite ?zlen_be32; done || lia).
  rewrite zlen_be32. cbn [Z.eqb Z.add]. cbn [length Nat.add]. rewrite Hw. cbn [length].
  rewrite write_item_S. simpl queue_. rewrite Hq. cbn [drop app]. simpl. by eapply SendReply_loop_empty.
Qed.

Lemma empty_response_hangs_witness :
  SendReply_loop 1000 0 (WriteResp [] (new_PbConn 0)) (mkSock [] [Accepts 4] []) = Fault Diverges.
Proof. apply (empty_response_hangs _ _ 4 []); vm_compute; reflexivity || lia. Defined.

(** * Hostile lengths *)

(** The connection after the prefix [len]. *)
Definition after_prefix (len : Z) (c : PbConn) : PbConn :=
  mkPbConn len (be32 len) 4 (rbuf_len_ c) (to_i32 len) kPacket (queue_ c) (item_pos_ c)
    (is_reply_ c) (sec c).

Section hostile.
Context {U : Type} (realloc_ok : Z -> bool).
Hypothesis realloc_works : forall n, realloc_ok n = true.
Context (DealMessage : PbConn -> U -> Z * list bytes * U).

Lemma GetRequest_prefix len now u d w o :
  0 <= len < 2 ^ 32 ->
  GetRequest realloc_ok DealMessage (new_PbConn now) u (mkSock [Arrive (be32 len ++ d)] w o) =
    GetRequest_loop realloc_ok DealMessage 2 (after_prefix len (new_PbConn now)) u
      (mkSock (if bool_decide (d = []) then [] else [Arrive d]) w o).
Proof.
  intros Hlen. unfold GetRequest.
  rewrite GetRequest_loop_S. simpl connStatus_.
  unfold read_header, sys_read. simpl cur_pos_.
  change (to_u32 (COMMAND_HEADER_LENGTH - 0)) with 4. change (SSIZE_MAX <? 4) with false. cbn [Z.eqb rdq]. rewrite zlen_app, zlen_be32.
  assert (Hget : get_be32 (be32 len) = len).
  { rewrite <- (app_nil_r (be32 len)). by apply get_be32_be32. }
  destruct (4 + zlen d <=? 4) eqn:E; b2p.
  - assert (d = []) as -> by (apply zlen_zero; zlen_pos; lia).
    rewrite app_nil_r, zlen_nil. cbn [Z.eqb Z.add].
    unfold store. rewrite zlen_be32. simpl. rewrite Hget. done.
  - rewrite bool_decide_eq_false_2 by (intros ->; rewrite zlen_nil in E; lia).
    rewrite ztake_app, zdrop_app by done. cbn [Z.eqb].
    unfold store. rewrite zlen_be32. simpl. rewrite Hget. done.
Qed.
End hostile.

(** A message of length zero, which protobuf allows, is not delivered: the
    read of its body asks for no bytes, gets none, and is taken for the end of
    the connection. *)
Theorem empty_message_closes {U} realloc_ok (DealMessage : PbConn -> U -> Z * list bytes * U) now u d w o :
  exists c s, GetRequest realloc_ok DealMessage (new_PbConn now) u (mkSock [Arrive (frame [] ++ d)] w o) =
    Ret (kReadClose, c, u, s).
Proof. unfold frame. rewrite app_nil_r, GetRequest_prefix by done. by eexists _, _. Qed.

(** The size of a message is not checked where it must be. The server adds
    the size of the prefix modulo 2^32, so that a length of at least 2^32 - 3
    shrinks the buffer to at most three bytes instead of being refused; only the [int]
    it has become stops it, since the [read] of a negative count fails. The client does
    not compare the length with its buffer of [kProtoMaxMessage] bytes at all, and
    stores what arrives. *)
Theorem oversized_length_overflows {U M} {P : Protobuf M} realloc_ok
    (DealMessage : PbConn -> U -> Z * list bytes * U) now u len d w o :
  (forall n, realloc_ok n = true) -> d <> [] -> 2 ^ 32 - 3 <= len < 2 ^ 32 ->
  (exists c', GetRequest realloc_ok DealMessage (new_PbConn now) u (mkSock [Arrive (be32 len ++ d)] w o) =
     Ret (kReadError, c', u, mkSock [Arrive d] w o) /\ 0 <= rbuf_len_ c' < 4) /\
  (kProtoMaxMessage < zlen d <= len -> PbCli_Recv (mkSock [Arrive (be32 len ++ d)] w o) = Fault OutOfBounds).
Proof.
  intros Hre Hd Hlen. rewrite GetRequest_prefix by lia.
  rewrite bool_decide_eq_false_2 by done.
  assert (Hpos : 0 < zlen d) by (destruct d; [done|zlen_lia]).
  assert (Hsmall : 0 <= to_u32 (len + 4) < 4).
  { replace (to_u32 (len + 4)) with (len + 4 - 2 ^ 32); [lia|].
    unfold to_u32. rewrite <- (Z.mod_small (len + 4 - 2 ^ 32) (2 ^ 32)) by lia.
    replace (len + 4) with (len + 4 - 2 ^ 32 + 1 * 2 ^ 32) at 2 by lia. by rewrite Z.mod_add. }
  assert (Hneg : to_i32 len = len - 2 ^ 32).
  { unfold to_i32. replace (len + 2 ^ 31) with (len - 2 ^ 31 + 1 * 2 ^ 32) by lia.
    rewrite Z.mod_add, Z.mod_small by lia. lia. }
  split.
  - rewrite GetRequest_loop_S. simpl connStatus_.
    unfold read_packet, grow. simpl rbuf_len_. simpl header_len_.
    change (to_u32 (PB_IOBUF_LEN - COMMAND_HEADER_LENGTH)) with 67108860.
    rewrite (proj2 (Z.ltb_lt _ _)) by lia. change COMMAND_HEADER_LENGTH with 4.
    change kProtoMaxMessage with 536870912. rewrite (proj2 (Z.ltb_lt _ _)), Hre by lia.
    simpl remain_packet_len_. rewrite Hneg, sys_read_negative by lia. cbn [obind]. by eexists.
  - intros Hbig. unfold PbCli_Recv, RecvRaw. change kCommandHeaderLength with 4.
    rewrite RecvRaw_loop_S. unfold sys_read at 1. change (SSIZE_MAX <? 4) with false. cbn [Z.ltb Z.compare Z.eqb rdq].
    rewrite zlen_app, zlen_be32, (proj2 (Z.leb_gt _ _)) by lia.
    rewrite ztake_app, zdrop_app by done. cbn [Z.eqb]. change (zlen [] + 4) with 4.
    change kProtoMaxMessage with 536870912 in *. cbn [Z.ltb Z.compare Pos.compare Pos.compare_cont].
    rewrite RecvRaw_loop_S. change (0 <? 4 - 4) with false. cbn [obind app].
    change (negb (bool_decide (OK = OK))) with false. cbv iota.
    replace (get_be32 (be32 len)) with len.
    2:{ symmetry. rewrite <- (app_nil_r (be32 _)). apply get_be32_be32. lia. }
    rewrite RecvRaw_loop_S, (proj2 (Z.ltb_lt 0 len)) by lia. unfold sys_read.
    rewrite (proj2 (Z.ltb_ge SSIZE_MAX len)), (proj2 (Z.eqb_neq len 0)) by (unfold SSIZE_MAX; lia). cbn [rdq].
    rewrite (proj2 (Z.leb_le _ _)) by lia. rewrite (proj2 (Z.eqb_neq _ _)) by lia.
    by rewrite (proj2 (Z.ltb_lt _ _)) by (change (zlen []) with 0; lia).
Qed.

Lemma oversized_length_overflows_witness :
  (exists c', GetRequest (fun _ => true) (fun _ u => (0, [], u)) (new_PbConn 0) ()
     (mkSock [Arrive (be32 (2 ^ 32 - 1) ++ bs "x")] [] []) = Ret (kReadError, c', (), mkSock [Arrive (bs "x")] [] []) /\
     0 <= rbuf_len_ c' < 4) /\
  (kProtoMaxMessage < zlen (bs "x") <= 2 ^ 32 - 1 ->
   PbCli_Recv (M := bytes) (mkSock [Arrive (be32 (2 ^ 32 - 1) ++ bs "x")] [] []) = Fault OutOfBounds).
Proof.
  apply (oversized_length_overflows (M := bytes) (fun _ => true) (fun _ u => (0, [], u)) 0 ()
    (2 ^ 32 - 1) (bs "x") [] []); [done|done|lia].
Defined.

(** * The buffer *)

(** Shrinking keeps the bytes in the buffer: whatever the position and the
    clock, the new size is at least the position and a positive multiple of the
    initial size, or the old one. *)
Theorem TryResizeBuffer_keeps now c :
  0 <= cur_pos_ c <= rbuf_len_ c -> rbuf_len_ c <= kProtoMaxMessage ->
  let c' := TryResizeBuffer now c in
  cur_pos_ c' = cur_pos_ c /\ rbuf_ c' = rbuf_ c /\ cur_pos_ c <= rbuf_len_ c' <= rbuf_len_ c /\
  (rbuf_len_ c' = rbuf_len_ c \/
   exists k, 0 < k /\ rbuf_len_ c' = k * PB_IOBUF_LEN /\ cur_pos_ c < rbuf_len_ c').
Proof.
  intros Hc Hl. unfold TryResizeBuffer, kProtoMaxMessage in *. cbv zeta.
  destruct (_ && _) eqn:E; [|split_and!; auto; lia].
  assert (HP : PB_IOBUF_LEN = 67108864) by done. rewrite HP in *.
  rewrite (to_u32_id (cur_pos_ c + _)) by lia.
  pose proof (Z.div_mod (cur_pos_ c + 67108864) 67108864 ltac:(lia)).
  pose proof (Z.mod_pos_bound (cur_pos_ c + 67108864) 67108864 ltac:(lia)).
  rewrite to_u32_id by lia.
  clear E. destruct (_ * 67108864 <? rbuf_len_ c) eqn:E2; b2p; simpl; split_and!; auto; try lia.
  right. exists ((cur_pos_ c + 67108864) / 67108864). split_and!; lia.
Qed.

Lemma TryResizeBuffer_keeps_witness :
  let c := set_rbuf_len (3 * PB_IOBUF_LEN) (new_PbConn 0) in
  let c' := TryResizeBuffer 10 c in
  cur_pos_ c' = cur_pos_ c /\ rbuf_ c' = rbuf_ c /\ cur_pos_ c <= rbuf_len_ c' <= rbuf_len_ c /\
  (rbuf_len_ c' = rbuf_len_ c \/
   exists k, 0 < k /\ rbuf_len_ c' = k * PB_IOBUF_LEN /\ cur_pos_ c < rbuf_len_ c').
Proof.
  apply (TryResizeBuffer_keeps 10 (set_rbuf_len (3 * PB_IOBUF_LEN) (new_PbConn 0)));
    [split; vm_compute; discriminate|vm_compute; discriminate].
Defined.
