(* ===== verification/RedisCli.v ===== *)
(** The class [RedisCli] of [pink/src/redis_cli.cc]: the redis client. It sends a
    serialized command and reads one reply into a buffer of fixed size.

    [rbuf_] is the memory block, so positions that run past the bytes received
    read what the memory holds, and positions outside the block are faults. *)
From S2P Require Import Pink Prelude Sys RedisCodec.

(** * Result codes *)

Definition REDIS_ETIMEOUT : Z := -5.
Definition REDIS_EREAD_NULL : Z := -4.
Definition REDIS_EREAD : Z := -3.
Definition REDIS_EPARSE_TYPE : Z := -2.
Definition REDIS_HALF : Z := 1.
Definition REDIS_REPLY_STRING : Z := 2.
Definition REDIS_REPLY_ARRAY : Z := 3.
Definition REDIS_REPLY_INTEGER : Z := 4.
Definition REDIS_REPLY_STATUS : Z := 6.
Definition REDIS_REPLY_ERROR : Z := 7.

(** * The state *)

Record RedisCli : Type := mkRedisCli {
  argv_ : list bytes;
  rbuf_ : bytes;
  rbuf_size_ : Z;
  rbuf_pos_ : Z;
  rbuf_offset_ : Z;
  elements_ : Z
}.

(** The constructor; [mem] is what [malloc] returns. *)
Definition new_RedisCli (mem : bytes) : RedisCli :=
  {| argv_ := []; rbuf_ := mem; rbuf_size_ := REDIS_IOBUF_LEN; rbuf_pos_ := 0;
     rbuf_offset_ := 0; elements_ := 0 |}.

Definition set_argv_ (v : list bytes) (c : RedisCli) : RedisCli :=
  mkRedisCli v (rbuf_ c) (rbuf_size_ c) (rbuf_pos_ c) (rbuf_offset_ c) (elements_ c).
Definition set_rbuf (m : bytes) (pos offset : Z) (c : RedisCli) : RedisCli :=
  mkRedisCli (argv_ c) m (rbuf_size_ c) pos offset (elements_ c).
Definition set_elements (n : Z) (c : RedisCli) : RedisCli :=
  mkRedisCli (argv_ c) (rbuf_ c) (rbuf_size_ c) (rbuf_pos_ c) (rbuf_offset_ c) n.

(** [elements_--]. *)
Definition one_less (c : RedisCli) : RedisCli := set_elements (elements_ c - 1) c.

(** [rbuf_pos_ += n; rbuf_offset_ -= n]. *)
Definition consume (n : Z) (c : RedisCli) : RedisCli :=
  set_rbuf (rbuf_ c) (rbuf_pos_ c + n) (rbuf_offset_ c - n) c.

(** * Memory *)

Definition peek (m : bytes) (i : Z) : outcome ascii :=
  if (0 <=? i) && (i <? zlen m) then Ret (nth (Z.to_nat i) m NUL) else Fault OutOfBounds.

(** The [n] bytes at [i]. *)
Definition slice (m : bytes) (i n : Z) : outcome bytes :=
  if (0 <=? i) && (0 <=? n) && (i + n <=? zlen m) then Ret (ztake n (zdrop i m))
  else Fault OutOfBounds.

(** [d] stored at [i]. *)
Definition poke (m : bytes) (i : Z) (d : bytes) : outcome bytes :=
  if (0 <=? i) && (i + zlen d <=? zlen m)
  then Ret (ztake i m ++ d ++ zdrop (i + zlen d) m)
  else Fault OutOfBounds.

(** * Sending *)

(** [Send]: the loop stops on any result that is not positive and looks at
    [errno], which a [write] of nothing leaves as it was: [err]. *)
Fixpoint Send_loop (fuel : nat) (err : errno) (wbuf : bytes) (nleft wbuf_pos : Z) (s : sock)
    : outcome (Status * sock) :=
  match fuel with
  | O => Fault Diverges
  | S f =>
      if 0 <? nleft then
        if (wbuf_pos <? 0) || (zlen wbuf <? wbuf_pos + nleft) then Fault OutOfBounds
        else
          let '(res, s) := sys_write (ztake nleft (zdrop wbuf_pos wbuf)) s in
          let err := match res with IoErr e => e | IoLen _ => err end in
          let n := match res with IoLen n => n | IoErr _ => -1 end in
          if n <=? 0 then
            match err with
            | EINTR => Send_loop f err wbuf nleft wbuf_pos s
            | EAGAIN => Ret (Timeout, s)
            | _ => Ret (IOError, s)
            end
          else Send_loop f err wbuf (nleft - n) (to_i32 (wbuf_pos + n)) s
      else Ret (OK, s)
  end.

Definition Send (err : errno) (storage : bytes) (s : sock) : outcome (Status * sock) :=
  Send_loop (S (S (length (wrq s)))) err storage (zlen storage) 0 s.

(** * Reading *)

(** The [while (true)] of [BufferRead]: an interrupted [read] is repeated. *)
Fixpoint BufferRead_loop (fuel : nat) (c : RedisCli) (s : sock) : outcome (Z * RedisCli * sock) :=
  match fuel with
  | O => Fault Diverges
  | S f =>
      let '(res, d, s) := sys_read (to_u64 (rbuf_size_ c - rbuf_offset_ c)) s in
      match res with
      | IoErr EINTR => BufferRead_loop f c s
      | IoErr EAGAIN => Ret (REDIS_ETIMEOUT, c, s)
      | IoErr _ => Ret (REDIS_EREAD, c, s)
      | IoLen n =>
          if n =? 0 then Ret (REDIS_EREAD_NULL, c, s)
          else
            let! m := poke (rbuf_ c) (rbuf_offset_ c) d in
            Ret (n, set_rbuf m (rbuf_pos_ c) (rbuf_offset_ c + n) c, s)
      end
  end.

(** The bytes that remain are moved to the front first. *)
Definition BufferRead (c : RedisCli) (s : sock) : outcome (Z * RedisCli * sock) :=
  let! c :=
    if 0 <? rbuf_pos_ c then
      let! m :=
        if 0 <? rbuf_offset_ c then
          let! d := slice (rbuf_ c) (rbuf_pos_ c) (rbuf_offset_ c) in poke (rbuf_ c) 0 d
        else Ret (rbuf_ c) in
      Ret (set_rbuf m 0 (rbuf_offset_ c) c)
    else Ret c in
  BufferRead_loop (S (length (rdq s))) c s.

(** The inner [while] of [seekNewline], on the memory from [base] on. *)
Fixpoint seek_CR (fuel : nat) (m : bytes) (base pos len : Z) : outcome Z :=
  match fuel with
  | O => Fault Diverges
  | S f =>
      if pos <? len then
        let! c := peek m (base + pos) in
        if negb (c =?c CR) then seek_CR f m base (pos + 1) len else Ret pos
      else Ret pos
  end.

(** The outer [while]; [len] is [_len]. The result is an offset from [base]. *)
Fixpoint seek_loop (fuel : nat) (m : bytes) (base pos len : Z) : outcome (option Z) :=
  match fuel with
  | O => Fault Diverges
  | S f =>
      if pos <? len then
        let! pos := seek_CR (S (Z.to_nat len)) m base pos len in
        let! c := peek m (base + pos) in
        if negb (c =?c CR) || (len <=? pos) then Ret None
        else
          let! d := peek m (base + pos + 1) in
          if d =?c LF then Ret (Some pos) else seek_loop f m base (pos + 1) len
      else Ret None
  end.

(** [len - 1] is a [size_t] converted to [int]. *)
Definition seekNewline (m : bytes) (base len : Z) : outcome (option Z) :=
  let len := to_i32 (to_u64 (to_u64 len - 1)) in
  seek_loop (S (Z.to_nat len)) m base 0 len.

(** The digits of [readLongLong]: -1 on any other byte than the ending CR. *)
Fixpoint read_digits (s : bytes) (v : Z) : outcome (option Z) :=
  match s with
  | [] => Fault OutOfBounds
  | c :: s =>
      if c =?c CR then Ret (Some v)
      else
        let dec := code c - 48 in
        if (0 <=? dec) && (dec <? 10) then
          if LONG_MAX <? v * 10 + dec then Fault Overflow else read_digits s (v * 10 + dec)
        else Ret None
  end.

Definition readLongLong (m : bytes) (base : Z) : outcome Z :=
  if (base <? 0) || (zlen m <=? base) then Fault OutOfBounds
  else
    let s := zdrop base m in
    let c := nth 0 s NUL in
    let mult := if c =?c "-"%char then -1 else 1 in
    let s := if (c =?c "-"%char) || (c =?c "+"%char) then drop 1 s else s in
    let! v := read_digits s 0 in
    Ret (match v with Some v => mult * v | None => -1 end).

(** [ReadBytes(1)]: the byte, or [None] for [NULL]. *)
Definition ReadByte (c : RedisCli) : outcome (option ascii * RedisCli) :=
  if 1 <=? to_u32 (rbuf_offset_ c) then
    let! b := peek (rbuf_ c) (rbuf_pos_ c) in Ret (Some b, consume 1 c)
  else Ret (None, c).

(** [ReadLine]: the start of the line and its length. *)
Definition ReadLine (c : RedisCli) : outcome (option (Z * Z) * RedisCli) :=
  let p := rbuf_pos_ c in
  let! s := seekNewline (rbuf_ c) p (rbuf_offset_ c) in
  match s with
  | Some len => Ret (Some (p, len), consume (len + 2) c)
  | None => Ret (None, c)
  end.

Definition ProcessLineItem (c : RedisCli) : outcome (Z * RedisCli) :=
  let! (l, c) := ReadLine c in
  match l with
  | None => Ret (REDIS_HALF, c)
  | Some (p, len) =>
      let! arg := slice (rbuf_ c) p len in
      Ret (REDIS_OK, one_less (set_argv_ (argv_ c ++ [arg]) c))
  end.

(** The test [len + 2 <= rbuf_offset_] does not count the length line. *)
Definition ProcessBulkItem (c : RedisCli) : outcome (Z * RedisCli) :=
  let p := rbuf_pos_ c in
  let! s := seekNewline (rbuf_ c) p (rbuf_offset_ c) in
  match s with
  | None => Ret (REDIS_HALF, c)
  | Some pos =>
      let bytelen := pos + 2 in
      let! v := readLongLong (rbuf_ c) p in
      let len := to_i32 v in
      if len =? -1 then Ret (REDIS_OK, consume bytelen (one_less c))
      else if INT_MAX <? len + 2 then Fault Overflow
      else if len + 2 <=? rbuf_offset_ c then
        if len <? 0 then Fault LengthError
        else
          let! arg := slice (rbuf_ c) (p + bytelen) len in
          Ret (REDIS_OK, consume (bytelen + len + 2) (one_less (set_argv_ (argv_ c ++ [arg]) c)))
      else Ret (REDIS_HALF, c)
  end.

Definition ProcessMultiBulkItem (c : RedisCli) : outcome (Z * RedisCli) :=
  let! (l, c) := ReadLine c in
  match l with
  | None => Ret (REDIS_HALF, c)
  | Some (p, _) => let! v := readLongLong (rbuf_ c) p in Ret (REDIS_OK, set_elements (to_i32 v) c)
  end.

(** The reply type of a first byte. *)
Definition reply_type (c : ascii) : option Z :=
  if c =?c "-"%char then Some REDIS_REPLY_ERROR
  else if c =?c "+"%char then Some REDIS_REPLY_STATUS
  else if c =?c ":"%char then Some REDIS_REPLY_INTEGER
  else if c =?c "$"%char then Some REDIS_REPLY_STRING
  else if c =?c "*"%char then Some REDIS_REPLY_ARRAY
  else None.

Definition GetReplyFromReader (c : RedisCli) : outcome (Z * RedisCli) :=
  if rbuf_offset_ c =? 0 then Ret (REDIS_HALF, c)
  else
    let! (b, c) := ReadByte c in
    match b with
    | None => Ret (REDIS_HALF, c)
    | Some b =>
        match reply_type b with
        | None => Ret (REDIS_EPARSE_TYPE, c)
        | Some t =>
            if t =? REDIS_REPLY_STRING then ProcessBulkItem c
            else if t =? REDIS_REPLY_ARRAY then ProcessMultiBulkItem c
            else ProcessLineItem c
        end
    end.

(** The loop of [GetReply]. *)
Fixpoint GetReply_loop (fuel : nat) (result : Z) (c : RedisCli) (s : sock)
    : outcome (Z * RedisCli * sock) :=
  match fuel with
  | O => Fault Diverges
  | S f =>
      if 0 <? elements_ c then
        let! (result, c, s) :=
          if (rbuf_offset_ c =? 0) || (result =? REDIS_HALF) then BufferRead c s
          else Ret (result, c, s) in
        if result <? 0 then Ret (result, c, s)
        else
          let! (result, c) := GetReplyFromReader c in
          if result <? REDIS_OK then Ret (result, c, s) else GetReply_loop f result c s
      else Ret (result, c, s)
  end.

Definition GetReply (fuel : nat) (c : RedisCli) (s : sock) : outcome (Z * RedisCli * sock) :=
  GetReply_loop fuel REDIS_OK (set_elements 1 c) s.

(** [Recv]: the status of a result code, and the reply on success. *)
Definition recv_status (result : Z) : Status :=
  if result =? REDIS_OK then OK
  else if result =? REDIS_ETIMEOUT then Timeout
  else IOError.

Definition Recv (fuel : nat) (c : RedisCli) (s : sock)
    : outcome (Status * option (list bytes) * RedisCli * sock) :=
  let! (result, c, s) := GetReply fuel (set_argv_ [] c) s in
  Ret (recv_status result, if result =? REDIS_OK then Some (argv_ c) else None, c, s).

#[global] Arguments seek_CR : simpl never.
#[global] Arguments seek_loop : simpl never.
#[global] Arguments seekNewline : simpl never.
#[global] Arguments BufferRead_loop : simpl never.
#[global] Arguments GetReply_loop : simpl never.
#[global] Arguments readLongLong : simpl never.
