(* ===== verification/RedisCliFacts.v ===== *)
(** Facts about the redis client's reader: searching and moving in its memory,
    and one item of a reply. *)
From S2P Require Import Pink Prelude Sys RedisCodec RedisCodecFacts RedisCli.

(** * Memory *)

Lemma peek_at (pre x : bytes) c y i :
  i = zlen pre + zlen x -> peek (pre ++ x ++ c :: y) i = Ret c.
Proof.
  intros ->. unfold peek. rewrite !zlen_app, zlen_cons.
  pose proof (zlen_nonneg pre). pose proof (zlen_nonneg x). pose proof (zlen_nonneg y).
  rewrite (proj2 (Z.leb_le _ _)), (proj2 (Z.ltb_lt _ _)) by lia. cbn [andb]. f_equal.
  rewrite app_assoc. unfold zlen. rewrite <- Nat2Z.inj_add, Nat2Z.id, <- length_app.
  rewrite app_nth2 by lia. by rewrite Nat.sub_diag.
Qed.

Lemma slice_at (pre x y : bytes) i n :
  i = zlen pre -> n = zlen x -> slice (pre ++ x ++ y) i n = Ret x.
Proof.
  intros -> ->. unfold slice. rewrite !zlen_app.
  pose proof (zlen_nonneg pre). pose proof (zlen_nonneg x). pose proof (zlen_nonneg y).
  rewrite !(proj2 (Z.leb_le _ _)) by lia. cbn [andb]. rewrite zdrop_app, ztake_app by done. done.
Qed.

Lemma poke_at (pre x y d : bytes) i :
  i = zlen pre -> zlen x = zlen d -> poke (pre ++ x ++ y) i d = Ret (pre ++ d ++ y).
Proof.
  intros -> Hx. unfold poke. rewrite !zlen_app.
  pose proof (zlen_nonneg pre). pose proof (zlen_nonneg x). pose proof (zlen_nonneg y).
  rewrite !(proj2 (Z.leb_le _ _)) by lia. cbn [andb]. rewrite ztake_app by done.
  replace (pre ++ x ++ y) with ((pre ++ x) ++ y) by (by app_norm).
  by rewrite zdrop_app by (rewrite zlen_app; lia).
Qed.

(** A long enough list starts with a part as long as another list. *)
Lemma app_eq_inv_len (d l : bytes) :
  zlen d <= zlen l -> exists x y, l = x ++ y /\ zlen x = zlen d.
Proof.
  intros Hl. exists (ztake (zlen d) l), (zdrop (zlen d) l). rewrite ztake_zdrop. split; [done|].
  apply zlen_ztake. zlen_pos. lia.
Qed.

(** * Searching the end of a line *)

Lemma seek_CR_S f m base pos len :
  seek_CR (S f) m base pos len =
    if pos <? len then
      let! c := peek m (base + pos) in
      if negb (c =?c CR) then seek_CR f m base (pos + 1) len else Ret pos
    else Ret pos.
Proof. done. Qed.

Lemma seek_loop_S f m base pos len :
  seek_loop (S f) m base pos len =
    if pos <? len then
      let! pos := seek_CR (S (Z.to_nat len)) m base pos len in
      let! c := peek m (base + pos) in
      if negb (c =?c CR) || (len <=? pos) then Ret None
      else
        let! d := peek m (base + pos + 1) in
        if d =?c LF then Ret (Some pos) else seek_loop f m base (pos + 1) len
    else Ret None.
Proof. done. Qed.

(** It stops at the first CR, or at the limit. *)
Lemma seek_CR_stops fuel (pre x1 x2 : bytes) c y len :
  (CR ∉ x2) -> zlen x1 + zlen x2 <= len -> (len = zlen x1 + zlen x2 \/ c = CR) ->
  (length x2 < fuel)%nat ->
  seek_CR fuel (pre ++ (x1 ++ x2) ++ c :: y) (zlen pre) (zlen x1) len = Ret (zlen x1 + zlen x2).
Proof.
  revert x1 x2. induction fuel as [|f IH]; intros x1 x2 Hn Hl Hc Hf; [lia|].
  rewrite seek_CR_S. destruct x2 as [|b x2].
  - rewrite app_nil_r. rewrite zlen_nil in *. destruct (zlen x1 <? len) eqn:E; b2p; [|f_equal; lia].
    destruct Hc as [Hc| ->]; [lia|]. rewrite peek_at by done. cbn [obind]. rewrite ceq_refl. f_equal. lia.
  - rewrite zlen_cons in *. pose proof (zlen_nonneg x2). rewrite (proj2 (Z.ltb_lt _ _)) by lia.
    replace (pre ++ (x1 ++ b :: x2) ++ c :: y) with (pre ++ x1 ++ b :: x2 ++ c :: y) by (by app_norm).
    rewrite peek_at by done. cbn [obind]. rewrite ceq_neq by set_solver. cbn [negb].
    replace (pre ++ x1 ++ b :: x2 ++ c :: y) with (pre ++ ((x1 ++ [b]) ++ x2) ++ c :: y) by (by app_norm).
    replace (zlen x1 + 1) with (zlen (x1 ++ [b])) by zlen_lia.
    rewrite IH; [|set_solver|zlen_lia|destruct Hc; [left; zlen_lia|by right]|simpl in Hf; lia].
    f_equal. zlen_lia.
Qed.

Lemma seek_length len : 0 < len <= INT_MAX -> to_i32 (to_u64 (to_u64 len - 1)) = len - 1.
Proof. intros Hl. by rewrite (to_u64_id len), to_u64_id, to_i32_id by clia. Qed.

Lemma seekNewline_found (pre x y : bytes) len :
  CR ∉ x -> zlen x + 2 <= len <= INT_MAX ->
  seekNewline (pre ++ x ++ CR :: LF :: y) (zlen pre) len = Ret (Some (zlen x)).
Proof.
  intros Hn Hl. pose proof (zlen_nonneg x). unfold seekNewline. rewrite seek_length, seek_loop_S by lia.
  rewrite (proj2 (Z.ltb_lt _ _)) by lia.
  pose proof (seek_CR_stops (S (Z.to_nat (len - 1))) pre [] x CR (LF :: y) (len - 1) Hn) as Hs.
  rewrite zlen_nil, app_nil_l in Hs.
  rewrite Hs; [|lia|by right|unfold zlen in Hl; lia]. cbn [obind].
  rewrite Z.add_0_l, peek_at by done. cbn [obind].
  rewrite ceq_refl, (proj2 (Z.leb_gt _ _)) by lia. cbn [negb orb].
  replace (pre ++ x ++ CR :: LF :: y) with (pre ++ (x ++ [CR]) ++ LF :: y) by (by app_norm).
  rewrite peek_at by zlen_lia. done.
Qed.

Lemma seekNewline_none (pre x : bytes) c y len :
  CR ∉ x -> len = zlen x + 1 -> len <= INT_MAX ->
  seekNewline (pre ++ x ++ c :: y) (zlen pre) len = Ret None.
Proof.
  intros Hn -> Hl. pose proof (zlen_nonneg x). unfold seekNewline. rewrite seek_length, seek_loop_S by lia.
  replace (zlen x + 1 - 1) with (zlen x) by lia.
  destruct (0 <? zlen x) eqn:E; [|done].
  pose proof (seek_CR_stops (S (Z.to_nat (zlen x))) pre [] x c y (zlen x) Hn) as Hs.
  rewrite zlen_nil, app_nil_l in Hs. rewrite Hs; [|lia|by left|unfold zlen; lia]. cbn [obind].
  rewrite Z.add_0_l, peek_at by done. cbn [obind]. rewrite Z.leb_refl, orb_true_r. done.
Qed.

Lemma seekNewline_empty m base : seekNewline m base 0 = Ret None.
Proof. done. Qed.

(** * Numbers *)

Lemma read_digits_dec fuel n v rest :
  0 <= n < 2 ^ Z.of_nat fuel -> 0 <= v -> v * 10 ^ zlen (dec_digits fuel n) + n <= LONG_MAX ->
  read_digits (dec_digits fuel n ++ rest) v = read_digits rest (v * 10 ^ zlen (dec_digits fuel n) + n).
Proof.
  revert n v rest. induction fuel as [|f IH]; intros n v rest Hn Hv Hmax.
  - change (2 ^ Z.of_nat 0) with 1 in Hn. simpl. f_equal. change (zlen []) with 0. lia.
  - rewrite dec_digits_S in *. rewrite Nat2Z.inj_succ, Z.pow_succ_r in Hn by lia.
    pose proof (Z.mod_pos_bound n 10 ltac:(lia)). pose proof (Z.div_mod n 10 ltac:(lia)).
    assert (Hstep : forall v, 0 <= v -> v * 10 + n mod 10 <= LONG_MAX ->
      read_digits ([digit (n mod 10)] ++ rest) v = read_digits rest (v * 10 + n mod 10)).
    { intros v' Hv' Hm. cbn [app read_digits].
      rewrite ceq_neq by (intros E; pose proof (code_digit (n mod 10) ltac:(lia)) as Hc; rewrite E in Hc;
        change (code CR) with 13 in Hc; lia).
      rewrite code_digit by lia. replace (48 + n mod 10 - 48) with (n mod 10) by lia.
      rewrite (proj2 (Z.leb_le _ _)), (proj2 (Z.ltb_lt _ _)), (proj2 (Z.ltb_ge _ _)) by lia. done. }
    destruct (n <? 10) eqn:E; b2p.
    + rewrite app_nil_l in *. change (zlen [digit (n mod 10)]) with 1 in *.
      rewrite (Z.mod_small n 10) in * by lia. rewrite Z.pow_1_r in *. by apply Hstep.
    + rewrite zlen_app in *. change (zlen [digit (n mod 10)]) with 1 in *.
      pose proof (zlen_nonneg (dec_digits f (n / 10))).
      rewrite Z.pow_add_r, Z.pow_1_r in * by lia.
      set (k := 10 ^ zlen (dec_digits f (n / 10))) in *.
      assert (0 < k) by (apply Z.pow_pos_nonneg; lia).
      rewrite <- app_assoc, IH by (try lia; clia). rewrite Hstep by nia. f_equal. nia.
Qed.

Lemma read_digits_to_dec n y : 0 <= n <= LONG_MAX -> read_digits (to_dec n ++ CR :: y) 0 = Ret (Some n).
Proof.
  intros Hn. unfold to_dec. rewrite read_digits_dec; [|apply to_dec_fuel; lia|done|lia].
  rewrite Z.mul_0_l, Z.add_0_l. cbn [read_digits]. by rewrite ceq_refl.
Qed.

Lemma to_dec_head n c : 0 <= n -> isdigit c = false -> head (to_dec n) <> Some c.
Proof.
  intros Hn Hc H. apply (to_dec_not_in c n Hn Hc). destruct (to_dec n); [done|].
  injection H as ->. set_solver.
Qed.

Lemma readLongLong_dec (pre y : bytes) n :
  0 <= n <= LONG_MAX -> readLongLong (pre ++ to_dec n ++ CR :: y) (zlen pre) = Ret n.
Proof.
  intros Hn. unfold readLongLong. rewrite zdrop_app by done.
  assert (Hlt : zlen pre < zlen (pre ++ to_dec n ++ CR :: y)) by (clear; zlen_lia).
  pose proof (zlen_nonneg pre).
  rewrite (proj2 (Z.ltb_ge _ _)), (proj2 (Z.leb_gt _ _)) by lia. cbn [orb].
  pose proof (read_digits_to_dec n y Hn) as Hr.
  assert (H0 : 0 <= n) by lia.
  pose proof (to_dec_head n "-"%char H0 eq_refl) as H1. pose proof (to_dec_head n "+"%char H0 eq_refl) as H2.
  destruct (to_dec n) as [|c d] eqn:E; [by apply to_dec_nonempty in E|].
  cbn [app nth] in *.
  rewrite !ceq_neq by (intros ->; done). cbn [orb]. rewrite Hr. cbn [obind]. f_equal. lia.
Qed.

Lemma readLongLong_minus1 (pre y : bytes) :
  readLongLong (pre ++ bs "-1" ++ CR :: y) (zlen pre) = Ret (-1).
Proof.
  unfold readLongLong. rewrite zdrop_app by done.
  assert (Hlt : zlen pre < zlen (pre ++ bs "-1" ++ CR :: y)) by (clear; zlen_lia).
  pose proof (zlen_nonneg pre).
  by rewrite (proj2 (Z.ltb_ge _ _)), (proj2 (Z.leb_gt _ _)) by lia.
Qed.

(** * The buffer *)

(** The bytes received and not yet consumed are [d]. *)
Record holds (c : RedisCli) (d : bytes) : Prop := {
  h_mem : exists pre post, rbuf_ c = pre ++ d ++ post /\ zlen pre = rbuf_pos_ c;
  h_offset : rbuf_offset_ c = zlen d;
  h_size : zlen (rbuf_ c) = REDIS_IOBUF_LEN /\ rbuf_size_ c = REDIS_IOBUF_LEN
}.

Lemma holds_le c d : holds c d -> zlen d <= REDIS_IOBUF_LEN.
Proof. intros [(pre & post & Hm & _) _ [Hs _]]. rewrite Hm, !zlen_app in Hs. zlen_pos. lia. Qed.

Lemma BufferRead_loop_S f c s :
  BufferRead_loop (S f) c s =
    let '(res, d, s) := sys_read (to_u64 (rbuf_size_ c - rbuf_offset_ c)) s in
    match res with
    | IoErr EINTR => BufferRead_loop f c s
    | IoErr EAGAIN => Ret (REDIS_ETIMEOUT, c, s)
    | IoErr _ => Ret (REDIS_EREAD, c, s)
    | IoLen n =>
        if n =? 0 then Ret (REDIS_EREAD_NULL, c, s)
        else
          let! m := poke (rbuf_ c) (rbuf_offset_ c) d in
          Ret (n, set_rbuf m (rbuf_pos_ c) (rbuf_offset_ c + n) c, s)
    end.
Proof. done. Qed.

(** A chunk that fits is appended. *)
Lemma BufferRead_chunk c d a q w o :
  holds c d -> a <> [] -> zlen d + zlen a <= REDIS_IOBUF_LEN ->
  exists c', BufferRead c (mkSock (Arrive a :: q) w o) = Ret (zlen a, c', mkSock q w o) /\
    holds c' (d ++ a) /\ argv_ c' = argv_ c /\ elements_ c' = elements_ c.
Proof.
  intros [(pre & post & Hm & Hp) Ho [Hs Hsz]] Ha Hl.
  assert (Hpos : 0 < zlen a) by (destruct a; [done|zlen_lia]).
  pose proof (zlen_nonneg d). pose proof (zlen_nonneg pre).
  assert (Hmove : exists m post', rbuf_ c = rbuf_ c /\
    (let! c := if 0 <? rbuf_pos_ c then
        let! m := if 0 <? rbuf_offset_ c then
            let! d := slice (rbuf_ c) (rbuf_pos_ c) (rbuf_offset_ c) in poke (rbuf_ c) 0 d
          else Ret (rbuf_ c) in
        Ret (set_rbuf m 0 (rbuf_offset_ c) c)
      else Ret c in
    BufferRead_loop (S (length (Arrive a :: q))) c (mkSock (Arrive a :: q) w o)) =
    BufferRead_loop (S (length (Arrive a :: q))) (set_rbuf m 0 (zlen d) c) (mkSock (Arrive a :: q) w o) /\
    m = d ++ post' /\ zlen m = REDIS_IOBUF_LEN).
  { destruct (0 <? rbuf_pos_ c) eqn:E; b2p.
    - rewrite Ho. destruct (0 <? zlen d) eqn:E2; b2p.
      + rewrite Hm, slice_at by done. cbn [obind].
        destruct (app_eq_inv_len d (pre ++ d ++ post)) as (x & y & Hxy & Hlx).
        { rewrite !zlen_app. zlen_pos. lia. }
        pose proof (poke_at [] x y d 0 eq_refl Hlx) as Hpk. cbn [app] in Hpk.
        rewrite Hxy, Hpk. cbn [obind].
        exists (d ++ y), y. split_and!; try done.
        apply (f_equal zlen) in Hxy. rewrite <- Hm, zlen_app in Hxy. rewrite zlen_app. lia.
      + assert (d = []) as -> by (apply zlen_zero; lia).
        cbn [obind]. exists (rbuf_ c), (rbuf_ c). by split_and!.
    - assert (pre = []) as -> by (apply zlen_zero; lia).
      exists (rbuf_ c), post. split_and!; try done. cbn [obind]. f_equal. destruct c; simpl in *.
      unfold set_rbuf. simpl. f_equal; lia. }
  destruct Hmove as (m & post' & _ & Hmove & Hmd & Hml). unfold BufferRead. simpl rdq.
  rewrite Hmove, BufferRead_loop_S. simpl rbuf_size_. simpl rbuf_offset_. rewrite Hsz.
  rewrite to_u64_id by (unfold REDIS_IOBUF_LEN in *; lia).
  unfold sys_read. rewrite (proj2 (Z.ltb_ge SSIZE_MAX _)), (proj2 (Z.eqb_neq _ _)) by (unfold SSIZE_MAX, REDIS_IOBUF_LEN in *; lia). cbn [rdq].
  rewrite (proj2 (Z.leb_le _ _)), (proj2 (Z.eqb_neq _ _)) by lia. simpl rbuf_.
  destruct (app_eq_inv_len a post') as (x & y & -> & Hlx).
  { rewrite Hmd, zlen_app in Hml. lia. }
  subst m. rewrite (poke_at d x y a) by done. cbn [obind].
  eexists. split; [done|]. split; [|done]. constructor; simpl.
  - exists [], y. by rewrite <- app_assoc.
  - by rewrite zlen_app.
  - split; [|done]. rewrite !zlen_app in *. lia.
Qed.
