(* ===== verification/RedisCliTheorems.v ===== *)
(** The theorems on the redis client: which replies it reads right, and what it
    does with the others. *)
From S2P Require Import Pink Prelude Sys RedisCodec RedisCodecFacts RedisCli RedisCliFacts.

(** * Replies *)

(** The pieces a reply is made of. *)
Inductive unit_ : Type :=
  | ULine (t : ascii) (text : bytes)    (** status, error or integer *)
  | UBulk (a : bytes)
  | UNil
  | UArray (n : Z)
  | UNilArray.

Definition encode (u : unit_) : bytes :=
  match u with
  | ULine t text => t :: text ++ CRLF
  | UBulk a => resp_bulk a
  | UNil => bs "$-1" ++ CRLF
  | UArray n => "*"%char :: to_dec n ++ CRLF
  | UNilArray => bs "*-1" ++ CRLF
  end.

Definition encodes (us : list unit_) : bytes := concat (map encode us).

Definition unit_ok (u : unit_) : Prop :=
  match u with
  | ULine t text => (t = "+"%char \/ t = "-"%char \/ t = ":"%char) /\ (CR ∉ text)
  | UBulk _ => True
  | UNil | UNilArray => True
  | UArray n => 0 <= n <= INT_MAX
  end.

(** The values a unit adds to the reply. *)
Definition values (u : unit_) : list bytes :=
  match u with ULine _ text => [text] | UBulk a => [a] | _ => [] end.

(** A reply of the protocol: a line, a bulk string, nil, or an array of replies, which
    may be nil too. *)
Unset Elimination Schemes.
Inductive resp : Type :=
  | RLine (t : ascii) (text : bytes)
  | RBulk (a : bytes)
  | RNil
  | RArray (l : list resp)
  | RNilArray.
Set Elimination Schemes.

(** Induction on a reply and all its elements. *)
Lemma resp_ind (P : resp -> Prop) :
  (forall t text, P (RLine t text)) -> (forall a, P (RBulk a)) -> P RNil ->
  (forall l, Forall P l -> P (RArray l)) -> P RNilArray -> forall r, P r.
Proof.
  intros Hl Hb Hn Ha Hna. fix IH 1. intros [t text|a| |l|]; [apply Hl|apply Hb|exact Hn| |exact Hna].
  apply Ha. induction l as [|r l IHl]; constructor; [apply IH|exact IHl].
Qed.

(** On the wire; its units; and the values at its leaves, nil adding none. *)
Fixpoint serialize (r : resp) : bytes :=
  match r with
  | RLine t text => t :: text ++ CRLF
  | RBulk a => resp_bulk a
  | RNil => bs "$-1" ++ CRLF
  | RArray l => "*"%char :: to_dec (zlen l) ++ CRLF ++ concat (map serialize l)
  | RNilArray => bs "*-1" ++ CRLF
  end.
Fixpoint units (r : resp) : list unit_ :=
  match r with
  | RLine t text => [ULine t text]
  | RBulk a => [UBulk a]
  | RNil => [UNil]
  | RArray l => UArray (zlen l) :: concat (map units l)
  | RNilArray => [UNilArray]
  end.
Fixpoint leaves (r : resp) : list bytes :=
  match r with
  | RLine _ text => [text]
  | RBulk a => [a]
  | RArray l => concat (map leaves l)
  | RNil | RNilArray => []
  end.

Definition is_array (r : resp) : bool := match r with RArray _ | RNilArray => true | _ => false end.

(** Every array that is an element of an array is its last element. *)
Fixpoint nested_last (r : resp) : bool :=
  match r with
  | RArray l =>
      (fix go l :=
        match l with
        | [] => true
        | r :: l' => match l' with [] => nested_last r | _ => negb (is_array r) && go l' end
        end) l
  | _ => true
  end.

(** How the reader counts: the units it still wants after [u] when it wanted [n], and
    [us] is what it takes for one reply when it wants [n]. *)
Definition still_wanted (u : unit_) (n : Z) : Z :=
  match u with UArray k => k | UNilArray => -1 | _ => n - 1 end.
Inductive counted : Z -> list unit_ -> list bytes -> Prop :=
  | CountedAll n : n <= 0 -> counted n [] []
  | CountedMore n u us args :
      0 < n -> counted (still_wanted u n) us args -> counted n (u :: us) (values u ++ args).

(** * Reading one unit *)

(** The client after the unit [u] and with [rest] left. *)
Definition took (u : unit_) (rest : bytes) (c c' : RedisCli) : Prop :=
  holds c' rest /\ argv_ c' = argv_ c ++ values u /\ elements_ c' = still_wanted u (elements_ c).

Lemma ReadByte_holds c b d :
  holds c (b :: d) -> exists c', ReadByte c = Ret (Some b, c') /\ holds c' d /\
    argv_ c' = argv_ c /\ elements_ c' = elements_ c.
Proof.
  intros Hh. pose proof (holds_le _ _ Hh) as Hle. destruct Hh as [(pre & post & Hm & Hp) Ho Hs].
  rewrite zlen_cons in *. pose proof (zlen_nonneg d). unfold REDIS_IOBUF_LEN in Hle.
  unfold ReadByte. rewrite Ho, to_u32_id, (proj2 (Z.leb_le _ _)) by lia.
  rewrite Hm, <- Hp. change (pre ++ (b :: d) ++ post) with (pre ++ [] ++ b :: (d ++ post)).
  rewrite peek_at by (by rewrite Z.add_0_r). cbn [obind]. eexists. split; [done|]. split; [|done].
  constructor; simpl; [|rewrite Ho; lia|done].
  exists (pre ++ [b]), post. split; [rewrite Hm; by app_norm|zlen_lia].
Qed.

Lemma consume_holds c d rest n :
  holds c (d ++ rest) -> n = zlen d -> holds (consume n c) rest.
Proof.
  intros [(pre & post & Hm & Hp) Ho Hs] ->. constructor; simpl; [|rewrite Ho; zlen_lia|done].
  exists (pre ++ d), post. split; [rewrite Hm; by app_norm|zlen_lia].
Qed.

(** A line in the buffer. *)
Lemma seek_holds c x y :
  holds c (x ++ CRLF ++ y) -> CR ∉ x ->
  seekNewline (rbuf_ c) (rbuf_pos_ c) (rbuf_offset_ c) = Ret (Some (zlen x)).
Proof.
  intros Hh Hn. pose proof (holds_le _ _ Hh) as Hle. destruct Hh as [(pre & post & Hm & Hp) Ho Hs].
  rewrite Hm, <- Hp, Ho. unfold CRLF in *.
  replace (pre ++ (x ++ [CR; LF] ++ y) ++ post) with (pre ++ x ++ CR :: LF :: (y ++ post))
    by (by app_norm).
  apply seekNewline_found; [done|]. unfold REDIS_IOBUF_LEN in Hle. clear -Hle.
  autorewrite with zlen in *. zlen_pos. clia.
Qed.

Lemma slice_holds c x y k :
  holds c (x ++ y) -> k = rbuf_pos_ c -> slice (rbuf_ c) k (zlen x) = Ret x.
Proof.
  intros [(pre & post & Hm & Hp) Ho Hs] ->. rewrite Hm, <- app_assoc. by apply slice_at.
Qed.

Lemma ReadLine_holds c x y :
  holds c (x ++ CRLF ++ y) -> CR ∉ x ->
  ReadLine c = Ret (Some (rbuf_pos_ c, zlen x), consume (zlen x + 2) c) /\
  holds (consume (zlen x + 2) c) y.
Proof.
  intros Hh Hn. split.
  - unfold ReadLine. by rewrite (seek_holds c x y).
  - apply (consume_holds c (x ++ CRLF) y); [by rewrite <- app_assoc|]. unfold CRLF. zlen_lia.
Qed.

Lemma readLongLong_holds c n y :
  holds c (to_dec n ++ CR :: y) -> 0 <= n <= LONG_MAX -> readLongLong (rbuf_ c) (rbuf_pos_ c) = Ret n.
Proof.
  intros [(pre & post & Hm & Hp) Ho Hs] Hn. rewrite Hm, <- Hp, <- app_assoc. by apply readLongLong_dec.
Qed.

Lemma to_dec_no_CR n : 0 <= n -> CR ∉ to_dec n.
Proof. intros. by apply to_dec_not_in. Qed.

Lemma ProcessLineItem_holds c text rest :
  holds c (text ++ CRLF ++ rest) -> CR ∉ text ->
  exists c', ProcessLineItem c = Ret (REDIS_OK, c') /\ holds c' rest /\
    argv_ c' = argv_ c ++ [text] /\ elements_ c' = elements_ c - 1.
Proof.
  intros Hh Hn. destruct (ReadLine_holds c text rest Hh Hn) as [HR Hh'].
  unfold ProcessLineItem. rewrite HR. cbn [obind]. simpl rbuf_. rewrite (slice_holds c text _ _ Hh) by done.
  cbn [obind]. eexists. split; [done|]. split; [|done]. destruct Hh'. by constructor.
Qed.

Lemma ProcessMultiBulkItem_holds c n rest :
  holds c (to_dec n ++ CRLF ++ rest) -> 0 <= n <= INT_MAX ->
  exists c', ProcessMultiBulkItem c = Ret (REDIS_OK, c') /\ holds c' rest /\
    argv_ c' = argv_ c /\ elements_ c' = n.
Proof.
  intros Hh Hn. destruct (ReadLine_holds c _ rest Hh (to_dec_no_CR n ltac:(lia))) as [HR Hh'].
  unfold ProcessMultiBulkItem. rewrite HR. cbn [obind]. simpl rbuf_.
  rewrite (readLongLong_holds c n (LF :: rest)) by (done || clia). cbn [obind].
  eexists. split; [done|]. split; [destruct Hh'; by constructor|]. split; [done|].
  simpl. apply to_i32_id. clia.
Qed.

Lemma ProcessBulkItem_holds c a rest :
  holds c (to_dec (zlen a) ++ CRLF ++ a ++ CRLF ++ rest) ->
  exists c', ProcessBulkItem c = Ret (REDIS_OK, c') /\ holds c' rest /\
    argv_ c' = argv_ c ++ [a] /\ elements_ c' = elements_ c - 1.
Proof.
  intros Hh. pose proof (zlen_nonneg a). pose proof (holds_le _ _ Hh) as Hle.
  assert (Hla : zlen a + 2 <= REDIS_IOBUF_LEN).
  { unfold CRLF in Hle. clear -Hle. zlen_lia. }
  assert (HI : REDIS_IOBUF_LEN = 16384) by done.
  unfold ProcessBulkItem. rewrite (seek_holds c _ _ Hh) by (apply to_dec_no_CR; lia). cbn [obind].
  rewrite (readLongLong_holds c (zlen a) (LF :: a ++ CRLF ++ rest)) by (done || clia). cbn [obind].
  rewrite to_i32_id by clia. rewrite (proj2 (Z.eqb_neq _ _)), (proj2 (Z.ltb_ge _ _)) by clia.
  rewrite (proj2 (Z.leb_le _ _)), (proj2 (Z.ltb_ge (zlen a) 0)) by
    (try lia; rewrite (h_offset _ _ Hh); unfold CRLF; clear; zlen_lia).
  assert (Hsl : slice (rbuf_ c) (rbuf_pos_ c + (zlen (to_dec (zlen a)) + 2)) (zlen a) = Ret a).
  { pose proof (consume_holds c (to_dec (zlen a) ++ CRLF) (a ++ CRLF ++ rest) _
      ltac:(by rewrite <- app_assoc) eq_refl) as Hh2.
    rewrite <- (slice_holds _ a (CRLF ++ rest) _ Hh2 eq_refl). simpl. f_equal. unfold CRLF. zlen_lia. }
  rewrite Hsl. cbn [obind]. eexists. split; [done|]. split; [|done].
  replace (zlen (to_dec (zlen a)) + 2 + zlen a + 2) with
    (zlen (to_dec (zlen a) ++ CRLF ++ a ++ CRLF)) by (unfold CRLF; zlen_lia).
  eapply consume_holds; [|done]. destruct Hh. constructor; [|by rewrite <- !app_assoc|done].
  by rewrite <- !app_assoc.
Qed.

Lemma ProcessBulkItem_nil c rest :
  holds c (bs "-1" ++ CRLF ++ rest) ->
  exists c', ProcessBulkItem c = Ret (REDIS_OK, c') /\ holds c' rest /\
    argv_ c' = argv_ c /\ elements_ c' = elements_ c - 1.
Proof.
  intros Hh. unfold ProcessBulkItem. rewrite (seek_holds c _ _ Hh) by (vm_compute; set_solver). cbn [obind].
  assert (readLongLong (rbuf_ c) (rbuf_pos_ c) = Ret (-1)) as ->.
  { destruct Hh as [(pre & post & Hm & Hp) _ _]. rewrite Hm, <- Hp.
    apply (readLongLong_minus1 pre (LF :: rest ++ post)). }
  cbn [obind]. change (to_i32 (-1) =? -1) with true. cbv iota. eexists. split; [done|]. split; [|done].
  eapply (consume_holds _ (bs "-1" ++ CRLF)); [|done]. destruct Hh. by constructor.
Qed.

Lemma ProcessMultiBulkItem_nil c rest :
  holds c (bs "-1" ++ CRLF ++ rest) ->
  exists c', ProcessMultiBulkItem c = Ret (REDIS_OK, c') /\ holds c' rest /\
    argv_ c' = argv_ c /\ elements_ c' = -1.
Proof.
  intros Hh. destruct (ReadLine_holds c _ rest Hh) as [HR Hh']; [vm_compute; set_solver|].
  unfold ProcessMultiBulkItem. rewrite HR. cbn [obind]. simpl rbuf_.
  assert (readLongLong (rbuf_ c) (rbuf_pos_ c) = Ret (-1)) as ->.
  { destruct Hh as [(pre & post & Hm & Hp) _ _]. rewrite Hm, <- Hp.
    apply (readLongLong_minus1 pre (LF :: rest ++ post)). }
  cbn [obind]. eexists. split; [done|]. split; [destruct Hh'; by constructor|]. by split.
Qed.

Lemma GetReplyFromReader_unit c u rest :
  holds c (encode u ++ rest) -> unit_ok u ->
  exists c', GetReplyFromReader c = Ret (REDIS_OK, c') /\ took u rest c c'.
Proof.
  intros Hh Hu. assert (Hcons : exists t d, encode u ++ rest = t :: d) by (destruct u; simpl; eauto).
  destruct Hcons as (t & d & Hcons). rewrite Hcons in Hh.
  destruct (ReadByte_holds c t d Hh) as (c1 & HB & Hh1 & Ha1 & He1).
  unfold GetReplyFromReader. rewrite (h_offset _ _ Hh), (proj2 (Z.eqb_neq _ _)) by zlen_lia.
  rewrite HB. cbn [obind]. unfold took. destruct u as [t' text|a| |n|]; cbn in Hcons; injection Hcons as <- <-.
  - destruct Hu as [Ht Hn]. rewrite <- app_assoc in Hh1.
    destruct (ProcessLineItem_holds c1 text rest Hh1 Hn) as (c' & HP & Hh' & Ha & He).
    exists c'. rewrite <- Ha1, <- He1. split; [|done].
    destruct Ht as [-> |[-> | ->]]; exact HP.
  - destruct (ProcessBulkItem_holds c1 a rest) as (c' & HP & Hh' & Ha & He).
    { unfold CRLF in *. rewrite <- app_assoc in Hh1. cbn [app] in Hh1. by rewrite <- app_assoc in Hh1. }
    exists c'. rewrite <- Ha1, <- He1. split; [exact HP|done].
  - destruct (ProcessBulkItem_nil c1 rest Hh1) as (c' & HP & Hh' & Ha & He).
    exists c'. rewrite <- Ha1, <- He1, app_nil_r. split; [exact HP|done].
  - rewrite <- app_assoc in Hh1.
    destruct (ProcessMultiBulkItem_holds c1 n rest Hh1 Hu) as (c' & HP & Hh' & Ha & He).
    exists c'. rewrite <- Ha1, app_nil_r. split; [exact HP|done].
  - destruct (ProcessMultiBulkItem_nil c1 rest Hh1) as (c' & HP & Hh' & Ha & He).
    exists c'. rewrite <- Ha1, app_nil_r. split; [exact HP|done].
Qed.

(** * Whole replies *)

Lemma GetReply_loop_S f result c s :
  GetReply_loop (S f) result c s =
    if 0 <? elements_ c then
      let! (result, c, s) :=
        if (rbuf_offset_ c =? 0) || (result =? REDIS_HALF) then BufferRead c s
        else Ret (result, c, s) in
      if result <? 0 then Ret (result, c, s)
      else
        let! (result, c) := GetReplyFromReader c in
        if result <? REDIS_OK then Ret (result, c, s) else GetReply_loop f result c s
    else Ret (result, c, s).
Proof. done. Qed.

(** A stream cut at the ends of units: those in the buffer, and the chunks. *)
Definition arriving (chunks : list (list unit_)) : list arrival :=
  map (fun us => Arrive (encodes us)) chunks.

Definition chunk_ok (us : list unit_) : Prop := us <> [] /\ zlen (encodes us) <= REDIS_IOBUF_LEN.

Lemma encodes_cons u us : encodes (u :: us) = encode u ++ encodes us.
Proof. done. Qed.

Lemma encode_pos u : 0 < zlen (encode u).
Proof. destruct u; simpl; try (unfold resp_bulk); unfold CRLF; zlen_lia. Qed.

Lemma encodes_nonempty us : us <> [] -> 0 < zlen (encodes us).
Proof.
  destruct us as [|u us]; [done|]. intros _. rewrite encodes_cons, zlen_app.
  pose proof (encode_pos u). zlen_pos. lia.
Qed.

Lemma GetReply_loop_units rep fuel c us chunks next args w o :
  counted (elements_ c) rep args -> Forall unit_ok rep -> holds c (encodes us) ->
  Forall chunk_ok chunks -> us ++ concat chunks = rep ++ next -> (length rep < fuel)%nat ->
  exists c' us' chunks', GetReply_loop fuel REDIS_OK c (mkSock (arriving chunks) w o) =
      Ret (REDIS_OK, c', mkSock (arriving chunks') w o) /\
    argv_ c' = argv_ c ++ args /\ holds c' (encodes us') /\ us' ++ concat chunks' = next.
Proof.
  revert fuel c us chunks args. induction rep as [|u rep IH];
    intros [|f] c us chunks args Hr Hok Hh Hch Hus Hf; try (simpl in Hf; lia).
  - inversion Hr; subst. rewrite GetReply_loop_S, (proj2 (Z.ltb_ge _ _)) by lia.
    exists c, us, chunks. by rewrite app_nil_r.
  - inversion Hr as [|n u' us' args' Hn Hr' Hn' Hu Ha]; subst. clear Hr.
    apply Forall_cons in Hok as [Hu Hok].
    rewrite GetReply_loop_S, (proj2 (Z.ltb_lt _ _)) by lia.
    (* the unit is in the buffer, perhaps after a read *)
    assert (Hbuf : exists c1 us1 chunks1 r, 0 <= r /\
      (if (rbuf_offset_ c =? 0) || (REDIS_OK =? REDIS_HALF) then BufferRead c (mkSock (arriving chunks) w o)
       else Ret (REDIS_OK, c, mkSock (arriving chunks) w o)) = Ret (r, c1, mkSock (arriving chunks1) w o) /\
      holds c1 (encodes (u :: us1)) /\ us1 ++ concat chunks1 = rep ++ next /\
      argv_ c1 = argv_ c /\ elements_ c1 = elements_ c /\ Forall chunk_ok chunks1).
    { rewrite (h_offset _ _ Hh), orb_false_r. destruct us as [|v us].
      - destruct chunks as [|ch chunks]; [done|]. apply Forall_cons in Hch as [[Hne Hle] Hch].
        destruct ch as [|v ch]; [done|]. cbn [concat app] in Hus. injection Hus as -> Hus.
        destruct (BufferRead_chunk c [] (encodes (u :: ch)) (arriving chunks) w o) as
          (c1 & HB & Hh1 & Ha1 & He1); [done| |rewrite zlen_nil; lia|].
        { intros E. pose proof (encodes_nonempty (u :: ch) ltac:(done)) as Hp. by rewrite E in Hp. }
        exists c1, ch, chunks, (zlen (encodes (u :: ch))). split; [zlen_pos; lia|].
        split; [exact HB|]. by split_and!.
      - cbn [app] in Hus. injection Hus as -> Hus.
        pose proof (encodes_nonempty (u :: us) ltac:(done)).
        rewrite (proj2 (Z.eqb_neq _ _)) by lia. exists c, us, chunks, REDIS_OK.
        by split_and!. }
    destruct Hbuf as (c1 & us1 & chunks1 & r & Hr0 & -> & Hh1 & Hus1 & Ha1 & He1 & Hch1). cbn [obind].
    rewrite (proj2 (Z.ltb_ge r 0)) by lia.
    destruct (GetReplyFromReader_unit c1 u (encodes us1)) as (c2 & -> & Hh2 & Ha2 & He2); [done|done|].
    cbn [obind]. change (REDIS_OK <? REDIS_OK) with false. cbv iota.
    destruct (IH f c2 us1 chunks1 args') as (c' & us' & ch' & HG & Hav & Hh' & Hus'); try done.
    + by rewrite He2, He1.
    + simpl in Hf. lia.
    + exists c', us', ch'. split; [done|]. split; [|done]. by rewrite Hav, Ha2, Ha1, app_assoc.
Qed.

(** What the reader counts is what [Recv] takes. *)
Lemma Recv_counted rep args next chunks c w o fuel :
  holds c [] -> counted 1 rep args -> Forall unit_ok rep -> Forall chunk_ok chunks ->
  concat chunks = rep ++ next -> (length rep < fuel)%nat ->
  exists c' us chunks', Recv fuel c (mkSock (arriving chunks) w o) =
      Ret (OK, Some args, c', mkSock (arriving chunks') w o) /\
    holds c' (encodes us) /\ us ++ concat chunks' = next.
Proof.
  intros Hh Hr Hok Hch Hcat Hf. unfold Recv, GetReply.
  destruct (GetReply_loop_units rep fuel (set_elements 1 (set_argv_ [] c)) [] chunks next args w o)
    as (c' & us & ch' & HG & Ha & Hh' & Hus); try done.
  { destruct Hh. by constructor. }
  exists c', us, ch'. rewrite HG. cbn [obind]. by rewrite Ha.
Qed.

(** * Replies of the protocol *)

Lemma units_array l : units (RArray l) = UArray (zlen l) :: concat (map units l).
Proof. done. Qed.

(** The units of a reply are its text. *)
Lemma serialize_units r : serialize r = encodes (units r).
Proof.
  induction r as [t text|a| |l IH|] using resp_ind; try (unfold encodes; cbn; by rewrite ?app_nil_r).
  rewrite units_array, encodes_cons. cbn [serialize encode app]. f_equal. rewrite <- app_assoc. do 2 f_equal.
  induction IH as [|r l Hr _ IHl]; [done|]. cbn [map concat]. rewrite Hr, IHl. unfold encodes.
  by rewrite map_app, concat_app.
Qed.

(** A reply that is no array is one unit. *)
Lemma units_single r : is_array r = false ->
  exists u, units r = [u] /\ leaves r = values u /\ forall n, still_wanted u n = n - 1.
Proof. destruct r; try done; intros _; eexists; by split_and!. Qed.

Lemma counted_values n us args : counted n us args -> args = concat (map values us).
Proof. induction 1 as [|n u us args _ _ ->]; done. Qed.

(** One that nests only at the end is taken as it is. *)
Lemma nested_last_counted r : nested_last r = true -> counted 1 (units r) (leaves r).
Proof.
  induction r as [t text|a| |l IH|] using resp_ind; intros Hn;
    [apply (CountedMore 1 (ULine t text) [] [])|apply (CountedMore 1 (UBulk a) [] [])|
     apply (CountedMore 1 UNil [] [])| |apply (CountedMore 1 UNilArray [] [])]; try done; try by constructor.
  rewrite units_array. change (leaves (RArray l)) with (values (UArray (zlen l)) ++ concat (map leaves l)).
  apply CountedMore; [done|]. cbn [still_wanted].
  induction IH as [|r l Hr1 _ IHl]; [by constructor|]. cbn [map concat]. destruct l as [|r' l].
  - rewrite !app_nil_r. apply Hr1. exact Hn.
  - cbn in Hn. apply andb_true_iff in Hn as [Hr Hl]. apply negb_true_iff in Hr.
    destruct (units_single r Hr) as (u & -> & -> & Hw). rewrite (zlen_cons r).
    apply CountedMore; [zlen_pos; zlen_lia|]. rewrite Hw. replace (1 + zlen (r' :: l) - 1) with (zlen (r' :: l)) by lia.
    apply IHl. exact Hl.
Qed.
Lemma units_nonempty r : units r <> [].
Proof. by destruct r. Qed.

(** An array that is not the last of a list makes the reader want too little. *)
Lemma array_first r l : is_array r = true -> l <> [] ->
  exists u l', concat (map units (r :: l)) = u :: concat (map units l') /\ l' <> [] /\
    forall n, still_wanted u n < zlen l'.
Proof.
  intros E Hl. assert (0 < zlen l) by (destruct l as [|r' l]; [done|rewrite zlen_cons; pose proof (zlen_nonneg l); lia]).
  destruct r as [| | |l1|]; try done.
  - exists (UArray (zlen l1)), (l1 ++ l). split_and!; [by cbn; rewrite map_app, concat_app|by destruct l1|].
    intros n. cbn [still_wanted]. rewrite zlen_app. lia.
  - exists UNilArray, l. split_and!; try done. intros n. cbn [still_wanted]. lia.
Qed.

(** A list of more replies than are wanted is not taken to its end. *)
Lemma counted_early l n :
  l <> [] -> n < zlen l ->
  exists us1 us2 args, concat (map units l) = us1 ++ us2 /\ us2 <> [] /\ counted n us1 args.
Proof.
  remember (length (concat (map units l))) as k eqn:Hk. revert l n Hk.
  induction (lt_wf k) as [k _ IH]. intros [|r l] n -> Hne Hn; [done|].
  destruct (Z.le_gt_cases n 0) as [H0|H0].
  { exists [], (concat (map units (r :: l))), []. split_and!; [done| |by constructor].
    cbn [map concat]. pose proof (units_nonempty r). by destruct (units r). }
  rewrite zlen_cons in Hn. assert (Hl : l <> []) by (intros ->; rewrite zlen_nil in Hn; lia).
  assert (exists u l', concat (map units (r :: l)) = u :: concat (map units l') /\ l' <> [] /\
    still_wanted u n < zlen l') as (u & l' & E & Hl' & Hw).
  { destruct (is_array r) eqn:E.
    - destruct (array_first r l E Hl) as (u & l' & ? & ? & ?). eauto.
    - destruct (units_single r E) as (u & Hu & _ & Hw). exists u, l. cbn [map concat]. rewrite Hu, Hw.
      split_and!; [done..|lia]. }
  rewrite E in IH |- *.
  destruct (IH (length (concat (map units l'))) ltac:(simpl; lia) l' _ eq_refl Hl' Hw) as (us1 & us2 & args & -> & H2 & Hc).
  exists (u :: us1), us2, (values u ++ args). split_and!; try done. by constructor.
Qed.

(** One that nests elsewhere is not. *)
Lemma nested_inside_counted r : nested_last r = false ->
  exists us1 us2 args, units r = us1 ++ us2 /\ us2 <> [] /\ counted 1 us1 args.
Proof.
  induction r as [t text|a| |l IH|] using resp_ind; intros Hn; try done.
  assert (exists us1 us2 args, concat (map units l) = us1 ++ us2 /\ us2 <> [] /\ counted (zlen l) us1 args)
    as (us1 & us2 & args & E & H2 & Hc).
  { induction IH as [|r l Hr1 _ IHl]; [done|]. cbn [map concat]. destruct l as [|r' l].
    - destruct (Hr1 Hn) as (us1 & us2 & args & -> & H2 & Hc). exists us1, us2, args. by rewrite app_nil_r.
    - destruct (is_array r) eqn:Er.
      + destruct (array_first r (r' :: l) Er) as (u & l' & E & Hl' & Hw); [done|].
        destruct (counted_early l' _ Hl' (Hw (zlen (r :: r' :: l)))) as (us1 & us2 & args & E' & H2 & Hc).
        exists (u :: us1), us2, (values u ++ args). cbn [map concat] in E |- *. rewrite E, E'. split_and!; [done..|].
        constructor; [zlen_pos; zlen_lia|done].
      + destruct (units_single r Er) as (u & -> & _ & Hw). cbn in Hn. rewrite Er in Hn.
        destruct (IHl Hn) as (us1 & us2 & args & E & H2 & Hc). cbn [map concat] in E |- *.
        exists (u :: us1), us2, (values u ++ args). rewrite E. split_and!; [done..|]. rewrite (zlen_cons r).
        constructor; [zlen_pos; zlen_lia|]. rewrite Hw. by replace (1 + zlen (r' :: l) - 1) with (zlen (r' :: l)) by lia. }
  exists (UArray (zlen l) :: us1), us2, (values (UArray (zlen l)) ++ args).
  rewrite units_array, E. split_and!; try done. by constructor.
Qed.

(** C11: what [Recv] makes of any reply of the protocol (lines, bulk strings, nil and
    arrays of replies) whose units (the header of an array, a line, a bulk string)
    each arrive whole, in chunks of any number of units up to the buffer's size. It
    succeeds. If every nested array is the last element of its array then the values
    at the leaves are returned in order, a nil adding none, and the following replies
    stay in place, in the buffer or not yet read. If not, the reader takes only a
    proper part of the reply for the whole, because the header of a nested array
    replaces the number of elements that are still due, and what it leaves is the
    beginning of the next reply. *)
Theorem Recv_whole_units r next chunks c w o fuel :
  holds c [] -> Forall unit_ok (units r) -> Forall chunk_ok chunks ->
  concat chunks = units r ++ next -> (length (units r) < fuel)%nat ->
  exists args c' us chunks', Recv fuel c (mkSock (arriving chunks) w o) =
      Ret (OK, Some args, c', mkSock (arriving chunks') w o) /\
    holds c' (encodes us) /\
    if nested_last r then args = leaves r /\ us ++ concat chunks' = next
    else exists us1 us2, units r = us1 ++ us2 /\ us2 <> [] /\ args = concat (map values us1) /\
      us ++ concat chunks' = us2 ++ next.
Proof.
  intros Hh Hok Hch Hcat Hf. destruct (nested_last r) eqn:En.
  - pose proof (nested_last_counted r En) as Hc.
    destruct (Recv_counted (units r) (leaves r) next chunks c w o fuel) as (c' & us & ch' & HR & Hh' & Hu); try done.
    by exists (leaves r), c', us, ch'.
  - destruct (nested_inside_counted r En) as (us1 & us2 & args & E & H2 & Hc).
    rewrite E in Hok, Hcat, Hf. rewrite <- app_assoc in Hcat. apply Forall_app in Hok as [Hok _].
    rewrite length_app in Hf.
    destruct (Recv_counted us1 args (us2 ++ next) chunks c w o fuel) as (c' & us & ch' & HR & Hh' & Hu); try done; [lia|].
    exists args, c', us, ch'. split_and!; try done. exists us1, us2. split_and!; try done. by apply (counted_values 1).
Qed.

(** The memory of a new client. *)
Definition blank_memory : bytes := replicate (Z.to_nat REDIS_IOBUF_LEN) NUL.

Lemma new_RedisCli_holds mem : zlen mem = REDIS_IOBUF_LEN -> holds (new_RedisCli mem) [].
Proof. intros Hm. constructor; [by exists [], mem|done|done]. Qed.


(** A reply that nests at its end is read whole, with the next one left; of one that
    nests before it ([*2 *1 a b]) the last element is left. *)
Definition nested_reply : resp := RArray [RBulk (bs "a"); RNil; RArray [RLine ":"%char (bs "42")]].
Definition nested_before : resp := RArray [RArray [RBulk (bs "a")]; RBulk (bs "b")].

Lemma Recv_whole_units_witness :
  (exists args c' us chunks', Recv 10 (new_RedisCli blank_memory)
      (mkSock (arriving [[UArray 3]; [UBulk (bs "a"); UNil];
         [UArray 1; ULine ":"%char (bs "42"); ULine "+"%char (bs "OK")]])
        [] []) = Ret (OK, Some args, c', mkSock (arriving chunks') [] []) /\
    holds c' (encodes us) /\ args = [bs "a"; bs "42"] /\
    us ++ concat chunks' = [ULine "+"%char (bs "OK")]) /\
  (exists args c' us chunks', Recv 10 (new_RedisCli blank_memory)
      (mkSock (arriving [units nested_before]) [] []) = Ret (OK, Some args, c', mkSock (arriving chunks') [] []) /\
    holds c' (encodes us) /\ exists us1 us2, units nested_before = us1 ++ us2 /\ us2 <> [] /\
      args = concat (map values us1) /\ us ++ concat chunks' = us2 ++ []).
Proof.
  split.
  - apply (Recv_whole_units nested_reply [ULine "+"%char (bs "OK")]).
    + by apply new_RedisCli_holds.
    + do 2 (apply Forall_cons; split; [by vm_compute|]). do 2 (apply Forall_cons; split; [done|]).
      apply Forall_singleton. split; [by right; right|vm_compute; set_solver].
    + repeat constructor; done.
    + done.
    + simpl. lia.
  - apply (Recv_whole_units nested_before []).
    + by apply new_RedisCli_holds.
    + repeat constructor; done.
    + repeat constructor; done.
    + done.
    + simpl. lia.
Defined.

(** * Replies cut inside a unit *)

(** The text after the type byte of a bulk string. *)
Definition bulk_text (a : bytes) : bytes := to_dec (zlen a) ++ CRLF ++ a ++ CRLF.

Lemma resp_bulk_text a : resp_bulk a = "$"%char :: bulk_text a.
Proof. done. Qed.

(** A prefix of the text that does not reach into the line's end, or goes past it. *)
Lemma bulk_text_prefix a x y :
  x ++ y = bulk_text a ->
  (zlen x <= zlen (to_dec (zlen a)) + 1 /\
     (x = [] \/ exists x1 c, x = x1 ++ [c] /\ (CR ∉ x1))) \/
  exists x1, x = to_dec (zlen a) ++ CRLF ++ x1 /\ x1 ++ y = a ++ CRLF.
Proof.
  unfold bulk_text. intros H. pose proof (zlen_nonneg a) as Ha.
  destruct (decide (zlen x <= zlen (to_dec (zlen a)) + 1)) as [Hl|Hl].
  - left. split; [done|]. destruct x as [|c x1 _] using rev_ind; [by left|]. right.
    exists x1, c. split; [done|]. rewrite zlen_app in Hl. change (zlen [c]) with 1 in Hl.
    intros Hin. apply (to_dec_no_CR (zlen a) Ha).
    assert (Hp : exists k, to_dec (zlen a) = x1 ++ k).
    { rewrite <- app_assoc in H. apply app_eq_inv in H as [(k & -> & _)|(k & Hk & _)]; [|eauto].
      exists []. assert (k = []) as ->; [|by rewrite !app_nil_r].
      apply zlen_zero. rewrite zlen_app in Hl. zlen_pos. lia. }
    destruct Hp as (k & ->). set_solver.
  - right. rewrite app_assoc in H.
    apply app_eq_inv in H as [(k & -> & Hk)|(k & Hk & Hy)]; [exists k; by app_norm|].
    assert (k = []) as ->.
    { apply (f_equal zlen) in Hk. rewrite !zlen_app in Hk. change (zlen CRLF) with 2 in Hk.
      apply zlen_zero. zlen_pos. lia. }
    exists []. rewrite !app_nil_r in *. by subst.
Qed.

(** Not enough bytes by the client's count: it waits. *)
Lemma ProcessBulkItem_half c a x y :
  holds c x -> x ++ y = bulk_text a -> zlen x <= zlen a + 1 -> zlen a + 2 <= INT_MAX ->
  ProcessBulkItem c = Ret (REDIS_HALF, c).
Proof.
  intros Hh Hxy Hl Hmax. pose proof (holds_le _ _ Hh) as Hle. unfold REDIS_IOBUF_LEN in Hle.
  unfold ProcessBulkItem. destruct (bulk_text_prefix a x y Hxy) as [[_ Hx]|(x1 & -> & Hx1)].
  - assert (seekNewline (rbuf_ c) (rbuf_pos_ c) (rbuf_offset_ c) = Ret None) as ->; [|done].
    destruct Hh as [(pre & post & Hm & Hp) Ho Hs]. rewrite Ho.
    destruct Hx as [-> |(x1 & b & -> & Hn)]; [apply seekNewline_empty|].
    rewrite Hm, <- Hp, <- app_assoc. rewrite zlen_app in *. change (zlen [b]) with 1 in *.
    apply seekNewline_none; [done|done|clia].
  - pose proof (zlen_nonneg a). rewrite (seek_holds c _ _ Hh) by (apply to_dec_no_CR; lia). cbn [obind].
    rewrite (readLongLong_holds c (zlen a) (LF :: x1)) by (done || clia). cbn [obind].
    rewrite to_i32_id by clia. rewrite (proj2 (Z.eqb_neq _ _)), (proj2 (Z.ltb_ge _ _)) by clia.
    by rewrite (h_offset _ _ Hh), (proj2 (Z.leb_gt _ _)) by lia.
Qed.

Lemma reply_type_digit b : isdigit b = true -> reply_type b = None.
Proof. unfold reply_type. intros Hb. rewrite !ceq_neq by (intros ->; done). done. Qed.

(** A bulk string that arrives in two pieces, cut anywhere up to two bytes
    short of the value's own length, is an error: the type byte has already been
    consumed when the reader decides to wait, so after the second piece it takes
    the first digit of the length for a type. *)
Theorem Recv_split_bulk_fails c a x y q w o fuel :
  holds c [] -> x ++ y = resp_bulk a -> 1 <= zlen x <= zlen a + 2 ->
  zlen (resp_bulk a) <= REDIS_IOBUF_LEN -> (2 <= fuel)%nat ->
  exists c', Recv fuel c (mkSock (Arrive x :: Arrive y :: q) w o) = Ret (IOError, None, c', mkSock q w o).
Proof.
  intros Hh Hxy Hl Hmax Hf. destruct fuel as [|[|fuel]]; [lia..|].
  assert (HI : REDIS_IOBUF_LEN = 16384) by done. rewrite HI in Hmax.
  pose proof (zlen_nonneg a) as Ha.
  assert (Hlen : zlen x + zlen y = 5 + zlen (to_dec (zlen a)) + zlen a).
  { rewrite <- zlen_app, Hxy, zlen_resp_bulk. lia. }
  rewrite zlen_resp_bulk in Hmax. pose proof (zlen_nonneg (to_dec (zlen a))) as Hd.
  destruct x as [|t x]; [rewrite zlen_nil in Hl; lia|]. injection Hxy as -> Hxy. fold (bulk_text a) in Hxy.
  rewrite zlen_cons in Hl, Hlen.
  set (c0 := set_elements 1 (set_argv_ [] c)).
  assert (Hh0 : holds c0 []) by (destruct Hh; by constructor).
  unfold Recv, GetReply. fold c0. rewrite GetReply_loop_S. change (elements_ c0) with 1. change (0 <? 1) with true. cbv iota.
  rewrite (h_offset _ _ Hh0). change ((zlen [] =? 0) || (REDIS_OK =? REDIS_HALF)) with true. cbv iota.
  destruct (BufferRead_chunk c0 [] ("$"%char :: x) (Arrive y :: q) w o) as (c1 & -> & Hh1 & _ & He1);
    [done|done|rewrite zlen_nil, zlen_cons; lia|]. cbn [obind app] in *.
  rewrite (proj2 (Z.ltb_ge _ _)) by (clear; zlen_lia).
  destruct (ReadByte_holds c1 "$"%char x Hh1) as (c2 & HB & Hh2 & _ & He2).
  unfold GetReplyFromReader at 1.
  rewrite (h_offset _ _ Hh1), zlen_cons, (proj2 (Z.eqb_neq _ _)) by lia.
  rewrite HB. cbn [obind]. change (reply_type "$"%char) with (Some REDIS_REPLY_STRING).
  cbv iota beta. rewrite Z.eqb_refl, (ProcessBulkItem_half c2 a x y) by (done || clia). cbn [obind].
  change (REDIS_HALF <? REDIS_OK) with false. cbv iota.
  rewrite GetReply_loop_S, He2, He1. change (0 <? elements_ c0) with true. cbv iota.
  change (REDIS_HALF =? REDIS_HALF) with true. rewrite orb_true_r.
  destruct (BufferRead_chunk c2 x y q w o) as (c3 & -> & Hh3 & _); [done| |lia|].
  { intros ->. rewrite zlen_nil in Hlen. lia. }
  cbn [obind]. pose proof (zlen_nonneg y). rewrite (proj2 (Z.ltb_ge (zlen y) 0)) by lia.
  rewrite Hxy in Hh3. unfold bulk_text in Hh3.
  pose proof (to_dec_digits (zlen a) Ha) as Hdig.
  destruct (to_dec (zlen a)) as [|b d] eqn:Ed; [by apply to_dec_nonempty in Ed|].
  apply Forall_cons in Hdig as [Hb _]. cbn [app] in Hh3.
  destruct (ReadByte_holds c3 b _ Hh3) as (c4 & HB4 & _).
  unfold GetReplyFromReader. rewrite (h_offset _ _ Hh3), (proj2 (Z.eqb_neq _ _)) by (clear; zlen_lia).
  rewrite HB4. cbn [obind]. rewrite reply_type_digit by done. cbn [obind]. by exists c4.
Qed.

Lemma Recv_split_bulk_fails_witness :
  exists c', Recv 2 (new_RedisCli blank_memory)
    (mkSock [Arrive (bs "$5" ++ CRLF ++ bs "he"); Arrive (bs "llo" ++ CRLF)] [] []) =
    Ret (IOError, None, c', mkSock [] [] []).
Proof.
  apply (Recv_split_bulk_fails _ (bs "hello")); [by apply new_RedisCli_holds|done|done|done|lia].
Defined.

(** Cut closer to its end, a bulk string is not waited for at all: the length
    line is counted as part of the value, so the value is completed with whatever
    the memory holds behind the bytes received, success is reported, and the
    number of buffered bytes becomes negative. *)
Theorem Recv_overreads mem a x y q w o fuel :
  zlen mem = REDIS_IOBUF_LEN -> x ++ y = resp_bulk a -> y <> [] ->
  zlen a + 3 <= zlen x -> zlen (to_dec (zlen a)) + 3 <= zlen x ->
  zlen (resp_bulk a) <= REDIS_IOBUF_LEN -> (2 <= fuel)%nat ->
  exists c', Recv fuel (new_RedisCli mem) (mkSock (Arrive x :: q) w o) =
      Ret (OK, Some [ztake (zlen a) (zdrop (zlen (to_dec (zlen a)) + 3) (x ++ zdrop (zlen x) mem))],
           c', mkSock q w o) /\
    rbuf_offset_ c' < 0.
Proof.
  intros Hmem Hxy Hy Hl1 Hl2 Hmax Hf. destruct fuel as [|[|fuel]]; [lia..|].
  assert (HI : REDIS_IOBUF_LEN = 16384) by done. rewrite HI in Hmax.
  pose proof (zlen_nonneg a) as Ha.
  assert (0 < zlen y) by (destruct y; [done|clear; zlen_lia]).
  assert (Hlen : zlen x + zlen y = 5 + zlen (to_dec (zlen a)) + zlen a).
  { rewrite <- zlen_app, Hxy, zlen_resp_bulk. lia. }
  rewrite zlen_resp_bulk in Hmax. pose proof (zlen_nonneg (to_dec (zlen a))) as Hd.
  set (m := x ++ zdrop (zlen x) mem).
  assert (Hm : zlen m = REDIS_IOBUF_LEN) by (unfold m; rewrite zlen_app, zlen_zdrop; lia).
  set (c0 := set_elements 1 (set_argv_ [] (new_RedisCli mem))).
  unfold Recv, GetReply. fold c0. rewrite GetReply_loop_S.
  change (0 <? elements_ c0) with true. change ((rbuf_offset_ c0 =? 0) || _) with true. cbv iota.
  assert (HB : BufferRead c0 (mkSock (Arrive x :: q) w o) =
    Ret (zlen x, set_rbuf m 0 (zlen x) c0, mkSock q w o)).
  { unfold BufferRead. change (0 <? rbuf_pos_ c0) with false. cbn [obind]. rewrite BufferRead_loop_S.
    change (to_u64 (rbuf_size_ c0 - rbuf_offset_ c0)) with 16384. unfold sys_read. change (SSIZE_MAX <? 16384) with false. cbn [Z.eqb rdq].
    rewrite (proj2 (Z.leb_le _ _)), (proj2 (Z.eqb_neq _ _)) by lia.
    unfold poke. simpl rbuf_. simpl rbuf_offset_. rewrite (proj2 (Z.leb_le (0 + zlen x) _)) by lia.
    cbn [andb obind]. done. }
  rewrite HB. cbn [obind]. rewrite (proj2 (Z.ltb_ge _ _)) by lia.
  set (c1 := set_rbuf m 0 (zlen x) c0).
  assert (Hh1 : holds c1 x) by (constructor; [by exists [], (zdrop (zlen x) mem)|done|done]).
  destruct x as [|t x]; [rewrite zlen_nil in Hl1; lia|]. injection Hxy as -> Hxy. fold (bulk_text a) in Hxy.
  assert (HB1 : ReadByte c1 = Ret (Some "$"%char, consume 1 c1)).
  { unfold ReadByte. simpl rbuf_offset_. rewrite to_u32_id, (proj2 (Z.leb_le _ _)) by lia. simpl rbuf_pos_.
    simpl rbuf_. unfold m. pose proof (peek_at [] [] "$"%char (x ++ zdrop (zlen ("$"%char :: x)) mem) 0 eq_refl) as Hpk.
    cbn [app] in Hpk |- *. by rewrite Hpk. }
  assert (Hh2 : holds (consume 1 c1) x) by (by apply (consume_holds c1 ["$"%char] x)).
  unfold GetReplyFromReader. rewrite (h_offset _ _ Hh1), (proj2 (Z.eqb_neq _ _)) by lia.
  rewrite HB1. cbn [obind]. change (reply_type "$"%char) with (Some REDIS_REPLY_STRING).
  cbv iota beta. rewrite Z.eqb_refl.
  rewrite zlen_cons in *.
  destruct (bulk_text_prefix a x y Hxy) as [[Hshort _]|(x1 & Ex & Hx1)]; [lia|].
  set (c2 := consume 1 c1) in *. unfold ProcessBulkItem.
  pose proof Hh2 as Hh3. rewrite Ex in Hh3.
  rewrite (seek_holds c2 _ _ Hh3) by (apply to_dec_no_CR; lia). cbn [obind].
  rewrite (readLongLong_holds c2 (zlen a) (LF :: x1)) by (done || clia). cbn [obind].
  rewrite to_i32_id by clia. rewrite (proj2 (Z.eqb_neq _ _)), (proj2 (Z.ltb_ge _ _)) by clia.
  rewrite (h_offset _ _ Hh2), (proj2 (Z.leb_le _ _)), (proj2 (Z.ltb_ge (zlen a) 0)) by lia.
  unfold slice. simpl rbuf_. simpl rbuf_pos_. rewrite Hm, HI, !(proj2 (Z.leb_le _ _)) by lia.
  cbn [andb obind]. change (REDIS_OK <? REDIS_OK) with false. cbv iota.
  rewrite GetReply_loop_S. simpl elements_. change (0 <? 1 - 1) with false. cbv iota. cbn [obind].
  eexists. split.
  - simpl argv_. change (recv_status REDIS_OK) with OK. change (REDIS_OK =? REDIS_OK) with true. cbv iota.
    replace (0 + 1 + (zlen (to_dec (zlen a)) + 2)) with (zlen (to_dec (zlen a)) + 3) by lia. done.
  - simpl rbuf_offset_. rewrite ?zlen_cons. lia.
Qed.

Lemma Recv_overreads_witness :
  exists c', Recv 2 (new_RedisCli blank_memory) (mkSock [Arrive (bs "$5" ++ CRLF ++ bs "hell")] [] []) =
      Ret (OK, Some [ztake 5 (zdrop 4 ((bs "$5" ++ CRLF ++ bs "hell") ++ zdrop 8 blank_memory))], c', mkSock [] [] []) /\
    rbuf_offset_ c' < 0.
Proof.
  apply (Recv_overreads blank_memory (bs "hello") (bs "$5" ++ CRLF ++ bs "hell") ("o"%char :: CRLF));
    try done; vm_compute; discriminate.
Defined.
