(* ===== verification/PinkConn.v ===== *)
(** [pink/include/pink_conn.h] and [pink/src/pink_conn.cc]: what every kind of
    connection carries, and the interface the event loops use it through. *)
From S2P Require Import Pink Prelude Sys.

(** The members of the class, without the pointers to thread and poller. The
    time of the last interaction is its second. *)
Record PinkConn : Type := mkPinkConn {
  fd_ : Z;
  flags_ : Z;
  ip_port_ : bytes;
  is_partial_request_ : bool;
  is_reply_ : bool;
  is_writable_ : bool;
  is_waiting_del_ : bool;
  is_quit_ : bool;
  last_interaction_ : Z
}.

Definition new_PinkConn (fd : Z) (ip_port : bytes) (now : Z) : PinkConn :=
  {| fd_ := fd; flags_ := 0; ip_port_ := ip_port; is_partial_request_ := false;
     is_reply_ := false; is_writable_ := false; is_waiting_del_ := false; is_quit_ := false;
     last_interaction_ := now |}.

Definition set_flags (v : Z) (c : PinkConn) : PinkConn :=
  mkPinkConn (fd_ c) v (ip_port_ c) (is_partial_request_ c) (is_reply_ c) (is_writable_ c)
    (is_waiting_del_ c) (is_quit_ c) (last_interaction_ c).
Definition set_fd (v : Z) (c : PinkConn) : PinkConn :=
  mkPinkConn v (flags_ c) (ip_port_ c) (is_partial_request_ c) (is_reply_ c) (is_writable_ c)
    (is_waiting_del_ c) (is_quit_ c) (last_interaction_ c).
Definition set_is_partial_request (v : bool) (c : PinkConn) : PinkConn :=
  mkPinkConn (fd_ c) (flags_ c) (ip_port_ c) v (is_reply_ c) (is_writable_ c)
    (is_waiting_del_ c) (is_quit_ c) (last_interaction_ c).
Definition set_is_reply (v : bool) (c : PinkConn) : PinkConn :=
  mkPinkConn (fd_ c) (flags_ c) (ip_port_ c) (is_partial_request_ c) v (is_writable_ c)
    (is_waiting_del_ c) (is_quit_ c) (last_interaction_ c).
Definition set_is_writable (v : bool) (c : PinkConn) : PinkConn :=
  mkPinkConn (fd_ c) (flags_ c) (ip_port_ c) (is_partial_request_ c) (is_reply_ c) v
    (is_waiting_del_ c) (is_quit_ c) (last_interaction_ c).
Definition delayed_del (c : PinkConn) : PinkConn :=
  mkPinkConn (fd_ c) (flags_ c) (ip_port_ c) (is_partial_request_ c) (is_reply_ c) (is_writable_ c)
    true (is_quit_ c) (last_interaction_ c).
Definition set_is_quit (c : PinkConn) : PinkConn :=
  mkPinkConn (fd_ c) (flags_ c) (ip_port_ c) (is_partial_request_ c) (is_reply_ c) (is_writable_ c)
    (is_waiting_del_ c) true (last_interaction_ c).
Definition set_last_interaction (v : Z) (c : PinkConn) : PinkConn :=
  mkPinkConn (fd_ c) (flags_ c) (ip_port_ c) (is_partial_request_ c) (is_reply_ c) (is_writable_ c)
    (is_waiting_del_ c) (is_quit_ c) v.

Definition is_ready_to_reply (c : PinkConn) : bool := is_writable_ c && is_reply_ c.

(** [SetNonblock] with the result of [Setnonblocking]. *)
Definition SetNonblock (flags : Z) (c : PinkConn) : bool * PinkConn :=
  (negb (flags =? -1), set_flags flags c).

(** * The interface *)

(** What a subclass provides: the members of the base class it inherits, its
    virtual operations and, where it does not override them, the defaults below. *)
Class ConnOps (C : Type) : Type := {
  conn_base : C -> PinkConn;
  with_base : (PinkConn -> PinkConn) -> C -> C;
  conn_GetRequest : C -> sock -> outcome (ReadStatus * C * sock);
  conn_SendReply : C -> sock -> outcome (WriteStatus * C * sock);
  conn_WriteResp : bytes -> C -> C;
  conn_TryResizeBuffer : Z -> C -> outcome C;   (** the argument is the time *)
  conn_is_reply : C -> bool;
  conn_set_is_reply : bool -> C -> C
}.

(** [WriteResp], [TryResizeBuffer], [is_reply] and [set_is_reply] of the base. *)
Section defaults.
Context {C : Type}.

Definition default_WriteResp (resp : bytes) (c : C) : C := c.
Definition default_TryResizeBuffer (now : Z) (c : C) : outcome C := Ret c.
Definition default_is_reply (base : C -> PinkConn) (c : C) : bool := is_reply_ (base c).
Definition default_set_is_reply (modify : (PinkConn -> PinkConn) -> C -> C) (b : bool) (c : C) : C :=
  modify (set_is_reply b) c.
End defaults.

(** Which connection it is: an operation may change anything else. *)
Definition conn_id (b : PinkConn) : Z * bytes := (fd_ b, ip_port_ b).

(** An operation that keeps the connection's identity and does not follow
    pointers to dead objects. *)
Definition keeps_id {C R} (id : C -> Z * bytes) (f : C -> sock -> outcome (R * C * sock)) : Prop :=
  forall c s, match f c s with
  | Ret (_, c', _) => id c' = id c
  | Fault e => e <> UseAfterFree
  end.

(** No step follows a pointer to a dead object. *)
Definition alive (e : fault) : Prop := e <> UseAfterFree.

Lemma alive_bind {A B} (P : A -> Prop) (Q : B -> Prop) m k :
  wp alive P m -> (forall a, P a -> wp alive Q (k a)) -> wp alive Q (obind m k).
Proof. intros Hm Hk. apply wp_bind. eapply wp_mono; [|exact Hm]. exact Hk. Qed.

Lemma keeps_id_wp {C R} (id : C -> Z * bytes) (f : C -> sock -> outcome (R * C * sock)) c s :
  keeps_id id f -> wp alive (fun '(_, c', _) => id c' = id c) (f c s).
Proof. intros Hf. specialize (Hf c s). by destruct (f c s) as [[[? ?] ?]|]. Qed.

(** What the event loops rely on. *)
Class ConnLaws (C : Type) {O : ConnOps C} : Prop := {
  base_with_base f c : conn_base (with_base f c) = f (conn_base c);
  GetRequest_id : keeps_id (fun c => conn_id (conn_base c)) conn_GetRequest;
  SendReply_id : keeps_id (fun c => conn_id (conn_base c)) conn_SendReply;
  WriteResp_id resp c : conn_id (conn_base (conn_WriteResp resp c)) = conn_id (conn_base c);
  set_is_reply_id b c : conn_id (conn_base (conn_set_is_reply b c)) = conn_id (conn_base c);
  TryResizeBuffer_id now c :
    match conn_TryResizeBuffer now c with
    | Ret c' => conn_id (conn_base c') = conn_id (conn_base c)
    | Fault e => e <> UseAfterFree
    end
}.
