(* ===== verification/PinkEpoll.v ===== *)
(** [pink/src/pink_item.h], [pink/src/pink_epoll.h], [pink/src/pink_epoll.cc] and
    [pink/src/pink_util.cc]: the poller of an event loop, the pipe through which
    other threads hand it connections, and the process that owns them.

    The kernel's side of an epoll descriptor is the table of the descriptors it
    watches. [epoll_wait] is not a function: what it may report is the predicate
    [fired]. The pipe is the list of the items written and not read yet; this is a
    simplification, as the kernel's pipe has a capacity, behind which [write] waits,
    and [write] may fail, which the check in [Register] turns into the end of the
    process. *)
From S2P Require Import Pink Prelude Sys PinkConn.

Definition EPOLLIN : Z := 1.
Definition EPOLLOUT : Z := 4.
Definition EPOLLERR : Z := 8.
Definition EPOLLHUP : Z := 16.
Definition O_NONBLOCK : Z := 2048.

(** [mask & bit] as a condition *)
Definition has (bit mask : Z) : bool := negb (Z.land mask bit =? 0).

(** * Items *)

(** A pointer to a connection is an address. *)
Abbreviation ptr := Z.

Record PinkItem : Type := mkItem {
  item_fd : Z;
  item_ip_port : bytes;
  item_notify_type : NotifyType;
  item_conn : option ptr
}.

(** The address must fit the 43 bytes of [ip_port_] with its terminator. *)
Definition IP_PORT_SIZE : Z := 16 + 27.

Definition new_PinkItem (fd : Z) (ip_port : bytes) (type : NotifyType) : outcome PinkItem :=
  if zlen ip_port <? IP_PORT_SIZE then Ret (mkItem fd ip_port type None) else Fault AssertFailed.

(** [ip_port()] as the [std::string] it is converted to. *)
Definition ip_port (i : PinkItem) : bytes := cstr (item_ip_port i).

Definition with_conn (p : ptr) (i : PinkItem) : PinkItem :=
  mkItem (item_fd i) (item_ip_port i) (item_notify_type i) (Some p).

(** * The poller *)

(** [epoll_data]: a descriptor or a pointer. *)
Inductive epoll_data : Type := DFd (fd : Z) | DPtr (p : ptr).

#[export] Instance epoll_data_eq_dec : EqDecision epoll_data.
Proof. solve_decision. Defined.

Record PinkEpoll : Type := mkEpoll {
  interest : gmap Z (Z * epoll_data);   (** descriptor to mask and data *)
  notify_receive_fd : Z;
  notify_queue : list PinkItem
}.

Definition set_interest (m : gmap Z (Z * epoll_data)) (e : PinkEpoll) : PinkEpoll :=
  mkEpoll m (notify_receive_fd e) (notify_queue e).
Definition set_notify_queue (q : list PinkItem) (e : PinkEpoll) : PinkEpoll :=
  mkEpoll (interest e) (notify_receive_fd e) q.

(** [epoll_ctl]: -1 is [EBADF] for [ADD] of a descriptor that is not open and
    [EEXIST] for one that is watched; for the others it is [ENOENT], as a
    descriptor that is closed is no longer watched. *)
Definition epoll_ctl_add (opened : bool) (fd mask : Z) (d : epoll_data) (e : PinkEpoll)
    : Z * PinkEpoll :=
  if negb opened then (-1, e)
  else match interest e !! fd with
  | Some _ => (-1, e)
  | None => (0, set_interest (<[fd := (mask, d)]> (interest e)) e)
  end.
Definition epoll_ctl_mod (fd mask : Z) (d : epoll_data) (e : PinkEpoll) : Z * PinkEpoll :=
  match interest e !! fd with
  | Some _ => (0, set_interest (<[fd := (mask, d)]> (interest e)) e)
  | None => (-1, e)
  end.
Definition epoll_ctl_del (fd : Z) (e : PinkEpoll) : Z * PinkEpoll :=
  match interest e !! fd with
  | Some _ => (0, set_interest (delete fd (interest e)) e)
  | None => (-1, e)
  end.

Definition PinkAddEvent (opened : bool) (fd mask : Z) (e : PinkEpoll) : Z * PinkEpoll :=
  epoll_ctl_add opened fd mask (DFd fd) e.
Definition PinkModEvent (fd old_mask mask : Z) (e : PinkEpoll) : Z * PinkEpoll :=
  epoll_ctl_mod fd (Z.lor old_mask mask) (DFd fd) e.
Definition PinkDelEvent (fd : Z) (e : PinkEpoll) : Z * PinkEpoll := epoll_ctl_del fd e.

(** The overloads for a connection, given its address and descriptor. *)
Definition PinkAddEvent_conn (opened : bool) (p : ptr) (fd mask : Z) (e : PinkEpoll)
    : Z * PinkEpoll := epoll_ctl_add opened fd mask (DPtr p) e.
Definition PinkModEvent_conn (p : ptr) (fd old_mask mask : Z) (e : PinkEpoll) : Z * PinkEpoll :=
  epoll_ctl_mod fd (Z.lor old_mask mask) (DPtr p) e.

(** The constructor, with the descriptor of the reading end of the pipe. *)
Definition new_PinkEpoll (receive_fd : Z) : PinkEpoll :=
  (PinkAddEvent true receive_fd (Z.lor EPOLLIN (Z.lor EPOLLERR EPOLLHUP))
     (mkEpoll ∅ receive_fd [])).2.

(** [Register] when its [write] succeeds: the item goes into the pipe; [force] and the limit given to the
    constructor are not looked at. *)
Definition Register (it : PinkItem) (force : bool) (e : PinkEpoll) : bool * PinkEpoll :=
  (true, set_notify_queue (notify_queue e ++ [it]) e).

(** One [read] of the pipe into room for [n] items. *)
Definition read_items (n : nat) (e : PinkEpoll) : list PinkItem * PinkEpoll :=
  (take n (notify_queue e), set_notify_queue (drop n (notify_queue e)) e).

(** [firedevent()] after [PinkPoll]: each entry reports a watched descriptor,
    with bits of its mask or the two that are always reported, at most one entry
    for a descriptor. *)
Definition fired (evs : list (Z * (Z * epoll_data))) (e : PinkEpoll) : Prop :=
  NoDup (map fst evs) /\
  Forall (fun ev => let '(fd, (mask, d)) := ev in
    exists m, interest e !! fd = Some (m, d) /\
      Z.land mask (Z.lor m (Z.lor EPOLLERR EPOLLHUP)) = mask) evs.

(** * The process *)

(** Calls of the user's [ServerHandle], [ClientHandle] or [BackendHandle]. *)
Inductive handle_event : Type :=
  | FdClosed (fd : Z) (ip_port : bytes)
  | FdTimedOut (fd : Z) (ip_port : bytes)
  | ConnectFailed (ip_port : bytes).

#[export] Instance handle_event_eq_dec : EqDecision handle_event.
Proof. solve_decision. Defined.

(** An open descriptor: its file status flags and its stream. *)
Record desc : Type := mkDesc { d_flags : Z; d_sock : sock }.

(** The connections alive, the references to them that other threads hold, the
    open descriptors and the log of the handle. Addresses are not reused. *)
Record world (C : Type) : Type := mkWorld {
  heap : gmap Z C;
  next_ptr : ptr;
  held : list ptr;
  fds : gmap Z desc;
  handle_log : list handle_event
}.
Arguments mkWorld {C}.
Arguments heap {C}. Arguments next_ptr {C}. Arguments held {C}.
Arguments fds {C}. Arguments handle_log {C}.

Section world.
Context {C : Type} {Ops : ConnOps C}.
Implicit Types w : world C.

Definition set_heap (h : gmap Z C) (w : world C) : world C :=
  mkWorld h (next_ptr w) (held w) (fds w) (handle_log w).
Definition set_held (l : list ptr) (w : world C) : world C :=
  mkWorld (heap w) (next_ptr w) l (fds w) (handle_log w).
Definition set_fds (m : gmap Z desc) (w : world C) : world C :=
  mkWorld (heap w) (next_ptr w) (held w) m (handle_log w).
Definition log (e : handle_event) (w : world C) : world C :=
  mkWorld (heap w) (next_ptr w) (held w) (fds w) (handle_log w ++ [e]).

(** [make_shared]: the new object and its address. *)
Definition alloc (c : C) (w : world C) : ptr * world C :=
  (next_ptr w, mkWorld (<[next_ptr w := c]> (heap w)) (next_ptr w + 1) (held w) (fds w) (handle_log w)).

(** Following a pointer. *)
Definition deref (p : ptr) (w : world C) : outcome C :=
  match heap w !! p with Some c => Ret c | None => Fault UseAfterFree end.

(** A setter of the base class, through a pointer. *)
Definition modify (p : ptr) (f : PinkConn -> PinkConn) (w : world C) : outcome (world C) :=
  let! c := deref p w in
  Ret (set_heap (<[p := with_base f c]> (heap w)) w).

(** [close] *)
Definition close_fd (fd : Z) (w : world C) : world C := set_fds (delete fd (fds w)) w.

Definition is_open (fd : Z) (w : world C) : bool := bool_decide (is_Some (fds w !! fd)).

(** The stream behind a descriptor; [EBADF] when it is not open. *)
Definition bad_sock : sock := mkSock [RdFails EOTHER] [WrFails EOTHER] [].
Definition sock_of (fd : Z) (w : world C) : sock :=
  match fds w !! fd with Some d => d_sock d | None => bad_sock end.
Definition put_sock (fd : Z) (s : sock) (w : world C) : world C :=
  match fds w !! fd with
  | Some d => set_fds (<[fd := mkDesc (d_flags d) s]> (fds w)) w
  | None => w
  end.

(** A virtual call on a connection. *)
Definition call {R} (f : C -> sock -> outcome (R * C * sock)) (p : ptr) (w : world C)
    : outcome (R * world C) :=
  let! c := deref p w in
  let fd := fd_ (conn_base c) in
  let! (r, c, s) := f c (sock_of fd w) in
  Ret (r, put_sock fd s (set_heap (<[p := c]> (heap w)) w)).

(** [Setnonblocking]: the flags, or -1 with the descriptor closed. *)
Definition Setnonblocking (fd : Z) (w : world C) : Z * world C :=
  match fds w !! fd with
  | None => (-1, close_fd fd w)
  | Some d =>
      let flags := Z.lor (d_flags d) O_NONBLOCK in
      (flags, set_fds (<[fd := mkDesc flags (d_sock d)]> (fds w)) w)
  end.

(** [PinkConn::SetNonblock] through a pointer. *)
Definition conn_SetNonblock (p : ptr) (w : world C) : outcome (bool * world C) :=
  let! c := deref p w in
  let '(flags, w) := Setnonblocking (fd_ (conn_base c)) w in
  let! w := modify p (fun b => (SetNonblock flags b).2) w in
  Ret ((SetNonblock flags (conn_base c)).1, w).

(** The end of a reference: the object goes when no other reference is left. *)
Definition release (refs : list ptr) (p : ptr) (w : world C) : world C :=
  if bool_decide (p ∈ refs ++ held w) then w else set_heap (delete p (heap w)) w.
End world.

#[global] Arguments has : simpl never.
