(* ===== verification/Cron.v ===== *)
(** The clock of the event loops: the part of [ThreadMain] in
    [pink/src/server_thread.cc] and [pink/src/worker_thread.cc] that decides when
    the cron tasks run and how long the poller may sleep. *)
From S2P Require Import Pink Prelude.

(** [struct timeval] *)
Record timeval : Type := mkTime { tv_sec : Z; tv_usec : Z }.

#[export] Instance timeval_eq_dec : EqDecision timeval.
Proof. solve_decision. Defined.

(** [when.tv_sec > now.tv_sec || (when.tv_sec == now.tv_sec && when.tv_usec > now.tv_usec)] *)
Definition later (when now : timeval) : bool :=
  (tv_sec now <? tv_sec when) || ((tv_sec when =? tv_sec now) && (tv_usec now <? tv_usec when)).

(** The next run after [now]: the microseconds are not carried over. *)
Definition next_when (cron_interval_ : Z) (now : timeval) : timeval :=
  mkTime (tv_sec now + Z.quot cron_interval_ 1000)
         (tv_usec now + Z.rem cron_interval_ 1000 * 1000).

(** The locals of the loop. *)
Record clock : Type := mkClock { c_when : timeval; c_now : timeval; c_timeout : Z }.

(** What precedes the loop, at time [now]. *)
Definition start_clock (cron_interval_ : Z) (now : timeval) : clock :=
  mkClock (next_when cron_interval_ now) now
    (if cron_interval_ <=? 0 then PINK_CRON_INTERVAL else cron_interval_).

(** The head of an iteration at time [t]: whether the cron tasks run now. *)
Definition cron_head (cron_interval_ : Z) (t : timeval) (c : clock) : bool * clock :=
  if 0 <? cron_interval_ then
    if later (c_when c) t then
      (false, mkClock (c_when c) t
                ((tv_sec (c_when c) - tv_sec t) * 1000 +
                 Z.quot (tv_usec (c_when c) - tv_usec t) 1000))
    else (true, mkClock (next_when cron_interval_ t) t cron_interval_)
  else (false, c).

(** * Facts *)

(** A time as [gettimeofday] returns it, and in microseconds. *)
Definition valid (t : timeval) : Prop := 0 <= tv_usec t < 1000000.
Definition usec (t : timeval) : Z := tv_sec t * 1000000 + tv_usec t.

Lemma quot_rem_1000 c : 0 < c -> exists q r, Z.quot c 1000 = q /\ Z.rem c 1000 = r /\
  c = 1000 * q + r /\ 0 <= q /\ 0 <= r < 1000.
Proof.
  intros Hc. exists (Z.quot c 1000), (Z.rem c 1000).
  pose proof (Z.quot_rem' c 1000). pose proof (Z.rem_bound_pos c 1000 ltac:(lia) ltac:(lia)).
  pose proof (Z.quot_pos c 1000 ltac:(lia) ltac:(lia)). split_and!; try done; lia.
Qed.

(** The rounding of the timeout: toward zero, so up when negative. *)
Lemma quot_1000 z : 1000 * Z.quot z 1000 <= z + 999 /\ z - 999 <= 1000 * Z.quot z 1000.
Proof.
  pose proof (Z.quot_rem' z 1000). pose proof (Z.rem_bound_abs z 1000 ltac:(lia)). lia.
Qed.

Section cron.
Context (c : Z) (Hc : 0 < c).

Lemma later_next t0 t : valid t0 -> valid t -> later (next_when c t0) t = true -> usec t < usec t0 + c * 1000.
Proof.
  intros H0 Ht. destruct (quot_rem_1000 c Hc) as (q & r & Hq & Hr & -> & ? & ?).
  unfold later, next_when, usec, valid in *. simpl. rewrite Hq, Hr.
  intros [Hl|Hl]%orb_true_iff; b2p; lia.
Qed.

Lemma timeout_bounds t0 t : valid t0 -> valid t -> usec t0 <= usec t -> later (next_when c t0) t = true ->
  let d := (tv_sec (next_when c t0) - tv_sec t) * 1000 +
           Z.quot (tv_usec (next_when c t0) - tv_usec t) 1000 in
  0 <= d <= c /\ usec t + d * 1000 < usec t0 + c * 1000 + 1000.
Proof.
  intros H0 Ht Hle. destruct (quot_rem_1000 c Hc) as (q & r & Hq & Hr & -> & ? & ?).
  unfold later, next_when, usec, valid in *. simpl. rewrite Hq, Hr.
  set (z := tv_usec t0 + r * 1000 - tv_usec t). pose proof (quot_1000 z) as [? ?].
  intros [Hl|Hl]%orb_true_iff; b2p; subst z; lia.
Qed.
End cron.
