(* ===== verification/ServerConns.v ===== *)
(** What [WorkerThread] and [HolyThread] (pink/src/worker_thread.cc,
    pink/src/holy_thread.cc) have in common: the table of their connections, the
    requests to kill some of them, the keepalive timer, and the cron task that
    acts on both. The two classes repeat this code; where they differ the
    definitions take a parameter. *)
From S2P Require Import Pink Prelude Sys StdMap PinkConn PinkEpoll.

(** [kKillAllConnsTask] and [kDefaultKeepAliveTime] of [server_thread.h]. *)
Definition kKillAllConnsTask : bytes := bs "kill_all_conns".
Definition kDefaultKeepAliveTime : Z := 60.

(** The members of a server thread that has connections. [in_conn_] is the local
    of [ThreadMain] that outlives an iteration and keeps a connection alive. *)
Record server (C : Type) : Type := mkServer {
  conns_ : stdmap Z ptr;
  deleting_conn_ipport_ : gset bytes;
  keepalive_timeout_ : Z;
  pink_epoll_ : PinkEpoll;
  in_conn_ : option ptr;
  mem : world C
}.
Arguments mkServer {C}.
Arguments conns_ {C}. Arguments deleting_conn_ipport_ {C}. Arguments keepalive_timeout_ {C}.
Arguments pink_epoll_ {C}. Arguments in_conn_ {C}. Arguments mem {C}.

Section server.
Context {C : Type} {Ops : ConnOps C}.
Implicit Types t : server C.

Definition put_conns (m : stdmap Z ptr) (t : server C) : server C :=
  mkServer m (deleting_conn_ipport_ t) (keepalive_timeout_ t) (pink_epoll_ t) (in_conn_ t) (mem t).
Definition put_deleting (d : gset bytes) (t : server C) : server C :=
  mkServer (conns_ t) d (keepalive_timeout_ t) (pink_epoll_ t) (in_conn_ t) (mem t).
Definition set_keepalive_timeout (timeout : Z) (t : server C) : server C :=
  mkServer (conns_ t) (deleting_conn_ipport_ t) timeout (pink_epoll_ t) (in_conn_ t) (mem t).
Definition put_epoll (e : PinkEpoll) (t : server C) : server C :=
  mkServer (conns_ t) (deleting_conn_ipport_ t) (keepalive_timeout_ t) e (in_conn_ t) (mem t).
Definition put_in_conn (p : option ptr) (t : server C) : server C :=
  mkServer (conns_ t) (deleting_conn_ipport_ t) (keepalive_timeout_ t) (pink_epoll_ t) p (mem t).
Definition put_mem (w : world C) (t : server C) : server C :=
  mkServer (conns_ t) (deleting_conn_ipport_ t) (keepalive_timeout_ t) (pink_epoll_ t) (in_conn_ t) w.

(** * References *)

(** The references the thread itself holds: the table, the local, the items in
    the pipe. *)
Definition refs (t : server C) : list ptr :=
  map snd (conns_ t) ++ option_list (in_conn_ t) ++ omap item_conn (notify_queue (pink_epoll_ t)).

(** A reference to [p] goes out of scope. *)
Definition drop_ref (p : ptr) (t : server C) : server C := put_mem (release (refs t) p (mem t)) t.

(** [conns_.erase(fd)] *)
Definition erase_conn (fd : Z) (t : server C) : server C :=
  match sm_find fd (conns_ t) with
  | Some p => drop_ref p (put_conns (sm_erase fd (conns_ t)) t)
  | None => t
  end.

(** [conns_[fd] = conn] *)
Definition insert_conn (fd : Z) (p : ptr) (t : server C) : server C :=
  let t' := put_conns (sm_set fd p (conns_ t)) t in
  match sm_find fd (conns_ t) with
  | Some old => drop_ref old t'
  | None => t'
  end.

(** [in_conn = p] *)
Definition assign_in_conn (p : option ptr) (t : server C) : server C :=
  let t' := put_in_conn p t in
  match in_conn_ t with
  | Some old => drop_ref old t'
  | None => t'
  end.

(** * Calls *)

Definition conn_call {R} (f : C -> sock -> outcome (R * C * sock)) (p : ptr) (t : server C)
    : outcome (R * server C) :=
  let! (r, w) := call f p (mem t) in
  Ret (r, put_mem w t).

(** Any change of the object behind a pointer. *)
Definition on_conn (f : C -> C) (p : ptr) (t : server C) : outcome (server C) :=
  let! c := deref p (mem t) in
  Ret (put_mem (set_heap (<[p := f c]> (heap (mem t))) (mem t)) t).

Definition modify_conn (p : ptr) (f : PinkConn -> PinkConn) (t : server C) : outcome (server C) :=
  on_conn (with_base f) p t.

(** [CloseFd]: the descriptor is closed, which takes it out of the poller, and
    then the user's handle is told. *)
Definition CloseFd (p : ptr) (t : server C) : outcome (server C) :=
  let! c := deref p (mem t) in
  let fd := fd_ (conn_base c) in
  let t := put_epoll (epoll_ctl_del fd (pink_epoll_ t)).2 (put_mem (close_fd fd (mem t)) t) in
  Ret (put_mem (log (FdClosed fd (ip_port_ (conn_base c))) (mem t)) t).

Fixpoint CloseFds (l : list ptr) (t : server C) : outcome (server C) :=
  match l with
  | [] => Ret t
  | p :: l => let! t := CloseFd p t in CloseFds l t
  end.

(** [CloseFd] and [FdTimeoutHandle] for each. *)
Fixpoint TimeoutFds (l : list ptr) (t : server C) : outcome (server C) :=
  match l with
  | [] => Ret t
  | p :: l =>
      let! t := CloseFd p t in
      let! c := deref p (mem t) in
      TimeoutFds l (put_mem (log (FdTimedOut (fd_ (conn_base c)) (ip_port_ (conn_base c))) (mem t)) t)
  end.

(** The end of a local vector of references. *)
Definition drop_refs (l : list ptr) (t : server C) : server C := fold_left (fun t p => drop_ref p t) l t.

(** * Operations *)

Definition conn_num (t : server C) : Z := zlen (conns_ t).

(** [conns_info]: descriptor, address and last interaction of each. *)
Fixpoint conns_info_of (l : list (Z * ptr)) (w : world C) : outcome (list (Z * bytes * Z)) :=
  match l with
  | [] => Ret []
  | (fd, p) :: l =>
      let! c := deref p w in
      let! r := conns_info_of l w in
      Ret ((fd, ip_port_ (conn_base c), last_interaction_ (conn_base c)) :: r)
  end.
Definition conns_info (t : server C) : outcome (list (Z * bytes * Z)) := conns_info_of (conns_ t) (mem t).

(** [MoveConnOut]: the caller gets a reference. *)
Definition MoveConnOut (fd : Z) (t : server C) : option ptr * server C :=
  match sm_find fd (conns_ t) with
  | None => (None, t)
  | Some p =>
      let t := put_epoll (PinkDelEvent fd (pink_epoll_ t)).2 t in
      let t := put_mem (set_held (p :: held (mem t)) (mem t)) t in
      (Some p, put_conns (sm_erase fd (conns_ t)) t)
  end.

(** The scan of [DoCronTask] over the entries [l]. [mark] is whether a killed
    connection is also marked as deleting. *)
Fixpoint cron_scan (mark : bool) (now : Z) (l : list (Z * ptr)) (to_close to_timeout : list ptr)
    (t : server C) : outcome (list ptr * list ptr * server C) :=
  match l with
  | [] => Ret (to_close, to_timeout, t)
  | (fd, p) :: l =>
      let! c := deref p (mem t) in
      let b := conn_base c in
      if bool_decide (ip_port_ b ∈ deleting_conn_ipport_ t) then
        let! t := if mark then modify_conn p delayed_del t else Ret t in
        let t := put_deleting (deleting_conn_ipport_ t ∖ {[ip_port_ b]}) t in
        cron_scan mark now l (to_close ++ [p]) to_timeout (put_conns (sm_erase fd (conns_ t)) t)
      else if (0 <? keepalive_timeout_ t) && (keepalive_timeout_ t <? now - last_interaction_ b) then
        cron_scan mark now l to_close (to_timeout ++ [p]) (put_conns (sm_erase fd (conns_ t)) t)
      else
        let! c := conn_TryResizeBuffer now c in
        cron_scan mark now l to_close to_timeout
          (put_mem (set_heap (<[p := c]> (heap (mem t))) (mem t)) t)
  end.

(** [DoCronTask]. The first branch returns before the connections it has put
    into [to_close] are closed. *)
Definition cron_task (mark : bool) (now : Z) (t : server C) : outcome (server C) :=
  if bool_decide (kKillAllConnsTask ∈ deleting_conn_ipport_ t) then
    let to_close := map snd (conns_ t) in
    Ret (drop_refs to_close (put_deleting ∅ (put_conns [] t)))
  else
    let! (to_close, to_timeout, t) := cron_scan mark now (conns_ t) [] [] t in
    let! t := CloseFds to_close t in
    let! t := TimeoutFds to_timeout t in
    Ret (drop_refs (to_close ++ to_timeout) t).

(** The first connection with the address. *)
Fixpoint find_addr (ip_port : bytes) (l : list (Z * ptr)) (w : world C) : outcome (option ptr) :=
  match l with
  | [] => Ret None
  | (_, p) :: l =>
      let! c := deref p w in
      if bool_decide (ip_port_ (conn_base c) = ip_port) then Ret (Some p) else find_addr ip_port l w
  end.

(** [TryKillConn] and [KillConn]: the connection is only marked, the cron task
    does the rest. *)
Definition kill_conn (mark : bool) (ip_port : bytes) (t : server C) : outcome (bool * server C) :=
  let insert (t : server C) := put_deleting ({[ip_port]} ∪ deleting_conn_ipport_ t) t in
  if bool_decide (ip_port = kKillAllConnsTask) then Ret (true, insert t)
  else
    let! found := find_addr ip_port (conns_ t) (mem t) in
    match found with
    | None => Ret (false, t)
    | Some p =>
        let! t := if mark then modify_conn p delayed_del t else Ret t in
        Ret (true, insert t)
    end.

(** [Cleanup] *)
Definition Cleanup (t : server C) : outcome (server C) :=
  let to_close := map snd (conns_ t) in
  let! t := CloseFds to_close (put_conns [] t) in
  Ret (drop_refs to_close t).
End server.
