(* ===== verification/ServerFacts.v ===== *)
(** Facts about the connection table: the invariant of the event loops and the
    operations that keep it. *)
From S2P Require Import Pink Prelude Sys StdMap PinkConn PinkEpoll ServerConns.

(** * Code that does not follow dead pointers *)

(** [m] ends in a state that satisfies [Q], or stops for a reason in [E]. *)
Definition ends {A} (E : fault -> Prop) (m : outcome A) (Q : A -> Prop) : Prop :=
  match m with Ret a => Q a | Fault e => E e end.

Lemma ends_bind {A B} E (m : outcome A) (k : A -> outcome B) Q :
  ends E m (fun a => ends E (k a) Q) -> ends E (obind m k) Q.
Proof. by destruct m. Qed.

Lemma ends_mono {A} E (m : outcome A) (P Q : A -> Prop) :
  ends E m P -> (forall a, P a -> Q a) -> ends E m Q.
Proof. destruct m; simpl; auto. Qed.

(** It does not stop because a dead object is used. *)
Definition safe {A} (m : outcome A) (Q : A -> Prop) : Prop := ends (fun e => e <> UseAfterFree) m Q.

Lemma safe_bind {A B} (m : outcome A) (k : A -> outcome B) Q :
  safe m (fun a => safe (k a) Q) -> safe (obind m k) Q.
Proof. apply ends_bind. Qed.

Lemma safe_mono {A} (m : outcome A) (P Q : A -> Prop) :
  safe m P -> (forall a, P a -> Q a) -> safe m Q.
Proof. apply ends_mono. Qed.

Section facts.
Context {C : Type} {Ops : ConnOps C} {CL : ConnLaws C}.
Implicit Types t : server C.

(** The descriptor of the object behind a pointer, if there is one. *)
Definition fd_at (w : world C) (p : ptr) : option Z := (fun c => fd_ (conn_base c)) <$> heap w !! p.

Lemma fd_at_deref w p fd :
  fd_at w p = Some fd -> exists c, heap w !! p = Some c /\ deref p w = Ret c /\ fd_ (conn_base c) = fd.
Proof.
  unfold fd_at, deref. destruct (heap w !! p) as [c|]; [|done]. intros [= <-]. eauto.
Qed.

(** * The invariant *)

(** What an item in the pipe may be: a connect item names an open descriptor that
    no connection has; any other names a connection that still is in the table,
    or whose descriptor has not come back since. [seen] are the descriptors of
    the connect items before it. *)
Definition item_ok (t : server C) (seen : list Z) (i : PinkItem) : Prop :=
  match item_notify_type i with
  | kNotiConnect =>
      item_conn i = None /\
      sm_find (item_fd i) (conns_ t) = None /\ (item_fd i ∉ seen) /\
      is_open (item_fd i) (mem t) = true /\ item_fd i <> notify_receive_fd (pink_epoll_ t)
  | kNotiClose | kNotiWrite => True
  | kNotiWait => False
  | _ => exists p fd, item_conn i = Some p /\ fd_at (mem t) p = Some fd /\
           fd <> notify_receive_fd (pink_epoll_ t) /\
           (sm_find fd (conns_ t) = Some p \/ (sm_find fd (conns_ t) = None /\ (fd ∉ seen)))
  end.

Definition is_connect (i : PinkItem) : bool := bool_decide (item_notify_type i = kNotiConnect).

Fixpoint queue_ok (t : server C) (seen : list Z) (q : list PinkItem) : Prop :=
  match q with
  | [] => True
  | i :: q => item_ok t seen i /\ queue_ok t (if is_connect i then item_fd i :: seen else seen) q
  end.

(** [evs] are the events of the batch still to be handled, [q] the items that
    are. What is watched, reported or referenced is alive and in its place. *)
Record Inv (evs : list (Z * (Z * epoll_data))) (q : list PinkItem) (t : server C) : Prop := {
  i_sorted : sm_sorted (conns_ t);
  i_live p : p ∈ refs t -> is_Some (fd_at (mem t) p);
  i_fd fd p : sm_find fd (conns_ t) = Some p -> fd_at (mem t) p = Some fd;
  i_open fd p : sm_find fd (conns_ t) = Some p -> is_open fd (mem t) = true;
  i_watch fd m p : interest (pink_epoll_ t) !! fd = Some (m, DPtr p) -> sm_find fd (conns_ t) = Some p;
  i_pipe fd m f : interest (pink_epoll_ t) !! fd = Some (m, DFd f) ->
    fd = notify_receive_fd (pink_epoll_ t) /\ f = notify_receive_fd (pink_epoll_ t);
  i_rfd : sm_find (notify_receive_fd (pink_epoll_ t)) (conns_ t) = None;
  i_queue : queue_ok t [] q;
  i_nodup : NoDup (map fst evs);
  i_batch fd m p : (fd, (m, DPtr p)) ∈ evs -> sm_find fd (conns_ t) = Some p;
  i_batch_pipe fd m f : (fd, (m, DFd f)) ∈ evs -> f = notify_receive_fd (pink_epoll_ t);
  i_next p : next_ptr (mem t) <= p -> (p ∉ refs t) /\ heap (mem t) !! p = None;
  i_kill : kKillAllConnsTask ∉ deleting_conn_ipport_ t
}.

(** * Reading the queue *)

Lemma item_ok_ext t t' seen i :
  (forall fd, sm_find fd (conns_ t') = sm_find fd (conns_ t)) ->
  notify_receive_fd (pink_epoll_ t') = notify_receive_fd (pink_epoll_ t) ->
  (forall p fd, fd_at (mem t) p = Some fd -> Some p = item_conn i -> fd_at (mem t') p = Some fd) ->
  (forall fd, is_open fd (mem t) = true -> is_open fd (mem t') = true) ->
  item_ok t seen i -> item_ok t' seen i.
Proof.
  intros Hc Hr Hf Ho. unfold item_ok. destruct (item_notify_type i); try done.
  1: { rewrite Hc, Hr. intros (? & ? & ? & ? & ?). split_and!; auto. }
  all: intros (p & fd & Hp & Hat & Hn & H); exists p, fd; rewrite Hc, Hr; auto.
Qed.

Lemma queue_ok_ext t t' seen q :
  (forall fd, sm_find fd (conns_ t') = sm_find fd (conns_ t)) ->
  notify_receive_fd (pink_epoll_ t') = notify_receive_fd (pink_epoll_ t) ->
  (forall p fd, fd_at (mem t) p = Some fd -> p ∈ omap item_conn q -> fd_at (mem t') p = Some fd) ->
  (forall fd, is_open fd (mem t) = true -> is_open fd (mem t') = true) ->
  queue_ok t seen q -> queue_ok t' seen q.
Proof.
  intros Hc Hr Hf Ho. revert seen. induction q as [|i q IH]; intros seen; simpl; [done|].
  intros [Hi Hq]. split.
  - apply (item_ok_ext t); try done. intros p fd Hp Hs. apply Hf; [done|]. simpl.
    rewrite <- Hs. set_solver.
  - apply IH; [|done]. intros p fd Hp Hs. apply Hf; [done|]. simpl. destruct (item_conn i); set_solver.
Qed.

(** Connections leave the table. *)
Lemma queue_ok_erase t t' seen q (gone : gset Z) :
  (forall fd, fd ∈ gone -> sm_find fd (conns_ t') = None /\ sm_find fd (conns_ t) <> None) ->
  (forall fd, fd ∉ gone -> sm_find fd (conns_ t') = sm_find fd (conns_ t)) ->
  notify_receive_fd (pink_epoll_ t') = notify_receive_fd (pink_epoll_ t) ->
  (forall p fd, fd_at (mem t) p = Some fd -> p ∈ omap item_conn q -> fd_at (mem t') p = Some fd) ->
  (forall fd, fd ∉ gone -> is_open fd (mem t) = true -> is_open fd (mem t') = true) ->
  (forall fd, fd ∈ gone -> fd ∉ seen) -> queue_ok t seen q -> queue_ok t' seen q.
Proof.
  intros Hg Hne Hr Hf Ho. revert seen. induction q as [|i q IH]; intros seen Hs; simpl; [done|].
  intros [Hi Hq].
  assert (Hseen : is_connect i = true -> item_fd i ∉ gone).
  { unfold is_connect, item_ok in *. intros Hc%bool_decide_eq_true. rewrite Hc in Hi.
    intros [_ Hin]%Hg. by destruct Hi as (_ & Hi & _). }
  split.
  - assert (Hf' : forall p fd, fd_at (mem t) p = Some fd -> Some p = item_conn i -> fd_at (mem t') p = Some fd).
    { intros p fd' Hp Hpi. apply Hf; [done|]. simpl. rewrite <- Hpi. set_solver. }
    unfold is_connect, item_ok in *. destruct (item_notify_type i); try done.
    1: { destruct Hi as (Hic & Hi & ? & ? & ?). assert (item_fd i ∉ gone) by by apply Hseen.
      rewrite Hr, Hne by done. split_and!; auto. }
    all: destruct Hi as (p & fd' & Hp & Hat & Hn' & H); exists p, fd'; rewrite Hr; split_and!; auto;
      (destruct (decide (fd' ∈ gone)) as [Hin|]; [right; split; [apply Hg|apply Hs]; done|by rewrite Hne by done]).
  - apply IH; [|destruct (is_connect i) eqn:Ei; [|done]|done].
    + intros p fd' Hp Hq'. apply Hf; [done|]. simpl. destruct (item_conn i); set_solver.
    + intros fd Hin. apply not_elem_of_cons. split; [|auto]. intros ->. by apply (Hseen eq_refl).
Qed.

(** A connection enters the table after its connect item. *)
Lemma queue_ok_insert t t' seen q fd p :
  sm_find fd (conns_ t) = None ->
  (forall fd', fd' <> fd -> sm_find fd' (conns_ t') = sm_find fd' (conns_ t)) ->
  notify_receive_fd (pink_epoll_ t') = notify_receive_fd (pink_epoll_ t) ->
  (forall p fd, fd_at (mem t) p = Some fd -> p ∈ omap item_conn q -> fd_at (mem t') p = Some fd) ->
  (forall fd', is_open fd' (mem t) = true -> is_open fd' (mem t') = true) ->
  queue_ok t (seen ++ [fd]) q -> sm_find fd (conns_ t') = Some p -> queue_ok t' seen q.
Proof.
  intros Hn Hne Hr Hf Ho. revert seen. induction q as [|i q IH]; intros seen; simpl; [done|].
  intros [Hi Hq] Hp'. split.
  - assert (Hf' : forall p fd, fd_at (mem t) p = Some fd -> Some p = item_conn i -> fd_at (mem t') p = Some fd).
    { intros p1 fd' Hp Hpi. apply Hf; [done|]. simpl. rewrite <- Hpi. set_solver. }
    unfold item_ok in *. destruct (item_notify_type i); try done.
    1: { destruct Hi as (Hic & Hi & Hns & ? & ?). rewrite Hr, Hne by set_solver. split_and!; auto. set_solver. }
    all: destruct Hi as (p1 & fd' & Hp & Hat & Hn' & H); exists p1, fd'; rewrite Hr; split_and!; auto.
    all: assert (fd' <> fd) by (intros ->; destruct H as [H|[_ H]]; [congruence|set_solver]).
    all: rewrite Hne by done; destruct H as [H|[H1 H2]]; [by left|right; split; [done|set_solver]].
  - apply IH; [|by destruct (is_connect i)|done].
    intros p1 fd' Hp Hq'. apply Hf; [done|]. simpl. destruct (item_conn i); set_solver.
Qed.

(** * Framing *)

(** What does not matter to the invariant; descriptors may be opened. *)
Lemma Inv_frame_open evs q t t' :
  conns_ t' = conns_ t -> pink_epoll_ t' = pink_epoll_ t -> in_conn_ t' = in_conn_ t ->
  next_ptr (mem t') = next_ptr (mem t) ->
  (forall p, fd_at (mem t') p = fd_at (mem t) p) ->
  (forall fd, is_open fd (mem t) = true -> is_open fd (mem t') = true) ->
  (kKillAllConnsTask ∉ deleting_conn_ipport_ t') ->
  Inv evs q t -> Inv evs q t'.
Proof.
  intros Hc He Hi Hn Hf Ho Hk [].
  assert (Hrefs : refs t' = refs t) by (unfold refs; by rewrite Hc, He, Hi).
  split; rewrite ?Hrefs, ?Hc, ?He, ?Hn; auto.
  - intros p. rewrite Hf. auto.
  - intros fd p. rewrite Hf. auto.
  - intros fd p H. apply Ho. eauto.
  - apply (queue_ok_ext t); [by rewrite Hc|by rewrite He| |done|done].
    intros p fd. by rewrite Hf.
  - intros p Hp. destruct (i_next0 p Hp) as [H1 H2]. split; [done|].
    specialize (Hf p). unfold fd_at in Hf. rewrite H2 in Hf. by destruct (heap (mem t') !! p).
Qed.

Lemma Inv_frame evs q t t' :
  conns_ t' = conns_ t -> pink_epoll_ t' = pink_epoll_ t -> in_conn_ t' = in_conn_ t ->
  next_ptr (mem t') = next_ptr (mem t) ->
  (forall p, fd_at (mem t') p = fd_at (mem t) p) ->
  (forall fd, is_open fd (mem t') = is_open fd (mem t)) ->
  (kKillAllConnsTask ∉ deleting_conn_ipport_ t') ->
  Inv evs q t -> Inv evs q t'.
Proof. intros ? ? ? ? ? Ho. apply Inv_frame_open; try done. intros fd. by rewrite Ho. Qed.

Lemma fd_at_insert w p f c :
  heap w !! p = Some c -> fd_ (conn_base (f c)) = fd_ (conn_base c) ->
  forall p', fd_at (set_heap (<[p := f c]> (heap w)) w) p' = fd_at w p'.
Proof.
  intros Hc Hf p'. unfold fd_at. simpl. destruct (decide (p' = p)) as [->|].
  - rewrite lookup_insert_eq, Hc. simpl. by rewrite Hf.
  - by rewrite lookup_insert_ne.
Qed.

Lemma is_open_put_sock fd s (w : world C) fd' : is_open fd' (put_sock fd s w) = is_open fd' w.
Proof.
  unfold is_open, put_sock. destruct (fds w !! fd) eqn:E; [|done]. simpl.
  apply bool_decide_ext. rewrite lookup_insert_is_Some. split; [intros [<-|[]]; eauto|].
  destruct (decide (fd = fd')); auto.
Qed.

(** A change of an object that leaves its identity alone. *)
Lemma on_conn_inv evs q f p t :
  (forall c, conn_id (conn_base (f c)) = conn_id (conn_base c)) ->
  is_Some (fd_at (mem t) p) -> Inv evs q t ->
  exists t', on_conn f p t = Ret t' /\ Inv evs q t' /\
    (forall p', fd_at (mem t') p' = fd_at (mem t) p') /\ conns_ t' = conns_ t /\
    pink_epoll_ t' = pink_epoll_ t /\ in_conn_ t' = in_conn_ t.
Proof.
  intros Hf [fd Hp] HI. destruct (fd_at_deref _ _ _ Hp) as (c & Hc & Hd & _).
  unfold on_conn. rewrite Hd. simpl. eexists. split; [done|].
  assert (Hat : forall p', fd_at (set_heap (<[p := f c]> (heap (mem t))) (mem t)) p' = fd_at (mem t) p').
  { apply fd_at_insert; [done|]. specialize (Hf c). unfold conn_id in Hf. congruence. }
  split_and!; try done. apply (Inv_frame _ _ t); try done. by apply (i_kill _ _ _ HI).
Qed.

Lemma modify_conn_inv evs q f p t :
  (forall b, conn_id (f b) = conn_id b) -> is_Some (fd_at (mem t) p) -> Inv evs q t ->
  exists t', modify_conn p f t = Ret t' /\ Inv evs q t' /\
    (forall p', fd_at (mem t') p' = fd_at (mem t) p') /\ conns_ t' = conns_ t /\
    pink_epoll_ t' = pink_epoll_ t /\ in_conn_ t' = in_conn_ t.
Proof. intros Hf. apply on_conn_inv. intros c. rewrite base_with_base. apply Hf. Qed.

(** A virtual call. *)
Lemma conn_call_inv {R} evs q (f : C -> sock -> outcome (R * C * sock)) p t :
  keeps_id (fun c => conn_id (conn_base c)) f -> is_Some (fd_at (mem t) p) -> Inv evs q t ->
  safe (conn_call f p t) (fun '(_, t') => Inv evs q t' /\
    (forall p', fd_at (mem t') p' = fd_at (mem t) p') /\ conns_ t' = conns_ t /\
    pink_epoll_ t' = pink_epoll_ t /\ in_conn_ t' = in_conn_ t).
Proof.
  intros Hf [fd Hp] HI. destruct (fd_at_deref _ _ _ Hp) as (c & Hc & Hd & _).
  unfold conn_call, call. rewrite Hd. simpl.
  specialize (Hf c (sock_of (fd_ (conn_base c)) (mem t))). destruct (f c _) as [[[r c'] s]|e]; [|done].
  simpl. set (w := put_sock _ _ _).
  assert (Hat : forall p', fd_at w p' = fd_at (mem t) p').
  { intros p'. transitivity (fd_at (set_heap (<[p := c']> (heap (mem t))) (mem t)) p').
    - unfold fd_at, w, put_sock. by destruct (fds _ !! _).
    - apply (fd_at_insert _ _ (fun _ => c') _ Hc). unfold conn_id in Hf. congruence. }
  split_and!; try done. apply (Inv_frame _ _ t); try done.
  - unfold w, put_sock. by destruct (fds _ !! _).
  - intros fd'. simpl. unfold w. by rewrite is_open_put_sock.
  - apply (i_kill _ _ _ HI).
Qed.

(** * References *)

Lemma release_lookup l p (w : world C) p' : p' ∈ l -> fd_at (release l p w) p' = fd_at w p'.
Proof.
  intros Hp. unfold release. case_bool_decide as Hd; [done|]. unfold fd_at. simpl.
  rewrite lookup_delete_ne; [done|]. intros ->. apply Hd. set_solver.
Qed.

Lemma release_fds l p (w : world C) : fds (release l p w) = fds w.
Proof. unfold release. by case_bool_decide. Qed.

Lemma release_next l p (w : world C) : next_ptr (release l p w) = next_ptr w.
Proof. unfold release. by case_bool_decide. Qed.

Lemma release_heap l p (w : world C) p' : heap w !! p' = None -> heap (release l p w) !! p' = None.
Proof.
  intros H. unfold release. case_bool_decide; [done|]. simpl. by apply lookup_delete_None; right.
Qed.

Lemma drop_ref_fields p t :
  conns_ (drop_ref p t) = conns_ t /\ pink_epoll_ (drop_ref p t) = pink_epoll_ t /\
  in_conn_ (drop_ref p t) = in_conn_ t /\ deleting_conn_ipport_ (drop_ref p t) = deleting_conn_ipport_ t /\
  (forall fd, is_open fd (mem (drop_ref p t)) = is_open fd (mem t)) /\
  (forall p', p' ∈ refs t -> fd_at (mem (drop_ref p t)) p' = fd_at (mem t) p').
Proof.
  split_and!; try done.
  - intros fd. unfold is_open. simpl. by rewrite release_fds.
  - intros p' Hp'. simpl. by apply release_lookup.
Qed.

(** [refs] lists the table, the local and the pipe. *)
Lemma refs_conns t fd p : sm_find fd (conns_ t) = Some p -> p ∈ refs t.
Proof.
  intros H%sm_find_elem_1. unfold refs. apply elem_of_app. left. apply list_elem_of_fmap. by exists (fd, p).
Qed.

Lemma drop_ref_inv evs q p t :
  (forall i, i ∈ q -> i ∈ notify_queue (pink_epoll_ t)) -> Inv evs q t -> Inv evs q (drop_ref p t).
Proof.
  intros Hsub HI. destruct (drop_ref_fields p t) as (Hc & He & Hi & Hd & Ho & Hf). destruct HI.
  assert (Hrefs : refs (drop_ref p t) = refs t) by (unfold refs; by rewrite Hc, He, Hi).
  split; rewrite ?Hrefs, ?Hc, ?He, ?Hd; auto.
  - intros p' Hp. rewrite Hf by done. auto.
  - intros fd p' Hp. rewrite Hf by (by eapply refs_conns). auto.
  - intros fd p' Hp. rewrite Ho. eauto.
  - apply (queue_ok_ext t); try done; [|by intros fd; rewrite Ho].
    intros p' fd Hp Hq. rewrite Hf; [done|]. unfold refs. rewrite !elem_of_app. right. right.
    apply list_elem_of_omap in Hq as (i & Hi' & Hic). apply list_elem_of_omap. eauto.
  - intros p' Hp. simpl in *. rewrite release_next in Hp. destruct (i_next0 p' Hp) as [H1 H2].
    split; [done|]. by apply release_heap.
Qed.
End facts.

(** * Moves *)

Section moves.
Context {C : Type} {Ops : ConnOps C} {CL : ConnLaws C}.
Implicit Types t : server C.

Lemma Inv_tail ev evs q t : Inv (ev :: evs) q t -> Inv evs q t.
Proof.
  intros []. split; auto.
  - by apply NoDup_cons in i_nodup0 as [_ ?].
  - intros fd m p Hin. eapply i_batch0. by right.
  - intros fd m f Hin. eapply i_batch_pipe0. by right.
Qed.

(** The local is assigned: no reference appears. *)
Lemma Inv_in_conn evs q o t :
  (forall p, o = Some p -> p ∈ refs t) -> Inv evs q t -> Inv evs q (put_in_conn o t).
Proof.
  intros Ho [].
  assert (Hr : forall p, p ∈ refs (put_in_conn o t) -> p ∈ refs t).
  { intros p. unfold refs. simpl. rewrite !elem_of_app.
    destruct o as [p'|]; simpl; [|set_solver]. specialize (Ho p' eq_refl).
    unfold refs in Ho. rewrite !elem_of_app in Ho. set_solver. }
  split; auto; [by apply (queue_ok_ext t)|].
  intros p Hp. destruct (i_next0 p Hp) as [? ?]. split; [|done]. intros Hp'. by apply Hr in Hp'.
Qed.

Lemma assign_none_inv evs q t :
  (forall i, i ∈ q -> i ∈ notify_queue (pink_epoll_ t)) -> Inv evs q t ->
  let t' := assign_in_conn None t in
  Inv evs q t' /\ conns_ t' = conns_ t /\ pink_epoll_ t' = pink_epoll_ t /\ in_conn_ t' = None /\
  deleting_conn_ipport_ t' = deleting_conn_ipport_ t.
Proof.
  intros Hq HI. unfold assign_in_conn.
  assert (Inv evs q (put_in_conn None t)) by by apply Inv_in_conn.
  destruct (in_conn_ t) as [p|]; [|by split_and!].
  destruct (drop_ref_fields p (put_in_conn None t)) as (H1 & H2 & H3 & H4 & _).
  split_and!; try done. by apply drop_ref_inv.
Qed.

(** Connections leave the table, the poller and the process. *)
Lemma leave_inv evs q (gone : gset Z) t t' :
  (forall fd, fd ∈ gone -> sm_find fd (conns_ t) <> None /\ (fd ∉ map fst evs)) ->
  (forall i, i ∈ q -> i ∈ notify_queue (pink_epoll_ t)) ->
  sm_sorted (conns_ t') ->
  (forall fd, sm_find fd (conns_ t') = if bool_decide (fd ∈ gone) then None else sm_find fd (conns_ t)) ->
  (forall fd, interest (pink_epoll_ t') !! fd =
     if bool_decide (fd ∈ gone) then None else interest (pink_epoll_ t) !! fd) ->
  notify_queue (pink_epoll_ t') = notify_queue (pink_epoll_ t) ->
  notify_receive_fd (pink_epoll_ t') = notify_receive_fd (pink_epoll_ t) ->
  (forall p', in_conn_ t' = Some p' -> in_conn_ t = Some p') ->
  next_ptr (mem t') = next_ptr (mem t) -> (kKillAllConnsTask ∉ deleting_conn_ipport_ t') ->
  (forall p', p' ∈ refs t' -> fd_at (mem t') p' = fd_at (mem t) p') ->
  (forall p', heap (mem t) !! p' = None -> heap (mem t') !! p' = None) ->
  (forall fd, fd ∉ gone -> is_open fd (mem t) = true -> is_open fd (mem t') = true) ->
  Inv evs q t -> Inv evs q t'.
Proof.
  intros Hg Hsub Hs Hc He Heq Her Hi Hn Hk Hat Hheap Ho [].
  assert (Hcase : forall fd p, sm_find fd (conns_ t') = Some p -> (fd ∉ gone) /\ sm_find fd (conns_ t) = Some p).
  { intros fd p. rewrite Hc. by case_bool_decide. }
  assert (Hr : forall p, p ∈ refs t' -> p ∈ refs t).
  { intros p. unfold refs. rewrite Heq. rewrite !elem_of_app. intros [H|[H|H]].
    - left. apply list_elem_of_fmap in H as ([fd v] & -> & Hx). apply (sm_find_elem _ _ _ Hs) in Hx.
      apply Hcase in Hx as [_ Hx%sm_find_elem_1]. apply list_elem_of_fmap. by exists (fd, v).
    - right. left. destruct (in_conn_ t') as [x|] eqn:E; simpl in H; [|set_solver].
      rewrite (Hi x eq_refl). by simpl.
    - by right; right. }
  assert (Hq : forall p, p ∈ omap item_conn q -> p ∈ refs t').
  { intros p (i & Hi' & Hic)%list_elem_of_omap. unfold refs. rewrite !elem_of_app, Heq. right. right.
    apply list_elem_of_omap. eauto. }
  split; auto; rewrite ?Her; auto.
  - intros p' Hp'. rewrite Hat by done. auto.
  - intros fd p H. rewrite Hat by (by eapply refs_conns). apply Hcase in H as [_ H]. auto.
  - intros fd p [Hne H]%Hcase. eauto.
  - intros fd m p. rewrite He, Hc. case_bool_decide; [done|]. eauto.
  - intros fd m f. rewrite He. case_bool_decide; [done|]. eauto.
  - rewrite Hc. by case_bool_decide.
  - apply (queue_ok_erase t t' [] q gone); try done.
    + intros fd Hin. rewrite Hc, bool_decide_eq_true_2 by done. split; [done|]. by apply Hg.
    + intros fd Hin. by rewrite Hc, bool_decide_eq_false_2.
    + intros p fd Hp Hin. by rewrite Hat by auto.
    + set_solver.
  - intros fd m p Hin. rewrite Hc, bool_decide_eq_false_2; [eauto|]. intros [_ H]%Hg. apply H.
    apply list_elem_of_fmap. eexists (_, _). by split.
  - intros p Hp. rewrite Hn in Hp. destruct (i_next0 p Hp) as [H1 H2]. auto.
Qed.

(** The same for one connection. *)
Lemma leave_one_inv evs q fd p t t' :
  sm_find fd (conns_ t) = Some p -> (fd ∉ map fst evs) ->
  (forall i, i ∈ q -> i ∈ notify_queue (pink_epoll_ t)) ->
  conns_ t' = sm_erase fd (conns_ t) ->
  pink_epoll_ t' = set_interest (delete fd (interest (pink_epoll_ t))) (pink_epoll_ t) ->
  (forall p', in_conn_ t' = Some p' -> in_conn_ t = Some p') ->
  next_ptr (mem t') = next_ptr (mem t) -> (kKillAllConnsTask ∉ deleting_conn_ipport_ t') ->
  (forall p', p' ∈ refs t' -> fd_at (mem t') p' = fd_at (mem t) p') ->
  (forall p', heap (mem t) !! p' = None -> heap (mem t') !! p' = None) ->
  (forall fd', fd' <> fd -> is_open fd' (mem t) = true -> is_open fd' (mem t') = true) ->
  Inv evs q t -> Inv evs q t'.
Proof.
  intros Hp Hevs Hsub Hc He Hi Hn Hk Hat Hheap Ho HI. pose proof (i_sorted _ _ _ HI) as Hs.
  apply (leave_inv evs q {[fd]} t); try done; rewrite ?Hc, ?He; try done.
  - intros fd' ->%elem_of_singleton. by rewrite Hp.
  - by apply sm_erase_sorted.
  - intros fd'. case_bool_decide as Hd; rewrite elem_of_singleton in Hd.
    + subst. by apply sm_find_erase_eq.
    + by apply sm_find_erase_ne.
  - intros fd'. simpl. case_bool_decide as Hd; rewrite elem_of_singleton in Hd.
    + subst. apply lookup_delete_eq.
    + by apply lookup_delete_ne.
  - intros fd' Hd. rewrite elem_of_singleton in Hd. auto.
Qed.

(** [erase_conn] of an entry that is there. *)
Lemma erase_conn_fields fd p t :
  sm_find fd (conns_ t) = Some p ->
  let t' := erase_conn fd t in
  conns_ t' = sm_erase fd (conns_ t) /\ pink_epoll_ t' = pink_epoll_ t /\ in_conn_ t' = in_conn_ t /\
  deleting_conn_ipport_ t' = deleting_conn_ipport_ t /\ next_ptr (mem t') = next_ptr (mem t) /\
  fds (mem t') = fds (mem t) /\
  (forall p', p' ∈ refs t' -> fd_at (mem t') p' = fd_at (mem t) p') /\
  (forall p', heap (mem t) !! p' = None -> heap (mem t') !! p' = None).
Proof.
  intros Hp. unfold erase_conn. rewrite Hp. split_and!; try done.
  - simpl. by rewrite release_next.
  - simpl. by rewrite release_fds.
  - intros p' Hp'. simpl. by apply release_lookup.
  - intros p' Hp'. simpl. by apply release_heap.
Qed.

(** [epoll_ctl_del], whatever the table held. *)
Lemma epoll_ctl_del_eq fd e :
  (epoll_ctl_del fd e).2 = set_interest (delete fd (interest e)) e.
Proof.
  unfold epoll_ctl_del. destruct (interest e !! fd) eqn:E; [done|]. simpl.
  rewrite delete_id by done. by destruct e.
Qed.

Lemma epoll_ctl_del_twice fd e :
  (epoll_ctl_del fd (epoll_ctl_del fd e).2).2 = (epoll_ctl_del fd e).2.
Proof.
  rewrite !epoll_ctl_del_eq. unfold set_interest. simpl. f_equal. apply delete_delete_eq.
Qed.

(** A change of the mask of a connection in the table. *)
Lemma modify_watch_inv evs q fd p m t :
  sm_find fd (conns_ t) = Some p -> Inv evs q t ->
  Inv evs q (put_epoll (epoll_ctl_mod fd m (DPtr p) (pink_epoll_ t)).2 t).
Proof.
  intros Hp [].
  assert (Hne : fd <> notify_receive_fd (pink_epoll_ t)) by congruence.
  unfold epoll_ctl_mod. destruct (interest (pink_epoll_ t) !! fd) eqn:E; simpl; [|by destruct t].
  split; auto; simpl.
  - intros fd' m' p' [[<- [= <- <-]]|[_ H]]%lookup_insert_Some; [done|eauto].
  - intros fd' m' f [[<- [= <-]]|[_ H]]%lookup_insert_Some. eauto.
  - by apply (queue_ok_ext t).
Qed.

(** A new entry of the poller for a connection in the table. *)
Lemma add_watch_inv evs q fd p m opened t :
  sm_find fd (conns_ t) = Some p -> Inv evs q t ->
  Inv evs q (put_epoll (epoll_ctl_add opened fd m (DPtr p) (pink_epoll_ t)).2 t).
Proof.
  intros Hp [].
  assert (Hne : fd <> notify_receive_fd (pink_epoll_ t)) by congruence.
  unfold epoll_ctl_add. destruct opened; simpl; [|by destruct t].
  destruct (interest (pink_epoll_ t) !! fd) eqn:E; simpl; [by destruct t|].
  split; auto; simpl.
  - intros fd' m' p' [[<- [= <- <-]]|[_ H]]%lookup_insert_Some; [done|eauto].
  - intros fd' m' f [[<- [= <-]]|[_ H]]%lookup_insert_Some. eauto.
  - by apply (queue_ok_ext t).
Qed.
End moves.
