(* ===== verification/CronFacts.v ===== *)
(** The cron task of the connection table: which connections leave it, what is
    closed and what the user's handle is told. *)
From S2P Require Import Pink Prelude Sys StdMap PinkConn PinkEpoll.
From S2P Require Import ServerConns ServerFacts.

Section cron.
Context {C : Type} {Ops : ConnOps C} {CL : ConnLaws C}.
Implicit Types t : server C.
Implicit Types w : world C.

(** * What should happen *)

(** Who an object is. *)
Definition id_at w (p : ptr) : option (Z * bytes) := (fun c => conn_id (conn_base c)) <$> heap w !! p.
Definition id_of w (p : ptr) : Z * bytes := default (0, []) (id_at w p).

Lemma fd_at_id w p : fd_at w p = fst <$> id_at w p.
Proof. unfold fd_at, id_at. by destruct (heap w !! p). Qed.

(** The entries of the table in order: the first of each address to kill is
    killed; of the others those silent for longer than [ka] seconds expire; the
    rest is kept. The result is what is kept, killed and expired, and the
    addresses not found. *)
Fixpoint cron_plan (now ka : Z) (del : gset bytes) (w : world C) (l : list (Z * ptr))
    : list (Z * ptr) * list ptr * list ptr * gset bytes :=
  match l with
  | [] => ([], [], [], del)
  | (fd, p) :: l =>
      let ip := default [] (snd <$> id_at w p) in
      let last := default 0 ((fun c => last_interaction_ (conn_base c)) <$> heap w !! p) in
      if bool_decide (ip ∈ del) then
        let '(k, c, e, d) := cron_plan now ka (del ∖ {[ip]}) w l in (k, p :: c, e, d)
      else
        let '(k, c, e, d) := cron_plan now ka del w l in
        if (0 <? ka) && (ka <? now - last) then (k, c, p :: e, d) else ((fd, p) :: k, c, e, d)
  end.

(** The calls of the handle. *)
Definition closed_event w (p : ptr) : handle_event := let '(fd, ip) := id_of w p in FdClosed fd ip.
Definition timed_out_event w (p : ptr) : handle_event := let '(fd, ip) := id_of w p in FdTimedOut fd ip.
Definition expire_events w (l : list ptr) : list handle_event :=
  concat (map (fun p => [closed_event w p; timed_out_event w p]) l).

(** The descriptors closed. *)
Definition fds_of w (l : list ptr) : gset Z := list_to_set (map (fun p => fst (id_of w p)) l).

(** * The plan *)

Lemma plan_elem now ka del w l k c e d :
  cron_plan now ka del w l = (k, c, e, d) ->
  (forall fd p, (fd, p) ∈ k -> (fd, p) ∈ l) /\
  (forall p, p ∈ c ++ e -> exists fd, (fd, p) ∈ l) /\
  (forall fd p, (fd, p) ∈ l -> (fd, p) ∈ k \/ p ∈ c ++ e) /\
  (sm_sorted l -> sm_sorted k) /\
  (NoDup (map snd l) -> forall fd p, (fd, p) ∈ k -> p ∉ c ++ e).
Proof.
  revert del k c e d. induction l as [|[fd p] l IH]; intros del k c e d; simpl.
  { intros [= <- <- <- <-]. split_and!; set_solver. }
  intros Hplan.
  assert (Hk : exists k' c' e' d' del', cron_plan now ka del' w l = (k', c', e', d') /\
    ((k = k' /\ (c = p :: c' /\ e = e' \/ c = c' /\ e = p :: e')) \/
     (k = (fd, p) :: k' /\ c = c' /\ e = e'))).
  { case_bool_decide.
    - destruct (cron_plan now ka (del ∖ _) w l) as [[[k' c'] e'] d'] eqn:E. simplify_eq.
      eexists _, _, _, _, _. split; [exact E|]. auto.
    - destruct (cron_plan now ka del w l) as [[[k' c'] e'] d'] eqn:E.
      exists k', c', e', d', del. split; [done|]. case_match; simplify_eq; auto. }
  destruct Hk as (k' & c' & e' & d' & del' & E & H). destruct (IH _ _ _ _ _ E) as (I1 & I2 & I3 & I4 & I5).
  assert (Hex : forall q, q ∈ c ++ e -> q = p \/ q ∈ c' ++ e').
  { destruct H as [[-> [[-> ->]|[-> ->]]]|(-> & -> & ->)]; set_solver. }
  assert (Hin : forall q, q ∈ c' ++ e' -> q ∈ c ++ e).
  { destruct H as [[-> [[-> ->]|[-> ->]]]|(-> & -> & ->)]; set_solver. }
  split_and!.
  - intros fd' p' Hk. destruct H as [[-> _]|(-> & _)]; set_solver.
  - intros p' Hc. destruct (Hex p' Hc) as [->|Hc']; [exists fd; set_solver|].
    destruct (I2 p' Hc') as [fd' ?]. exists fd'. set_solver.
  - intros fd' p' [[= -> ->]|Hl]%elem_of_cons.
    + destruct H as [[-> [[-> ->]|[-> ->]]]|(-> & -> & ->)]; set_solver.
    + destruct (I3 _ _ Hl) as [?|?]; [left|right; auto]. destruct H as [[-> _]|(-> & _)]; set_solver.
  - intros [Hs Hlt]%sm_sorted_cons. destruct H as [[-> _]|(-> & _)]; [auto|].
    apply sm_sorted_cons. split; [auto|]. intros [fd' p'] Hq. apply Hlt. auto.
  - intros [Hn Hnd]%NoDup_cons fd' p' Hk Hc. specialize (I5 Hnd).
    assert (Hl : forall q fd, (fd, q) ∈ l -> q <> p).
    { intros q fd0 Hq ->. apply Hn. apply list_elem_of_fmap. by exists (fd0, p). }
    destruct H as [[-> H]|(-> & -> & ->)].
    + destruct (Hex p' Hc) as [->|Hc']; [by eapply Hl; eauto|]. by eapply I5.
    + apply elem_of_cons in Hk as [[= -> ->]|Hk]; [|by eapply I5].
      destruct (I2 p Hc) as [fd0 Hq]. by eapply Hl.
Qed.

(** * Closing *)

Lemma CloseFd_spec p t fd ip :
  id_at (mem t) p = Some (fd, ip) ->
  CloseFd p t = Ret (put_mem (log (FdClosed fd ip) (close_fd fd (mem t)))
                       (put_epoll (set_interest (delete fd (interest (pink_epoll_ t))) (pink_epoll_ t)) t)).
Proof.
  unfold id_at, CloseFd, deref, conn_id. destruct (heap (mem t) !! p) as [c|]; [|done]. simpl.
  intros [= <- <-]. by rewrite epoll_ctl_del_eq.
Qed.

(** What a sequence of [CloseFd] does. *)
Record closed (gone : gset Z) (evs : list handle_event) t t' : Prop := {
  cl_conns : conns_ t' = conns_ t;
  cl_deleting : deleting_conn_ipport_ t' = deleting_conn_ipport_ t;
  cl_in_conn : in_conn_ t' = in_conn_ t;
  cl_interest fd : interest (pink_epoll_ t') !! fd =
    if bool_decide (fd ∈ gone) then None else interest (pink_epoll_ t) !! fd;
  cl_queue : notify_queue (pink_epoll_ t') = notify_queue (pink_epoll_ t);
  cl_rfd : notify_receive_fd (pink_epoll_ t') = notify_receive_fd (pink_epoll_ t);
  cl_heap : heap (mem t') = heap (mem t);
  cl_next : next_ptr (mem t') = next_ptr (mem t);
  cl_held : held (mem t') = held (mem t);
  cl_fds fd : fds (mem t') !! fd = if bool_decide (fd ∈ gone) then None else fds (mem t) !! fd;
  cl_log : handle_log (mem t') = handle_log (mem t) ++ evs
}.

Lemma closed_refl t : closed ∅ [] t t.
Proof. split; try done. by rewrite app_nil_r. Qed.

Lemma closed_trans g1 g2 l1 l2 t1 t2 t3 :
  closed g1 l1 t1 t2 -> closed g2 l2 t2 t3 -> closed (g1 ∪ g2) (l1 ++ l2) t1 t3.
Proof.
  intros [] []. split; try congruence.
  - intros fd. rewrite cl_interest1, cl_interest0. repeat case_bool_decide; set_solver.
  - intros fd. rewrite cl_fds1, cl_fds0. repeat case_bool_decide; set_solver.
  - rewrite cl_log1, cl_log0. by rewrite app_assoc.
Qed.

Lemma closed_one fd l t :
  closed {[fd]} l t (put_mem (mkWorld (heap (mem t)) (next_ptr (mem t)) (held (mem t)) (delete fd (fds (mem t)))
    (handle_log (mem t) ++ l)) (put_epoll (set_interest (delete fd (interest (pink_epoll_ t))) (pink_epoll_ t)) t)).
Proof.
  split; try done; simpl; intros fd'; case_bool_decide as Hd; rewrite elem_of_singleton in Hd; subst;
    (apply lookup_delete_eq || by apply lookup_delete_ne).
Qed.

Lemma CloseFds_spec l t :
  (forall p, p ∈ l -> is_Some (id_at (mem t) p)) ->
  exists t', CloseFds l t = Ret t' /\ closed (fds_of (mem t) l) (map (closed_event (mem t)) l) t t'.
Proof.
  revert t. induction l as [|p l IH]; intros t Hl; simpl; [exists t; split; [done|apply closed_refl]|].
  destruct (Hl p) as [[fd ip] Hp]; [by left|]. rewrite (CloseFd_spec _ _ _ _ Hp). cbn [obind].
  set (t1 := put_mem _ _). destruct (IH t1) as (t' & -> & Hc); [intros q Hq; apply Hl; by right|].
  exists t'. split; [done|].
  assert (Hd : id_of (mem t) p = (fd, ip)) by (unfold id_of; by rewrite Hp).
  assert (He : closed_event (mem t) p = FdClosed fd ip) by (unfold closed_event; by rewrite Hd).
  unfold fds_of. simpl. rewrite He, Hd. apply (closed_trans _ _ [_] _ t t1 t'); [apply closed_one|exact Hc].
Qed.

Lemma TimeoutFds_spec l t :
  (forall p, p ∈ l -> is_Some (id_at (mem t) p)) ->
  exists t', TimeoutFds l t = Ret t' /\ closed (fds_of (mem t) l) (expire_events (mem t) l) t t'.
Proof.
  revert t. induction l as [|p l IH]; intros t Hl; simpl; [exists t; split; [done|apply closed_refl]|].
  destruct (Hl p) as [[fd ip] Hp]; [by left|]. rewrite (CloseFd_spec _ _ _ _ Hp). cbn [obind].
  pose proof Hp as Hp'. unfold id_at in Hp'. destruct (heap (mem t) !! p) as [c|] eqn:Ec; [|done].
  injection Hp' as Hfd Hip. unfold deref. simpl. rewrite Ec. simpl. rewrite Hfd, Hip.
  set (t1 := put_mem _ (put_mem _ _)). destruct (IH t1) as (t' & -> & Hc); [intros q Hq; apply Hl; by right|].
  exists t'. split; [done|].
  assert (Hd : id_of (mem t) p = (fd, ip)) by (unfold id_of; by rewrite Hp).
  unfold fds_of, expire_events. simpl. unfold closed_event at 1, timed_out_event at 1. rewrite Hd. simpl.
  apply (closed_trans _ _ [_; _] _ t t1 t'); [|exact Hc].
  pose proof (closed_one fd [FdClosed fd ip; FdTimedOut fd ip] t) as H.
  unfold t1, put_mem, log, close_fd, set_fds. simpl. rewrite <- app_assoc. exact H.
Qed.

(** The end of the vectors of references. *)
Lemma drop_refs_spec l t :
  let t' := drop_refs l t in
  conns_ t' = conns_ t /\ deleting_conn_ipport_ t' = deleting_conn_ipport_ t /\ in_conn_ t' = in_conn_ t /\
  pink_epoll_ t' = pink_epoll_ t /\ fds (mem t') = fds (mem t) /\ next_ptr (mem t') = next_ptr (mem t) /\
  handle_log (mem t') = handle_log (mem t) /\ refs t' = refs t /\
  (forall p, p ∈ refs t -> heap (mem t') !! p = heap (mem t) !! p) /\
  (forall p, heap (mem t) !! p = None -> heap (mem t') !! p = None).
Proof.
  unfold drop_refs. revert t. induction l as [|p l IH]; intros t; simpl; [by split_and!|].
  destruct (IH (drop_ref p t)) as (H1 & H2 & H3 & H4 & H5 & H6 & H7 & H8 & H9 & H10).
  assert (Hr : refs (drop_ref p t) = refs t) by done.
  rewrite H1, H2, H3, H4, H5, H6, H7, H8. split_and!; try done.
  - simpl. by rewrite release_fds.
  - simpl. by rewrite release_next.
  - simpl. unfold release. by case_bool_decide.
  - intros q Hq. rewrite H9 by by rewrite Hr. simpl. unfold release. case_bool_decide as Hd; [done|].
    simpl. apply lookup_delete_ne. intros ->. apply Hd. set_solver.
  - intros q Hq. apply H10. simpl. by apply release_heap.
Qed.

(** * The scan *)

Section scan.
(** How a scan may stop: [TryResizeBuffer] may. *)
Context (E : fault -> Prop) (mark : bool) (now : Z).
Hypothesis resize_ends : forall c : C, ends E (conn_TryResizeBuffer now c)
  (fun c' => conn_id (conn_base c') = conn_id (conn_base c)).

(** What the scan leaves alone. *)
Record scanned t t' : Prop := {
  sc_epoll : pink_epoll_ t' = pink_epoll_ t;
  sc_in_conn : in_conn_ t' = in_conn_ t;
  sc_keepalive : keepalive_timeout_ t' = keepalive_timeout_ t;
  sc_next : next_ptr (mem t') = next_ptr (mem t);
  sc_held : held (mem t') = held (mem t);
  sc_fds : fds (mem t') = fds (mem t);
  sc_log : handle_log (mem t') = handle_log (mem t);
  sc_ids p : id_at (mem t') p = id_at (mem t) p
}.

Lemma scanned_refl t : scanned t t.
Proof. by split. Qed.

Lemma scanned_trans t1 t2 t3 : scanned t1 t2 -> scanned t2 t3 -> scanned t1 t3.
Proof. intros [] []. split; try congruence. Qed.

Lemma id_at_insert w p c c' :
  heap w !! p = Some c -> conn_id (conn_base c') = conn_id (conn_base c) ->
  forall q, id_at (set_heap (<[p := c']> (heap w)) w) q = id_at w q.
Proof.
  intros Hc Hid q. unfold id_at. simpl. destruct (decide (q = p)) as [->|].
  - rewrite lookup_insert_eq, Hc. simpl. by rewrite Hid.
  - by rewrite lookup_insert_ne.
Qed.

(** The plan only looks at the entries still to come. *)
Lemma cron_plan_ext ka del w w' l :
  (forall fd p, (fd, p) ∈ l -> heap w' !! p = heap w !! p) ->
  cron_plan now ka del w' l = cron_plan now ka del w l.
Proof.
  revert del. induction l as [|[fd p] l IH]; intros del Hl; simpl; [done|].
  unfold id_at. rewrite (Hl fd p) by by left.
  by rewrite !IH by (intros fd' p' H; apply (Hl fd'); by right).
Qed.

(** One entry has been looked at: its object may have changed. *)
Lemma scan_step ka c c' p l t t1 :
  heap (mem t) !! p = Some c -> conn_id (conn_base c') = conn_id (conn_base c) ->
  mem t1 = set_heap (<[p := c']> (heap (mem t))) (mem t) ->
  pink_epoll_ t1 = pink_epoll_ t -> in_conn_ t1 = in_conn_ t -> keepalive_timeout_ t1 = keepalive_timeout_ t ->
  (forall fd p, (fd, p) ∈ l -> is_Some (heap (mem t) !! p)) -> (p ∉ map snd l) ->
  scanned t t1 /\ (forall del, cron_plan now ka del (mem t1) l = cron_plan now ka del (mem t) l) /\
  (forall fd p, (fd, p) ∈ l -> is_Some (heap (mem t1) !! p)).
Proof.
  intros Hp Hid Hm He Hi Hk Hlive Hn. split_and!.
  - split; try done; rewrite Hm; try done. by apply (id_at_insert _ _ c).
  - intros del. apply cron_plan_ext. intros fd' p' Hin. rewrite Hm. simpl. rewrite lookup_insert_ne; [done|].
    intros ->. apply Hn. apply list_elem_of_fmap. by exists (fd', p').
  - intros fd' p' Hin. rewrite Hm. simpl. rewrite lookup_insert_is_Some'. right. by apply (Hlive fd').
Qed.

Lemma sm_erase_middle (keep : stdmap Z ptr) fd p l :
  sm_sorted (keep ++ (fd, p) :: l) -> sm_erase fd (keep ++ (fd, p) :: l) = keep ++ l.
Proof.
  induction keep as [|[fd' p'] keep IH]; simpl; intros [Hs Hlt]%sm_sorted_cons.
  - unfold less, int_less. by rewrite Z.ltb_irrefl.
  - assert (Hl : less fd' fd = true) by (apply (Hlt (fd, p)); set_solver).
    rewrite Hl, (less_asym _ _ Hl). by rewrite IH.
Qed.

Lemma sm_sorted_middle (keep : stdmap Z ptr) x l : sm_sorted (keep ++ x :: l) -> sm_sorted (keep ++ l).
Proof.
  induction keep as [|y keep IH]; simpl; intros [Hs Hlt]%sm_sorted_cons; [done|].
  apply sm_sorted_cons. split; [auto|]. intros q Hq. apply Hlt. set_solver.
Qed.

Lemma cron_scan_spec ka l keep cl tt t :
  conns_ t = keep ++ l -> sm_sorted (keep ++ l) -> NoDup (map snd l) -> keepalive_timeout_ t = ka ->
  (forall fd p, (fd, p) ∈ l -> is_Some (heap (mem t) !! p)) ->
  ends E (cron_scan mark now l cl tt t) (fun '(cl', tt', t') =>
    let '(k, c, e, d) := cron_plan now ka (deleting_conn_ipport_ t) (mem t) l in
    cl' = cl ++ c /\ tt' = tt ++ e /\ conns_ t' = keep ++ k /\ deleting_conn_ipport_ t' = d /\ scanned t t').
Proof.
  revert keep cl tt t. induction l as [|[fd p] l IH]; intros keep cl tt t Hc Hs Hnd Hka Hlive.
  { simpl. rewrite !app_nil_r. rewrite app_nil_r in Hc. by split_and!. }
  assert (Hmid : sm_erase fd (conns_ t) = keep ++ l) by (rewrite Hc; by apply (sm_erase_middle keep fd p)).
  pose proof (sm_sorted_middle _ _ _ Hs) as Hs'. simpl in Hnd. apply NoDup_cons in Hnd as [Hn Hnd].
  destruct (Hlive fd p) as [c Hp]; [by left|].
  assert (Hself : set_heap (<[p := c]> (heap (mem t))) (mem t) = mem t).
  { unfold set_heap. rewrite insert_id by done. by destruct (mem t). }
  cbn [cron_scan cron_plan]. unfold deref, id_at. rewrite Hp. cbn [obind fmap option_fmap option_map default].
  cbn [snd conn_id from_option]. unfold id. case_bool_decide as Hdel.
  - set (ip := ip_port_ (conn_base c)) in *. set (del' := deleting_conn_ipport_ t ∖ {[ip]}).
    set (c' := if mark then with_base delayed_del c else c).
    set (t1 := put_conns (sm_erase fd (conns_ t)) (put_deleting del'
                 (put_mem (set_heap (<[p := c']> (heap (mem t))) (mem t)) t))).
    assert (Hgo : (let! t0 := if mark then modify_conn p delayed_del t else Ret t in
        cron_scan mark now l (cl ++ [p]) tt
          (put_conns (sm_erase fd (conns_ (put_deleting (deleting_conn_ipport_ t0 ∖ {[ip]}) t0)))
             (put_deleting (deleting_conn_ipport_ t0 ∖ {[ip]}) t0)))
        = cron_scan mark now l (cl ++ [p]) tt t1).
    { unfold t1, c'. destruct mark; simpl.
      - unfold modify_conn, on_conn, deref. by rewrite Hp.
      - rewrite Hself. by destruct t. }
    rewrite Hgo. destruct (scan_step ka c c' p l t t1) as (Hsc & Hplan & Hlive1); try done; [|by eauto using list_elem_of_further|].
    { unfold c'. destruct mark; [by rewrite base_with_base|done]. }
    rewrite <- Hplan. eapply ends_mono; [apply (IH keep _ _ t1); try done|].
    intros [[cl' tt'] t'].
    change (deleting_conn_ipport_ t1) with del'.
    destruct (cron_plan now ka del' (mem t1) l) as [[[k c0] e] d].
    intros (-> & -> & ? & ? & Hsc'). rewrite <- app_assoc. split_and!; try done. by eapply scanned_trans.
  - rewrite Hka.
    destruct ((0 <? ka) && (ka <? now - last_interaction_ (conn_base c)))
      eqn:Eexp.
    + set (t1 := put_conns (sm_erase fd (conns_ t)) t).
      destruct (scan_step ka c c p l t t1) as (Hsc & Hplan & Hlive1); try done; [by eauto using list_elem_of_further|].
      rewrite <- Hplan. eapply ends_mono; [apply (IH keep _ _ t1); try done|].
      intros [[cl' tt'] t']. change (deleting_conn_ipport_ t1) with (deleting_conn_ipport_ t).
      destruct (cron_plan now ka (deleting_conn_ipport_ t) (mem t1) l) as [[[k c0] e] d].
      intros (-> & -> & ? & ? & Hsc'). rewrite <- app_assoc. split_and!; try done. by eapply scanned_trans.
    + apply ends_bind. eapply ends_mono; [apply resize_ends|]. intros c' Hid.
      set (t1 := put_mem _ t).
      destruct (scan_step ka c c' p l t t1) as (Hsc & Hplan & Hlive1); try done; [by eauto using list_elem_of_further|].
      rewrite <- Hplan. eapply ends_mono; [apply (IH (keep ++ [(fd, p)]) _ _ t1); try done|].
      * by rewrite <- app_assoc.
      * by rewrite <- app_assoc.
      * intros [[cl' tt'] t']. change (deleting_conn_ipport_ t1) with (deleting_conn_ipport_ t).
        destruct (cron_plan now ka (deleting_conn_ipport_ t) (mem t1) l) as [[[k c0] e] d].
        rewrite <- app_assoc. intros (-> & -> & ? & ? & Hsc'). split_and!; try done. by eapply scanned_trans.
Qed.

(** * The task *)

(** What the plan says has been done. *)
Definition cron_done t t' : Prop :=
  let '(k, c, e, d) := cron_plan now (keepalive_timeout_ t) (deleting_conn_ipport_ t) (mem t) (conns_ t) in
  let gone := fds_of (mem t) (c ++ e) in
  conns_ t' = k /\ deleting_conn_ipport_ t' = d /\
  handle_log (mem t') = handle_log (mem t) ++ map (closed_event (mem t)) c ++ expire_events (mem t) e /\
  (forall fd, fds (mem t') !! fd = if bool_decide (fd ∈ gone) then None else fds (mem t) !! fd) /\
  (forall fd, interest (pink_epoll_ t') !! fd =
     if bool_decide (fd ∈ gone) then None else interest (pink_epoll_ t) !! fd).

Section ext.
Context (w w' : world C) (Hw : forall p, id_at w' p = id_at w p).

Lemma id_of_ext p : id_of w' p = id_of w p.
Proof. unfold id_of. by rewrite Hw. Qed.

Lemma closed_events_ext l : map (closed_event w') l = map (closed_event w) l.
Proof. apply map_ext. intros p. unfold closed_event. by rewrite id_of_ext. Qed.

Lemma expire_events_ext l : expire_events w' l = expire_events w l.
Proof.
  unfold expire_events. f_equal. apply map_ext. intros p.
  unfold closed_event, timed_out_event. by rewrite id_of_ext.
Qed.

Lemma fds_of_ext l : fds_of w' l = fds_of w l.
Proof. unfold fds_of. f_equal. apply map_ext. intros p. by rewrite id_of_ext. Qed.
End ext.

Lemma fds_of_app w c e : fds_of w (c ++ e) = fds_of w c ∪ fds_of w e.
Proof. unfold fds_of. by rewrite map_app, list_to_set_app_L. Qed.

(** The entries of the table are objects alive, each with the descriptor it stands at. *)
Definition table_ok t : Prop :=
  sm_sorted (conns_ t) /\ forall fd p, sm_find fd (conns_ t) = Some p -> fd_at (mem t) p = Some fd.

Lemma table_distinct t : table_ok t -> NoDup (map snd (conns_ t)).
Proof.
  intros [Hs Hat]. apply (NoDup_fmap_2_strong snd); [|by apply NoDup_fmap_1 with fst, sm_sorted_nodup].
  intros [fd p] [fd' p'] H H' Heq. simpl in Heq. subst p'.
  apply sm_find_elem in H, H'; try done. apply Hat in H, H'. congruence.
Qed.

Lemma table_ids t fd p : table_ok t -> (fd, p) ∈ conns_ t -> exists ip, id_at (mem t) p = Some (fd, ip).
Proof.
  intros [Hs Hat] H%sm_find_elem; [|done]. apply Hat in H. rewrite fd_at_id in H.
  destruct (id_at (mem t) p) as [[fd' ip]|]; [|done]. injection H as ->. eauto.
Qed.

(** What the plan closes, and what it keeps. *)
Lemma plan_table ka del t k c e d :
  cron_plan now ka del (mem t) (conns_ t) = (k, c, e, d) -> table_ok t ->
  (forall fd, fd ∈ fds_of (mem t) (c ++ e) <-> exists p, (fd, p) ∈ conns_ t /\ p ∈ c ++ e) /\
  (forall fd, sm_find fd k = if bool_decide (fd ∈ fds_of (mem t) (c ++ e)) then None else sm_find fd (conns_ t)).
Proof.
  intros Hplan Hok. pose proof (table_distinct _ Hok) as Hnd. pose proof (proj1 Hok) as Hs.
  destruct (plan_elem _ _ _ _ _ _ _ _ _ Hplan) as (P1 & P2 & P3 & P4 & P5).
  assert (Hgone : forall fd, fd ∈ fds_of (mem t) (c ++ e) <-> exists p, (fd, p) ∈ conns_ t /\ p ∈ c ++ e).
  { intros fd. unfold fds_of. rewrite elem_of_list_to_set, list_elem_of_fmap. split.
    - intros (p & -> & Hp). exists p. split; [|done]. destruct (P2 p Hp) as [fd' Hl].
      destruct (table_ids _ _ _ Hok Hl) as [ip Hid]. unfold id_of. by rewrite Hid.
    - intros (p & Hl & Hp). exists p. split; [|done].
      destruct (table_ids _ _ _ Hok Hl) as [ip Hid]. unfold id_of. by rewrite Hid. }
  split; [done|]. intros fd. case_bool_decide as Hg; rewrite Hgone in Hg.
  - destruct Hg as (p & Hl & Hp). destruct (sm_find fd k) as [p'|] eqn:Ek; [|done].
    apply sm_find_elem_1 in Ek. pose proof (P1 _ _ Ek) as Hl'.
    apply sm_find_elem in Hl, Hl'; try done. assert (p' = p) as -> by congruence. by apply (P5 Hnd) in Ek.
  - destruct (sm_find fd (conns_ t)) as [p|] eqn:Ec.
    + apply sm_find_elem_1 in Ec as Hl. destruct (P3 _ _ Hl) as [Hk'|Hp]; [|by destruct Hg; eauto].
      apply sm_find_elem; auto.
    + destruct (sm_find fd k) as [p'|] eqn:Ek; [|done]. apply sm_find_elem_1, P1, sm_find_elem in Ek; [congruence|done].
Qed.

Lemma Inv_table evs q t : Inv evs q t -> table_ok t.
Proof. intros []. by split. Qed.

(** Closing what the plan says, after the scan. *)
Lemma cron_close_spec t t1 k c e d :
  cron_plan now (keepalive_timeout_ t) (deleting_conn_ipport_ t) (mem t) (conns_ t) = (k, c, e, d) ->
  (forall p, p ∈ c ++ e -> is_Some (id_at (mem t) p)) ->
  conns_ t1 = k -> deleting_conn_ipport_ t1 = d -> scanned t t1 ->
  exists t2 t3, CloseFds c t1 = Ret t2 /\ TimeoutFds e t2 = Ret t3 /\ cron_done t (drop_refs (c ++ e) t3) /\
    closed (fds_of (mem t) (c ++ e)) (map (closed_event (mem t)) c ++ expire_events (mem t) e) t1 t3.
Proof.
  intros Hplan Hids Hk Hd Hsc. pose proof (sc_ids _ _ Hsc) as Hid1.
  destruct (CloseFds_spec c t1) as (t2 & Hc & Hcl).
  { intros p Hp. rewrite Hid1. apply Hids. set_solver. }
  assert (Hid2 : forall p, id_at (mem t2) p = id_at (mem t) p).
  { intros p. unfold id_at. rewrite (cl_heap _ _ _ _ Hcl). apply Hid1. }
  destruct (TimeoutFds_spec e t2) as (t3 & Ht & Htl).
  { intros p Hp. rewrite Hid2. apply Hids. set_solver. }
  exists t2, t3. pose proof (closed_trans _ _ _ _ _ _ _ Hcl Htl) as Hall.
  assert (Hex : map (closed_event (mem t1)) c ++ expire_events (mem t2) e =
    map (closed_event (mem t)) c ++ expire_events (mem t) e).
  { f_equal; [by apply closed_events_ext|by apply expire_events_ext]. }
  assert (Hfx : fds_of (mem t1) c ∪ fds_of (mem t2) e = fds_of (mem t) (c ++ e)).
  { rewrite fds_of_app. f_equal; by apply fds_of_ext. }
  rewrite Hex, Hfx in Hall. split_and!; try done. unfold cron_done. rewrite Hplan.
  destruct (drop_refs_spec (c ++ e) t3) as (D1 & D2 & _ & D4 & D5 & _ & D7 & _). destruct Hall, Hsc.
  rewrite D1, D2, D4, D5, D7. split_and!; try congruence.
  - intros fd. by rewrite cl_fds0, sc_fds0.
  - intros fd. by rewrite cl_interest0, sc_epoll0.
Qed.

Lemma cron_inv q t t1 t3 k c e d :
  cron_plan now (keepalive_timeout_ t) (deleting_conn_ipport_ t) (mem t) (conns_ t) = (k, c, e, d) ->
  (forall i, i ∈ q -> i ∈ notify_queue (pink_epoll_ t)) -> (d ⊆ deleting_conn_ipport_ t) ->
  conns_ t1 = k -> deleting_conn_ipport_ t1 = d -> scanned t t1 ->
  closed (fds_of (mem t) (c ++ e)) (map (closed_event (mem t)) c ++ expire_events (mem t) e) t1 t3 ->
  Inv [] q t -> Inv [] q (drop_refs (c ++ e) t3).
Proof.
  intros Hplan Hsub Hdel Hk Hd [] [] HI. pose proof (i_sorted _ _ _ HI) as Hs.
  destruct (plan_elem _ _ _ _ _ _ _ _ _ Hplan) as (P1 & P2 & P3 & P4 & P5).
  destruct (drop_refs_spec (c ++ e) t3) as (D1 & D2 & D3 & D4 & D5 & D6 & D7 & D8 & D9 & D10).
  destruct (plan_table _ _ _ _ _ _ _ Hplan (Inv_table _ _ _ HI)) as [Hgone Hfind].
  apply (leave_inv [] q (fds_of (mem t) (c ++ e)) t); [| |rewrite D1|intros fd; rewrite D1|rewrite D4..|
    rewrite D3|rewrite D6|rewrite D2| | |intros fd Hg|]; try done.
  - intros fd Hg. split; [|apply not_elem_of_nil]. rewrite Hgone in Hg. destruct Hg as (p & Hl & _).
    apply sm_find_elem in Hl; [congruence|done].
  - rewrite cl_conns0, Hk. auto.
  - by rewrite cl_conns0, Hk.
  - intros fd. by rewrite cl_interest0, sc_epoll0.
  - congruence.
  - congruence.
  - rewrite cl_in_conn0, sc_in_conn0. done.
  - congruence.
  - rewrite cl_deleting0, Hd. intros Hin. by apply (i_kill _ _ _ HI), Hdel.
  - intros p Hp. rewrite D8 in Hp. rewrite !fd_at_id. unfold id_at at 1. rewrite D9, cl_heap0 by done. f_equal. apply sc_ids0.
  - intros p Hp. apply D10. rewrite cl_heap0. pose proof (sc_ids0 p) as H. unfold id_at in H. rewrite Hp in H.
    by destruct (heap (mem t1) !! p).
  - intros Ho. unfold is_open in *. rewrite D5, cl_fds0, sc_fds0.
    by rewrite (bool_decide_eq_false_2 (fd ∈ _)) by done.
Qed.

Lemma plan_deleting ka del w l k c e d : cron_plan now ka del w l = (k, c, e, d) -> d ⊆ del.
Proof.
  revert del k c e d. induction l as [|[fd p] l IH]; intros del k c e d; simpl; [by intros [= <- <- <- <-]|].
  case_bool_decide.
  - destruct (cron_plan now ka _ w l) as [[[k' c'] e'] d'] eqn:E'. intros [= <- <- <- <-]. apply IH in E'. set_solver.
  - destruct (cron_plan now ka del w l) as [[[k' c'] e'] d'] eqn:E'. apply IH in E'. by case_match; intros [= <- <- <- <-].
Qed.

Lemma cron_task_spec q t :
  (forall i, i ∈ q -> i ∈ notify_queue (pink_epoll_ t)) -> Inv [] q t ->
  ends E (cron_task mark now t) (fun t' => cron_done t t' /\ Inv [] q t' /\
    notify_queue (pink_epoll_ t') = notify_queue (pink_epoll_ t)).
Proof.
  intros Hsub HI. unfold cron_task. rewrite bool_decide_eq_false_2 by apply (i_kill _ _ _ HI).
  apply ends_bind. eapply ends_mono.
  { apply (cron_scan_spec (keepalive_timeout_ t) (conns_ t) [] [] [] t); try done.
    - apply (i_sorted _ _ _ HI).
    - by eapply table_distinct, Inv_table.
    - intros fd p Hin. destruct (table_ids _ _ _ (Inv_table _ _ _ HI) Hin) as [ip Hid]. unfold id_at in Hid.
      by destruct (heap (mem t) !! p). }
  intros [[cl tt] t1]. destruct (cron_plan _ _ _ _ _) as [[[k c] e] d] eqn:Hplan.
  intros (-> & -> & Hk & Hd & Hsc). simpl.
  destruct (cron_close_spec t t1 k c e d) as (t2 & t3 & -> & Hto & Hdone & Hcl); try done.
  { intros p Hp. destruct (plan_elem _ _ _ _ _ _ _ _ _ Hplan) as (_ & P2 & _). destruct (P2 p Hp) as [fd Hl].
    destruct (table_ids _ _ _ (Inv_table _ _ _ HI) Hl) as [ip ->]. done. }
  cbn [obind]. rewrite Hto. cbn [obind ends]. split_and!; [done| |].
  - apply (cron_inv q t t1 t3 k c e d); try done. by eapply plan_deleting.
  - destruct (drop_refs_spec (c ++ e) t3) as (_ & _ & _ & -> & _). destruct Hcl, Hsc. congruence.
Qed.
End scan.
End cron.
