(* ===== verification/WorkerThread.v ===== *)
(** [pink/src/worker_thread.h] and [pink/src/worker_thread.cc]: the thread that
    serves the connections a dispatcher hands it. *)
From S2P Require Import Pink Prelude Sys StdMap PinkConn PinkEpoll Cron ServerConns.

Section worker.
Context {C : Type} {Ops : ConnOps C}.
(** [ConnFactory::NewPinkConn] of the user: it may return no connection. *)
Context (NewPinkConn : Z -> bytes -> option C).

(** The constructor, with the poller's descriptor and the process. *)
Definition new_WorkerThread (receive_fd : Z) (w : world C) : server C :=
  mkServer [] ∅ kDefaultKeepAliveTime (new_PinkEpoll receive_fd) None w.

(** [MoveConnIn(PinkItem&&, force)] *)
Definition MoveConnIn_item (it : PinkItem) (force : bool) (t : server C) : bool * server C :=
  let '(ok, e) := Register it force (pink_epoll_ t) in
  (ok, put_epoll e t).

(** [MoveConnIn(conn, notify_type, force)]: a copy of the reference travels in
    the item, another goes into the table. *)
Definition MoveConnIn (p : ptr) (type : NotifyType) (force : bool) (t : server C)
    : outcome (bool * server C) :=
  let! c := deref p (mem t) in
  let b := conn_base c in
  let! it := new_PinkItem (fd_ b) (ip_port_ b) type in
  let '(success, t) := MoveConnIn_item (with_conn p it) force t in
  Ret (success, if success then insert_conn (fd_ b) p t else t).

Definition TryKillConn (ip_port : bytes) (t : server C) : outcome (bool * server C) :=
  kill_conn true ip_port t.

Definition DoCronTask (now : Z) (t : server C) : outcome (server C) := cron_task true now t.

(** * Notifications *)

(** [ti.conn.get()] used as a connection: its address and descriptor. *)
Definition item_target (ti : PinkItem) (t : server C) : outcome (ptr * Z) :=
  match item_conn ti with
  | None => Fault UseAfterFree
  | Some p => let! c := deref p (mem t) in Ret (p, fd_ (conn_base c))
  end.

(** A change of the poller for the connection of the item. *)
Definition item_event (f : bool -> ptr -> Z -> PinkEpoll -> Z * PinkEpoll) (ti : PinkItem) (t : server C)
    : outcome (server C) :=
  let! (p, fd) := item_target ti t in
  Ret (put_epoll (f (is_open fd (mem t)) p fd (pink_epoll_ t)).2 t).

(** A new connection. If there is none, or it cannot be made non-blocking, the
    loop goes on with the next item. *)
Definition connect_item (ti : PinkItem) (t : server C) : outcome (server C) :=
  match NewPinkConn (item_fd ti) (ip_port ti) with
  | None => Ret t
  | Some c =>
      let '(p, w) := alloc c (mem t) in
      let! (ok, w) := conn_SetNonblock p w in
      let t := put_mem w t in
      if negb ok then Ret (drop_ref p t)
      else
        let t := insert_conn (item_fd ti) p t in
        let! c := deref p (mem t) in
        let fd := fd_ (conn_base c) in
        Ret (put_epoll (PinkAddEvent_conn (is_open fd (mem t)) p fd EPOLLIN (pink_epoll_ t)).2 t)
  end.

Definition handle_item (ti : PinkItem) (t : server C) : outcome (server C) :=
  match item_notify_type ti with
  | kNotiConnect => connect_item ti t
  | kNotiClose => Ret t
  | kNotiEpollout => item_event (fun _ p fd => PinkModEvent_conn p fd 0 EPOLLOUT) ti t
  | kNotiEpollin => item_event (fun _ p fd => PinkModEvent_conn p fd 0 EPOLLIN) ti t
  | kNotiEpolloutAndEpollin =>
      item_event (fun _ p fd => PinkModEvent_conn p fd 0 (Z.lor EPOLLOUT EPOLLIN)) ti t
  | kNotiWait => item_event (fun opened p fd => PinkAddEvent_conn opened p fd 0) ti t
  | kNotiWrite => Ret t
  end.

(** The items of one read. In the model an item stays at the head of the queue
    until it has been handled, where its reference counts; [kill_sp_conn] then
    ends it. *)
Fixpoint handle_items (nread : nat) (t : server C) : outcome (server C) :=
  match nread with
  | O => Ret t
  | S n =>
      match notify_queue (pink_epoll_ t) with
      | [] => Ret t
      | ti :: q =>
          let! t := handle_item ti t in
          let t := put_epoll (set_notify_queue (drop 1 (notify_queue (pink_epoll_ t))) (pink_epoll_ t)) t in
          handle_items n (match item_conn ti with Some p => drop_ref p t | None => t end)
      end
  end.

Definition notify_event (mask : Z) (t : server C) : outcome (server C) :=
  if negb (has EPOLLIN mask) then Ret t
  else
    let nread := Nat.min 64 (length (notify_queue (pink_epoll_ t))) in
    if bool_decide (nread = 0%nat) then Fault AssertFailed else handle_items nread t.

(** * Events of a connection *)

(** How a part of the event's code ends. *)
Inductive step : Type :=
  | Goes (should_close : bool)    (** on to the next part *)
  | Continues.                    (** [continue] *)

Definition conn_fd (p : ptr) (t : server C) : outcome Z :=
  let! c := deref p (mem t) in Ret (fd_ (conn_base c)).

(** [pink_epoll_->PinkModEvent(pconn, 0, mask)] *)
Definition mod_event (p : ptr) (mask : Z) (t : server C) : outcome (server C) :=
  let! fd := conn_fd p t in
  Ret (put_epoll (PinkModEvent_conn p fd 0 mask (pink_epoll_ t)).2 t).

(** Sending a reply. *)
Definition write_part (now mask : Z) (p : ptr) (t : server C) : outcome (step * server C) :=
  let! c := deref p (mem t) in
  if has EPOLLOUT mask && conn_is_reply c then
    let! (write_status, t) := conn_call conn_SendReply p t in
    let! t := modify_conn p (set_last_interaction now) t in
    match write_status with
    | kWriteHalf => Ret (Continues, t)
    | _ =>
        let! t :=
          match write_status with
          | kWriteAll =>
              let! t := mod_event p EPOLLIN t in
              on_conn (conn_set_is_reply false) p t
          | _ => Ret t
          end in
        let! c := deref p (mem t) in
        Ret (Goes (negb (bool_decide (write_status = kWriteAll)) || is_quit_ (conn_base c)), t)
    end
  else Ret (Goes false, t).

(** Reading a request. *)
Definition read_part (now mask : Z) (should_close : bool) (p : ptr) (t : server C)
    : outcome (step * server C) :=
  if negb should_close && has EPOLLIN mask then
    let! t := modify_conn p (set_is_partial_request true) t in
    let! (read_status, t) := conn_call conn_GetRequest p t in
    let! t := modify_conn p (set_last_interaction now) t in
    match read_status with
    | kReadAll =>
        let! t := modify_conn p (set_is_partial_request false) t in
        let! t := mod_event p 0 t in
        Ret (Goes should_close, t)
    | kReadHalf => Ret (Continues, t)
    | _ => Ret (Goes true, t)
    end
  else Ret (Goes should_close, t).

(** Closing. *)
Definition close_part (mask : Z) (should_close : bool) (p : ptr) (t : server C) : outcome (server C) :=
  if has EPOLLERR mask || has EPOLLHUP mask || should_close then
    let! fd := conn_fd p t in
    let t := put_epoll (epoll_ctl_del fd (pink_epoll_ t)).2 t in
    let! t := CloseFd p t in
    Ret (erase_conn fd (assign_in_conn None t))
  else Ret t.

Definition conn_event (now mask : Z) (p : ptr) (t : server C) : outcome (server C) :=
  let t := assign_in_conn None t in
  let! c := deref p (mem t) in
  if is_waiting_del_ (conn_base c) then
    let fd := fd_ (conn_base c) in
    let t := put_epoll (epoll_ctl_del fd (pink_epoll_ t)).2 t in
    Ret (erase_conn fd t)
  else
    let t := assign_in_conn (Some p) t in
    let! (s, t) := write_part now mask p t in
    match s with
    | Continues => Ret t
    | Goes should_close =>
        let! (s, t) := read_part now mask should_close p t in
        match s with
        | Continues => Ret t
        | Goes should_close => close_part mask should_close p t
        end
    end.

(** * The loop *)

(** One fired event. The data of the pipe is its descriptor, that of a
    connection its address; a descriptor that is not the pipe's is never
    registered here. *)
Definition handle_event_of (now : Z) (ev : Z * (Z * epoll_data)) (t : server C) : outcome (server C) :=
  let '(_, (mask, d)) := ev in
  match d with
  | DFd fd => if fd =? notify_receive_fd (pink_epoll_ t) then notify_event mask t else Fault UseAfterFree
  | DPtr p => conn_event now mask p t
  end.

Fixpoint handle_events (now : Z) (evs : list (Z * (Z * epoll_data))) (t : server C)
    : outcome (server C) :=
  match evs with
  | [] => Ret t
  | ev :: evs => let! t := handle_event_of now ev t in handle_events now evs t
  end.

(** The head of an iteration of [ThreadMain] at time [tm]: cron and clock. *)
Definition loop_head (cron_interval_ : Z) (tm : timeval) (k : clock) (t : server C)
    : outcome (clock * server C) :=
  let '(fires, k) := cron_head cron_interval_ tm k in
  let! t := if fires then DoCronTask (tv_sec tm) t else Ret t in
  Ret (k, t).

(** An iteration: [evs] is what [PinkPoll] reports. *)
Definition iteration (cron_interval_ : Z) (tm : timeval) (evs : list (Z * (Z * epoll_data)))
    (k : clock) (t : server C) : outcome (clock * server C) :=
  let! (k, t) := loop_head cron_interval_ tm k t in
  let! t := handle_events (tv_sec (c_now k)) evs t in
  Ret (k, t).

(** The iterations until [should_stop()], and the end: [in_conn], a local of the
    function, goes last. *)
Fixpoint iterations (cron_interval_ : Z) (rounds : list (timeval * list (Z * (Z * epoll_data)))) (k : clock) (t : server C)
    : outcome (clock * server C) :=
  match rounds with
  | [] => Ret (k, t)
  | (tm, evs) :: rounds => let! (k, t) := iteration cron_interval_ tm evs k t in iterations cron_interval_ rounds k t
  end.

Definition ThreadMain (cron_interval_ : Z) (start : timeval) (rounds : list (timeval * list (Z * (Z * epoll_data)))) (t : server C)
    : outcome (server C) :=
  let! (_, t) := iterations cron_interval_ rounds (start_clock cron_interval_ start) t in
  let! t := Cleanup t in
  Ret (assign_in_conn None t).
End worker.
