(* ===== verification/WorkerFacts.v ===== *)
(** Facts about the worker: every event keeps the invariant of the connection
    table and follows no dead pointer. *)
From S2P Require Import Pink Prelude Sys StdMap PinkConn PinkEpoll Cron.
From S2P Require Import ServerConns ServerFacts WorkerThread.

Section worker.
Context {C : Type} {Ops : ConnOps C} {CL : ConnLaws C}.
Context (NewPinkConn : Z -> bytes -> option C).
(** The factory makes a connection for the descriptor it is given. *)
Hypothesis factory_fd : forall fd ip c, NewPinkConn fd ip = Some c -> fd_ (conn_base c) = fd.
Implicit Types t : server C.

(** * During an event *)

(** The connection [p] at [fd] stays where it is. *)
Definition Stay (evs : list (Z * (Z * epoll_data))) (q : list PinkItem) (fd : Z) (p : ptr)
    (t : server C) : Prop :=
  Inv evs q t /\ sm_find fd (conns_ t) = Some p /\ notify_queue (pink_epoll_ t) = q.

Lemma stay_at evs q fd p t : Stay evs q fd p t -> fd_at (mem t) p = Some fd.
Proof. intros ([] & Hp & _). auto. Qed.

Lemma stay_conn evs q fd p t : Stay evs q fd p t ->
  exists c, deref p (mem t) = Ret c /\ fd_ (conn_base c) = fd.
Proof. intros (c & _ & Hd & Hf)%stay_at%fd_at_deref. eauto. Qed.

Lemma stay_on evs q fd p f t :
  (forall c, conn_id (conn_base (f c)) = conn_id (conn_base c)) -> Stay evs q fd p t ->
  safe (on_conn f p t) (Stay evs q fd p).
Proof.
  intros Hf HS. pose proof (stay_at _ _ _ _ _ HS) as Hat. destruct HS as (HI & Hp & Hq).
  destruct (on_conn_inv evs q f p t Hf ltac:(eauto) HI) as (t' & -> & HI' & _ & Hc & He & _).
  simpl. unfold Stay. by rewrite Hc, He.
Qed.

Lemma stay_modify evs q fd p f t :
  (forall b, conn_id (f b) = conn_id b) -> Stay evs q fd p t -> safe (modify_conn p f t) (Stay evs q fd p).
Proof. intros Hf. apply stay_on. intros c. by rewrite base_with_base. Qed.

Lemma stay_call {R} evs q fd p (f : C -> sock -> outcome (R * C * sock)) t :
  keeps_id (fun c => conn_id (conn_base c)) f -> Stay evs q fd p t ->
  safe (conn_call f p t) (fun '(_, t') => Stay evs q fd p t').
Proof.
  intros Hf HS. pose proof (stay_at _ _ _ _ _ HS) as Hat. destruct HS as (HI & Hp & Hq).
  eapply safe_mono; [apply (conn_call_inv evs q f p t Hf); eauto|].
  intros [r t'] (HI' & _ & Hc & He & _). unfold Stay. by rewrite Hc, He.
Qed.

Lemma stay_mod_event evs q fd p m t : Stay evs q fd p t -> safe (mod_event p m t) (Stay evs q fd p).
Proof.
  intros HS. destruct (stay_conn _ _ _ _ _ HS) as (c & Hd & Hf). destruct HS as (HI & Hp & Hq).
  unfold mod_event, conn_fd. rewrite Hd. simpl. rewrite Hf. unfold Stay.
  split_and!; [by apply modify_watch_inv|done|].
  unfold PinkModEvent_conn, epoll_ctl_mod. by destruct (interest _ !! fd).
Qed.

Lemma write_part_stay evs q fd p now mask t :
  Stay evs q fd p t -> safe (write_part now mask p t) (fun '(_, t') => Stay evs q fd p t').
Proof.
  intros HS. unfold write_part. destruct (stay_conn _ _ _ _ _ HS) as (c & -> & _). cbn [obind].
  destruct (has EPOLLOUT mask && conn_is_reply c); [|done].
  apply safe_bind. eapply safe_mono; [apply stay_call; [apply SendReply_id|done]|]. intros [st t1] H1.
  apply safe_bind. eapply safe_mono; [by apply stay_modify|]. intros t2 H2.
  destruct st; [done| |].
  - apply safe_bind. apply safe_bind. eapply safe_mono; [by apply stay_mod_event|]. intros t3 H3.
    eapply safe_mono; [apply stay_on; [apply set_is_reply_id|done]|]. intros t4 H4.
    destruct (stay_conn _ _ _ _ _ H4) as (c4 & -> & _). done.
  - cbn [obind]. destruct (stay_conn _ _ _ _ _ H2) as (c4 & -> & _). done.
Qed.

Lemma read_part_stay evs q fd p now mask b t :
  Stay evs q fd p t -> safe (read_part now mask b p t) (fun '(_, t') => Stay evs q fd p t').
Proof.
  intros HS. unfold read_part. destruct (negb b && has EPOLLIN mask); [|done].
  apply safe_bind. eapply safe_mono; [by apply stay_modify|]. intros t1 H1.
  apply safe_bind. eapply safe_mono; [apply stay_call; [apply GetRequest_id|done]|]. intros [st t2] H2.
  apply safe_bind. eapply safe_mono; [by apply stay_modify|]. intros t3 H3.
  destruct st; try done.
  apply safe_bind. eapply safe_mono; [by apply stay_modify|]. intros t4 H4.
  apply safe_bind. eapply safe_mono; [by apply stay_mod_event|]. by intros t5 H5.
Qed.

(** The references after the local has been reset. *)
Lemma refs_in_conn_None p' t : p' ∈ refs (assign_in_conn None t) -> p' ∈ refs (put_in_conn None t).
Proof. unfold assign_in_conn. by destruct (in_conn_ t). Qed.

Lemma assign_in_conn_at p' t :
  p' ∈ refs (assign_in_conn None t) ->
  fd_at (mem (assign_in_conn None t)) p' = fd_at (mem t) p'.
Proof.
  intros Hp%refs_in_conn_None. unfold assign_in_conn. destruct (in_conn_ t); [|done].
  simpl. by apply release_lookup.
Qed.

Lemma assign_in_conn_world t :
  let t' := assign_in_conn None t in
  fds (mem t') = fds (mem t) /\ next_ptr (mem t') = next_ptr (mem t) /\
  (forall p', heap (mem t) !! p' = None -> heap (mem t') !! p' = None).
Proof.
  unfold assign_in_conn. destruct (in_conn_ t); [|done]. simpl. rewrite release_fds, release_next.
  split_and!; try done. intros. by apply release_heap.
Qed.

Lemma is_open_close fd fd' (w : world C) : fd' <> fd -> is_open fd' (close_fd fd w) = is_open fd' w.
Proof. intros. unfold is_open, close_fd. simpl. by rewrite lookup_delete_ne. Qed.

Lemma close_part_inv evs q fd p mask b t :
  (fd ∉ map fst evs) -> Stay evs q fd p t ->
  safe (close_part mask b p t) (fun t' => Inv evs q t' /\ notify_queue (pink_epoll_ t') = q).
Proof.
  intros Hevs HS. unfold close_part. destruct (_ || _ || _); [|by destruct HS as (? & ? & ?)].
  destruct (stay_conn _ _ _ _ _ HS) as (c & Hd & Hf). unfold conn_fd. rewrite Hd. cbn [obind].
  unfold CloseFd. simpl. rewrite Hd. cbn [obind]. simpl. rewrite Hf, epoll_ctl_del_twice, epoll_ctl_del_eq.
  destruct HS as (HI & Hp & Hq). set (t1 := put_mem _ (put_epoll _ _)).
  set (t2 := assign_in_conn None t1).
  destruct (assign_in_conn_world t1) as (Hfds & Hnext & Hheap). fold t2 in Hfds, Hnext, Hheap.
  assert (H2 : conns_ t2 = conns_ t /\ in_conn_ t2 = None /\ pink_epoll_ t2 = pink_epoll_ t1 /\
    deleting_conn_ipport_ t2 = deleting_conn_ipport_ t).
  { unfold t2, assign_in_conn. by destruct (in_conn_ t1). }
  destruct H2 as (Hc2 & Hi2 & He2 & Hd2).
  assert (Hp2 : sm_find fd (conns_ t2) = Some p) by by rewrite Hc2.
  destruct (erase_conn_fields fd p t2 Hp2) as (Ec & Ee & Ei & Ed & En & Ef & Eat & Eh).
  simpl. rewrite Ee, He2. split; [|done].
  apply (leave_one_inv evs q fd p t); try done.
  - by rewrite Hq.
  - by rewrite Ec, Hc2.
  - by rewrite Ee, He2.
  - rewrite Ei, Hi2. done.
  - by rewrite En, Hnext.
  - rewrite Ed, Hd2. apply (i_kill _ _ _ HI).
  - intros p' Hp'. rewrite Eat by done. unfold t2. rewrite assign_in_conn_at; [done|].
    unfold refs in *. rewrite Ec, Ee, Ei in Hp'. rewrite !elem_of_app in *. destruct Hp' as [H|H]; [|by right].
    left. apply list_elem_of_fmap in H as (x & -> & Hx%elem_of_sm_erase). apply list_elem_of_fmap. eauto.
  - intros p' Hp'. apply Eh, Hheap. done.
  - intros fd' Hne Ho. unfold is_open. rewrite Ef, Hfds.
    change (is_open fd' (close_fd fd (mem t)) = true). by rewrite is_open_close.
Qed.

Lemma conn_event_inv evs q fd p m now mask t :
  Inv ((fd, (m, DPtr p)) :: evs) q t -> notify_queue (pink_epoll_ t) = q ->
  safe (conn_event now mask p t) (fun t' => Inv evs q t' /\ notify_queue (pink_epoll_ t') = q).
Proof.
  intros HI Hq. unfold conn_event.
  assert (Hp : sm_find fd (conns_ t) = Some p) by (eapply (i_batch _ _ _ HI); left).
  assert (Hevs : fd ∉ map fst evs) by (pose proof (i_nodup _ _ _ HI) as [? ?]%NoDup_cons; done).
  apply Inv_tail in HI.
  destruct (assign_none_inv evs q t ltac:(by rewrite Hq) HI) as (HI1 & Hc1 & He1 & Hi1 & Hd1).
  set (t1 := assign_in_conn None t) in *.
  assert (HS1 : Stay evs q fd p t1) by (split_and!; [done|by rewrite Hc1|by rewrite He1]).
  destruct (stay_conn _ _ _ _ _ HS1) as (c & Hd & Hf). rewrite Hd. cbn [obind].
  destruct (is_waiting_del_ (conn_base c)).
  - rewrite Hf, epoll_ctl_del_eq. simpl. set (t2 := put_epoll _ t1).
    destruct HS1 as (_ & Hp1 & Hq1).
    destruct (erase_conn_fields fd p t2 Hp1) as (Ec & Ee & Ei & Ed & En & Ef & Eat & Eh).
    rewrite Ee. split; [|done]. apply (leave_one_inv evs q fd p t1); try done.
    + by rewrite Hq1.
    + by rewrite Ei.
    + rewrite Ed. apply (i_kill _ _ _ HI1).
    + intros fd' _. unfold is_open. by rewrite Ef.
  - assert (HS2 : Stay evs q fd p (assign_in_conn (Some p) t1)).
    { unfold assign_in_conn. rewrite Hi1. destruct HS1 as (_ & Hp1 & Hq1). split_and!; [|done|done].
      apply Inv_in_conn; [|done]. intros p' [= <-]. by eapply refs_conns. }
    apply safe_bind. eapply safe_mono; [by apply write_part_stay|]. intros [[b|] t3] H3;
      [|by destruct H3 as (? & ? & ?)].
    apply safe_bind. eapply safe_mono; [by apply read_part_stay|]. intros [[b'|] t4] H4;
      [|by destruct H4 as (? & ? & ?)].
    by apply (close_part_inv evs q fd).
Qed.

(** * Notifications *)

Lemma queue_ok_seen t seen seen' q :
  (forall fd, fd ∈ seen' -> fd ∈ seen) -> queue_ok t seen q -> queue_ok t seen' q.
Proof.
  revert seen seen'. induction q as [|i q IH]; intros seen seen' Hs; simpl; [done|]. intros [Hi Hq]. split.
  - unfold item_ok in *. destruct (item_notify_type i); try done; [naive_solver|..];
      destruct Hi as (p & fd & ? & ? & ? & H); exists p, fd; naive_solver.
  - eapply IH; [|exact Hq]. destruct (is_connect i); set_solver.
Qed.

Lemma queue_ok_nil t seen q : queue_ok t seen q -> queue_ok t [] q.
Proof. apply queue_ok_seen. set_solver. Qed.

(** The references of the pipe shrink. *)
Lemma Inv_pop evs q n t :
  Inv evs q t -> Inv evs q (put_epoll (set_notify_queue (drop n (notify_queue (pink_epoll_ t))) (pink_epoll_ t)) t).
Proof.
  intros []. set (t' := put_epoll _ t).
  assert (Hr : forall p, p ∈ refs t' -> p ∈ refs t).
  { intros p. unfold refs. simpl. rewrite !elem_of_app. intros [H|[H|H]]; auto. right. right.
    apply list_elem_of_omap in H as (i & Hi & Hp). apply list_elem_of_omap. exists i. split; [|done].
    rewrite <- (take_drop n (notify_queue (pink_epoll_ t))). apply elem_of_app. by right. }
  split; auto; [by apply (queue_ok_ext t)|].
  intros p Hp. destruct (i_next p Hp) as [? ?]. split; [|done]. intros Hp'. by apply Hr in Hp'.
Qed.

(** A connection enters the table. *)
Lemma enter_inv evs q fd p t :
  sm_find fd (conns_ t) = None -> fd_at (mem t) p = Some fd -> is_open fd (mem t) = true ->
  fd <> notify_receive_fd (pink_epoll_ t) -> p < next_ptr (mem t) ->
  queue_ok t [fd] q -> Inv evs [] t -> Inv evs q (put_conns (sm_set fd p (conns_ t)) t).
Proof.
  intros Hn Hat Ho Hrfd Hnext Hq []. set (t' := put_conns _ t).
  assert (Hr : forall p', p' ∈ refs t' -> p' = p \/ p' ∈ refs t).
  { intros p'. unfold refs. simpl. rewrite !elem_of_app. intros [H|H]; [|tauto].
    apply list_elem_of_fmap in H as ([k v] & -> & [[= -> ->]|Hx]%elem_of_sm_set); [by left|].
    right. left. apply list_elem_of_fmap. by exists (k, v). }
  assert (Hc : forall fd' p', sm_find fd' (conns_ t') = Some p' ->
    (fd' = fd /\ p' = p) \/ (fd' <> fd /\ sm_find fd' (conns_ t) = Some p')).
  { intros fd' p'. simpl. destruct (decide (fd' = fd)) as [->|Hne].
    - rewrite sm_find_set_eq. intros [= ->]. by left.
    - rewrite sm_find_set_ne by done. by right. }
  assert (Hk : forall fd' p', sm_find fd' (conns_ t) = Some p' -> sm_find fd' (conns_ t') = Some p').
  { intros fd' p' H. simpl. rewrite sm_find_set_ne; [done|]. congruence. }
  split; auto.
  - by apply sm_set_sorted.
  - intros p' [->|Hp']%Hr; simpl; eauto.
  - intros fd' p' [[-> ->]|[_ H]]%Hc; simpl; eauto.
  - intros fd' p' [[-> ->]|[_ H]]%Hc; simpl; eauto.
  - intros fd' m p' H. apply Hk. eauto.
  - simpl. by rewrite sm_find_set_ne.
  - apply (queue_ok_insert t t' [] q fd p); try done; [|by apply sm_find_set_eq].
    intros fd' Hne. simpl. by rewrite sm_find_set_ne.
  - intros fd' m p' H. apply Hk. eauto.
  - intros p' Hp'. destruct (i_next p' Hp') as [H1 H2]. split; [|done].
    intros [->|H]%Hr; [simpl in Hp'; lia|done].
Qed.

(** [make_shared] and [SetNonblock] for an open descriptor. *)
Lemma new_conn_spec c fd t :
  fd_ (conn_base c) = fd -> is_open fd (mem t) = true ->
  let p := next_ptr (mem t) in
  exists ok w, conn_SetNonblock p (alloc c (mem t)).2 = Ret (ok, w) /\
    fd_at w p = Some fd /\ next_ptr w = p + 1 /\
    (forall p', p' <> p -> heap w !! p' = heap (mem t) !! p') /\
    (forall fd', is_open fd' w = is_open fd' (mem t)).
Proof.
  intros Hf Ho p. unfold is_open in Ho. apply bool_decide_eq_true in Ho as [d Hd].
  unfold alloc, conn_SetNonblock, deref. simpl. rewrite lookup_insert_eq. simpl.
  unfold Setnonblocking. simpl. rewrite Hf, Hd. unfold modify, deref. simpl.
  rewrite lookup_insert_eq. simpl. eexists _, _. split; [done|]. split_and!.
  - unfold fd_at. simpl. rewrite lookup_insert_eq. simpl. rewrite base_with_base. simpl. by rewrite Hf.
  - done.
  - intros p' Hp'. simpl. by rewrite !lookup_insert_ne by done.
  - intros fd'. unfold is_open. simpl. destruct (decide (fd' = fd)) as [->|].
    + rewrite lookup_insert_eq, Hd. by apply bool_decide_ext.
    + by rewrite lookup_insert_ne.
Qed.

Lemma Inv_nil evs q t : Inv evs q t -> Inv evs [] t.
Proof. intros []. by split. Qed.

Lemma Inv_queue evs q t : queue_ok t [] q -> Inv evs [] t -> Inv evs q t.
Proof. intros H []. by split. Qed.

(** The state of the thread once the connection exists. *)
Lemma new_conn_inv evs p w t fd :
  p = next_ptr (mem t) -> fd_at w p = Some fd -> next_ptr w = p + 1 ->
  (forall p', p' <> p -> heap w !! p' = heap (mem t) !! p') ->
  (forall fd', is_open fd' w = is_open fd' (mem t)) ->
  Inv evs [] t -> Inv evs [] (put_mem w t) /\
  (forall p' fd', fd_at (mem t) p' = Some fd' -> fd_at w p' = Some fd').
Proof.
  intros -> Hat Hn Hh Ho [].
  assert (Hold : forall p' fd', fd_at (mem t) p' = Some fd' -> fd_at w p' = Some fd').
  { intros p' fd' H. unfold fd_at in *. rewrite Hh; [done|]. intros ->.
    destruct (i_next (next_ptr (mem t)) ltac:(lia)) as [_ H']. by rewrite H' in H. }
  split; [|done]. split; auto; simpl.
  - intros p' Hp'. destruct (i_live p' Hp') as [fd' H]. eauto.
  - intros fd' p' H. rewrite Ho. eauto.
  - intros p' Hp'. destruct (i_next p' ltac:(lia)) as [H1 H2]. split; [done|]. rewrite Hh by lia. done.
Qed.

Lemma connect_item_inv evs ti q t :
  item_notify_type ti = kNotiConnect -> Inv evs (ti :: q) t -> notify_queue (pink_epoll_ t) = ti :: q ->
  safe (connect_item NewPinkConn ti t) (fun t' => Inv evs q t' /\ notify_queue (pink_epoll_ t') = ti :: q).
Proof.
  intros Hty HI Hq. pose proof (i_queue _ _ _ HI) as Hqok. simpl in Hqok.
  unfold item_ok, is_connect in Hqok. rewrite Hty in Hqok. rewrite bool_decide_eq_true_2 in Hqok by done.
  destruct Hqok as [(_ & Hfree & _ & Hopen & Hrfd) Hqok]. apply Inv_nil in HI.
  unfold connect_item. destruct (NewPinkConn (item_fd ti) (ip_port ti)) as [c|] eqn:Ec.
  2: { split; [|done]. apply Inv_queue; [|done]. by eapply queue_ok_nil. }
  apply factory_fd in Ec. destruct (new_conn_spec c _ t Ec Hopen) as (ok & w & Hsn & Hat & Hn & Hh & Ho).
  destruct (new_conn_inv evs _ w t _ eq_refl Hat Hn Hh Ho HI) as [HI1 Hold].
  destruct (alloc c (mem t)) as [p w0] eqn:Ea. unfold alloc in Ea. injection Ea as <- Ew.
  simpl in Hsn. rewrite Hsn. cbn [obind].
  assert (Hq1 : queue_ok (put_mem w t) [item_fd ti] q).
  { apply (queue_ok_ext t); try done; [by eauto|]. intros fd'. simpl. by rewrite Ho. }
  destruct ok; cbn [negb].
  - unfold insert_conn. simpl. rewrite Hfree. simpl.
    destruct (fd_at_deref w _ _ Hat) as (c' & _ & -> & Hf'). cbn [obind]. rewrite Hf'.
    set (t2 := put_conns _ _).
    assert (Inv evs q t2).
    { apply (enter_inv evs q (item_fd ti) (next_ptr (mem t)) (put_mem w t)); try done; simpl; [by rewrite Ho|lia]. }
    split; [apply (add_watch_inv evs q (item_fd ti) (next_ptr (mem t)) EPOLLIN _ t2); [apply sm_find_set_eq|done]|].
    unfold PinkAddEvent_conn, epoll_ctl_add. repeat case_match; done.
  - split; [|done]. apply drop_ref_inv.
    + simpl. rewrite Hq. by right.
    + apply Inv_queue; [|done]. by eapply queue_ok_nil.
Qed.

Lemma modify_item_inv evs ti q t m :
  (exists p fd, item_conn ti = Some p /\ fd_at (mem t) p = Some fd /\
     fd <> notify_receive_fd (pink_epoll_ t) /\
     (sm_find fd (conns_ t) = Some p \/ (sm_find fd (conns_ t) = None /\ (fd ∉ [])))) ->
  Inv evs q t ->
  safe (item_event (fun _ p fd => PinkModEvent_conn p fd 0 m) ti t)
    (fun t' => Inv evs q t' /\ notify_queue (pink_epoll_ t') = notify_queue (pink_epoll_ t)).
Proof.
  intros (p & fd & Hp & Hat & Hn & H) HI. unfold item_event, item_target. rewrite Hp.
  destruct (fd_at_deref _ _ _ Hat) as (c & _ & -> & Hf). simpl. rewrite Hf.
  split; [|unfold PinkModEvent_conn, epoll_ctl_mod; by case_match].
  destruct H as [H|[H _]]; [by apply modify_watch_inv|].
  unfold PinkModEvent_conn, epoll_ctl_mod. destruct (interest _ !! fd) as [[m' [f|p']]|] eqn:E.
  - by apply (i_pipe _ _ _ HI) in E as [? _].
  - apply (i_watch _ _ _ HI) in E. congruence.
  - simpl. by destruct t.
Qed.

Lemma handle_item_inv evs ti q t :
  Inv evs (ti :: q) t -> notify_queue (pink_epoll_ t) = ti :: q ->
  safe (handle_item NewPinkConn ti t) (fun t' => Inv evs q t' /\ notify_queue (pink_epoll_ t') = ti :: q).
Proof.
  intros HI Hq. destruct (item_notify_type ti) eqn:Hty; unfold handle_item; rewrite Hty.
  1: { by apply connect_item_inv. }
  all: pose proof (i_queue _ _ _ HI) as [Hi Hqok]; unfold item_ok, is_connect in Hi, Hqok;
    rewrite Hty in Hi, Hqok; rewrite bool_decide_eq_false_2 in Hqok by done;
    assert (HI' : Inv evs q t) by (apply Inv_queue; [done|by eapply Inv_nil]); try done.
  all: rewrite <- Hq; by apply modify_item_inv.
Qed.

Lemma handle_items_inv evs n q t :
  Inv evs q t -> notify_queue (pink_epoll_ t) = q ->
  safe (handle_items NewPinkConn n t) (fun t' => Inv evs (notify_queue (pink_epoll_ t')) t').
Proof.
  revert q t. induction n as [|n IH]; intros q t HI Hq; simpl; [by rewrite Hq|].
  rewrite Hq. destruct q as [|ti q]; [by rewrite <- Hq in HI|].
  apply safe_bind. eapply safe_mono; [by apply (handle_item_inv evs ti q)|]. intros t1 [HI1 Hq1].
  set (t2 := put_epoll _ t1).
  assert (HI2 : Inv evs q t2) by by apply Inv_pop.
  assert (Hq2 : notify_queue (pink_epoll_ t2) = q) by (simpl; by rewrite Hq1).
  destruct (item_conn ti) as [p|]; apply (IH q); try done.
  apply drop_ref_inv; [by rewrite Hq2|done].
Qed.

(** * Batches *)

(** The invariant between two events. *)
Definition Good (evs : list (Z * (Z * epoll_data))) (t : server C) : Prop :=
  Inv evs (notify_queue (pink_epoll_ t)) t.

Lemma handle_event_good now ev evs t :
  Good (ev :: evs) t -> safe (handle_event_of NewPinkConn now ev t) (Good evs).
Proof.
  destruct ev as [fd [mask d]]. intros HG. unfold handle_event_of. destruct d as [f|p].
  - assert (f = notify_receive_fd (pink_epoll_ t)) as -> by (eapply (i_batch_pipe _ _ _ HG); left).
    rewrite Z.eqb_refl. apply Inv_tail in HG. unfold notify_event.
    destruct (negb _); [done|]. case_bool_decide; [done|]. by apply (handle_items_inv evs _ (notify_queue (pink_epoll_ t))).
  - eapply safe_mono; [by apply (conn_event_inv evs (notify_queue (pink_epoll_ t)) fd p mask)|]. intros t' [HI Hq]. unfold Good. by rewrite Hq.
Qed.

Lemma handle_events_good now evs t :
  Good evs t -> safe (handle_events NewPinkConn now evs t) (Good []).
Proof.
  revert t. induction evs as [|ev evs IH]; intros t HG; cbn [handle_events]; [done|].
  apply safe_bind. eapply safe_mono; [by apply handle_event_good|]. auto.
Qed.

(** What the poller reports may be handled. *)
Lemma fired_good evs t : fired evs (pink_epoll_ t) -> Good [] t -> Good evs t.
Proof.
  intros [Hnd Hf] []. rewrite Forall_forall in Hf. split; auto.
  - intros fd m p Hin. apply Hf in Hin as (m' & Hm & _). eauto.
  - intros fd m f Hin. apply Hf in Hin as (m' & Hm & _). by eapply i_pipe.
Qed.
End worker.
