(* ===== verification/WorkerLife.v ===== *)
(** The worker against an abstract machine: the events a connection waits for after
    an event are a function of the events it waited for, of what the poller reports,
    and of what the calls of its handlers return. *)
From S2P Require Import Pink Prelude Sys StdMap PinkConn PinkEpoll Cron.
From S2P Require Import ServerConns ServerFacts WorkerThread WorkerFacts.

(** * The abstract machine *)

(** A connection of the worker, by the events it waits for. *)
Inductive life : Type :=
  | Absent      (** not watched *)
  | Reading     (** waits for a request *)
  | Busy        (** its request is being processed: waits for nothing *)
  | Replying    (** has a reply to send, may read on *)
  | Sending.    (** has a reply to send *)

#[export] Instance life_eq_dec : EqDecision life.
Proof. solve_decision. Defined.

Definition life_mask (a : life) : option Z :=
  match a with
  | Absent => None
  | Reading => Some EPOLLIN
  | Busy => Some 0
  | Replying => Some (Z.lor EPOLLOUT EPOLLIN)
  | Sending => Some EPOLLOUT
  end.

(** What became of the sending of an event: none, or its status and whether the
    connection has then asked to quit; and of the reading: none, or its status. *)
Definition sending : Type := option (WriteStatus * bool).
Definition reading : Type := option ReadStatus.

(** Whether the event goes on to the reading. *)
Definition goes_on (w : sending) : bool :=
  match w with None | Some (kWriteAll, false) => true | _ => false end.

(** The state after an event. What is sent in part, or read in part, is waited for
    again. A reply that is out is followed by waiting for a request, a request that is
    complete by waiting for nothing. The rest closes: a failed call, a request to quit,
    an error or a hang-up that the poller reports. *)
Definition life_turn (failed : bool) (w : sending) (r : reading) (a : life) : life :=
  match w, r with
  | Some (kWriteHalf, _), _ => a
  | Some (kWriteError, _), _ | Some (kWriteAll, true), _ => Absent
  | Some (kWriteAll, false), (None | Some kReadHalf) => if failed && bool_decide (r = None) then Absent else Reading
  | None, (None | Some kReadHalf) => if failed && bool_decide (r = None) then Absent else a
  | _, Some kReadAll => if failed then Absent else Busy
  | _, Some _ => Absent
  end.

Section life.
Context {C : Type} {Ops : ConnOps C} {CL : ConnLaws C}.
Implicit Types t : server C.

(** The calls an event makes on a connection [c] and its stream: [SendReply] when it
    can be written and there is a reply, then [GetRequest] when it can be read. *)
Definition send_call (now mask : Z) (c : C) (s : sock) : outcome (sending * C * sock) :=
  if has EPOLLOUT mask && conn_is_reply c then
    let! (st, c, s) := conn_SendReply c s in
    let c := with_base (set_last_interaction now) c in
    let c := if bool_decide (st = kWriteAll) then conn_set_is_reply false c else c in
    Ret (Some (st, is_quit_ (conn_base c)), c, s)
  else Ret (None, c, s).

Definition read_call (mask : Z) (c : C) (s : sock) : outcome reading :=
  if has EPOLLIN mask then
    let! (r, _, _) := conn_GetRequest (with_base (set_is_partial_request true) c) s in Ret (Some r)
  else Ret None.

Definition event_calls (now mask : Z) (c : C) (s : sock) : outcome (sending * reading) :=
  let! (w, c, s) := send_call now mask c s in
  if goes_on w then let! r := read_call mask c s in Ret (w, r) else Ret (w, None).

(** [fd] is in the abstract state [a]. *)
Definition lives (t : server C) (fd : Z) (a : life) : Prop :=
  fst <$> interest (pink_epoll_ t) !! fd = life_mask a.

(** * A connection in its place *)

(** The connection [c] at [p], its stream, what the poller waits for: and the rest of
    the poller is that of [t0]. *)
Record Here (t0 : server C) (fd : Z) (p : ptr) (c : C) (s : sock) (m : Z) t : Prop := {
  hr_heap : heap (mem t) !! p = Some c;
  hr_fd : fd_ (conn_base c) = fd;
  hr_sock : d_sock <$> fds (mem t) !! fd = Some s;
  hr_watch : interest (pink_epoll_ t) !! fd = Some (m, DPtr p);
  hr_rest : forall fd', fd' <> fd -> interest (pink_epoll_ t) !! fd' = interest (pink_epoll_ t0) !! fd';
  hr_table : sm_find fd (conns_ t) = Some p;
  hr_log : handle_log (mem t) = handle_log (mem t0);
  hr_sorted : sm_sorted (conns_ t)
}.

Lemma here_deref t0 fd p c s m t : Here t0 fd p c s m t -> deref p (mem t) = Ret c.
Proof. intros []. unfold deref. by rewrite hr_heap0. Qed.

Lemma here_on t0 fd p c s m t f :
  Here t0 fd p c s m t -> conn_id (conn_base (f c)) = conn_id (conn_base c) ->
  exists t', on_conn f p t = Ret t' /\ Here t0 fd p (f c) s m t'.
Proof.
  intros HH [= Hf _]. unfold on_conn. rewrite (here_deref _ _ _ _ _ _ _ HH). eexists. split; [done|].
  destruct HH. split; try done; simpl; [by rewrite lookup_insert_eq|congruence].
Qed.

Lemma here_modify t0 fd p c s m t f :
  Here t0 fd p c s m t -> (forall b, conn_id (f b) = conn_id b) ->
  exists t', modify_conn p f t = Ret t' /\ Here t0 fd p (with_base f c) s m t'.
Proof. intros HH Hf. apply (here_on _ _ _ _ _ _ _ (with_base f) HH). by rewrite base_with_base. Qed.

Lemma here_call {R} t0 fd p c s m t (f : C -> sock -> outcome (R * C * sock)) :
  keeps_id (fun c => conn_id (conn_base c)) f -> Here t0 fd p c s m t ->
  match f c s with
  | Ret (r, c', s') => exists t', conn_call f p t = Ret (r, t') /\ Here t0 fd p c' s' m t'
  | Fault e => conn_call f p t = Fault e
  end.
Proof.
  intros Hk HH. unfold conn_call, call. rewrite (here_deref _ _ _ _ _ _ _ HH). cbn [obind].
  destruct HH as [Hh Hf Hs Hi Hr Ht Hl Ho]. rewrite Hf. destruct (fds (mem t) !! fd) as [de|] eqn:Ed; [|done]. injection Hs as Hs.
  unfold sock_of. rewrite Ed, Hs. specialize (Hk c s). destruct (f c s) as [[[r c'] s']|e]; [|done]. cbn [obind].
  simpl in Hk. injection Hk as Hk _. eexists. split; [done|]. unfold put_sock. simpl. rewrite Ed.
  split; simpl; try done; try (by rewrite lookup_insert_eq); congruence.
Qed.

Lemma here_mod t0 fd p c s m t m' :
  Here t0 fd p c s m t -> exists t', mod_event p m' t = Ret t' /\ Here t0 fd p c s m' t'.
Proof.
  intros HH. unfold mod_event, conn_fd. rewrite (here_deref _ _ _ _ _ _ _ HH). cbn [obind]. eexists. split; [done|].
  destruct HH as [Hh Hf Hs Hi Hr Ht Hl Ho]. rewrite Hf. unfold PinkModEvent_conn, epoll_ctl_mod. rewrite Hi. cbn [snd].
  split; try done; simpl; [by rewrite lookup_insert_eq|]. intros fd' Hne. rewrite lookup_insert_ne by done. by apply Hr.
Qed.

Lemma here_local t0 fd p c s m t o : Here t0 fd p c s m t -> Here t0 fd p c s m (assign_in_conn o t).
Proof.
  intros []. unfold assign_in_conn. destruct (in_conn_ t) as [old|]; [|by split].
  split; simpl; try done.
  - unfold release. case_bool_decide as Hin; [done|]. simpl. rewrite lookup_delete_ne; [done|]. intros ->. apply Hin.
    apply elem_of_app. left. by eapply refs_conns.
  - by rewrite release_fds.
  - unfold release. by case_bool_decide.
Qed.

(** ** Gone *)

(** Nothing watches [fd] any more, the table has no entry for it, and the rest of the
    poller is that of [t0]. *)
Record Gone (t0 : server C) (fd : Z) t : Prop := {
  gn_watch : lives t fd Absent;
  gn_rest : forall fd', fd' <> fd -> interest (pink_epoll_ t) !! fd' = interest (pink_epoll_ t0) !! fd';
  gn_table : sm_find fd (conns_ t) = None
}.

Lemma erase_conn_epoll fd t : pink_epoll_ (erase_conn fd t) = pink_epoll_ t.
Proof. unfold erase_conn. by destruct (sm_find fd (conns_ t)). Qed.

Lemma erase_conn_log fd t : handle_log (mem (erase_conn fd t)) = handle_log (mem t).
Proof. unfold erase_conn. destruct (sm_find fd (conns_ t)); [|done]. simpl. unfold release. by case_bool_decide. Qed.

Lemma erase_conn_fds fd t : fds (mem (erase_conn fd t)) = fds (mem t).
Proof. unfold erase_conn. destruct (sm_find fd (conns_ t)); [|done]. simpl. by rewrite release_fds. Qed.

Lemma assign_in_conn_rest o t :
  pink_epoll_ (assign_in_conn o t) = pink_epoll_ t /\ conns_ (assign_in_conn o t) = conns_ t /\
  fds (mem (assign_in_conn o t)) = fds (mem t) /\ handle_log (mem (assign_in_conn o t)) = handle_log (mem t).
Proof.
  unfold assign_in_conn. destruct (in_conn_ t); [|done]. simpl. rewrite release_fds. unfold release. by case_bool_decide.
Qed.

(** An entry of the table and the poller goes. *)
Lemma gone_erase t0 fd t :
  sm_sorted (conns_ t) -> interest (pink_epoll_ t) !! fd = None ->
  (forall fd', fd' <> fd -> interest (pink_epoll_ t) !! fd' = interest (pink_epoll_ t0) !! fd') ->
  Gone t0 fd (erase_conn fd t).
Proof.
  intros Hs Hn Hr. split; unfold lives; rewrite ?erase_conn_epoll; [by rewrite Hn|done|].
  unfold erase_conn. destruct (sm_find fd (conns_ t)) eqn:E; [|done]. simpl. by apply sm_find_erase_eq.
Qed.

Lemma here_close t0 fd p c s m t mask b :
  Here t0 fd p c s m t ->
  exists t', close_part mask b p t = Ret t' /\
    if has EPOLLERR mask || has EPOLLHUP mask || b
    then Gone t0 fd t' /\ is_open fd (mem t') = false /\
         handle_log (mem t') = handle_log (mem t0) ++ [FdClosed fd (ip_port_ (conn_base c))]
    else Here t0 fd p c s m t'.
Proof.
  intros HH. unfold close_part. destruct (_ || _ || _); [|eauto].
  pose proof (here_deref _ _ _ _ _ _ _ HH) as Hd. unfold conn_fd, CloseFd. rewrite Hd. cbn [obind]. simpl. rewrite Hd. cbn [obind].
  eexists. split; [done|]. destruct HH as [Hh Hf Hs Hi Hr Ht Hl Ho]. rewrite Hf. set (t1 := put_mem _ _).
  destruct (assign_in_conn_rest None t1) as (He & Hc & Hfd & Hlog).
  assert (Hi1 : interest (pink_epoll_ t1) = delete fd (interest (pink_epoll_ t))).
  { unfold t1. simpl. by rewrite epoll_ctl_del_twice, epoll_ctl_del_eq. }
  split_and!.
  - apply gone_erase; [by rewrite Hc|rewrite He, Hi1; by apply lookup_delete_eq|].
    intros fd' Hne. rewrite He, Hi1, lookup_delete_ne by done. by apply Hr.
  - unfold is_open. apply bool_decide_eq_false_2. rewrite erase_conn_fds, Hfd. unfold t1. simpl. rewrite lookup_delete_eq. by intros [].
  - rewrite erase_conn_log, Hlog. unfold t1. simpl. by rewrite Hl.
Qed.

(** * The parts of an event *)

(** What is waited for after the sending, and after the reading. *)
Definition write_mask (w : sending) (m : Z) : Z := match w with Some (kWriteAll, _) => EPOLLIN | _ => m end.
Definition read_mask (r : reading) (m : Z) : Z := match r with Some kReadAll => 0 | _ => m end.

Definition write_verdict (w : sending) : step :=
  match w with
  | None | Some (kWriteAll, false) => Goes false
  | Some (kWriteHalf, _) => Continues
  | _ => Goes true
  end.

Lemma here_write t0 now mask fd p c s m t :
  Here t0 fd p c s m t ->
  match send_call now mask c s with
  | Ret (w, c', s') => exists t', write_part now mask p t = Ret (write_verdict w, t') /\
      conn_id (conn_base c') = conn_id (conn_base c) /\ Here t0 fd p c' s' (write_mask w m) t'
  | Fault e => write_part now mask p t = Fault e
  end.
Proof.
  intros HH. unfold send_call, write_part. rewrite (here_deref _ _ _ _ _ _ _ HH). cbn [obind].
  destruct (has EPOLLOUT mask && conn_is_reply c); [|by exists t].
  pose proof (here_call t0 fd p c s m t conn_SendReply SendReply_id HH) as W.
  pose proof (SendReply_id c s) as Hid.
  destruct (conn_SendReply c s) as [[[st c1] s1]|e]; [|by rewrite W].
  destruct W as (t1 & -> & H1). cbn [obind]. simpl in Hid.
  destruct (here_modify _ _ _ _ _ _ _ (set_last_interaction now) H1 ltac:(done)) as (t2 & -> & H2). cbn [obind].
  destruct st; cbv [bool_decide decide_rel]; cbn.
  - exists t2. split; [done|]. by rewrite base_with_base.
  - destruct (here_mod _ _ _ _ _ _ _ EPOLLIN H2) as (t3 & -> & H3). cbn [obind].
    destruct (here_on _ _ _ _ _ _ _ (conn_set_is_reply false) H3 (set_is_reply_id _ _)) as (t4 & -> & H4). cbn [obind].
    rewrite (here_deref _ _ _ _ _ _ _ H4). cbn [obind]. exists t4. split; [by destruct (is_quit_ _)|]. split; [|done]. by rewrite set_is_reply_id, base_with_base.
  - rewrite (here_deref _ _ _ _ _ _ _ H2). cbn [obind]. exists t2. split; [done|]. split; [|done]. by rewrite base_with_base.
Qed.

Definition read_verdict (r : reading) : step :=
  match r with None | Some kReadAll => Goes false | Some kReadHalf => Continues | _ => Goes true end.

Lemma here_read t0 now mask fd p c s m t :
  Here t0 fd p c s m t ->
  match read_call mask c s with
  | Ret r => exists t' c' s', read_part now mask false p t = Ret (read_verdict r, t') /\
      conn_id (conn_base c') = conn_id (conn_base c) /\
      Here t0 fd p c' s' (read_mask r m) t'
  | Fault e => read_part now mask false p t = Fault e
  end.
Proof.
  intros HH. unfold read_call, read_part. cbn [negb andb].
  destruct (has EPOLLIN mask); [|by exists t, c, s].
  destruct (here_modify _ _ _ _ _ _ _ (set_is_partial_request true) HH ltac:(done)) as (t1 & -> & H1). cbn [obind].
  pose proof (here_call t0 fd p _ s m t1 conn_GetRequest GetRequest_id H1) as W.
  pose proof (GetRequest_id (with_base (set_is_partial_request true) c) s) as Hid.
  destruct (conn_GetRequest _ s) as [[[r c2] s2]|e]; [|by rewrite W].
  destruct W as (t2 & -> & H2). cbn [obind]. simpl in Hid. rewrite base_with_base in Hid.
  destruct (here_modify _ _ _ _ _ _ _ (set_last_interaction now) H2 ltac:(done)) as (t3 & -> & H3). cbn [obind].
  destruct r; try (eexists t3, _, _; split; [done|]; split; [|done]; by rewrite base_with_base).
  destruct (here_modify _ _ _ _ _ _ _ (set_is_partial_request false) H3 ltac:(done)) as (t4 & -> & H4). cbn [obind].
  destruct (here_mod _ _ _ _ _ _ _ 0 H4) as (t5 & -> & H5). cbn [obind].
  eexists t5, _, _. split; [done|]. split; [|done]. by rewrite !base_with_base.
Qed.

(** * An event *)

(** [t'] is [t] with the connection of [fd] in the state [a]: what else the poller
    waits for is as it was; the table has the connection unless nothing waits for it
    any more; then its descriptor is closed and the handle has been told. *)
Definition turned (t : server C) (fd : Z) (p : ptr) (ip : bytes) (a : life) (t' : server C) : Prop :=
  lives t' fd a /\
  (forall fd', fd' <> fd -> interest (pink_epoll_ t') !! fd' = interest (pink_epoll_ t) !! fd') /\
  match a with
  | Absent => sm_find fd (conns_ t') = None /\ is_open fd (mem t') = false /\
      handle_log (mem t') = handle_log (mem t) ++ [FdClosed fd ip]
  | _ => sm_find fd (conns_ t') = Some p /\ is_open fd (mem t') = true /\ handle_log (mem t') = handle_log (mem t)
  end.

Lemma here_turned t0 fd p c s a m ip t :
  Here t0 fd p c s m t -> life_mask a = Some m -> turned t0 fd p ip a t.
Proof.
  intros [Hh Hf Hs Hi Hr Ht Hl Ho] Ha. assert (is_open fd (mem t) = true).
  { unfold is_open. apply bool_decide_eq_true_2. by destruct (fds (mem t) !! fd). }
  unfold turned, lives. rewrite Hi, Ha. by destruct a.
Qed.

Lemma gone_turned t0 fd p ip t :
  Gone t0 fd t -> is_open fd (mem t) = false -> handle_log (mem t) = handle_log (mem t0) ++ [FdClosed fd ip] ->
  turned t0 fd p ip Absent t.
Proof. by intros []. Qed.

(** What closing or not makes of it. *)
Lemma close_turned t0 fd p c s m t mask b a :
  Here t0 fd p c s m t -> life_mask a = Some m ->
  exists t', close_part mask b p t = Ret t' /\
    turned t0 fd p (ip_port_ (conn_base c)) (if has EPOLLERR mask || has EPOLLHUP mask || b then Absent else a) t'.
Proof.
  intros HH Ha. destruct (here_close t0 fd p c s m t mask b HH) as (t' & -> & H). exists t'. split; [done|].
  destruct (_ || _ || _); [destruct H as (? & ? & ?); by apply gone_turned|by eapply here_turned].
Qed.

Lemma read_turned t0 now mask fd p c s m t a :
  Here t0 fd p c s m t -> life_mask a = Some m ->
  match read_call mask c s with
  | Ret r => exists t',
      (let! (s, t) := read_part now mask false p t in
       match s with Continues => Ret t | Goes should_close => close_part mask should_close p t end) = Ret t' /\
      turned t0 fd p (ip_port_ (conn_base c)) (life_turn (has EPOLLERR mask || has EPOLLHUP mask) None r a) t'
  | Fault e => read_part now mask false p t = Fault e
  end.
Proof.
  intros HH Ha. pose proof (here_read t0 now mask fd p c s m t HH) as W.
  destruct (read_call mask c s) as [r|e]; [|done]. destruct W as (t1 & c1 & s1 & -> & [= _ Hip] & H1). cbn [obind]. rewrite <- Hip.
  destruct r as [r|]; cbn in H1 |- *; [destruct r; cbn in H1 |- *|].
  all: rewrite ?andb_false_r; try (by exists t1; split; [done|]; eapply here_turned).
  all: try (edestruct (close_turned _ _ _ _ _ _ _ mask true _ H1 Ha) as (t' & -> & H); exists t'; split; [done|]; by rewrite orb_true_r in H).
  - edestruct (close_turned _ _ _ _ _ _ _ mask false Busy H1 eq_refl) as (t' & -> & H). exists t'. by rewrite orb_false_r in H.
  - edestruct (close_turned _ _ _ _ _ _ _ mask false a H1 Ha) as (t' & -> & H). exists t'. by rewrite orb_false_r, andb_true_r in *.
Qed.

Lemma conn_event_turn now mask fd p c s m t a :
  Here t fd p c s m t -> life_mask a = Some m -> is_waiting_del_ (conn_base c) = false ->
  match event_calls now mask c s with
  | Ret (w, r) => exists t', conn_event now mask p t = Ret t' /\
      turned t fd p (ip_port_ (conn_base c)) (life_turn (has EPOLLERR mask || has EPOLLHUP mask) w r a) t'
  | Fault e => conn_event now mask p t = Fault e
  end.
Proof.
  intros HH Ha Hw. unfold conn_event, event_calls. pose proof (here_local _ _ _ _ _ _ _ None HH) as H1.
  rewrite (here_deref _ _ _ _ _ _ _ H1). cbn [obind]. rewrite Hw. pose proof (here_local _ _ _ _ _ _ _ (Some p) H1) as H2.
  pose proof (here_write t now mask fd p c s m _ H2) as W.
  destruct (send_call now mask c s) as [[[w c1] s1]|e]; [|by rewrite W]. destruct W as (t3 & -> & [= _ Hip] & H3).
  cbn [obind]. rewrite <- Hip.
  destruct w as [[[| |] q]|]; cbn in H3 |- *.
  - exists t3. split; [done|]. by eapply here_turned.
  - destruct q; cbn.
    + unfold read_part. cbn [negb andb obind].
      edestruct (close_turned _ _ _ _ _ _ _ mask true Reading H3 eq_refl) as (t' & -> & H). exists t'. by rewrite orb_true_r in H.
    + pose proof (read_turned t now mask fd p c1 s1 EPOLLIN t3 Reading H3 eq_refl) as W.
      destruct (read_call mask c1 s1) as [r|e]; [|by rewrite W]. cbn [obind]. destruct W as (t' & E & H). exists t'.
      split; [exact E|]. by destruct r as [[]|].
  - unfold read_part. cbn [negb andb obind].
    edestruct (close_turned _ _ _ _ _ _ _ mask true a H3 Ha) as (t' & -> & H). exists t'. by rewrite orb_true_r in H.
  - pose proof (read_turned t now mask fd p c1 s1 m t3 a H3 Ha) as W.
    destruct (read_call mask c1 s1) as [r|e]; [|by rewrite W]. exact W.
Qed.
End life.
