(* ===== verification/WorkerTheorems.v ===== *)
(** The theorems on the worker thread and the clock of the event loops. *)
From S2P Require Import Pink Prelude Sys StdMap PinkConn PinkEpoll Cron.
From S2P Require Import ServerConns ServerFacts CronFacts WorkerThread WorkerFacts WorkerLife.

(** * A connection for the witnesses *)

(** It reads what there is, and answers with it. *)
Record EchoConn : Type := mkEcho { echo_base : PinkConn; echo_data : bytes }.

Definition echo_read (c : EchoConn) (s : sock) : outcome (ReadStatus * EchoConn * sock) :=
  let '(r, d, s) := sys_read 16384 s in
  match r with
  | IoLen n => if n =? 0 then Ret (kReadClose, c, s)
               else Ret (kReadAll, mkEcho (set_is_reply true (echo_base c)) (echo_data c ++ d), s)
  | IoErr EAGAIN => Ret (kReadHalf, c, s)
  | IoErr _ => Ret (kReadError, c, s)
  end.

Definition echo_write (c : EchoConn) (s : sock) : outcome (WriteStatus * EchoConn * sock) :=
  let '(r, s) := sys_write (echo_data c) s in
  match r with
  | IoLen n => let rest := zdrop n (echo_data c) in
               Ret (if bool_decide (rest = []) then kWriteAll else kWriteHalf, mkEcho (echo_base c) rest, s)
  | IoErr EAGAIN => Ret (kWriteHalf, c, s)
  | IoErr _ => Ret (kWriteError, c, s)
  end.

#[export] Instance echo_ops : ConnOps EchoConn := {|
  conn_base := echo_base;
  with_base f c := mkEcho (f (echo_base c)) (echo_data c);
  conn_GetRequest := echo_read;
  conn_SendReply := echo_write;
  conn_WriteResp resp c := mkEcho (echo_base c) (echo_data c ++ resp);
  conn_TryResizeBuffer := default_TryResizeBuffer;
  conn_is_reply := default_is_reply echo_base;
  conn_set_is_reply := default_set_is_reply (fun f c => mkEcho (f (echo_base c)) (echo_data c))
|}.

#[export] Instance echo_laws : ConnLaws EchoConn.
Proof.
  split; try done.
  - intros c s. simpl. unfold echo_read. repeat case_match; try done; by simplify_eq.
  - intros c s. simpl. unfold echo_write. repeat case_match; try done; by simplify_eq.
Qed.

Definition echo_factory (fd : Z) (ip : bytes) : option EchoConn := Some (mkEcho (new_PinkConn fd ip 0) []).

(** A process with nothing but the worker's pipe, and a client's connection. *)
Definition empty_world {C} : world C := mkWorld ∅ 1 [] ∅ [].
Definition client (d : bytes) : desc := mkDesc 2 (mkSock [Arrive d] [Accepts 100] []).

(** * Memory safety *)

Section steps.
Context {C : Type} {Ops : ConnOps C}.
Context (NewPinkConn : Z -> bytes -> option C).
Implicit Types t : server C.

(** The kinds of notification a connection sends about itself. *)
Definition own_kind (k : NotifyType) : Prop :=
  k = kNotiEpollout \/ k = kNotiEpollin \/ k = kNotiEpolloutAndEpollin \/ k = kNotiWrite \/ k = kNotiClose.

(** What happens to a worker and the events it has still to handle of the last batch.
    The worker polls, handles the events one by one, and runs its cron task between
    two batches; at any point other threads hand it connections, ask to kill one, take
    one over, end references they hold, and announce replies. What they do not do: kill
    all connections; announce a connection that is not in the table; take over one
    that has an event in the batch. *)
Inductive wstep : list (Z * (Z * epoll_data)) -> server C -> list (Z * (Z * epoll_data)) -> server C -> Prop :=
  | W_poll evs t : fired evs (pink_epoll_ t) -> wstep [] t evs t
  | W_event now ev evs t t' : handle_event_of NewPinkConn now ev t = Ret t' -> wstep (ev :: evs) t evs t'
  | W_cron now t t' : DoCronTask now t = Ret t' -> wstep [] t [] t'
  | W_accept evs fd ip d it t ok t' :
      fds (mem t) !! fd = None -> fd <> notify_receive_fd (pink_epoll_ t) ->
      new_PinkItem fd ip kNotiConnect = Ret it ->
      MoveConnIn_item it false (put_mem (set_fds (<[fd := d]> (fds (mem t))) (mem t)) t) = (ok, t') ->
      wstep evs t evs t'
  | W_kill evs ip t r t' : ip <> kKillAllConnsTask -> TryKillConn ip t = Ret (r, t') -> wstep evs t evs t'
  | W_move_out evs fd t r t' : (fd ∉ map fst evs) -> MoveConnOut fd t = (r, t') -> wstep evs t evs t'
  | W_release evs p l t : held (mem t) ≡ₚ p :: l -> wstep evs t evs (drop_ref p (put_mem (set_held l (mem t)) t))
  | W_notify evs fd p k it t ok t' :
      sm_find fd (conns_ t) = Some p -> own_kind k -> new_PinkItem fd [] k = Ret it ->
      MoveConnIn_item (with_conn p it) true t = (ok, t') -> wstep evs t evs t'.

Inductive wreach (t0 : server C) : list (Z * (Z * epoll_data)) -> server C -> Prop :=
  | reach_start : wreach t0 [] t0
  | reach_step evs t evs' t' : wreach t0 evs t -> wstep evs t evs' t' -> wreach t0 evs' t'.
End steps.

Section safety.
Context {C : Type} {Ops : ConnOps C} {CL : ConnLaws C}.
Context (NewPinkConn : Z -> bytes -> option C).
Hypothesis factory_fd : forall fd ip c, NewPinkConn fd ip = Some c -> fd_ (conn_base c) = fd.
Implicit Types t : server C.

Lemma new_PinkEpoll_interest rfd :
  interest (new_PinkEpoll rfd) = {[rfd := (Z.lor EPOLLIN (Z.lor EPOLLERR EPOLLHUP), DFd rfd)]}.
Proof. unfold new_PinkEpoll, PinkAddEvent, epoll_ctl_add. cbn [negb interest]. by rewrite lookup_empty. Qed.

Lemma Good_start rfd : Good [] (new_WorkerThread rfd (@empty_world C)).
Proof.
  split; simpl; try done.
  - constructor.
  - unfold refs. simpl. set_solver.
  - intros fd m p. rewrite new_PinkEpoll_interest. intros [_ ?]%lookup_singleton_Some. by simplify_eq.
  - intros fd m f. rewrite new_PinkEpoll_interest. intros [<- ?]%lookup_singleton_Some. by simplify_eq.
  - constructor.
  - intros ? ? ? []%elem_of_nil.
  - intros ? ? ? []%elem_of_nil.
  - intros p _. unfold refs. simpl. split; [set_solver|done].
Qed.

(** The queue grows at its end. *)
Lemma queue_ok_snoc t seen q i :
  queue_ok t seen q -> (forall seen', (forall fd, fd ∈ seen' -> fd ∈ seen \/ exists j, j ∈ q /\ is_connect j = true /\ item_fd j = fd) -> item_ok t seen' i) ->
  queue_ok t seen (q ++ [i]).
Proof.
  revert seen. induction q as [|j q IH]; intros seen; simpl; intros H Hi.
  - split; [|done]. apply Hi. auto.
  - destruct H as [Hj Hq]. split; [done|]. apply IH; [done|]. intros seen' Hs. apply Hi.
    intros fd Hfd. destruct (Hs fd Hfd) as [Hx|(j' & ? & ?)]; [|right; exists j'; set_solver].
    destruct (is_connect j) eqn:Ej; [|by left]. apply elem_of_cons in Hx as [->|Hx]; [right; exists j; set_solver|by left].
Qed.

(** What holds of the connect items of a good queue. *)
Lemma queue_ok_connect t seen q j :
  queue_ok t seen q -> j ∈ q -> is_connect j = true ->
  sm_find (item_fd j) (conns_ t) = None /\ is_open (item_fd j) (mem t) = true.
Proof.
  revert seen. induction q as [|i q IH]; intros seen; simpl; [set_solver|]. intros [Hi Hq] [->|Hin]%elem_of_cons Hc.
  - unfold is_connect, item_ok in *. apply bool_decide_eq_true in Hc. rewrite Hc in Hi. naive_solver.
  - by apply (IH _ Hq).
Qed.

(** An item that is in order joins the pipe. *)
Lemma Inv_push evs i t :
  (forall p, item_conn i = Some p -> p ∈ refs t) ->
  (forall seen, (forall fd, fd ∈ seen -> exists j, j ∈ notify_queue (pink_epoll_ t) /\ is_connect j = true /\ item_fd j = fd) -> item_ok t seen i) ->
  Good evs t -> Good evs (MoveConnIn_item i true t).2.
Proof.
  intros Hp Hi []. unfold Good, MoveConnIn_item, Register. simpl. set (t' := put_epoll _ t).
  assert (Hr : forall p, p ∈ refs t' -> p ∈ refs t).
  { intros p. unfold refs. simpl. rewrite omap_app, !elem_of_app. intros [H|[H|[H|H]]]; auto. simpl in H.
    destruct (item_conn i) as [p'|]; [|set_solver]. apply list_elem_of_singleton in H as ->.
    specialize (Hp p' eq_refl). unfold refs in Hp. by rewrite !elem_of_app in Hp. }
  split; auto.
  - apply (queue_ok_ext t); try done. apply queue_ok_snoc; [done|]. intros seen Hs. apply Hi.
    intros fd Hfd. destruct (Hs fd Hfd) as [Hx|?]; [set_solver|done].
  - intros p Hn. destruct (i_next p Hn) as [? ?]. split; [|done]. intros Hx. by apply Hr in Hx.
Qed.

Lemma find_addr_elem ip l w p : find_addr ip l w = Ret (Some p) -> exists fd, (fd, p) ∈ l.
Proof.
  induction l as [|[fd q] l IH]; simpl; [done|]. intros H. apply obind_ret_inv in H as (c & _ & H).
  case_bool_decide; [injection H as ->; exists fd; set_solver|]. destruct (IH H) as [fd' ?]. exists fd'. set_solver.
Qed.

Lemma find_addr_safe evs q t ip l :
  Inv evs q t -> (forall x, x ∈ l -> x ∈ conns_ t) -> safe (find_addr ip l (mem t)) (fun _ => True).
Proof.
  intros HI. induction l as [|[fd p] l IH]; simpl; intros Hl; [done|].
  destruct (i_live _ _ _ HI p) as [fd' Hat].
  { unfold refs. rewrite elem_of_app. left. apply list_elem_of_fmap. exists (fd, p). split; [done|]. apply Hl. by left. }
  destruct (fd_at_deref _ _ _ Hat) as (c & _ & -> & _). cbn [obind]. case_bool_decide; [done|].
  apply IH. intros x Hx. apply Hl. by right.
Qed.

Lemma kill_safe evs mark ip t :
  ip <> kKillAllConnsTask -> Good evs t -> safe (kill_conn mark ip t) (fun '(_, t') => Good evs t').
Proof.
  intros Hip HG. unfold kill_conn. rewrite bool_decide_eq_false_2 by done.
  pose proof (find_addr_safe evs _ t ip (conns_ t) HG ltac:(done)) as Hsafe.
  destruct (find_addr ip (conns_ t) (mem t)) as [[p|]|e] eqn:Ef; cbn [obind]; [|done|done].
  apply find_addr_elem in Ef as [fd Hin].
  assert (Hlive : is_Some (fd_at (mem t) p)).
  { apply (i_live _ _ _ HG). unfold refs. rewrite elem_of_app. left. apply list_elem_of_fmap. by exists (fd, p). }
  assert (Hins : forall t1, Good evs t1 -> Good evs (put_deleting ({[ip]} ∪ deleting_conn_ipport_ t1) t1)).
  { intros t1 H1. apply (Inv_frame _ _ t1); try done. simpl. pose proof (i_kill _ _ _ H1). set_solver. }
  destruct mark; cbn [obind]; [|by apply Hins].
  destruct (modify_conn_inv evs _ delayed_del p t ltac:(done) Hlive HG) as (t1 & -> & H1 & _ & _ & He & _).
  cbn [obind]. apply Hins. unfold Good. by rewrite He.
Qed.

(** ** The steps *)

Lemma accept_good evs fd ip d it t ok t' :
  fds (mem t) !! fd = None -> fd <> notify_receive_fd (pink_epoll_ t) -> new_PinkItem fd ip kNotiConnect = Ret it ->
  MoveConnIn_item it false (put_mem (set_fds (<[fd := d]> (fds (mem t))) (mem t)) t) = (ok, t') ->
  Good evs t -> Good evs t'.
Proof.
  intros Hfree Hrfd Hit Hmv HG.
  assert (Hclosed : is_open fd (mem t) = false) by (unfold is_open; rewrite Hfree; done).
  unfold new_PinkItem in Hit. destruct (_ <? _); [|done]. injection Hit as <-.
  change t' with ((ok, t').2). rewrite <- Hmv. apply Inv_push; [done| |].
  - intros seen Hseen. unfold item_ok. simpl. split_and!; try done.
    + destruct (sm_find fd (conns_ t)) as [p|] eqn:E; [|done]. apply (i_open _ _ _ HG) in E. congruence.
    + intros (j & Hj & Hjc & Hjf)%Hseen. destruct (queue_ok_connect t [] _ j (i_queue _ _ _ HG) Hj Hjc) as [_ Ho].
      rewrite Hjf in Ho. congruence.
    + unfold is_open. simpl. by rewrite lookup_insert_eq.
  - apply (Inv_frame_open evs _ t); try done; [|apply (i_kill _ _ _ HG)].
    intros fd' Ho. unfold is_open in *. simpl. apply bool_decide_eq_true in Ho. apply bool_decide_eq_true.
    apply lookup_insert_is_Some'. by right.
Qed.

Lemma notify_good evs fd p k it t ok t' :
  sm_find fd (conns_ t) = Some p -> own_kind k -> new_PinkItem fd [] k = Ret it ->
  MoveConnIn_item (with_conn p it) true t = (ok, t') -> Good evs t -> Good evs t'.
Proof.
  intros Hp Hk Hit Hmv HG. unfold new_PinkItem in Hit. destruct (_ <? _); [|done]. injection Hit as <-.
  change t' with ((ok, t').2). rewrite <- Hmv. apply (Inv_push evs (with_conn p (mkItem fd [] k None))); [| |done].
  - intros p' [= <-]. by eapply refs_conns.
  - intros seen _. pose proof (i_fd _ _ _ HG _ _ Hp) as Hat.
    assert (fd <> notify_receive_fd (pink_epoll_ t)) by (pose proof (i_rfd _ _ _ HG); congruence).
    unfold item_ok. simpl. destruct Hk as [->|[->|[->|[->| ->]]]]; try done; exists p, fd; auto.
Qed.

Lemma cron_good now t : Good [] t -> safe (DoCronTask now t) (Good []).
Proof.
  intros HG. pose proof (cron_task_spec (fun e => e <> UseAfterFree) true now) as H. unfold DoCronTask.
  specialize (H ltac:(intros c; pose proof (TryResizeBuffer_id now c); by destruct (conn_TryResizeBuffer now c)) _ t ltac:(done) HG).
  destruct (cron_task true now t); simpl in *; [|congruence]. destruct H as (_ & H & Hq). unfold Good. by rewrite Hq.
Qed.

Lemma wstep_good evs t evs' t' : Good evs t -> wstep NewPinkConn evs t evs' t' -> Good evs' t'.
Proof.
  intros HG Hs. destruct Hs as [evs t Hf|now ev evs t t' He|now t t' Hc|evs fd ip d it t ok t' Hfree Hrfd Hit Hmv
    |evs ip t r t' Hip Hk|evs fd t r t' Hev Hm|evs p l t Hh|evs fd p k it t ok t' Hp Hk Hit Hmv].
  - by apply fired_good.
  - pose proof (handle_event_good NewPinkConn factory_fd now ev evs t HG) as H. by rewrite He in H.
  - pose proof (cron_good now t HG) as H. by rewrite Hc in H.
  - by eapply accept_good.
  - pose proof (kill_safe evs true ip t Hip HG) as H. unfold TryKillConn in Hk. by rewrite Hk in H.
  - unfold MoveConnOut in Hm. destruct (sm_find fd (conns_ t)) as [p|] eqn:Hp; [|by injection Hm as <- <-].
    injection Hm as <- <-. unfold PinkDelEvent. unfold Good. simpl. rewrite epoll_ctl_del_eq.
    apply (leave_one_inv evs _ fd p t); try done. by apply (i_kill _ _ _ HG).
  - apply drop_ref_inv; [done|]. apply (Inv_frame _ _ t); try done. apply (i_kill _ _ _ HG).
  - by eapply notify_good.
Qed.

Lemma wreach_good rfd evs t : wreach NewPinkConn (new_WorkerThread rfd empty_world) evs t -> Good evs t.
Proof. induction 1; [by eapply Good_start|by eapply wstep_good]. Qed.

Lemma cleanup_safe t : Good [] t -> Cleanup t <> Fault UseAfterFree.
Proof.
  intros HG. unfold Cleanup. destruct (CloseFds_spec (map snd (conns_ t)) (put_conns [] t)) as (t' & -> & _); [|done].
  intros p ([fd p'] & -> & Hin)%list_elem_of_fmap. destruct (table_ids _ _ _ (Inv_table _ _ _ HG) Hin) as [ip Hid]. simpl. by rewrite Hid.
Qed.

(** In every round the poller reports what can have fired. *)
Fixpoint rounds_fired (i : Z) (rounds : list (timeval * list (Z * (Z * epoll_data)))) (k : clock) t : Prop :=
  match rounds with
  | [] => True
  | (tm, evs) :: rounds =>
      match loop_head i tm k t with
      | Ret (k, t) =>
          fired evs (pink_epoll_ t) /\
          match handle_events NewPinkConn (tv_sec (c_now k)) evs t with Ret t => rounds_fired i rounds k t | Fault _ => True end
      | Fault _ => True
      end
  end.

Lemma worker_iterations_good i rounds k t :
  rounds_fired i rounds k t -> Good [] t -> safe (iterations NewPinkConn i rounds k t) (fun '(_, t') => Good [] t').
Proof.
  revert k t. induction rounds as [|[tm evs] rounds IH]; intros k t Hf HG; [done|]. cbn [rounds_fired iterations] in *.
  unfold iteration. assert (Hh : safe (loop_head i tm k t) (fun '(_, t') => Good [] t')).
  { unfold loop_head. destruct (cron_head i tm k) as [[] k']; [|done]. cbv iota. pose proof (cron_good (tv_sec tm) t HG) as H.
    by destruct (DoCronTask (tv_sec tm) t). }
  destruct (loop_head i tm k t) as [[k1 t1]|]; [|exact Hh]. cbn [obind]. destruct Hf as [Hev Hf]. simpl in Hh.
  pose proof (handle_events_good NewPinkConn factory_fd (tv_sec (c_now k1)) evs t1 (fired_good _ _ Hev Hh)) as H.
  destruct (handle_events NewPinkConn (tv_sec (c_now k1)) evs t1) as [t2|]; [|exact H]. cbn [obind]. by apply IH.
Qed.
End safety.

(** C15: no reachable worker follows a pointer to a connection that is gone.
    Starting from the constructor, the worker polls, handles the events of a batch one
    by one and runs its cron task between batches, while at every point in between
    other threads accept connections, ask to kill one of them, move connections out,
    end references they hold and announce replies. In every state reached this way,
    with the events [evs] of the batch still to handle: the invariant of the table
    holds, and the next event does not stop with a use after free; between two batches
    neither do the cron task, the final clean-up and the rest of the thread as a whole.
    An event is one step. The steps leave out what breaks it, which other threads can
    do: killing all connections at once ([kill_all_use_after_free]), announcing a
    connection that has left the table ([stale_notification_use_after_free]), and
    moving out a connection that has an event in the batch
    ([moved_out_use_after_free]). *)
Theorem worker_memory_safe {C} {Ops : ConnOps C} {CL : ConnLaws C} NewPinkConn rfd evs t :
  (forall fd ip c, NewPinkConn fd ip = Some c -> fd_ (conn_base c) = fd) ->
  wreach NewPinkConn (new_WorkerThread rfd empty_world) evs t ->
  Good evs t /\
  (forall now ev evs', evs = ev :: evs' -> handle_event_of NewPinkConn now ev t <> Fault UseAfterFree) /\
  (evs = [] ->
   (forall now, DoCronTask now t <> Fault UseAfterFree) /\ Cleanup t <> Fault UseAfterFree /\
   (forall cron_interval_ start rounds, rounds_fired NewPinkConn cron_interval_ rounds (start_clock cron_interval_ start) t ->
      ThreadMain NewPinkConn cron_interval_ start rounds t <> Fault UseAfterFree)).
Proof.
  intros Hfac Hr. pose proof (wreach_good NewPinkConn Hfac rfd evs t Hr) as HG.
  split; [done|]. split.
  { intros now ev evs' -> E. pose proof (handle_event_good NewPinkConn Hfac now ev evs' t HG) as H. by rewrite E in H. }
  intros ->. split_and!.
  - intros now E. pose proof (cron_good now t HG) as H. by rewrite E in H.
  - by apply cleanup_safe.
  - intros i start rounds Hf E. pose proof (worker_iterations_good NewPinkConn Hfac i rounds _ t Hf HG) as H. unfold ThreadMain in E.
    destruct (iterations NewPinkConn i rounds _ t) as [[k1 t1]|]; simpl in *; [|congruence].
    pose proof (cleanup_safe t1 H) as Hc. by destruct (Cleanup t1) as [t2|e]; simpl in *; [|injection E as ->].
Qed.

(** A client of the echo server that connects. *)
Definition accept_client (fd : Z) (ip d : bytes) (t : server EchoConn) : server EchoConn :=
  (MoveConnIn_item (mkItem fd ip kNotiConnect None) false
     (put_mem (set_fds (<[fd := client d]> (fds (mem t))) (mem t)) t)).2.

(** The state after some events, for runs that end. *)
Definition after (evs : list (Z * (Z * epoll_data))) (t : server EchoConn) : server EchoConn :=
  match handle_events echo_factory 5 evs t with Ret t' => t' | Fault _ => t end.

Definition pipe_event : Z * (Z * epoll_data) := (3, (EPOLLIN, DFd 3)).
Definition start_echo : server EchoConn := new_WorkerThread 3 empty_world.
Definition one_client : server EchoConn := after [pipe_event] (accept_client 7 (bs "1.2.3.4:5") (bs "hello") start_echo).

Lemma pipe_fired (t : server EchoConn) : interest (pink_epoll_ t) !! 3 = Some (25, DFd 3) -> fired [pipe_event] (pink_epoll_ t).
Proof. intros Hi. split; [by repeat constructor; set_solver|]. repeat constructor. by exists 25. Qed.

(** An accepted client whose connection the worker has made. *)
Lemma accepted_reach fd ip d t :
  wreach echo_factory start_echo [] t -> fds (mem t) !! fd = None -> fd <> notify_receive_fd (pink_epoll_ t) ->
  zlen ip < IP_PORT_SIZE -> let t1 := accept_client fd ip d t in
  interest (pink_epoll_ t1) !! 3 = Some (25, DFd 3) ->
  handle_events echo_factory 5 [pipe_event] t1 = Ret (after [pipe_event] t1) ->
  wreach echo_factory start_echo [] (after [pipe_event] t1).
Proof.
  intros Ht Hfd Hne Hip t1 Hi He. eapply reach_step; [eapply reach_step; [eapply reach_step; [exact Ht|]|]|].
  - eapply (W_accept _ [] fd ip (client d) (mkItem fd ip kNotiConnect None)); [done|done| |reflexivity].
    unfold new_PinkItem. by rewrite (proj2 (Z.ltb_lt _ _) Hip).
  - by apply W_poll, pipe_fired.
  - apply (W_event _ 5). cbn [handle_events] in He. by destruct (handle_event_of _ _ _ _).
Qed.

Lemma one_client_reach : wreach echo_factory start_echo [] one_client.
Proof. apply (accepted_reach 7 (bs "1.2.3.4:5") (bs "hello") start_echo); [apply reach_start|by vm_compute..]. Qed.

Lemma one_client_good : Good [] one_client.
Proof. apply (wreach_good echo_factory) with 3; [by intros fd ip c [= <-]|apply one_client_reach]. Qed.

(** Two clients: when the poller has reported the first, another thread takes over the
    second and ends it. *)
Definition two_clients : server EchoConn := after [pipe_event] (accept_client 8 (bs "5.6.7.8:9") (bs "other") one_client).
Definition second_moved : server EchoConn := (MoveConnOut 8 two_clients).2.
Definition second_ended : server EchoConn := drop_ref 2 (put_mem (set_held [] (mem second_moved)) second_moved).

Lemma second_ended_reach : wreach echo_factory start_echo [(7, (EPOLLIN, DPtr 1))] second_ended.
Proof.
  eapply reach_step; [eapply reach_step; [eapply reach_step; [apply (accepted_reach 8 (bs "5.6.7.8:9") (bs "other") one_client); [apply one_client_reach|by vm_compute..]|]|]|].
  - apply (W_poll _ [(7, (EPOLLIN, DPtr 1))]). split; [by repeat constructor; set_solver|]. repeat constructor. exists EPOLLIN. by split.
  - apply (W_move_out _ _ 8 _ (Some 2) second_moved); [set_solver|by vm_compute].
  - apply (W_release _ _ 2 []). by vm_compute.
Qed.

Lemma worker_memory_safe_witness :
  heap (mem second_ended) !! 2 = None /\ Good [(7, (EPOLLIN, DPtr 1))] second_ended /\
  (forall now, handle_event_of echo_factory now (7, (EPOLLIN, DPtr 1)) second_ended <> Fault UseAfterFree) /\
  (forall now, DoCronTask now one_client <> Fault UseAfterFree) /\
  ThreadMain echo_factory 0 (mkTime 0 0) [(mkTime 1 0, [(7, (EPOLLIN, DPtr 1))])] one_client <> Fault UseAfterFree.
Proof.
  destruct (worker_memory_safe echo_factory 3 _ _ ltac:(by intros fd ip c [= <-]) second_ended_reach) as (HG & He & _).
  destruct (worker_memory_safe echo_factory 3 _ _ ltac:(by intros fd ip c [= <-]) one_client_reach) as (_ & _ & Hr).
  destruct (Hr eq_refl) as (Hc & _ & Hm).
  split; [by vm_compute|]. split; [exact HG|]. split; [intros now; by eapply He|]. split; [exact Hc|]. apply Hm. cbn [rounds_fired].
  change (loop_head 0 (mkTime 1 0) (start_clock 0 (mkTime 0 0)) one_client) with (Ret (start_clock 0 (mkTime 0 0), one_client)). cbv iota.
  split; [|by destruct (handle_events _ _ _ _)]. split; [by repeat constructor; set_solver|].
  repeat constructor. exists EPOLLIN; by split.
Defined.

(** Moving out a connection that the poller has reported is a use after free.
    [MoveConnOut] takes it out of the table and the poller, but the batch still has
    its address: when the new owner, or nobody, keeps it, the event reads the dead
    object. *)
Theorem moved_out_use_after_free {C} {Ops : ConnOps C} NewPinkConn now mask fd p (t : server C) :
  Good [] t -> fired [(fd, (mask, DPtr p))] (pink_epoll_ t) ->
  (p ∉ option_list (in_conn_ t) ++ omap item_conn (notify_queue (pink_epoll_ t)) ++ held (mem t)) ->
  exists t1, MoveConnOut fd t = (Some p, t1) /\ held (mem t1) = p :: held (mem t) /\
    handle_event_of NewPinkConn now (fd, (mask, DPtr p)) (drop_ref p (put_mem (set_held (held (mem t)) (mem t1)) t1)) =
      Fault UseAfterFree.
Proof.
  intros HG [_ Hf] Hn. apply Forall_cons in Hf as [(m & Hm & _) _]. pose proof (i_watch _ _ _ HG _ _ _ Hm) as Hp.
  unfold MoveConnOut. rewrite Hp. eexists. split; [done|]. split; [done|].
  match goal with |- handle_event_of _ _ _ ?x = _ => set (t2 := x) end.
  assert (Hdead : heap (mem t2) !! p = None).
  { unfold t2. simpl. unfold release. rewrite bool_decide_eq_false_2; [simpl; apply lookup_delete_eq|].
    unfold refs. simpl. unfold PinkDelEvent. rewrite epoll_ctl_del_eq. simpl. rewrite !elem_of_app in *.
    intros [[H|H]|H]; [|tauto..]. apply list_elem_of_fmap in H as ([fd' p'] & -> & Hin). simpl in *.
    assert (Hs : sm_sorted (sm_erase fd (conns_ t))) by (apply sm_erase_sorted, (i_sorted _ _ _ HG)).
    apply (sm_find_elem _ _ _ Hs) in Hin. destruct (decide (fd' = fd)) as [->|Hne];
      [by rewrite sm_find_erase_eq in Hin by apply (i_sorted _ _ _ HG)|].
    rewrite sm_find_erase_ne in Hin by (done || apply (i_sorted _ _ _ HG)).
    pose proof (i_fd _ _ _ HG _ _ Hin). pose proof (i_fd _ _ _ HG _ _ Hp). congruence. }
  cbn [handle_event_of]. unfold conn_event, deref. destruct (assign_in_conn_world t2) as (_ & _ & H). by rewrite H.
Qed.

Lemma moved_out_use_after_free_witness :
  exists t1, MoveConnOut 7 one_client = (Some 1, t1) /\ held (mem t1) = [1] /\
    handle_event_of echo_factory 5 (7, (EPOLLIN, DPtr 1)) (drop_ref 1 (put_mem (set_held [] (mem t1)) t1)) = Fault UseAfterFree.
Proof.
  apply (moved_out_use_after_free echo_factory 5 EPOLLIN 7 1 one_client); [apply one_client_good| |vm_compute; set_solver].
  split; [by repeat constructor; set_solver|]. repeat constructor. exists EPOLLIN. by split.
Defined.

(** * The life of a connection *)

(** What a good state says of a connection that the poller reports. *)
Lemma good_here {C} {Ops : ConnOps C} fd mask p c (t : server C) :
  Good [] t -> fired [(fd, (mask, DPtr p))] (pink_epoll_ t) -> heap (mem t) !! p = Some c ->
  exists m, Here t fd p c (sock_of fd (mem t)) m t /\ Z.land mask (Z.lor m (Z.lor EPOLLERR EPOLLHUP)) = mask.
Proof.
  intros HG [_ Hf] Hc. apply Forall_cons in Hf as [(m & Hm & Hmask) _]. exists m. split; [|done].
  pose proof (i_watch _ _ _ HG _ _ _ Hm) as Hp. pose proof (i_fd _ _ _ HG _ _ Hp) as Hat.
  unfold fd_at in Hat. rewrite Hc in Hat. injection Hat as Hat.
  pose proof (i_open _ _ _ HG _ _ Hp) as Ho. unfold is_open in Ho. apply bool_decide_eq_true in Ho as [d Hd].
  split; try done; [unfold sock_of; by rewrite Hd|apply (i_sorted _ _ _ HG)].
Qed.

(** A fired mask has only bits that were asked for, or an error. *)
Lemma fired_has mask m bit :
  Z.land mask (Z.lor m (Z.lor EPOLLERR EPOLLHUP)) = mask -> Z.land m bit = 0 ->
  Z.land (Z.lor EPOLLERR EPOLLHUP) bit = 0 -> has bit mask = false.
Proof.
  intros <- H1 H2. unfold has. rewrite <- Z.land_assoc, Z.land_lor_distr_l, H1, H2. by rewrite Z.lor_0_l, Z.land_0_r.
Qed.

(** C16: what an event does to a connection of the worker is the transition
    [life_turn] of a machine of five states, by what the connection waits for. For
    every connection [c] that is not being deleted, in state [a], and every mask that
    the poller may report for it: the event makes exactly the calls [event_calls] on
    [c] and its stream, none of them when [c] waits for nothing and no sending when it
    waits for a request; it fails only if one of them fails; otherwise the next state is the
    one that their results determine. A complete request leaves it waiting for
    nothing, a reply that is out leaves it waiting for a request, one sent or read in
    part leaves it as it was, and the rest closes it: its descriptor is closed, its
    entry gone and the handle told once. What the poller waits for on other
    descriptors does not change, and the invariant of the table is kept. *)
Theorem worker_refines {C} {Ops : ConnOps C} {CL : ConnLaws C} NewPinkConn now fd mask p c (t : server C) a :
  (forall fd ip c, NewPinkConn fd ip = Some c -> fd_ (conn_base c) = fd) ->
  Good [] t -> fired [(fd, (mask, DPtr p))] (pink_epoll_ t) -> lives t fd a ->
  heap (mem t) !! p = Some c -> is_waiting_del_ (conn_base c) = false ->
  (a = Busy -> event_calls now mask c (sock_of fd (mem t)) = Ret (None, None)) /\
  (a = Reading -> has EPOLLOUT mask = false) /\
  match event_calls now mask c (sock_of fd (mem t)) with
  | Ret (w, r) => exists t', handle_events NewPinkConn now [(fd, (mask, DPtr p))] t = Ret t' /\ Good [] t' /\
      turned t fd p (ip_port_ (conn_base c)) (life_turn (has EPOLLERR mask || has EPOLLHUP mask) w r a) t'
  | Fault e => handle_events NewPinkConn now [(fd, (mask, DPtr p))] t = Fault e
  end.
Proof.
  intros Hfac HG Hf Ha Hc Hw. destruct (good_here _ _ _ _ _ HG Hf Hc) as (m & HH & Hmask).
  pose proof (handle_events_good NewPinkConn Hfac now _ t (fired_good _ _ Hf HG)) as HG'.
  unfold lives in Ha. rewrite (hr_watch _ _ _ _ _ _ _ HH) in Ha. simpl in Ha. symmetry in Ha.
  split_and!.
  - intros ->. injection Ha as <-. unfold event_calls, send_call, read_call.
    rewrite (fired_has mask 0 EPOLLOUT), (fired_has mask 0 EPOLLIN) by done. done.
  - intros ->. injection Ha as <-. by apply (fired_has mask EPOLLIN).
  - pose proof (conn_event_turn now mask fd p c _ m t a HH Ha Hw) as W. cbn [handle_events handle_event_of] in *.
    destruct (event_calls _ _ _ _) as [[w r]|e]; [|by rewrite W].
    destruct W as (t' & W & Ht). rewrite W in *. cbn [obind] in *. by exists t'.
Qed.

Lemma worker_refines_witness :
  exists t', handle_events echo_factory 9 [(7, (EPOLLIN, DPtr 1))] one_client = Ret t' /\ Good [] t' /\
    turned one_client 7 1 (bs "1.2.3.4:5") Busy t'.
Proof.
  destruct (worker_refines echo_factory 9 7 EPOLLIN 1 (mkEcho (SetNonblock 2050 (new_PinkConn 7 (bs "1.2.3.4:5") 0)).2 []) one_client Reading)
    as (_ & _ & t' & H1 & H2 & H3); [by intros fd ip c [= <-]|apply one_client_good| |by vm_compute|by vm_compute|by vm_compute|].
  - split; [by repeat constructor; set_solver|]. repeat constructor. by exists 1.
  - exists t'. split; [exact H1|]. split; [exact H2|exact H3].
Defined.

(** * The cron task *)

(** C17: a cron task closes exactly what it should. When no request to kill all
    connections is pending and every [TryResizeBuffer] returns, the task ends;
    of the table it keeps, in order, the connections that are neither the first
    with an address to kill nor silent for longer than the time-out; the
    descriptors of the others, and no others, are closed and no longer watched;
    the handle is told of each killed connection and then, twice, of each expired
    one, in the order of their descriptors; an address found is forgotten. *)
Theorem cron_closes_exactly {C} {Ops : ConnOps C} {CL : ConnLaws C} now t :
  Good [] t -> (forall c : C, exists c', conn_TryResizeBuffer now c = Ret c') ->
  exists t', DoCronTask now t = Ret t' /\ cron_done now t t' /\ Good [] t'.
Proof.
  intros HG Hres. pose proof (cron_task_spec (fun _ => False) true now) as H. unfold DoCronTask.
  specialize (H ltac:(intros c; pose proof (TryResizeBuffer_id now c) as Hid; destruct (Hres c) as [c' Hc];
    by rewrite Hc in *) _ t ltac:(done) HG).
  destruct (cron_task true now t) as [t'|]; [|done]. destruct H as (H1 & H2 & Hq).
  exists t'. split_and!; [done|done|]. unfold Good. by rewrite Hq.
Qed.

(** The client falls silent for two minutes. *)
Lemma cron_closes_exactly_witness :
  exists t', DoCronTask 120 one_client = Ret t' /\ cron_done 120 one_client t' /\ Good [] t'.
Proof. apply cron_closes_exactly; [apply one_client_good|intros c; by exists c]. Defined.

(** A reference that is the last ends the object. *)
Lemma drop_refs_dead {C} l p (t : server C) :
  p ∈ l -> (p ∉ refs t ++ held (mem t)) -> heap (mem (drop_refs l t)) !! p = None.
Proof.
  unfold drop_refs. revert t. induction l as [|q l IH]; intros t; [set_solver|]. intros Hin Hn. simpl.
  assert (Hkeep : forall t0 : server C, heap (mem t0) !! p = None ->
    heap (mem (fold_left (fun t p => drop_ref p t) l t0)) !! p = None).
  { clear. induction l as [|q l IH]; intros t0 H; simpl; [done|]. apply IH. simpl. by apply release_heap. }
  apply elem_of_cons in Hin as [<-|Hin].
  - apply Hkeep. simpl. unfold release. rewrite bool_decide_eq_false_2 by done. simpl. apply lookup_delete_eq.
  - apply IH; [done|]. simpl. unfold refs. simpl. unfold release. case_bool_decide; exact Hn.
Qed.

(** Killing all connections is a use after free. [DoCronTask] empties the
    table and returns before it closes anything: the last reference to a
    connection that nobody else holds is gone while its descriptor is open and
    its address is still with the poller, and the user's handle is told nothing.
    The next event of that descriptor, a hang-up that is always reported, reads
    the dead object. *)
Theorem kill_all_use_after_free {C} {Ops : ConnOps C} {CL : ConnLaws C} now now' fd m p (t : server C) :
  Good [] t -> interest (pink_epoll_ t) !! fd = Some (m, DPtr p) ->
  (p ∉ option_list (in_conn_ t) ++ omap item_conn (notify_queue (pink_epoll_ t)) ++ held (mem t)) ->
  exists t1 t2, TryKillConn kKillAllConnsTask t = Ret (true, t1) /\ DoCronTask now t1 = Ret t2 /\
    is_open fd (mem t2) = true /\ handle_log (mem t2) = handle_log (mem t) /\
    fired [(fd, (EPOLLHUP, DPtr p))] (pink_epoll_ t2) /\
    conn_event now' EPOLLHUP p t2 = Fault UseAfterFree.
Proof.
  intros HG Hw Hn. pose proof (i_watch _ _ _ HG _ _ _ Hw) as Hp.
  unfold TryKillConn, kill_conn. rewrite bool_decide_eq_true_2 by done.
  set (t1 := put_deleting _ t). exists t1. unfold DoCronTask, cron_task.
  rewrite bool_decide_eq_true_2 by (unfold t1; simpl; set_solver).
  set (t2 := drop_refs _ _). exists t2.
  destruct (drop_refs_spec (map snd (conns_ t1)) (put_deleting ∅ (put_conns [] t1)))
    as (D1 & _ & D3 & D4 & D5 & _ & D7 & _). fold t2 in D1, D3, D4, D5, D7.
  split_and!; try done.
  - unfold is_open. rewrite D5. apply (i_open _ _ _ HG _ _ Hp).
  - split; [by repeat constructor; set_solver|]. rewrite D4. repeat constructor. exists m. split; [done|].
    unfold EPOLLHUP, EPOLLERR. rewrite Z.land_lor_distr_r. change (Z.land 16 (Z.lor 8 16)) with 16.
    apply Z.bits_inj. intros i. rewrite Z.lor_spec, Z.land_spec. destruct (Z.testbit 16 i); [apply orb_true_r|done].
  - assert (Hdead : heap (mem t2) !! p = None).
    { apply drop_refs_dead.
      - simpl. apply list_elem_of_fmap. exists (fd, p). split; [done|]. by apply sm_find_elem_1.
      - unfold refs. simpl. rewrite !elem_of_app in *. tauto. }
    unfold conn_event, deref. destruct (assign_in_conn_world t2) as (_ & _ & H). by rewrite H.
Qed.

Lemma kill_all_use_after_free_witness :
  exists t1 t2, TryKillConn kKillAllConnsTask one_client = Ret (true, t1) /\ DoCronTask 10 t1 = Ret t2 /\
    is_open 7 (mem t2) = true /\ handle_log (mem t2) = handle_log (mem one_client) /\
    fired [(7, (EPOLLHUP, DPtr 1))] (pink_epoll_ t2) /\
    conn_event 11 EPOLLHUP 1 t2 = Fault UseAfterFree.
Proof.
  apply (kill_all_use_after_free 10 11 7 EPOLLIN 1 one_client); [apply one_client_good|done|].
  vm_compute. set_solver.
Defined.

(** A late notification is a use after free. A connection [p1] has been
    closed and its descriptor given to a new connection [p2]; the task that still
    held [p1] announces its reply and lets go. The worker then makes the poller
    report [p1] for the descriptor of [p2], and the announcement was the last
    reference: the next event of the new client reads the dead object. *)
Theorem stale_notification_use_after_free {C} {Ops : ConnOps C} {CL : ConnLaws C} NewPinkConn now mask fd m p1 p2
    ti (t : server C) :
  sm_find fd (conns_ t) = Some p2 -> interest (pink_epoll_ t) !! fd = Some (m, DPtr p2) ->
  notify_queue (pink_epoll_ t) = [ti] -> item_notify_type ti = kNotiEpolloutAndEpollin ->
  item_conn ti = Some p1 -> fd_at (mem t) p1 = Some fd ->
  (p1 ∉ map snd (conns_ t) ++ option_list (in_conn_ t) ++ held (mem t)) ->
  exists t', notify_event NewPinkConn EPOLLIN t = Ret t' /\
    sm_find fd (conns_ t') = Some p2 /\
    interest (pink_epoll_ t') !! fd = Some (Z.lor EPOLLOUT EPOLLIN, DPtr p1) /\
    conn_event now mask p1 t' = Fault UseAfterFree.
Proof.
  intros Hp2 Hw Hq Hty Hti Hat Hn. destruct (fd_at_deref _ _ _ Hat) as (c & _ & Hd & Hf).
  unfold notify_event. rewrite Hq. cbn. rewrite Hq. unfold handle_item, item_event, item_target.
  rewrite Hty, Hti. cbn [obind]. rewrite Hd. cbn [obind]. rewrite Hf.
  unfold PinkModEvent_conn, epoll_ctl_mod. rewrite Hw. cbn [snd]. eexists. split; [reflexivity|].
  split; [done|]. split; [simpl; apply lookup_insert_eq|].
  match goal with |- conn_event _ _ _ ?t0 = _ => set (t1 := t0) end.
  assert (Hdead : heap (mem t1) !! p1 = None).
  { unfold t1. simpl. unfold release. rewrite bool_decide_eq_false_2; [simpl; apply lookup_delete_eq|].
    unfold refs. simpl. rewrite Hq. simpl. rewrite !elem_of_app in *. set_solver. }
  unfold conn_event, deref. destruct (assign_in_conn_world t1) as (_ & _ & H). by rewrite H.
Qed.

(** The first client's request is being processed by a task that holds the
    connection; the client hangs up; another gets its descriptor; the task ends. *)
Definition hold (l : list ptr) (t : server EchoConn) : server EchoConn := put_mem (set_held l (mem t)) t.
Definition abandoned : server EchoConn :=
  after [(7, (EPOLLHUP, DPtr 1))] (hold [1] (after [(7, (EPOLLIN, DPtr 1))] one_client)).
Definition replaced : server EchoConn :=
  after [pipe_event] (accept_client 7 (bs "5.6.7.8:9") (bs "other") abandoned).
Definition announced : server EchoConn :=
  hold [] (MoveConnIn_item (mkItem 7 (bs "1.2.3.4:5") kNotiEpolloutAndEpollin (Some 1)) true replaced).2.

Lemma stale_notification_use_after_free_witness :
  exists t', notify_event echo_factory EPOLLIN announced = Ret t' /\
    sm_find 7 (conns_ t') = Some 2 /\
    interest (pink_epoll_ t') !! 7 = Some (Z.lor EPOLLOUT EPOLLIN, DPtr 1) /\
    conn_event 20 EPOLLIN 1 t' = Fault UseAfterFree.
Proof.
  apply (stale_notification_use_after_free echo_factory 20 EPOLLIN 7 EPOLLIN 1 2
    (mkItem 7 (bs "1.2.3.4:5") kNotiEpolloutAndEpollin (Some 1)) announced); try (vm_compute; reflexivity).
  vm_compute. set_solver.
Defined.

(** A killed connection that still has an event before the next cron task
    leaks. The event takes it out of the table and the poller, but nothing closes
    its descriptor or tells the handle; and its address stays on the list, so the
    cron task closes the next connection with that address instead. *)
Theorem killed_connection_leaks {C} {Ops : ConnOps C} {CL : ConnLaws C} now mask ip fd m p (t : server C) :
  Good [] t -> ip <> kKillAllConnsTask -> find_addr ip (conns_ t) (mem t) = Ret (Some p) ->
  interest (pink_epoll_ t) !! fd = Some (m, DPtr p) ->
  exists t1 t2, TryKillConn ip t = Ret (true, t1) /\ conn_event now mask p t1 = Ret t2 /\
    sm_find fd (conns_ t2) = None /\ lives t2 fd Absent /\ is_open fd (mem t2) = true /\
    handle_log (mem t2) = handle_log (mem t) /\ ip ∈ deleting_conn_ipport_ t2.
Proof.
  intros HG Hip Hfind Hw. pose proof (i_watch _ _ _ HG _ _ _ Hw) as Hp.
  destruct (fd_at_deref _ _ _ (i_fd _ _ _ HG _ _ Hp)) as (c & Hc & Hd & Hf).
  unfold TryKillConn, kill_conn. rewrite bool_decide_eq_false_2 by done. rewrite Hfind. cbn [obind].
  unfold modify_conn, on_conn. rewrite Hd. cbn [obind].
  match goal with |- exists t1 t2, Ret (true, ?x) = _ /\ _ => set (t1 := x); exists t1 end.
  assert (Hc1 : heap (mem (assign_in_conn None t1)) !! p = Some (with_base delayed_del c)).
  { transitivity (heap (mem t1) !! p); [|unfold t1; simpl; apply lookup_insert_eq].
    assert (Hr : p ∈ refs (put_in_conn None t1)) by (apply (refs_conns _ fd); unfold t1; done).
    unfold assign_in_conn. destruct (in_conn_ t1); [|done]. simpl. unfold release. case_bool_decide as Hx; [done|].
    simpl. apply lookup_delete_ne. intros ->. apply Hx. apply elem_of_app. by left. }
  assert (Hcon : conns_ (assign_in_conn None t1) = conns_ t /\
    deleting_conn_ipport_ (assign_in_conn None t1) = {[ip]} ∪ deleting_conn_ipport_ t /\
    fds (mem (assign_in_conn None t1)) = fds (mem t) /\
    handle_log (mem (assign_in_conn None t1)) = handle_log (mem t)).
  { unfold assign_in_conn. destruct (in_conn_ t1); [|done]. simpl. rewrite release_fds. unfold release.
    by case_bool_decide. }
  destruct Hcon as (Hcs & Hdl & Hfds & Hlog). unfold conn_event, deref. rewrite Hc1. cbn [obind].
  rewrite base_with_base. cbn [delayed_del is_waiting_del_]. rewrite epoll_ctl_del_eq. simpl. rewrite Hf.
  set (t2 := put_epoll _ (assign_in_conn None t1)).
  assert (Hp2 : sm_find fd (conns_ t2) = Some p) by (unfold t2; simpl; by rewrite Hcs).
  destruct (erase_conn_fields fd p t2 Hp2) as (Ec & Ee & _ & Ed & _ & Ef & _ & _).
  eexists. split; [done|]. split; [done|]. split_and!.
  - rewrite Ec. simpl. rewrite Hcs. apply sm_find_erase_eq, (i_sorted _ _ _ HG).
  - unfold lives. rewrite Ee. simpl. by rewrite lookup_delete_eq.
  - unfold is_open. rewrite Ef. simpl. rewrite Hfds. apply (i_open _ _ _ HG _ _ Hp).
  - unfold erase_conn. rewrite Hp2. simpl. unfold release. case_bool_decide; simpl; exact Hlog.
  - rewrite Ed. simpl. rewrite Hdl. set_solver.
Qed.

Lemma killed_connection_leaks_witness :
  exists t1 t2, TryKillConn (bs "1.2.3.4:5") one_client = Ret (true, t1) /\ conn_event 10 EPOLLIN 1 t1 = Ret t2 /\
    sm_find 7 (conns_ t2) = None /\ lives t2 7 Absent /\ is_open 7 (mem t2) = true /\
    handle_log (mem t2) = handle_log (mem one_client) /\ bs "1.2.3.4:5" ∈ deleting_conn_ipport_ t2.
Proof.
  apply (killed_connection_leaks 10 EPOLLIN (bs "1.2.3.4:5") 7 EPOLLIN 1 one_client);
    [apply one_client_good|done|done|done].
Defined.

(** * The clock *)

(** The cron tasks are never late, and the poller never sleeps too long.
    After a run at time [t0], with an interval of [c] milliseconds: at any later
    time [t] when [c] milliseconds have passed the head of the loop runs the tasks;
    when it does not run them the time-out it gives to the poller is between 0 and
    [c], and ends less than a millisecond after the tasks are due. *)
Theorem cron_never_late c t0 t timeout0 :
  0 < c -> valid t0 -> valid t -> usec t0 <= usec t ->
  let '(fires, k) := cron_head c t (mkClock (next_when c t0) t0 timeout0) in
  (usec t0 + c * 1000 <= usec t -> fires = true) /\
  (fires = true -> k = mkClock (next_when c t) t c) /\
  (fires = false -> 0 <= c_timeout k <= c /\ c_when k = next_when c t0 /\
     usec t + c_timeout k * 1000 < usec t0 + c * 1000 + 1000).
Proof.
  intros Hc H0 Ht Hle. unfold cron_head. rewrite (proj2 (Z.ltb_lt 0 c)) by done. simpl.
  destruct (later (next_when c t0) t) eqn:E.
  - pose proof (later_next c Hc t0 t H0 Ht E). pose proof (timeout_bounds c Hc t0 t H0 Ht Hle E) as Hb. simpl in Hb.
    split_and!; try done; simpl; [lia|]. intros _. split_and!; try done; lia.
  - split_and!; try done.
Qed.

Lemma cron_never_late_witness :
  let '(fires, k) := cron_head 1000 (mkTime 5 250000) (mkClock (next_when 1000 (mkTime 4 500000)) (mkTime 4 500000) 0) in
  (usec (mkTime 4 500000) + 1000 * 1000 <= usec (mkTime 5 250000) -> fires = true) /\
  (fires = true -> k = mkClock (next_when 1000 (mkTime 5 250000)) (mkTime 5 250000) 1000) /\
  (fires = false -> 0 <= c_timeout k <= 1000 /\ c_when k = next_when 1000 (mkTime 4 500000) /\
     usec (mkTime 5 250000) + c_timeout k * 1000 < usec (mkTime 4 500000) + 1000 * 1000 + 1000).
Proof. apply (cron_never_late 1000 (mkTime 4 500000) (mkTime 5 250000) 0); done. Defined.

(** But they may run early: the microseconds of the next run are not carried
    into its seconds, so when they overflow the tasks run as soon as the next second
    begins, however long before the interval has passed. *)
Theorem cron_fires_early c t0 timeout0 :
  0 < c -> valid t0 -> 1000000 < tv_usec t0 + Z.rem c 1000 * 1000 ->
  let t := mkTime (tv_sec t0 + Z.quot c 1000 + 1) 0 in
  (cron_head c t (mkClock (next_when c t0) t0 timeout0)).1 = true /\ usec t < usec t0 + c * 1000.
Proof.
  intros Hc H0 Hov t. destruct (quot_rem_1000 c Hc) as (q & r & Hq & Hr & Hcqr & ? & ?).
  unfold cron_head, later, next_when, usec. rewrite (proj2 (Z.ltb_lt 0 c)) by done. subst t. simpl. rewrite Hq, Hr in *.
  unfold valid in H0. rewrite (proj2 (Z.ltb_ge (tv_sec t0 + q + 1) (tv_sec t0 + q))) by lia.
  rewrite (proj2 (Z.eqb_neq (tv_sec t0 + q) (tv_sec t0 + q + 1))) by lia. simpl. split; [done|lia].
Qed.

Lemma cron_fires_early_witness :
  (cron_head 500 (mkTime 11 0) (mkClock (next_when 500 (mkTime 10 900000)) (mkTime 10 900000) 0)).1 = true /\
  usec (mkTime 11 0) < usec (mkTime 10 900000) + 500 * 1000.
Proof. apply (cron_fires_early 500 (mkTime 10 900000) 0); done. Defined.
