(* ===== verification/HolyThread.v ===== *)
(** [pink/src/holy_thread.h] and [pink/src/holy_thread.cc]: the server thread
    that accepts connections and serves them itself. *)
From S2P Require Import Pink Prelude Sys StdMap PinkConn PinkEpoll ServerConns.

Section holy.
Context {C : Type} {Ops : ConnOps C}.
(** [ConnFactory::NewPinkConn]; the result is used without a test. *)
Context (NewPinkConn : Z -> bytes -> option C).
(** [async_] *)
Context (async : bool).

(** The constructor for a port; those for addresses leave the time-out
    uninitialized, here [timeout]. *)
Definition new_HolyThread (timeout : Z) (e : PinkEpoll) (w : world C) : server C :=
  mkServer [] ∅ timeout e None w.

(** * What it repeats from the worker thread *)

Definition holy_conn_num (t : server C) : Z := conn_num t.
Definition holy_conns_info (t : server C) : outcome (list (Z * bytes * Z)) := conns_info t.
Definition holy_MoveConnOut (fd : Z) (t : server C) : option ptr * server C := MoveConnOut fd t.
Definition holy_CloseFd (p : ptr) (t : server C) : outcome (server C) := CloseFd p t.
Definition holy_Cleanup (t : server C) : outcome (server C) := Cleanup t.

(** [get_conn] *)
Definition get_conn (fd : Z) (t : server C) : option ptr := sm_find fd (conns_ t).

(** [HandleNewConn] *)
Definition HandleNewConn (connfd : Z) (ip_port : bytes) (t : server C) : outcome (server C) :=
  match NewPinkConn connfd ip_port with
  | None => Fault UseAfterFree
  | Some c =>
      let '(p, w) := alloc c (mem t) in
      let! (_, w) := conn_SetNonblock p w in
      let t := insert_conn connfd p (put_mem w t) in
      Ret (put_epoll (PinkAddEvent (is_open connfd (mem t)) connfd EPOLLIN (pink_epoll_ t)).2 t)
  end.

(** * Events *)

(** How a part of [HandleConnEvent] ends. *)
Inductive part : Type :=
  | Goes (should_close : bool)
  | Returns.

(** The asynchronous mode: a request that is complete changes nothing here. *)
Definition async_read (now mask : Z) (p : ptr) (t : server C) : outcome (part * server C) :=
  if has EPOLLIN mask then
    let! (read_status, t) := conn_call conn_GetRequest p t in
    let! t := modify_conn p (set_last_interaction now) t in
    match read_status with
    | kReadAll => Ret (Goes false, t)
    | kReadHalf => Ret (Returns, t)
    | _ => Ret (Goes true, t)
    end
  else Ret (Goes false, t).

(** What follows a [SendReply] in both modes. *)
Definition sent_reply (fd : Z) (p : ptr) (should_close : bool) (write_status : WriteStatus) (t : server C)
    : outcome (part * server C) :=
  match write_status with
  | kWriteAll =>
      let! t := on_conn (conn_set_is_reply false) p t in
      Ret (Goes should_close, put_epoll (PinkModEvent fd 0 EPOLLIN (pink_epoll_ t)).2 t)
  | kWriteHalf => Ret (Returns, t)
  | kWriteError => Ret (Goes true, t)
  end.

Definition async_write (fd mask : Z) (p : ptr) (should_close : bool) (t : server C)
    : outcome (part * server C) :=
  let! c := deref p (mem t) in
  if has EPOLLOUT mask && conn_is_reply c then
    let! (write_status, t) := conn_call conn_SendReply p t in
    sent_reply fd p should_close write_status t
  else Ret (Goes should_close, t).

(** The synchronous mode. *)
Definition sync_read (now fd mask : Z) (p : ptr) (t : server C) : outcome (part * server C) :=
  if has EPOLLIN mask then
    let! (getRes, t) := conn_call conn_GetRequest p t in
    let! t := modify_conn p (set_last_interaction now) t in
    if negb (bool_decide (getRes = kReadAll)) && negb (bool_decide (getRes = kReadHalf))
    then Ret (Goes true, t)
    else
      let! c := deref p (mem t) in
      if conn_is_reply c
      then Ret (Goes false, put_epoll (PinkModEvent fd 0 EPOLLOUT (pink_epoll_ t)).2 t)
      else Ret (Returns, t)
  else Ret (Goes false, t).

Definition sync_write (fd mask : Z) (p : ptr) (should_close : bool) (t : server C)
    : outcome (part * server C) :=
  if has EPOLLOUT mask then
    let! (write_status, t) := conn_call conn_SendReply p t in
    sent_reply fd p should_close write_status t
  else Ret (Goes should_close, t).

(** The end of [HandleConnEvent]: [in_conn] is reset before the entry goes. *)
Definition close_event (fd mask : Z) (p : ptr) (should_close : bool) (t : server C) : outcome (server C) :=
  if has EPOLLERR mask || has EPOLLHUP mask || should_close then
    let t := put_epoll (PinkDelEvent fd (pink_epoll_ t)).2 t in
    let! t := holy_CloseFd p t in
    Ret (erase_conn fd (assign_in_conn None t))
  else Ret t.

(** [HandleConnEvent] with its connection. *)
Definition conn_event_body (now fd mask : Z) (p : ptr) (t : server C) : outcome (server C) :=
  let! (r, t) := if async then async_read now mask p t else sync_read now fd mask p t in
  match r with
  | Returns => Ret t
  | Goes should_close =>
      let! (r, t) := if async then async_write fd mask p should_close t
                     else sync_write fd mask p should_close t in
      match r with
      | Returns => Ret t
      | Goes should_close => close_event fd mask p should_close t
      end
  end.

(** [in_conn] is a local of [HandleConnEvent]: the reference ends with the call on every
    path. The lookup, under the read lock: whether there is an entry to point an iterator at. *)
Definition find_event_conn (fd : Z) (t : server C) : bool * server C :=
  match sm_find fd (conns_ t) with
  | None => (false, put_epoll (PinkDelEvent fd (pink_epoll_ t)).2 t)
  | Some _ => (true, t)
  end.

(** [in_conn = iter->second], when the lock is released again. The iterator is dead if
    the entry has been erased in between; its key stands for it, since only this
    thread makes entries. *)
Definition copy_event_conn (fd : Z) (t : server C) : outcome ptr :=
  match sm_find fd (conns_ t) with Some p => Ret p | None => Fault UseAfterFree end.

(** The rest of the call. *)
Definition serve_event (now fd mask : Z) (t : server C) : outcome (server C) :=
  let! p := copy_event_conn fd t in
  let! t := conn_event_body now fd mask p (assign_in_conn (Some p) t) in
  Ret (assign_in_conn None t).

(** The call when no other thread comes in between. *)
Definition HandleConnEvent (now fd mask : Z) (t : server C) : outcome (server C) :=
  let '(found, t) := find_event_conn fd t in
  if found then serve_event now fd mask t else Ret t.

(** * Notifications *)

(** One item: [CloseFd] and [conns_.erase] for [kNotiClose]; the local reference
    to the connection ends first. *)
Definition process_item (ti : PinkItem) (t : server C) : outcome (server C) :=
  let fd := item_fd ti in
  match item_notify_type ti with
  | kNotiWrite => Ret (put_epoll (PinkModEvent fd 0 (Z.lor EPOLLOUT EPOLLIN) (pink_epoll_ t)).2 t)
  | kNotiClose =>
      match get_conn fd t with
      | None => Ret t
      | Some p => let! t := holy_CloseFd p t in Ret (erase_conn fd t)
      end
  | _ => Ret t
  end.

(** The items of one read, as for the worker. *)
Fixpoint process_items (nread : nat) (t : server C) : outcome (server C) :=
  match nread with
  | O => Ret t
  | S n =>
      match notify_queue (pink_epoll_ t) with
      | [] => Ret t
      | ti :: q =>
          let! t := process_item ti t in
          let t := put_epoll (set_notify_queue (drop 1 (notify_queue (pink_epoll_ t))) (pink_epoll_ t)) t in
          process_items n (match item_conn ti with Some p => drop_ref p t | None => t end)
      end
  end.

Definition ProcessNotifyEvents (mask : Z) (t : server C) : outcome (server C) :=
  if has EPOLLIN mask
  then process_items (Nat.min 64 (length (notify_queue (pink_epoll_ t)))) t
  else Ret t.

(** * Cron and kill requests *)

Definition DoCronTask (now : Z) (t : server C) : outcome (server C) := cron_task false now t.
Definition KillConn (ip_port : bytes) (t : server C) : outcome (bool * server C) := kill_conn false ip_port t.
Definition KillAllConns (t : server C) : outcome (server C) :=
  let! (_, t) := KillConn kKillAllConnsTask t in Ret t.

(** * An event of a connection in the table *)

Lemma serve_event_found now fd mask p t :
  sm_find fd (conns_ t) = Some p ->
  serve_event now fd mask t =
    let! t := conn_event_body now fd mask p (assign_in_conn (Some p) t) in Ret (assign_in_conn None t).
Proof. intros Hp. unfold serve_event, copy_event_conn. by rewrite Hp. Qed.

Lemma HandleConnEvent_found now fd mask p t :
  sm_find fd (conns_ t) = Some p -> HandleConnEvent now fd mask t = serve_event now fd mask t.
Proof. intros Hp. unfold HandleConnEvent, find_event_conn. by rewrite Hp. Qed.

Lemma HandleConnEvent_gone now fd mask t :
  sm_find fd (conns_ t) = None -> HandleConnEvent now fd mask t = Ret (put_epoll (PinkDelEvent fd (pink_epoll_ t)).2 t).
Proof. intros Hp. unfold HandleConnEvent, find_event_conn. by rewrite Hp. Qed.
End holy.
