(* ===== verification/ServerThread.v ===== *)
(** [pink/include/server_thread.h], [pink/src/server_thread.cc] and
    [pink/src/dispatch_thread.cc]: the thread that listens, and the server that
    hands what it accepts to its workers in turn. *)
From S2P Require Import Pink Prelude Sys StdMap PinkConn PinkEpoll Cron ServerConns WorkerThread HolyThread.

(** * The loop that accepts *)

(** The user's [ServerHandle]: the two [AccessHandle] may change the address
    they are given. *)
Class ServerHandle : Type := {
  AccessHandle_ip : bytes -> bool * bytes;
  AccessHandle_fd : Z -> bytes -> bool * bytes
}.

(** [accept] on a listening descriptor: the new connection, the peer's address
    and port, and whether [TCP_NODELAY] can be set; or an error. *)
Inductive accept_result : Type :=
  | AcceptFails
  | Accepted (connfd : Z) (d : desc) (ip : bytes) (port : Z) (nodelay : bool).

(** Which descriptor is listening, and what becomes of an event. *)
Section accept.
Context {H : ServerHandle}.
(** The state of the derived class, the process and the poller in it, and its
    [HandleNewConn], [HandleConnEvent] and [ProcessNotifyEvents]. *)
Context {S : Type} {C : Type}.
Context (get_world : S -> world C) (put_world : world C -> S -> S).
Context (get_epoll : S -> PinkEpoll) (put_epoll : PinkEpoll -> S -> S).
Context (HandleNewConn : Z -> bytes -> S -> outcome S).
Context (HandleConnEvent : Z -> Z -> S -> outcome S).
Context (ProcessNotifyEvents : Z -> S -> outcome S).

Definition put_fds (f : gmap Z desc -> gmap Z desc) (s : S) : S :=
  put_world (set_fds (f (fds (get_world s))) (get_world s)) s.

(** [close] of a watched descriptor: the kernel no longer watches it. *)
Definition close_listener (fd : Z) (s : S) : S :=
  put_epoll (epoll_ctl_del fd (get_epoll s)).2 (put_fds (delete fd) s).

(** [ip_port.append(":")] and the decimal port. *)
Definition make_ip_port (ip : bytes) (port : Z) : bytes := ip ++ ":"%char :: to_dec port.

(** The branch for a new connection. *)
Definition accept_conn (r : accept_result) (s : S) : outcome S :=
  match r with
  | AcceptFails => Ret s
  | Accepted connfd d ip port nodelay =>
      let s := put_fds (<[connfd := d]>) s in
      if negb nodelay then Ret (put_fds (delete connfd) s)
      else
        let '(ok1, ip) := AccessHandle_ip ip in
        if negb ok1 then Ret (put_fds (delete connfd) s)
        else
          let '(ok2, ip) := AccessHandle_fd connfd ip in
          if negb ok2 then Ret (put_fds (delete connfd) s)
          else HandleNewConn connfd (make_ip_port ip port) s
  end.

(** One event of the batch, with what [accept] would return. *)
Definition server_event (server_fds : gset Z) (receive_fd : Z) (fd mask : Z) (r : accept_result) (s : S)
    : outcome S :=
  if fd =? receive_fd then ProcessNotifyEvents mask s
  else if bool_decide (fd ∈ server_fds) then
    if has EPOLLIN mask then accept_conn r s
    else if has (Z.lor EPOLLHUP EPOLLERR) mask then Ret (close_listener fd s)
    else Ret s
  else HandleConnEvent fd mask s.
End accept.

(** * The dispatcher *)

(** The world of a worker is its part of the process: the connections and the
    descriptors it has been given. *)
Record DispatchThread (C : Type) : Type := mkDispatch {
  last_thread_ : Z;
  worker_thread_ : list (server C);
  d_queue_limit_ : Z
}.
Arguments mkDispatch {C}.
Arguments last_thread_ {C}. Arguments worker_thread_ {C}. Arguments d_queue_limit_ {C}.

Section dispatch.
Context {C : Type} {Ops : ConnOps C}.
Implicit Types d : DispatchThread C.

Definition work_num_ d : Z := zlen (worker_thread_ d).

Definition worker_at (i : Z) d : option (server C) := worker_thread_ d !! Z.to_nat i.
Definition put_worker (i : Z) (t : server C) (d : DispatchThread C) : DispatchThread C :=
  mkDispatch (last_thread_ d) (<[Z.to_nat i := t]> (worker_thread_ d)) (d_queue_limit_ d).
Definition put_last (i : Z) (d : DispatchThread C) : DispatchThread C :=
  mkDispatch i (worker_thread_ d) (d_queue_limit_ d).

(** The descriptor of an item passes to the worker. *)
Definition give (fd : Z) (c : desc) (t : server C) : server C :=
  put_mem (set_fds (<[fd := c]> (fds (mem t))) (mem t)) t.

(** The loop of [HandleNewConn], [cnt] turns from the end: whether a worker was
    found. *)
Fixpoint find_worker (cnt : nat) (ti : PinkItem) (c : desc) (next_thread : Z) (d : DispatchThread C)
    : bool * DispatchThread C :=
  match cnt with
  | O => (false, d)
  | S cnt =>
      match worker_at next_thread d with
      | None => (false, d)
      | Some t =>
          let '(find, t) := MoveConnIn_item ti false t in
          let next := Z.rem (next_thread + 1) (work_num_ d) in
          if find then (true, put_last next (put_worker next_thread (give (item_fd ti) c t) d))
          else find_worker cnt ti c next (put_worker next_thread t d)
      end
  end.

(** [HandleNewConn] of the descriptor [c]: the first component is whether it was
    closed, because no worker took it. *)
Definition dispatch_HandleNewConn (connfd : Z) (c : desc) (ip_port : bytes) (d : DispatchThread C)
    : outcome (bool * DispatchThread C) :=
  let! ti := new_PinkItem connfd ip_port kNotiConnect in
  let '(find, d) := find_worker (length (worker_thread_ d)) ti c (last_thread_ d) d in
  Ret (negb find, d).

(** [MoveConnIn] of a connection from another thread. *)
Definition dispatch_MoveConnIn (p : ptr) (type : NotifyType) (d : DispatchThread C)
    : outcome (DispatchThread C) :=
  match worker_at (last_thread_ d) d with
  | None => Fault OutOfBounds
  | Some t =>
      let! (success, t) := MoveConnIn p type true t in
      let d' := put_worker (last_thread_ d) t d in
      Ret (if success then put_last (Z.rem (last_thread_ d + 1) (work_num_ d)) d' else d')
  end.

(** [MoveConnOut]: the first worker that has the descriptor. *)
Fixpoint move_out_of (fd : Z) (l : list (server C)) : option ptr * list (server C) :=
  match l with
  | [] => (None, [])
  | t :: l =>
      match MoveConnOut fd t with
      | (Some p, t) => (Some p, t :: l)
      | (None, t) => let '(r, l) := move_out_of fd l in (r, t :: l)
      end
  end.
Definition dispatch_MoveConnOut (fd : Z) (d : DispatchThread C) : option ptr * DispatchThread C :=
  let '(r, l) := move_out_of fd (worker_thread_ d) in
  (r, mkDispatch (last_thread_ d) l (d_queue_limit_ d)).

(** [KillConn]: every worker is asked. *)
Fixpoint kill_in (ip_port : bytes) (result : bool) (l : list (server C)) : outcome (bool * list (server C)) :=
  match l with
  | [] => Ret (result, [])
  | t :: l =>
      let! (r, t) := TryKillConn ip_port t in
      let! (r, l) := kill_in ip_port (r || result) l in
      Ret (r, t :: l)
  end.
Definition dispatch_KillConn (ip_port : bytes) (d : DispatchThread C) : outcome (bool * DispatchThread C) :=
  let! (r, l) := kill_in ip_port false (worker_thread_ d) in
  Ret (r, mkDispatch (last_thread_ d) l (d_queue_limit_ d)).

Definition dispatch_conn_num (d : DispatchThread C) : Z :=
  fold_left (fun n t => n + conn_num t) (worker_thread_ d) 0.

Fixpoint infos_of (l : list (server C)) : outcome (list (Z * bytes * Z)) :=
  match l with
  | [] => Ret []
  | t :: l => let! i := conns_info t in let! r := infos_of l in Ret (i ++ r)
  end.
Definition dispatch_conns_info (d : DispatchThread C) : outcome (list (Z * bytes * Z)) :=
  infos_of (worker_thread_ d).

Definition dispatch_set_keepalive_timeout (timeout : Z) (d : DispatchThread C) : DispatchThread C :=
  mkDispatch (last_thread_ d) (map (set_keepalive_timeout timeout) (worker_thread_ d)) (d_queue_limit_ d).

Definition SetQueueLimit (queue_limit : Z) (d : DispatchThread C) : DispatchThread C :=
  mkDispatch (last_thread_ d) (worker_thread_ d) queue_limit.
End dispatch.
