(* ===== verification/ServerLoop.v ===== *)
(** The main loop of [pink/src/server_thread.cc]: the rounds of [ThreadMain], over the
    parts that a derived class provides. *)
From S2P Require Import Pink Prelude Sys StdMap PinkConn PinkEpoll Cron ServerThread.

(** An entry of [firedevent()]: when it is handled, its descriptor and mask, and what
    [accept] gives if the descriptor listens. *)
Record server_fired : Type := mkFired { ev_now : Z; ev_fd : Z; ev_mask : Z; ev_accept : accept_result }.

Section loop.
Context {H : ServerHandle} {S C : Type}.
Context (get_world : S -> world C) (put_world : world C -> S -> S).
Context (get_epoll : S -> PinkEpoll) (put_epoll : PinkEpoll -> S -> S).
(** What the derived class overrides; [HandleConnEvent] and [DoCronTask] get the time. *)
Context (HandleNewConn : Z -> bytes -> S -> outcome S).
Context (HandleConnEvent : Z -> Z -> Z -> S -> outcome S).
Context (ProcessNotifyEvents : Z -> S -> outcome S).
Context (DoCronTask : Z -> S -> outcome S).
(** The user's [CronHandle]. *)
Context (CronHandle : S -> outcome S).
(** [cron_interval_], [server_fds_] and the reading end of the poller's pipe. *)
Context (cron_interval_ : Z) (server_fds : gset Z) (receive_fd : Z).

Definition handle_fired (ev : server_fired) (s : S) : outcome S :=
  server_event get_world put_world get_epoll put_epoll HandleNewConn (HandleConnEvent (ev_now ev)) ProcessNotifyEvents
    server_fds receive_fd (ev_fd ev) (ev_mask ev) (ev_accept ev) s.

(** The batch of one [PinkPoll]. *)
Fixpoint handle_batch (evs : list server_fired) (s : S) : outcome S :=
  match evs with
  | [] => Ret s
  | ev :: evs => let! s := handle_fired ev s in handle_batch evs s
  end.

(** The head of a round at time [tm]. *)
Definition server_head (tm : timeval) (k : clock) (s : S) : outcome (clock * S) :=
  let '(fires, k) := cron_head cron_interval_ tm k in
  let! s := if fires then let! s := DoCronTask (tv_sec tm) s in CronHandle s else Ret s in
  Ret (k, s).

Definition server_round (tm : timeval) (evs : list server_fired) (k : clock) (s : S) : outcome (clock * S) :=
  let! (k, s) := server_head tm k s in
  let! s := handle_batch evs s in
  Ret (k, s).

(** The rounds until [should_stop()]. *)
Fixpoint server_rounds (rounds : list (timeval * list server_fired)) (k : clock) (s : S) : outcome (clock * S) :=
  match rounds with
  | [] => Ret (k, s)
  | (tm, evs) :: rounds => let! (k, s) := server_round tm evs k s in server_rounds rounds k s
  end.

(** The end: the listening sockets are deleted, which closes them. *)
Definition close_sockets (s : S) : S :=
  foldr (fun fd s => close_listener get_world put_world get_epoll put_epoll fd s) s (elements server_fds).

Definition server_main (start : timeval) (rounds : list (timeval * list server_fired)) (s : S) : outcome S :=
  let! (_, s) := server_rounds rounds (start_clock cron_interval_ start) s in
  Ret (close_sockets s).
End loop.
