(* ===== verification/ServerTheorems.v ===== *)
(** The theorems on the dispatcher and on the server thread that serves its
    connections itself. *)
From S2P Require Import Pink Prelude Sys StdMap PinkConn PinkEpoll Cron.
From S2P Require Import ServerConns ServerFacts CronFacts WorkerThread WorkerFacts WorkerTheorems.
From S2P Require Import HolyThread ServerThread.

(** * Dispatch *)

(** A connection handed to the dispatcher, and a sequence of them. *)
Definition arrival_conn : Type := Z * desc * bytes.

Section dispatch.
Context {C : Type} {Ops : ConnOps C}.

Fixpoint dispatch_all (cs : list arrival_conn) (d : DispatchThread C) : outcome (list bool * DispatchThread C) :=
  match cs with
  | [] => Ret ([], d)
  | (fd, c, ip) :: cs =>
      let! (closed, d) := dispatch_HandleNewConn fd c ip d in
      let! (l, d) := dispatch_all cs d in
      Ret (closed :: l, d)
  end.

(** The elements of [cs] whose index, from [i] on and [l] further, is [w] modulo [n]. *)
Fixpoint share (n l w i : Z) (cs : list arrival_conn) : list arrival_conn :=
  match cs with
  | [] => []
  | c :: cs => if (l + i) mod n =? w then c :: share n l w (i + 1) cs else share n l w (i + 1) cs
  end.

Definition connect_item_of (c : arrival_conn) : PinkItem :=
  let '(fd, _, ip) := c in mkItem fd ip kNotiConnect None.

Lemma share_shift n l l' w i cs :
  0 < n -> (l' = (l + 1) mod n) -> share n l' w i cs = share n l w (i + 1) cs.
Proof.
  intros Hn ->. revert i. induction cs as [|c cs IH]; intros i; simpl; [done|].
  rewrite Zplus_mod_idemp_l, IH. by replace (l + 1 + i) with (l + (i + 1)) by lia.
Qed.

Lemma dispatch_one (fd : Z) (c : desc) (ip : bytes) (d : DispatchThread C) :
  zlen ip < IP_PORT_SIZE -> 0 <= last_thread_ d < work_num_ d ->
  exists t d', worker_at (last_thread_ d) d = Some t /\ dispatch_HandleNewConn fd c ip d = Ret (false, d') /\
    last_thread_ d' = (last_thread_ d + 1) mod work_num_ d /\
    worker_thread_ d' = <[Z.to_nat (last_thread_ d) :=
      give fd c (MoveConnIn_item (connect_item_of (fd, c, ip)) false t).2]> (worker_thread_ d).
Proof.
  intros Hip Hl. unfold dispatch_HandleNewConn, new_PinkItem. rewrite (proj2 (Z.ltb_lt _ _)) by done. cbn [obind].
  unfold work_num_, zlen in *. unfold worker_at.
  destruct (lookup_lt_is_Some_2 (worker_thread_ d) (Z.to_nat (last_thread_ d)) ltac:(lia)) as [t Ht].
  exists t. destruct (worker_thread_ d) as [|t0 l] eqn:E; [simpl in Hl; lia|].
  cbn [length find_worker]. unfold worker_at. rewrite E, Ht. cbn [MoveConnIn_item Register].
  eexists. split; [done|]. split; [done|]. unfold put_last, put_worker, work_num_, zlen. simpl. rewrite E.
  split; [|done]. rewrite Z.rem_mod_nonneg by lia. done.
Qed.
End dispatch.

(** C18: connections are dispatched in turn, whatever the queue limit. With at
    least one worker no connection is refused: the [i]-th goes to the worker
    [last_thread_ + i] modulo their number, at the end of its queue, in order of
    arrival; and the next turn is that of the worker after the last. *)
Theorem dispatch_round_robin {C} (cs : list arrival_conn) (d : DispatchThread C) :
  0 <= last_thread_ d < work_num_ d -> Forall (fun '(_, _, ip) => zlen ip < IP_PORT_SIZE) cs ->
  exists d', dispatch_all cs d = Ret (map (fun _ => false) cs, d') /\
    work_num_ d' = work_num_ d /\ last_thread_ d' = (last_thread_ d + zlen cs) mod work_num_ d /\
    forall w t, 0 <= w -> worker_at w d = Some t -> exists t', worker_at w d' = Some t' /\
      notify_queue (pink_epoll_ t') = notify_queue (pink_epoll_ t) ++
        map connect_item_of (share (work_num_ d) (last_thread_ d) w 0 cs).
Proof.
  revert d. induction cs as [|[[fd c] ip] cs IH]; intros d Hl Hips; simpl.
  { exists d. rewrite zlen_nil, Z.add_0_r, Z.mod_small by done. split_and!; try done.
    intros w t _ Ht. exists t. by rewrite app_nil_r. }
  apply Forall_cons in Hips as [Hip Hips].
  destruct (dispatch_one fd c ip d Hip Hl) as (t0 & d1 & Ht0 & -> & Hlast & Hworkers). cbn [obind].
  assert (Hn : work_num_ d1 = work_num_ d) by (unfold work_num_, zlen; by rewrite Hworkers, length_insert).
  assert (Hpos : 0 < work_num_ d) by lia.
  destruct (IH d1) as (d' & -> & Hn' & Hl' & Hq); [rewrite Hn, Hlast; by apply Z.mod_pos_bound|done|].
  cbn [obind]. exists d'. split; [done|]. split; [congruence|]. split.
  - rewrite Hl', Hn, Hlast, Zplus_mod_idemp_l, zlen_cons. f_equal. lia.
  - intros w t Hw Ht. rewrite Hn, Hlast in Hq. rewrite Z.add_0_r, (Z.mod_small (last_thread_ d)) by done.
    assert (Hsh : share (work_num_ d) ((last_thread_ d + 1) mod work_num_ d) w 0 cs
                = share (work_num_ d) (last_thread_ d) w (0 + 1) cs) by by apply share_shift.
    destruct (last_thread_ d =? w) eqn:Ew; b2p.
    + subst w. assert (t0 = t) as -> by congruence.
      destruct (Hq (last_thread_ d) (give fd c (MoveConnIn_item (connect_item_of (fd, c, ip)) false t).2)) as (t' & Ht' & Hqt); [done| |].
      { unfold worker_at. rewrite Hworkers. rewrite list_lookup_insert_eq; [done|]. by eapply lookup_lt_Some. }
      exists t'. split; [done|]. rewrite Hqt, Hsh. simpl. by rewrite <- app_assoc.
    + destruct (Hq w t) as (t' & Ht' & Hqt); [done| |].
      { unfold worker_at. rewrite Hworkers. rewrite list_lookup_insert_ne; [done|]. lia. }
      exists t'. split; [done|]. by rewrite Hqt, Hsh.
Qed.

Lemma dispatch_round_robin_witness :
  let d := mkDispatch 1 [start_echo; start_echo] 0 in
  let cs := [(7, client [], bs "1.1.1.1:1"); (8, client [], bs "1.1.1.1:2"); (9, client [], bs "1.1.1.1:3")] in
  exists d', dispatch_all cs d = Ret (map (fun _ => false) cs, d') /\
    work_num_ d' = work_num_ d /\ last_thread_ d' = (last_thread_ d + zlen cs) mod work_num_ d /\
    forall w t, 0 <= w -> worker_at w d = Some t -> exists t', worker_at w d' = Some t' /\
      notify_queue (pink_epoll_ t') = notify_queue (pink_epoll_ t) ++
        map connect_item_of (share (work_num_ d) (last_thread_ d) w 0 cs).
Proof. intros d cs. apply (dispatch_round_robin cs d); [done|by repeat constructor]. Defined.

(** * The thread that serves its connections itself *)

Section holy.
Context {C : Type} {Ops : ConnOps C} {CL : ConnLaws C}.
Implicit Types t : server C.

(** Every entry of the table is an object alive, with the descriptor it stands
    at, which is open. *)
Record HolyInv t : Prop := {
  h_sorted : sm_sorted (conns_ t);
  h_at fd p : sm_find fd (conns_ t) = Some p -> fd_at (mem t) p = Some fd;
  h_open fd p : sm_find fd (conns_ t) = Some p -> is_open fd (mem t) = true;
  h_fresh p : next_ptr (mem t) <= p -> heap (mem t) !! p = None
}.

(** What a part of an event's code keeps. *)
Record kept (fd : Z) t t' : Prop := {
  k_conns : conns_ t' = conns_ t;
  k_in_conn : in_conn_ t' = in_conn_ t;
  k_id p : id_at (mem t') p = id_at (mem t) p;
  k_next : next_ptr (mem t') = next_ptr (mem t);
  k_log : handle_log (mem t') = handle_log (mem t);
  k_open fd' : is_open fd' (mem t') = is_open fd' (mem t);
  k_watch fd' : is_Some (interest (pink_epoll_ t') !! fd') <-> is_Some (interest (pink_epoll_ t) !! fd');
  k_queue : notify_queue (pink_epoll_ t') = notify_queue (pink_epoll_ t)
}.

Lemma kept_refl fd t : kept fd t t.
Proof. by split. Qed.

Lemma kept_trans fd t1 t2 t3 : kept fd t1 t2 -> kept fd t2 t3 -> kept fd t1 t3.
Proof. intros [] []. split; try congruence. intros fd'. by rewrite k_watch1, k_watch0. Qed.

Lemma id_at_deref w p id : id_at w p = Some id ->
  exists c, heap w !! p = Some c /\ deref p w = Ret c /\ conn_id (conn_base c) = id.
Proof. unfold id_at, deref. destruct (heap w !! p) as [c|]; [|done]. intros [= <-]. eauto. Qed.

Lemma kept_call {R} fd (f : C -> sock -> outcome (R * C * sock)) p id t :
  keeps_id (fun c => conn_id (conn_base c)) f -> id_at (mem t) p = Some id ->
  safe (conn_call f p t) (fun '(_, t') => kept fd t t').
Proof.
  intros Hf Hp. destruct (id_at_deref _ _ _ Hp) as (c & Hc & Hd & _).
  unfold conn_call, call. rewrite Hd. cbn [obind].
  specialize (Hf c (sock_of (fd_ (conn_base c)) (mem t))). destruct (f c _) as [[[r c'] s]|e]; [|done].
  cbn. split; try done; simpl.
  - intros p'. transitivity (id_at (set_heap (<[p := c']> (heap (mem t))) (mem t)) p').
    + unfold id_at, put_sock. by destruct (fds _ !! _).
    + by apply (id_at_insert (mem t) p c c').
  - unfold put_sock. by destruct (fds _ !! _).
  - unfold put_sock. by destruct (fds _ !! _).
  - intros fd'. by rewrite is_open_put_sock.
Qed.

Lemma kept_on fd f p id t :
  (forall c, conn_id (conn_base (f c)) = conn_id (conn_base c)) -> id_at (mem t) p = Some id ->
  safe (on_conn f p t) (kept fd t).
Proof.
  intros Hf Hp. destruct (id_at_deref _ _ _ Hp) as (c & Hc & Hd & _). unfold on_conn. rewrite Hd. cbn.
  split; try done. simpl. by apply (id_at_insert (mem t) p c).
Qed.

Lemma kept_modify fd f p id t :
  (forall b, conn_id (f b) = conn_id b) -> id_at (mem t) p = Some id -> safe (modify_conn p f t) (kept fd t).
Proof. intros Hf. apply kept_on. intros c. by rewrite base_with_base. Qed.

Lemma kept_mod fd m t : kept fd t (put_epoll (PinkModEvent fd 0 m (pink_epoll_ t)).2 t).
Proof.
  unfold PinkModEvent, epoll_ctl_mod. destruct (interest (pink_epoll_ t) !! fd) eqn:E; [|by destruct t].
  split; try done. intros fd'. simpl. destruct (decide (fd' = fd)) as [->|].
  - rewrite lookup_insert_eq, E. split; eauto.
  - by rewrite lookup_insert_ne.
Qed.

(** Both modes keep everything until they close. *)
Definition part_kept (fd : Z) t (r : part * server C) : Prop := kept fd t r.2.

Lemma sent_reply_kept fd p b st id t : id_at (mem t) p = Some id ->
  safe (sent_reply fd p b st t) (part_kept fd t).
Proof.
  intros Hp. destruct st; cbn [sent_reply]; try apply kept_refl.
  apply safe_bind. eapply safe_mono; [apply (kept_on fd _ p id); [apply set_is_reply_id|done]|]. intros t1 H1.
  eapply kept_trans; [exact H1|apply kept_mod].
Qed.

Lemma read_kept async now fd mask p id t : id_at (mem t) p = Some id ->
  safe (if async : bool then async_read now mask p t else sync_read now fd mask p t) (part_kept fd t).
Proof.
  intros Hp. unfold async_read, sync_read. destruct async, (has EPOLLIN mask); try apply kept_refl.
  - apply safe_bind. eapply safe_mono; [apply (kept_call fd _ p id); [apply GetRequest_id|done]|]. intros [st t1] H1.
    apply safe_bind. eapply safe_mono; [apply (kept_modify fd _ p id); [done|by rewrite (k_id _ _ _ H1)]|]. intros t2 H2.
    destruct st; by eapply kept_trans.
  - apply safe_bind. eapply safe_mono; [apply (kept_call fd _ p id); [apply GetRequest_id|done]|]. intros [st t1] H1.
    apply safe_bind. eapply safe_mono; [apply (kept_modify fd _ p id); [done|by rewrite (k_id _ _ _ H1)]|]. intros t2 H2.
    pose proof (kept_trans _ _ _ _ H1 H2) as H12. destruct (_ && _); [done|].
    destruct (id_at_deref (mem t2) p id) as (c & _ & -> & _); [by rewrite (k_id _ _ _ H12)|]. cbn [obind].
    destruct (conn_is_reply c); [|done]. eapply kept_trans; [exact H12|apply kept_mod].
Qed.

Lemma write_kept async fd mask p b id t : id_at (mem t) p = Some id ->
  safe (if async : bool then async_write fd mask p b t else sync_write fd mask p b t) (part_kept fd t).
Proof.
  intros Hp. unfold async_write, sync_write. destruct async.
  - destruct (id_at_deref (mem t) p id) as (c & _ & -> & _); [done|]. cbn [obind].
    destruct (_ && _); [|apply kept_refl].
    apply safe_bind. eapply safe_mono; [apply (kept_call fd _ p id); [apply SendReply_id|done]|]. intros [st t1] H1.
    eapply safe_mono; [apply (sent_reply_kept fd p b st id); by rewrite (k_id _ _ _ H1)|]. intros r Hr.
    by eapply kept_trans.
  - destruct (has EPOLLOUT mask); [|apply kept_refl].
    apply safe_bind. eapply safe_mono; [apply (kept_call fd _ p id); [apply SendReply_id|done]|]. intros [st t1] H1.
    eapply safe_mono; [apply (sent_reply_kept fd p b st id); by rewrite (k_id _ _ _ H1)|]. intros r Hr.
    by eapply kept_trans.
Qed.

(** How an event of a connection ends: all of it stays, or all of it goes. *)
Definition event_outcome (fd : Z) (id : Z * bytes) t t' : Prop :=
  (sm_find fd (conns_ t') <> None /\ is_open fd (mem t') = true /\ handle_log (mem t') = handle_log (mem t) /\
   (is_Some (interest (pink_epoll_ t') !! fd) <-> is_Some (interest (pink_epoll_ t) !! fd))) \/
  (sm_find fd (conns_ t') = None /\ is_open fd (mem t') = false /\
   handle_log (mem t') = handle_log (mem t) ++ [FdClosed id.1 id.2] /\ interest (pink_epoll_ t') !! fd = None).

Lemma kept_inv fd t t' : kept fd t t' -> HolyInv t -> HolyInv t'.
Proof.
  intros [] []. split; rewrite ?k_conns0; auto.
  - intros fd' p Hp. rewrite fd_at_id, k_id0, <- fd_at_id. auto.
  - intros fd' p Hp. rewrite k_open0. eauto.
  - intros p Hp. rewrite k_next0 in Hp. specialize (k_id0 p). unfold id_at in k_id0. rewrite (h_fresh0 p Hp) in k_id0.
    by destruct (heap (mem t') !! p).
Qed.

(** The local reference ends while the table still has one. *)
Lemma end_local fd p t :
  sm_find fd (conns_ t) = Some p -> in_conn_ t = Some p \/ in_conn_ t = None ->
  assign_in_conn None t = put_in_conn None t.
Proof.
  intros Hp [Hi|Hi]; unfold assign_in_conn; rewrite Hi; [|done].
  assert (Hr : p ∈ refs (put_in_conn None t)) by by apply (refs_conns _ fd).
  unfold drop_ref, release. rewrite bool_decide_eq_true_2 by (apply elem_of_app; by left). by destruct t.
Qed.

(** What closing leaves. *)
Lemma close_event_spec fd mask p b id t :
  HolyInv t -> sm_find fd (conns_ t) = Some p -> in_conn_ t = Some p -> id_at (mem t) p = Some id ->
  exists t', close_event fd mask p b t = Ret t' /\
    (t' = t \/
     (HolyInv t' /\ in_conn_ t' = None /\ conns_ t' = sm_erase fd (conns_ t) /\
      is_open fd (mem t') = false /\ handle_log (mem t') = handle_log (mem t) ++ [FdClosed id.1 id.2] /\
      interest (pink_epoll_ t') = delete fd (interest (pink_epoll_ t)) /\
      (forall fd', fd' <> fd -> is_open fd' (mem t') = is_open fd' (mem t)))).
Proof.
  intros HI Hp Hi Hid. unfold close_event. destruct (_ || _ || _); [|by eauto].
  assert (Hfd : id.1 = fd).
  { pose proof (h_at _ HI _ _ Hp) as H. rewrite fd_at_id, Hid in H. by injection H. }
  destruct id as [fd0 ip]. simpl in Hfd. subst fd0.
  unfold PinkDelEvent. rewrite epoll_ctl_del_eq.
  rewrite (CloseFd_spec p _ fd ip) by done. cbn [obind]. simpl.
  rewrite delete_delete_eq. set (t1 := put_mem _ _).
  rewrite (end_local fd p t1) by (try done; by left). set (t2 := put_in_conn None t1).
  destruct (erase_conn_fields fd p t2 Hp) as (Ec & Ee & Ei & Ed & En & Ef & Eat & Eh).
  eexists. split; [done|]. right. split_and!.
  - split; rewrite ?Ec.
    + by apply sm_erase_sorted, (h_sorted _ HI).
    + intros fd' p' Hp'. rewrite Eat by (apply (refs_conns _ fd'); by rewrite Ec).
      apply (h_at _ HI). simpl in Hp'. destruct (decide (fd' = fd)) as [->|Hne].
      * rewrite sm_find_erase_eq in Hp' by apply (h_sorted _ HI). done.
      * rewrite sm_find_erase_ne in Hp' by (try done; apply (h_sorted _ HI)). done.
    + intros fd' p' Hp'. unfold is_open. rewrite Ef. simpl in *. destruct (decide (fd' = fd)) as [->|Hne].
      * rewrite sm_find_erase_eq in Hp' by apply (h_sorted _ HI). done.
      * rewrite sm_find_erase_ne in Hp' by (try done; apply (h_sorted _ HI)).
        rewrite lookup_delete_ne by done. apply (h_open _ HI _ _ Hp').
    + intros p' Hp'. rewrite En in Hp'. apply Eh, (h_fresh _ HI). done.
  - by rewrite Ei.
  - by rewrite Ec.
  - unfold is_open. rewrite Ef. simpl. by rewrite lookup_delete_eq.
  - unfold erase_conn. assert (H : sm_find fd (conns_ t2) = Some p) by done. rewrite H.
    simpl. unfold release. by case_bool_decide.
  - by rewrite Ee.
  - intros fd' Hne. unfold is_open. rewrite Ef. simpl. by rewrite lookup_delete_ne.
Qed.

(** An event of a connection. *)
Lemma conn_event_outcome async now fd mask p id t :
  HolyInv t -> in_conn_ t = None -> sm_find fd (conns_ t) = Some p -> id_at (mem t) p = Some id ->
  safe (HandleConnEvent async now fd mask t) (fun t' =>
    HolyInv t' /\ in_conn_ t' = None /\ event_outcome fd id t t' /\
    (forall fd', fd' <> fd -> sm_find fd' (conns_ t') = sm_find fd' (conns_ t) /\
       is_open fd' (mem t') = is_open fd' (mem t))).
Proof.
  intros HI Hi Hp Hid. rewrite (HandleConnEvent_found _ _ _ _ _ _ Hp), (serve_event_found _ _ _ _ _ _ Hp).
  assert (Ha : assign_in_conn (Some p) t = put_in_conn (Some p) t) by (unfold assign_in_conn; by rewrite Hi).
  rewrite Ha. set (t1 := put_in_conn (Some p) t).
  assert (HI1 : HolyInv t1) by (destruct HI; by split).
  assert (Hstay : forall t2, kept fd t1 t2 ->
    let t' := assign_in_conn None t2 in HolyInv t' /\ in_conn_ t' = None /\ event_outcome fd id t t' /\
    (forall fd', fd' <> fd -> sm_find fd' (conns_ t') = sm_find fd' (conns_ t) /\
       is_open fd' (mem t') = is_open fd' (mem t))).
  { intros t2 Hk t'. pose proof (kept_inv _ _ _ Hk HI1) as HI2. destruct Hk.
    assert (Hp2 : sm_find fd (conns_ t2) = Some p) by by rewrite k_conns0.
    subst t'. rewrite (end_local fd p t2 Hp2) by (left; by rewrite k_in_conn0).
    split; [by destruct HI2; split|]. split; [done|]. split.
    - left. simpl. rewrite k_open0. split; [by rewrite Hp2|]. split; [apply (h_open _ HI _ _ Hp)|]. split; [done|apply k_watch0].
    - intros fd' _. simpl. by rewrite k_conns0, k_open0. }
  apply safe_bind. unfold conn_event_body. apply safe_bind. eapply safe_mono; [by apply (read_kept async now fd mask p id t1)|].
  intros [r2 t2] Hk2. destruct r2 as [b|]; [|by apply Hstay]. unfold part_kept in Hk2. cbn in Hk2.
  apply safe_bind. eapply safe_mono; [apply (write_kept async fd mask p b id t2); by rewrite (k_id _ _ _ Hk2)|].
  intros [r3 t3] Hk3. unfold part_kept in Hk3. cbn in Hk3. pose proof (kept_trans _ _ _ _ Hk2 Hk3) as Hk.
  destruct r3 as [b'|]; [|by apply Hstay].
  pose proof (kept_inv _ _ _ Hk HI1) as HI3.
  destruct (close_event_spec fd mask p b' id t3) as (t4 & -> & [->|(HI4 & Hi4 & Hc4 & Ho4 & Hl4 & Hw4 & Hne4)]);
    [done|by rewrite (k_conns _ _ _ Hk)|by rewrite (k_in_conn _ _ _ Hk)|by rewrite (k_id _ _ _ Hk)|by apply Hstay|].
  cbn. unfold assign_in_conn. rewrite Hi4. destruct Hk. pose proof (h_sorted _ HI) as Hs.
  split; [by destruct HI4; split|]. split; [done|]. split.
  - right. simpl. rewrite Hc4, k_conns0, Hl4, k_log0, Hw4. split_and!; try done; [by apply sm_find_erase_eq|].
    apply lookup_delete_eq.
  - intros fd' Hne. simpl. rewrite Hc4, k_conns0, Hne4, k_open0 by done. split; [by apply sm_find_erase_ne|done].
Qed.
End holy.

(** C19: in the thread that serves its own connections an event closes a
    connection completely or not at all. From a state in which every entry of the
    table is alive and open at its descriptor, whatever the mode and whatever the
    connection's handlers return, an event of one connection does not follow a
    dead pointer, and either the connection is still in the table, its descriptor
    open, watched if it was, and the handle has been told nothing; or it is in
    neither the table nor the poller, its descriptor is closed and the handle has
    been told once, of that descriptor and address. The other connections keep
    their places, and the next event finds the table in order. *)
Theorem holy_event_closes_completely {C} {Ops : ConnOps C} {CL : ConnLaws C} async now fd mask p id t :
  HolyInv t -> in_conn_ t = None -> sm_find fd (conns_ t) = Some p -> id_at (mem t) p = Some id ->
  match HandleConnEvent async now fd mask t with
  | Ret t' => HolyInv t' /\ in_conn_ t' = None /\ event_outcome fd id t t' /\
      (forall fd', fd' <> fd -> sm_find fd' (conns_ t') = sm_find fd' (conns_ t) /\
         is_open fd' (mem t') = is_open fd' (mem t))
  | Fault e => e <> UseAfterFree
  end.
Proof. intros HI Hi Hp Hid. exact (conn_event_outcome async now fd mask p id t HI Hi Hp Hid). Qed.

(** A thread with one client. *)
Definition holy_client : server EchoConn :=
  mkServer [(7, 1)] ∅ 60 (PinkAddEvent true 7 EPOLLIN (new_PinkEpoll 3)).2 None
    (mkWorld {[1 := mkEcho (new_PinkConn 7 (bs "1.2.3.4:5") 0) []]} 2 [] {[7 := client (bs "hello")]} []).

Lemma holy_client_inv : HolyInv holy_client.
Proof.
  split; [by repeat constructor| | |intros p Hp; apply lookup_singleton_ne; simpl in Hp; lia]; intros fd p; simpl; unfold less, int_less;
    destruct (fd <? 7) eqn:E1; [done| |done|]; destruct (7 <? fd) eqn:E2; try done; intros [= <-]; b2p;
    assert (fd = 7) as -> by lia; done.
Qed.

Lemma holy_event_closes_completely_witness :
  match HandleConnEvent false 9 7 (Z.lor EPOLLIN EPOLLHUP) holy_client with
  | Ret t' => HolyInv t' /\ in_conn_ t' = None /\ event_outcome 7 (7, bs "1.2.3.4:5") holy_client t' /\
      (forall fd', fd' <> 7 -> sm_find fd' (conns_ t') = sm_find fd' (conns_ holy_client) /\
         is_open fd' (mem t') = is_open fd' (mem holy_client))
  | Fault e => e <> UseAfterFree
  end.
Proof.
  apply (holy_event_closes_completely false 9 7 _ 1 (7, bs "1.2.3.4:5")); [apply holy_client_inv|done|done|done].
Defined.
