(* ===== verification/HolyLoop.v ===== *)
(** The server that serves its own connections, as a whole: every round of its loop,
    and what other threads do to it, keeps its table in order. *)
From S2P Require Import Pink Prelude Sys StdMap PinkConn PinkEpoll Cron ServerConns ServerFacts CronFacts WorkerFacts WorkerTheorems.
From S2P Require Import HolyThread ServerThread ServerTheorems ServerLoop.

Section holy.
Context {C : Type} {Ops : ConnOps C} {CL : ConnLaws C}.
Implicit Types t : server C.

Lemma holy_table t : HolyInv t -> table_ok t.
Proof. intros []. by split. Qed.

(** Between two events: nothing listens at the descriptor of a connection. *)
Definition Resting (server_fds : gset Z) t : Prop :=
  HolyInv t /\ in_conn_ t = None /\ forall fd, fd ∈ server_fds -> sm_find fd (conns_ t) = None.

(** Changes that the invariant does not look at. *)
Lemma holy_frame t t' :
  conns_ t' = conns_ t -> next_ptr (mem t') = next_ptr (mem t) ->
  (forall p, p ∈ map snd (conns_ t) -> fd_at (mem t') p = fd_at (mem t) p) ->
  (forall p, heap (mem t) !! p = None -> heap (mem t') !! p = None) ->
  (forall fd, is_open fd (mem t) = true -> is_open fd (mem t') = true) -> HolyInv t -> HolyInv t'.
Proof.
  intros Hc Hn Hat Hh Ho []. split; rewrite ?Hc, ?Hn; auto.
  - intros fd p Hp. rewrite Hat; [auto|]. apply list_elem_of_fmap. exists (fd, p). split; [done|]. by apply sm_find_elem_1.
  - intros fd p Hp. apply Ho. eauto.
Qed.

Lemma holy_drop p t : HolyInv t -> HolyInv (drop_ref p t).
Proof.
  destruct (drop_ref_fields p t) as (Hc & _ & _ & _ & Ho & Hat). apply holy_frame; try done.
  - simpl. by rewrite release_next.
  - intros p' Hp. apply Hat. unfold refs. apply elem_of_app. by left.
  - intros p' Hp. simpl. by apply release_heap.
  - intros fd. by rewrite Ho.
Qed.

Lemma holy_epoll e t : HolyInv t -> HolyInv (put_epoll e t).
Proof. by apply holy_frame. Qed.

(** An entry leaves. *)
Lemma holy_erase fd t t' :
  conns_ t' = sm_erase fd (conns_ t) -> next_ptr (mem t') = next_ptr (mem t) ->
  (forall p, p ∈ map snd (conns_ t') -> fd_at (mem t') p = fd_at (mem t) p) ->
  (forall p, heap (mem t) !! p = None -> heap (mem t') !! p = None) ->
  (forall fd', fd' <> fd -> is_open fd' (mem t) = true -> is_open fd' (mem t') = true) -> HolyInv t -> HolyInv t'.
Proof.
  intros Hc Hn Hat Hh Ho HI. pose proof (h_sorted _ HI) as Hs.
  assert (Hfind : forall fd' p, sm_find fd' (conns_ t') = Some p -> fd' <> fd /\ sm_find fd' (conns_ t) = Some p).
  { intros fd' p. rewrite Hc. destruct (decide (fd' = fd)) as [->|]; [by rewrite sm_find_erase_eq|]. by rewrite sm_find_erase_ne. }
  split.
  - rewrite Hc. by apply sm_erase_sorted.
  - intros fd' p Hp. rewrite Hat; [by apply (h_at _ HI), Hfind|]. apply list_elem_of_fmap. exists (fd', p). split; [done|]. by apply sm_find_elem_1.
  - intros fd' p Hp. destruct (Hfind _ _ Hp). apply Ho; [done|]. by apply (h_open _ HI _ p).
  - intros p. rewrite Hn. intros Hp. by apply Hh, (h_fresh _ HI).
Qed.

(** ** Accepting *)

Lemma holy_open connfd d t :
  HolyInv t -> HolyInv (put_mem (set_fds (<[connfd := d]> (fds (mem t))) (mem t)) t).
Proof.
  apply holy_frame; try done. intros fd. unfold is_open. simpl. rewrite !bool_decide_eq_true, lookup_insert_is_Some'. auto.
Qed.

Lemma holy_close fd t :
  sm_find fd (conns_ t) = None -> HolyInv t -> HolyInv (put_mem (set_fds (delete fd (fds (mem t))) (mem t)) t).
Proof.
  intros Hf HI. split; [apply (h_sorted _ HI)|apply (h_at _ HI)| |apply (h_fresh _ HI)].
  intros fd' p Hp. simpl in Hp. unfold is_open. simpl. rewrite lookup_delete_ne by (intros ->; congruence).
  exact (h_open _ HI _ _ Hp).
Qed.

Lemma holy_enter NewPinkConn connfd ip c t :
  NewPinkConn connfd ip = Some c -> fd_ (conn_base c) = connfd -> is_open connfd (mem t) = true -> sm_find connfd (conns_ t) = None ->
  HolyInv t ->
  exists t', HandleNewConn NewPinkConn connfd ip t = Ret t' /\ HolyInv t' /\ in_conn_ t' = in_conn_ t /\
    (forall fd, fd <> connfd -> sm_find fd (conns_ t') = sm_find fd (conns_ t)).
Proof.
  intros HN Hf Ho Hn HI. unfold HandleNewConn. rewrite HN. destruct (alloc c (mem t)) as [p w] eqn:Ea.
  destruct (new_conn_spec c connfd t Hf Ho) as (ok & w' & Hset & Hat & Hnext & Hheap & Hopen). rewrite Ea in Hset. simpl in Hset.
  assert (p = next_ptr (mem t)) as -> by (unfold alloc in Ea; by injection Ea). rewrite Hset. cbn [obind].
  unfold insert_conn. cbn [put_mem conns_]. rewrite Hn. eexists. split; [done|]. split; [|split; [done|]].
  - apply holy_epoll. split; simpl.
    + apply sm_set_sorted, (h_sorted _ HI).
    + intros fd p. destruct (decide (fd = connfd)) as [->|Hne].
      * rewrite sm_find_set_eq. by intros [= <-].
      * rewrite sm_find_set_ne by done. intros Hp. pose proof (h_at _ HI _ _ Hp) as Hfd. unfold fd_at in *. rewrite Hheap; [done|].
        intros ->. rewrite (h_fresh _ HI (next_ptr (mem t))) in Hfd by lia. done.
    + intros fd p. rewrite Hopen. destruct (decide (fd = connfd)) as [->|Hne]; [done|]. rewrite sm_find_set_ne by done. apply (h_open _ HI).
    + intros p. rewrite Hnext. intros Hp. rewrite Hheap by lia. apply (h_fresh _ HI). lia.
  - intros fd Hne. simpl. by rewrite sm_find_set_ne.
Qed.

(** ** What keeps the loop at rest *)

Lemma resting_frame fds t t' :
  (forall fd, sm_find fd (conns_ t') = None \/ sm_find fd (conns_ t') = sm_find fd (conns_ t)) ->
  in_conn_ t' = None -> HolyInv t' -> Resting fds t -> Resting fds t'.
Proof.
  intros Hc Hi HI (_ & _ & Hl). split; [done|]. split; [done|]. intros fd Hfd. destruct (Hc fd) as [?| ->]; auto.
Qed.

Lemma accept_resting {H : ServerHandle} NewPinkConn fds r t :
  (forall fd ip, exists c, NewPinkConn fd ip = Some c /\ fd_ (conn_base c) = fd) ->
  match r with AcceptFails => True | Accepted connfd _ _ _ _ => is_open connfd (mem t) = false /\ (connfd ∉ fds) end ->
  Resting fds t -> safe (accept_conn mem put_mem (HandleNewConn NewPinkConn) r t) (Resting fds).
Proof.
  intros Hfac Hr HR. destruct r as [|connfd d ip port nodelay]; [done|]. destruct Hr as [Ho Hl].
  pose proof HR as (HI & Hi & Hlis). unfold accept_conn, put_fds.
  set (t1 := put_mem _ t). assert (HI1 : HolyInv t1) by by apply holy_open.
  assert (Hn : sm_find connfd (conns_ t) = None).
  { destruct (sm_find connfd (conns_ t)) eqn:E; [|done]. apply (h_open _ HI) in E. congruence. }
  assert (Hclose : Resting fds (put_mem (set_fds (delete connfd (ServerConns.mem t1).(PinkEpoll.fds)) (mem t1)) t1)).
  { eapply (resting_frame fds t); [by right|done| |done]. by apply holy_close. }
  destruct (negb nodelay); [done|]. destruct (AccessHandle_ip ip) as [[] ip1]; cbn [negb]; [|done].
  destruct (AccessHandle_fd connfd ip1) as [[] ip2]; cbn [negb]; [|done].
  destruct (Hfac connfd (make_ip_port ip2 port)) as (c & HN & Hf).
  destruct (holy_enter NewPinkConn connfd (make_ip_port ip2 port) c t1) as (t2 & -> & HI2 & Hi2 & Hc2); try done.
  { unfold is_open, t1. simpl. by rewrite lookup_insert_eq. }
  cbn. split; [done|]. split; [by rewrite Hi2|]. intros fd Hfd. rewrite Hc2 by (intros ->; done). by apply Hlis.
Qed.

Lemma CloseFd_holy p id t :
  id_at (mem t) p = Some id -> exists t', holy_CloseFd p t = Ret t' /\ conns_ t' = conns_ t /\ in_conn_ t' = in_conn_ t /\
    heap (mem t') = heap (mem t) /\ next_ptr (mem t') = next_ptr (mem t) /\ notify_queue (pink_epoll_ t') = notify_queue (pink_epoll_ t) /\
    (forall fd', fd' <> id.1 -> is_open fd' (mem t') = is_open fd' (mem t)).
Proof.
  destruct id as [fd ip]. intros Hid. unfold holy_CloseFd. rewrite (CloseFd_spec _ _ _ _ Hid). eexists. split; [done|]. split_and!; try done.
  intros fd' Hne. unfold is_open. simpl. by rewrite lookup_delete_ne by done.
Qed.

Lemma process_item_resting fds ti t : Resting fds t -> safe (process_item ti t) (Resting fds).
Proof.
  intros HR. pose proof HR as (HI & Hi & Hl). unfold process_item. destruct (item_notify_type ti); try done.
  - unfold get_conn. destruct (sm_find (item_fd ti) (conns_ t)) as [p|] eqn:Ef; [|done].
    pose proof (h_at _ HI _ _ Ef) as Hat. rewrite fd_at_id in Hat. destruct (id_at (mem t) p) as [[fd ip]|] eqn:Eid; [|done].
    simpl in Hat. injection Hat as ->. destruct (CloseFd_holy p _ t Eid) as (t1 & -> & Hc & Hi1 & Hh & Hn & _ & Ho). cbn [obind].
    assert (Ef1 : sm_find (item_fd ti) (conns_ t1) = Some p) by by rewrite Hc.
    destruct (erase_conn_fields _ _ _ Ef1) as (Ec & Ee & Ei & Ed & En & Efd & Eat & Eh). cbn.
    eapply (resting_frame fds t); [|by rewrite Ei, Hi1| |done].
    + intros fd. rewrite Ec, Hc. destruct (decide (fd = item_fd ti)) as [->|]; [left; by apply sm_find_erase_eq, (h_sorted _ HI)|right].
      by apply sm_find_erase_ne; [apply (h_sorted _ HI)|].
    + apply (holy_erase (item_fd ti) t); [by rewrite Ec, Hc|by rewrite En| | | |done].
      * intros p' Hp'. rewrite Eat by (unfold refs; apply elem_of_app; by left). unfold fd_at. by rewrite Hh.
      * intros p' Hp'. apply Eh. by rewrite Hh.
      * intros fd' Hne Hop. unfold is_open in *. rewrite Efd. pose proof (Ho fd' Hne) as Hx. unfold is_open in Hx. by rewrite Hx.
  - eapply (resting_frame fds t); [by right|done|by apply holy_epoll|done].
Qed.

Lemma process_items_resting fds n t : Resting fds t -> safe (process_items n t) (Resting fds).
Proof.
  revert t. induction n as [|n IH]; intros t HR; [done|]. cbn [process_items]. destruct (notify_queue _) as [|ti q]; [done|].
  apply safe_bind. eapply safe_mono; [by apply process_item_resting|]. intros t1 H1. apply IH.
  pose proof H1 as (HI1 & Hi1 & Hl1). destruct (item_conn ti) as [p|].
  - eapply (resting_frame fds t1); [by right|done|by apply holy_drop, holy_epoll|done].
  - eapply (resting_frame fds t1); [by right|done|by apply holy_epoll|done].
Qed.

Lemma notify_resting fds mask t : Resting fds t -> safe (ProcessNotifyEvents mask t) (Resting fds).
Proof. intros HR. unfold ProcessNotifyEvents. destruct (has _ _); [|done]. by apply process_items_resting. Qed.

(** An event of a connection, or of a descriptor that is no longer one. *)
Lemma event_resting fds async now fd mask t : Resting fds t -> safe (HandleConnEvent async now fd mask t) (Resting fds).
Proof.
  intros (HI & Hi & Hl). destruct (sm_find fd (conns_ t)) as [p|] eqn:Ef.
  - pose proof (h_at _ HI _ _ Ef) as Hat. rewrite fd_at_id in Hat. destruct (id_at (mem t) p) as [id|] eqn:Eid; [|done].
    eapply safe_mono; [by apply (conn_event_outcome async now fd mask p id t)|]. intros t' (HI' & Hi' & Hout & Hoth).
    split; [done|]. split; [done|]. intros fd' Hfd'. destruct (decide (fd' = fd)) as [->|Hne]; [rewrite Hl in Ef; done|].
    rewrite (proj1 (Hoth fd' Hne)). by apply Hl.
  - rewrite HandleConnEvent_gone by done. cbn. split; [by apply holy_epoll|done].
Qed.

(** ** Cron *)

Lemma cron_resting fds now t : Resting fds t -> safe (DoCronTask now t) (Resting fds).
Proof.
  intros HR. pose proof HR as (HI & Hi & Hl). unfold DoCronTask, cron_task. case_bool_decide as Hk.
  { set (t1 := put_deleting ∅ (put_conns [] t)).
    destruct (drop_refs_spec (map snd (conns_ t)) t1) as (D1 & _ & D3 & _ & D5 & D6 & _ & _ & _ & D10). cbn.
    split; [|split; [by rewrite D3|by rewrite D1]].
    split; [rewrite D1; constructor|rewrite D1; done..|]. intros p. rewrite D6. intros Hp. by apply D10, (h_fresh _ HI). }
  assert (Hre : forall c : C, ends (fun e => e <> UseAfterFree) (conn_TryResizeBuffer now c)
    (fun c' => conn_id (conn_base c') = conn_id (conn_base c))).
  { intros c. pose proof (TryResizeBuffer_id now c) as Hr. unfold ends. by destruct (conn_TryResizeBuffer now c). }
  pose proof (holy_table _ HI) as Hok.
  apply safe_bind. eapply ends_mono.
  { apply (cron_scan_spec (fun e => e <> UseAfterFree) false now) with (ka := keepalive_timeout_ t) (keep := []); try done.
    - apply (h_sorted _ HI).
    - by apply table_distinct.
    - intros fd p Hin. destruct (table_ids _ _ _ Hok Hin) as [ip Hid]. unfold id_at in Hid. by destruct (heap (mem t) !! p). }
  intros [[cl tt] t1]. destruct (cron_plan _ _ _ _ _) as [[[k c] e] d] eqn:Hplan. intros (-> & -> & Hkc & Hd & Hsc). simpl in Hkc |- *.
  destruct (cron_close_spec _ now Hre t t1 k c e d) as (t2 & t3 & -> & Hto & _ & Hcl); try done.
  { intros p Hp. destruct (plan_elem _ _ _ _ _ _ _ _ _ Hplan) as (_ & P2 & _). destruct (P2 p Hp) as [fd Hlp].
    destruct (table_ids _ _ _ Hok Hlp) as [ip ->]. done. }
  cbn [obind]. rewrite Hto. cbn [obind ends safe].
  destruct (plan_table _ _ _ _ _ _ _ _ Hplan Hok) as [Hgone Hfind].
  destruct (plan_elem _ _ _ _ _ _ _ _ _ Hplan) as (P1 & P2 & P3 & P4 & P5).
  destruct (drop_refs_spec (c ++ e) t3) as (D1 & D2 & D3 & D4 & D5 & D6 & D7 & D8 & D9 & D10).
  destruct Hcl, Hsc. set (t4 := drop_refs (c ++ e) t3) in *.
  assert (Hc4 : conns_ t4 = k) by congruence.
  assert (Hsub : forall fd p, sm_find fd (conns_ t4) = Some p -> sm_find fd (conns_ t) = Some p /\ fd ∉ fds_of (mem t) (c ++ e)).
  { intros fd p. rewrite Hc4, Hfind. by case_bool_decide. }
  split; [|split; [congruence|]].
  - split.
    + rewrite Hc4. apply P4, (h_sorted _ HI).
    + intros fd p Hp. destruct (Hsub _ _ Hp) as [Hp0 _]. rewrite <- (h_at _ HI _ _ Hp0), !fd_at_id. f_equal. rewrite <- sc_ids.
      unfold id_at. rewrite D9; [by rewrite cl_heap|]. rewrite <- D8. by eapply refs_conns.
    + intros fd p Hp. destruct (Hsub _ _ Hp) as [Hp0 Hg]. unfold is_open. rewrite D5, cl_fds, sc_fds, (bool_decide_eq_false_2 (fd ∈ _)) by done.
      apply (h_open _ HI _ _ Hp0).
    + intros p. rewrite D6, cl_next, sc_next. intros Hp. apply D10. rewrite cl_heap. pose proof (sc_ids p) as Hid.
      unfold id_at in Hid. rewrite (h_fresh _ HI p Hp) in Hid. by destruct (heap (mem t1) !! p).
  - intros fd Hfd. destruct (sm_find fd (conns_ t4)) as [p|] eqn:Ep; [|done]. destruct (Hsub _ _ Ep) as [Hp0 _]. rewrite Hl in Hp0; done.
Qed.

(** ** Other threads *)

Lemma find_addr_holy t ip l : HolyInv t -> (forall x, x ∈ l -> x ∈ conns_ t) -> safe (find_addr ip l (mem t)) (fun _ => True).
Proof.
  intros HI. induction l as [|[fd p] l IH]; simpl; intros Hsub; [done|].
  destruct (table_ids _ fd p (holy_table _ HI)) as [ip' Hid]; [apply Hsub; by left|].
  destruct (id_at_deref _ _ _ Hid) as (c & _ & -> & _). cbn [obind]. case_bool_decide; [done|].
  apply IH. intros x Hx. apply Hsub. by right.
Qed.

Lemma kill_resting fds ip t : Resting fds t -> safe (KillConn ip t) (fun '(_, t') => Resting fds t').
Proof.
  intros HR. pose proof HR as (HI & Hi & Hl). unfold KillConn, kill_conn. case_bool_decide; [by apply (resting_frame fds t); [by right| |apply (holy_frame t)|]|].
  pose proof (find_addr_holy t ip (conns_ t) HI ltac:(done)) as Hsafe.
  destruct (find_addr ip (conns_ t) (mem t)) as [[p|]|e]; cbn [obind]; [|done|done].
  by apply (resting_frame fds t); [by right| |apply (holy_frame t)|].
Qed.

Lemma move_out_resting fds fd t : Resting fds t -> Resting fds (holy_MoveConnOut fd t).2.
Proof.
  intros HR. pose proof HR as (HI & Hi & Hl). unfold holy_MoveConnOut, MoveConnOut.
  destruct (sm_find fd (conns_ t)) as [p|] eqn:Ef; [|done]. cbn [snd].
  eapply (resting_frame fds t); [|done| |done].
  - intros fd'. simpl. destruct (decide (fd' = fd)) as [->|]; [left; by apply sm_find_erase_eq, (h_sorted _ HI)|right].
    by apply sm_find_erase_ne; [apply (h_sorted _ HI)|].
  - by apply (holy_erase fd t).
Qed.
End holy.

(** * The server *)
Section server.
Context {C : Type} {Ops : ConnOps C}.
Context {H : ServerHandle}.
Context (NewPinkConn : Z -> bytes -> option C) (async : bool).
Context (server_fds : gset Z) (receive_fd : Z).
Implicit Types t : server C.

(** [ThreadMain] of the base class with the operations of [HolyThread]. *)
Definition holy_fired : server_fired -> server C -> outcome (server C) :=
  handle_fired mem put_mem pink_epoll_ put_epoll (HandleNewConn NewPinkConn) (HandleConnEvent async) ProcessNotifyEvents server_fds receive_fd.

(** The kernel gives a descriptor that is not open, and that no listening socket had. *)
Definition accept_ok (ev : server_fired) t : Prop :=
  match ev_accept ev with
  | AcceptFails => True
  | Accepted connfd _ _ _ _ => is_open connfd (mem t) = false /\ (connfd ∉ server_fds)
  end.

(** What happens to the server, and the event of a connection that its loop has looked
    up and not served yet, with its time and mask. The loop handles an event at once,
    or looks up a connection and serves it later, and runs its cron task in between; at any point
    other threads ask to kill one or all connections, take one over, send
    notifications of any kind, and end references they hold. What they do not do is to take
    over the connection that has just been looked up. *)
Inductive hstep : option (Z * Z * Z) -> server C -> option (Z * Z * Z) -> server C -> Prop :=
  | H_event ev t t' : accept_ok ev t -> holy_fired ev t = Ret t' -> hstep None t None t'
  | H_lookup now fd mask t found t' :
      fd <> receive_fd -> (fd ∉ server_fds) -> find_event_conn fd t = (found, t') ->
      hstep None t (if found then Some (now, fd, mask) else None) t'
  | H_serve now fd mask t t' : serve_event async now fd mask t = Ret t' -> hstep (Some (now, fd, mask)) t None t'
  | H_cron now t t' : DoCronTask now t = Ret t' -> hstep None t None t'
  | H_kill cur ip t r t' : KillConn ip t = Ret (r, t') -> hstep cur t cur t'
  | H_move_out cur fd t r t' :
      (forall now fd' mask, cur = Some (now, fd', mask) -> fd' <> fd) -> holy_MoveConnOut fd t = (r, t') -> hstep cur t cur t'
  | H_notify cur it force t ok e : Register it force (pink_epoll_ t) = (ok, e) -> hstep cur t cur (put_epoll e t)
  | H_release cur p l t : held (mem t) ≡ₚ p :: l -> hstep cur t cur (drop_ref p (put_mem (set_held l (mem t)) t)).

Inductive hreach (t0 : server C) : option (Z * Z * Z) -> server C -> Prop :=
  | hreach_start : hreach t0 None t0
  | hreach_step cur t cur' t' : hreach t0 cur t -> hstep cur t cur' t' -> hreach t0 cur' t'.

Context {CL : ConnLaws C}.
Hypothesis factory : forall fd ip, exists c, NewPinkConn fd ip = Some c /\ fd_ (conn_base c) = fd.

Lemma fired_resting ev t : accept_ok ev t -> Resting server_fds t -> safe (holy_fired ev t) (Resting server_fds).
Proof.
  intros Hok HR. unfold holy_fired, handle_fired, server_event. destruct (_ =? _); [by apply notify_resting|].
  case_bool_decide as Hl; [|by apply event_resting]. destruct (has EPOLLIN _); [by apply accept_resting|].
  destruct (has _ _); [|done]. pose proof HR as (HI & Hi & Hlis).
  eapply (resting_frame server_fds t); [by right|done| |done].
  apply holy_epoll, holy_close; [by apply Hlis|done].
Qed.

(** The entry of the event that has been looked up is there. *)
Definition looked_up (cur : option (Z * Z * Z)) t : Prop :=
  match cur with None => True | Some (_, fd, _) => exists p, sm_find fd (conns_ t) = Some p end.

Lemma serve_resting now fd mask t :
  looked_up (Some (now, fd, mask)) t -> Resting server_fds t -> safe (serve_event async now fd mask t) (Resting server_fds).
Proof. intros [p Hp] HR. rewrite <- (HandleConnEvent_found _ _ _ _ _ _ Hp). by apply event_resting. Qed.

Lemma looked_up_same cur t t' : conns_ t' = conns_ t -> looked_up cur t -> looked_up cur t'.
Proof. intros Hc. unfold looked_up. destruct cur as [[[? ?] ?]|]; by rewrite ?Hc. Qed.

Lemma kill_conns ip t r t' : KillConn ip t = Ret (r, t') -> conns_ t' = conns_ t.
Proof.
  unfold KillConn, kill_conn. case_bool_decide; [by intros [= _ <-]|]. intros H1. obind_inv.
  destruct a; by simplify_eq/=.
Qed.

Lemma hstep_resting cur t cur' t' :
  hstep cur t cur' t' -> Resting server_fds t /\ looked_up cur t -> Resting server_fds t' /\ looked_up cur' t'.
Proof.
  intros Hs [HR Hcur]. destruct Hs as [ev t t' Hok E|now fd mask t found t' Hn Hl E|now fd mask t t' E|now t t' E|cur ip t r t' E
    |cur fd t r t' Hne E|cur it force t ok e E|cur p l t E].
  - pose proof (fired_resting ev t Hok HR) as W. by rewrite E in W.
  - unfold find_event_conn in E. destruct (sm_find fd (conns_ t)) eqn:Ef; injection E as <- <-; [by split; [|eexists]|].
    pose proof HR as (HI & Hi & Hlis). split; [|done]. by apply (resting_frame server_fds t); [by right|done|apply holy_epoll|].
  - pose proof (serve_resting _ _ _ _ Hcur HR) as W. by rewrite E in W.
  - pose proof (cron_resting server_fds now t HR) as W. by rewrite E in W.
  - pose proof (kill_resting server_fds ip t HR) as W. rewrite E in W. split; [done|].
    eapply looked_up_same; [by eapply kill_conns|done].
  - pose proof (move_out_resting server_fds fd t HR) as W. rewrite E in W. split; [done|]. unfold looked_up in *.
    destruct cur as [[[now fd'] mask]|]; [|done]. destruct Hcur as [p Hp]. exists p. specialize (Hne _ _ _ eq_refl).
    unfold holy_MoveConnOut, MoveConnOut in E. destruct (sm_find fd (conns_ t)); injection E as <- <-; [|done].
    simpl. pose proof HR as (HI & _). by rewrite sm_find_erase_ne by (done || apply (h_sorted _ HI)).
  - pose proof HR as (HI & Hi & Hl). split; [|by eapply looked_up_same]. by apply (resting_frame server_fds t); [by right|done|apply holy_epoll|].
  - pose proof HR as (HI & Hi & Hl). split; [|by eapply looked_up_same]. apply (resting_frame server_fds t); [by right|done| |done].
    apply holy_drop. by apply (holy_frame t).
Qed.

Lemma hreach_resting t0 cur t : Resting server_fds t0 -> hreach t0 cur t -> Resting server_fds t /\ looked_up cur t.
Proof. intros H0. induction 1; [done|]. by eapply hstep_resting. Qed.

(** ** Whole runs *)
Context (CronHandle : server C -> outcome (server C)) (cron_interval_ : Z).

#[local] Abbreviation head := (server_head DoCronTask CronHandle cron_interval_).
#[local] Abbreviation batch := (handle_batch mem put_mem pink_epoll_ put_epoll (HandleNewConn NewPinkConn) (HandleConnEvent async) ProcessNotifyEvents server_fds receive_fd).

(** Every [accept] of a run gives a new descriptor. *)
Fixpoint batch_ok (evs : list server_fired) t : Prop :=
  match evs with
  | [] => True
  | ev :: evs => accept_ok ev t /\ match holy_fired ev t with Ret t => batch_ok evs t | Fault _ => True end
  end.
Fixpoint rounds_ok (rounds : list (timeval * list server_fired)) (k : clock) t : Prop :=
  match rounds with
  | [] => True
  | (tm, evs) :: rounds =>
      match head tm k t with
      | Ret (k, t) => batch_ok evs t /\ match batch evs t with Ret t => rounds_ok rounds k t | Fault _ => True end
      | Fault _ => True
      end
  end.

Definition holy_main : timeval -> list (timeval * list server_fired) -> server C -> outcome (server C) :=
  server_main mem put_mem pink_epoll_ put_epoll (HandleNewConn NewPinkConn) (HandleConnEvent async) ProcessNotifyEvents DoCronTask CronHandle
    cron_interval_ server_fds receive_fd.

Hypothesis CronHandle_keeps : forall t, Resting server_fds t -> safe (CronHandle t) (Resting server_fds).

Lemma batch_resting evs t : batch_ok evs t -> Resting server_fds t -> safe (batch evs t) (Resting server_fds).
Proof.
  revert t. induction evs as [|ev evs IH]; intros t Hok HR; [done|]. cbn [batch_ok handle_batch] in *. destruct Hok as [H1 H2].
  apply safe_bind. pose proof (fired_resting ev t H1 HR) as W. unfold holy_fired in *.
  destruct (handle_fired _ _ _ _ _ _ _ _ _ ev t) as [t1|]; [|done]. by apply IH.
Qed.

Lemma rounds_resting rounds k t :
  rounds_ok rounds k t -> Resting server_fds t ->
  safe (server_rounds mem put_mem pink_epoll_ put_epoll (HandleNewConn NewPinkConn) (HandleConnEvent async) ProcessNotifyEvents DoCronTask CronHandle
    cron_interval_ server_fds receive_fd rounds k t) (fun '(_, t') => Resting server_fds t').
Proof.
  revert k t. induction rounds as [|[tm evs] rounds IH]; intros k t Hok HR; [done|]. cbn [rounds_ok server_rounds] in *.
  unfold server_round. assert (HH : safe (head tm k t) (fun '(_, t') => Resting server_fds t')).
  { unfold server_head. destruct (cron_head _ _ _) as [[] k1]; [|done]. apply safe_bind, safe_bind.
    eapply safe_mono; [by apply cron_resting|]. intros t1 H1. eapply safe_mono; [by apply CronHandle_keeps|]. done. }
  destruct (head tm k t) as [[k1 t1]|]; [|done]. destruct Hok as [H1 H2]. cbn [obind].
  pose proof (batch_resting evs t1 H1 HH) as W. destruct (batch evs t1) as [t2|]; [|done]. cbn [obind]. by apply IH.
Qed.

Lemma main_safe start rounds t :
  rounds_ok rounds (start_clock cron_interval_ start) t -> Resting server_fds t -> holy_main start rounds t <> Fault UseAfterFree.
Proof.
  intros Hok HR E. pose proof (rounds_resting rounds _ t Hok HR) as W. unfold holy_main, server_main in E.
  by destruct (server_rounds _ _ _ _ _ _ _ _ _ _ _ _ rounds _ t) as [[? ?]|f]; [|injection E as ->].
Qed.
End server.

(** C37: the server that serves its own connections never uses a dead object, as long as
    no other thread takes over a connection between its lookup for an event and the
    copy of the reference. Whatever its connections, its users' handles, its peers and
    other threads do besides (accepts, also of connections it refuses, events,
    notifications of any kind, cron tasks, requests to kill one or all connections, the
    end of references, connections taken over at any other point, also between the
    lookup and the copy of another), in every state it reaches each entry of its table is a
    living object whose descriptor is open and is not one it listens on; the event that
    has been looked up can be served, a kill request made; and when no event has been
    looked up, none of the next event, the cron task, the final clean-up and any whole
    run of the loop from there follows a dead pointer. The lookup and the rest of an
    event are one step each. What is left out is [moved_out_dead_iterator]. *)
Theorem holy_server_memory_safe {C} {Ops : ConnOps C} {CL : ConnLaws C} {H : ServerHandle} NewPinkConn async server_fds receive_fd
    timeout e w cur t :
  (forall fd ip, exists c, NewPinkConn fd ip = Some c /\ fd_ (conn_base c) = fd) ->
  (forall p, next_ptr w <= p -> heap w !! p = None) ->
  hreach NewPinkConn async server_fds receive_fd (new_HolyThread timeout e w) cur t ->
  Resting server_fds t /\
  (forall now fd mask, cur = Some (now, fd, mask) -> serve_event async now fd mask t <> Fault UseAfterFree) /\
  (forall ip, KillConn ip t <> Fault UseAfterFree) /\
  (cur = None ->
   (forall ev, accept_ok server_fds ev t -> holy_fired NewPinkConn async server_fds receive_fd ev t <> Fault UseAfterFree) /\
   (forall now, DoCronTask now t <> Fault UseAfterFree) /\ holy_Cleanup t <> Fault UseAfterFree /\
   (forall CronHandle cron_interval_ start rounds,
      (forall t, Resting server_fds t -> safe (CronHandle t) (Resting server_fds)) ->
      rounds_ok NewPinkConn async server_fds receive_fd CronHandle cron_interval_ rounds (start_clock cron_interval_ start) t ->
      holy_main NewPinkConn async server_fds receive_fd CronHandle cron_interval_ start rounds t <> Fault UseAfterFree)).
Proof.
  intros Hfac Hw Hr. destruct (hreach_resting NewPinkConn async server_fds receive_fd Hfac (new_HolyThread timeout e w) cur t) as [HR Hcur]; [|exact Hr|].
  { split; [|done]. split; try done. simpl. constructor. }
  split; [done|]. split_and!.
  - intros now fd mask -> E. pose proof (serve_resting async server_fds now fd mask t Hcur HR) as W. by rewrite E in W.
  - intros ip E. pose proof (kill_resting server_fds ip t HR) as W. by rewrite E in W.
  - intros ->. split_and!.
    + intros ev Hok E. pose proof (fired_resting NewPinkConn async server_fds receive_fd Hfac ev t Hok HR) as W. by rewrite E in W.
    + intros now E. pose proof (cron_resting server_fds now t HR) as W. by rewrite E in W.
    + pose proof HR as (HI & _). unfold holy_Cleanup, Cleanup.
      destruct (CloseFds_spec (map snd (conns_ t)) (put_conns [] t)) as (t' & -> & _); [|done].
      intros p ([fd p'] & -> & Hin)%list_elem_of_fmap. destruct (table_ids _ _ _ (holy_table _ HI) Hin) as [ip Hid]. simpl. by rewrite Hid.
    + intros CronHandle cron_interval_ start rounds HC Hok. by apply main_safe.
Qed.

(** A user who lets everybody in, and a server that has accepted one client. *)
#[local] Instance open_door : ServerHandle := {| AccessHandle_ip ip := (true, ip); AccessHandle_fd _ ip := (true, ip) |}.
Definition empty_holy : server EchoConn := new_HolyThread 60 (new_PinkEpoll 3) empty_world.
Definition accept_seven : server_fired := mkFired 0 5 EPOLLIN (Accepted 7 (client (bs "hello")) (bs "1.2.3.4") 5000 true).
Definition one_holy : server EchoConn :=
  match holy_fired echo_factory false {[5]} 3 accept_seven empty_holy with Ret t => t | Fault _ => empty_holy end.


(** A second client, whom another thread takes over while the event of the first has been
    looked up. *)
Definition accept_eight : server_fired := mkFired 0 5 EPOLLIN (Accepted 8 (client (bs "other")) (bs "5.6.7.8") 9000 true).
Definition two_holy : server EchoConn :=
  match holy_fired echo_factory false {[5]} 3 accept_eight one_holy with Ret t => t | Fault _ => one_holy end.
Definition eight_moved : server EchoConn := (holy_MoveConnOut 8 two_holy).2.

Lemma one_holy_reach : hreach echo_factory false {[5]} 3 empty_holy None one_holy.
Proof.
  eapply hreach_step; [apply hreach_start|]. apply (H_event _ _ _ _ accept_seven); [|by vm_compute]. split; [done|]. set_solver.
Qed.

Lemma eight_moved_reach : hreach echo_factory false {[5]} 3 empty_holy (Some (1, 7, EPOLLIN)) eight_moved.
Proof.
  eapply hreach_step; [eapply hreach_step; [eapply hreach_step; [apply one_holy_reach|]|]|].
  - apply (H_event _ _ _ _ accept_eight _ two_holy); [|by vm_compute]. split; [by vm_compute|]. set_solver.
  - apply (H_lookup _ _ _ _ 1 7 EPOLLIN _ true two_holy); [done|set_solver|by vm_compute].
  - apply (H_move_out _ _ _ _ _ 8 _ (Some 2)); [by intros ? ? ? [= <- <- <-]|by vm_compute].
Qed.

Lemma holy_server_memory_safe_witness :
  conns_ eight_moved = [(7, 1)] /\ Resting {[5]} eight_moved /\ serve_event false 1 7 EPOLLIN eight_moved <> Fault UseAfterFree /\
  (forall ip, KillConn ip one_holy <> Fault UseAfterFree) /\
  holy_main echo_factory false {[5]} 3 (fun t => Ret t) 0 (mkTime 0 0)
    [(mkTime 1 0, [mkFired 1 7 EPOLLIN AcceptFails])] one_holy <> Fault UseAfterFree.
Proof.
  destruct (holy_server_memory_safe echo_factory false {[5]} 3 60 (new_PinkEpoll 3) empty_world (Some (1, 7, EPOLLIN)) eight_moved) as (HR & HS & _);
    [intros fd ip; by eexists|done|apply eight_moved_reach|].
  destruct (holy_server_memory_safe echo_factory false {[5]} 3 60 (new_PinkEpoll 3) empty_world None one_holy) as (_ & _ & HK & HM);
    [intros fd ip; by eexists|done|apply one_holy_reach|]. destruct (HM eq_refl) as (_ & _ & _ & HR1).
  split; [by vm_compute|]. split; [exact HR|]. split; [by eapply HS|]. split; [exact HK|]. apply HR1; [done|]. by vm_compute.
Defined.

(** A connection that is taken over between the lookup and the copy of its reference: the
    copy reads through an iterator whose entry is gone. *)
Theorem moved_out_dead_iterator {C} {Ops : ConnOps C} async now fd mask p (t : server C) :
  sm_sorted (conns_ t) -> sm_find fd (conns_ t) = Some p ->
  find_event_conn fd t = (true, t) /\
  exists t1, holy_MoveConnOut fd t = (Some p, t1) /\ serve_event async now fd mask t1 = Fault UseAfterFree.
Proof.
  intros Hs Hp. unfold find_event_conn, holy_MoveConnOut, MoveConnOut. rewrite Hp. split; [done|]. eexists. split; [done|].
  unfold serve_event, copy_event_conn. simpl. by rewrite sm_find_erase_eq.
Qed.

Lemma moved_out_dead_iterator_witness :
  find_event_conn 8 two_holy = (true, two_holy) /\
  exists t1, holy_MoveConnOut 8 two_holy = (Some 2, t1) /\ serve_event false 1 8 EPOLLIN t1 = Fault UseAfterFree.
Proof. apply (moved_out_dead_iterator false 1 8 EPOLLIN 2 two_holy); [vm_compute; repeat constructor|by vm_compute]. Defined.
