(* ===== verification/Lifecycle.v ===== *)
(** How threads are started and stopped: [pink/include/pink_thread.h],
    [pink/src/pink_thread.cc], the [StartThread] and [StopThread] of the servers, of
    [ClientThread] and [BackendThread], and the start and stop of [ThreadPool]. *)
From S2P Require Import Pink Prelude.

(** * The process *)

(** What happens to the threads, and to the data that the user's handle makes for
    them. The first argument says whose it is: the number of a worker, or [self]. *)
Inductive thread_event : Type :=
  | Spawned (who : Z) (id : Z)
  | Joined (who : Z) (id : Z)
  | DataCreated (who : Z) (d : Z)
  | DataDeleted (who : Z) (d : Z)
  | HandleDeleted.

#[export] Instance thread_event_eq_dec : EqDecision thread_event.
Proof. solve_decision. Defined.

Definition self : Z := -1.

(** The threads that have been created and not joined, and what the environment will
    answer: [pthread_create] (0 when the script is over), the user's
    [CreateWorkerSpecificData] (its result, and the pointer it assigns, if any) and
    [DeleteWorkerSpecificData]. *)
Record process : Type := mkProcess {
  live : gset Z;
  next_id : Z;
  create_results : list Z;
  data_results : list (Z * option Z);
  delete_results : list Z;
  trace : list thread_event
}.

Definition note (e : thread_event) (w : process) : process :=
  mkProcess (live w) (next_id w) (create_results w) (data_results w) (delete_results w) (trace w ++ [e]).

(** [pthread_create]: 0 and the new thread, or an error. *)
Definition pthread_create (who : Z) (w : process) : Z * option Z * process :=
  let r := default 0 (head (create_results w)) in
  let q := tail (create_results w) in
  if r =? 0 then
    (0, Some (next_id w), note (Spawned who (next_id w))
       (mkProcess ({[next_id w]} ∪ live w) (next_id w + 1) q (data_results w) (delete_results w) (trace w)))
  else (r, None, mkProcess (live w) (next_id w) q (data_results w) (delete_results w) (trace w)).

(** [pthread_join] of a thread that has been told to stop: its main function looks at
    [should_stop()] in every round and returns. Undefined behaviour for a thread that
    was never created or has been joined. *)
Definition pthread_join (who : Z) (id : Z) (w : process) : outcome (Z * process) :=
  if bool_decide (id ∈ live w) then
    Ret (0, note (Joined who id) (mkProcess (live w ∖ {[id]}) (next_id w) (create_results w) (data_results w) (delete_results w) (trace w)))
  else Fault BadThread.

(** * Thread *)

Record Thread : Type := mkThread { should_stop_ : bool; running_ : bool; thread_id_ : Z }.

Definition new_Thread : Thread := mkThread false false 0.
Definition set_should_stop (t : Thread) : Thread := mkThread true (running_ t) (thread_id_ t).
Definition is_running (t : Thread) : bool := running_ t.

(** [StartThread]. What a [pthread_create] that fails leaves in [thread_id_] is not
    defined; the model leaves it. *)
Definition StartThread (who : Z) (t : Thread) (w : process) : Z * Thread * process :=
  if running_ t then (0, mkThread false true (thread_id_ t), w)
  else
    let '(r, id, w) := pthread_create who w in
    (r, mkThread false true (default (thread_id_ t) id), w).

Definition StopThread (who : Z) (t : Thread) (w : process) : outcome (Z * Thread * process) :=
  if running_ t then
    let! (r, w) := pthread_join who (thread_id_ t) w in
    Ret (r, mkThread true false (thread_id_ t), w)
  else Ret (0, mkThread true false (thread_id_ t), w).

(** [JoinThread]; nobody else stops the thread. *)
Definition JoinThread (who : Z) (t : Thread) (w : process) : outcome (Z * process) :=
  if should_stop_ t then pthread_join who (thread_id_ t) w
  else if bool_decide (thread_id_ t ∈ live w) then Fault Diverges else Fault BadThread.

(** The name of the thread as [RunThread] sets it: the system takes 15 bytes. *)
Definition SetThreadName (name : bytes) : bytes := take 15 name.
Definition RunThread (thread_name_ : bytes) : option bytes :=
  match thread_name_ with [] => None | _ => Some (SetThreadName thread_name_) end.

(** [PeriodThread::ThreadMain], with the state that the user's [PeriodMain] works on
    and the time it sleeps afterwards: both once. *)
Definition Period_ThreadMain {U} (PeriodMain : U -> U) (period_ : Z * Z) (u : U) : U * (Z * Z) := (PeriodMain u, period_).

(** * The data of a thread *)

(** The user's handle or the one that [StartThread] or [SanitizeHandle] makes, whose
    [CreateWorkerSpecificData] and [DeleteWorkerSpecificData] do nothing. *)
Inductive handle : Type := UserHandle | DefaultHandle.

(** [handle_->CreateWorkerSpecificData(&private_data_)] *)
Definition CreateWorkerSpecificData (who : Z) (h : handle) (data : option Z) (w : process) : Z * option Z * process :=
  match h with
  | DefaultHandle => (0, data, w)
  | UserHandle =>
      let '(r, d) := default (0, None) (head (data_results w)) in
      let w := mkProcess (live w) (next_id w) (create_results w) (tail (data_results w)) (delete_results w) (trace w) in
      match d with
      | Some d => (r, Some d, note (DataCreated who d) w)
      | None => (r, data, w)
      end
  end.

(** [handle_->DeleteWorkerSpecificData(private_data_)] *)
Definition DeleteWorkerSpecificData (who : Z) (h : handle) (d : Z) (w : process) : Z * process :=
  match h with
  | DefaultHandle => (0, w)
  | UserHandle =>
      let r := default 0 (head (delete_results w)) in
      (r, note (DataDeleted who d)
            (mkProcess (live w) (next_id w) (create_results w) (data_results w) (tail (delete_results w)) (trace w)))
  end.

(** The part of the [StopThread]s that deletes [private_data_] if there is any. *)
Definition delete_data (who : Z) (h : handle) (data : option Z) (w : process) : Z * option Z * process :=
  match data with
  | None => (0, None, w)
  | Some d =>
      let '(ret, w) := DeleteWorkerSpecificData who h d w in
      (ret, if ret =? 0 then None else Some d, w)
  end.

(** A thread and [private_data_]. *)
Record owner : Type := mkOwner { o_thread : Thread; private_data_ : option Z }.

Definition new_owner : owner := mkOwner new_Thread None.

(** ** ServerThread *)

(** [ServerThread::StartThread], with what [InitHandle] returns. *)
Definition Server_StartThread (init : Z) (t : Thread) (w : process) : Z * Thread * process :=
  if negb (init =? 0) then (init, t, w) else StartThread self t w.

(** ** HolyThread *)

Definition Holy_StartThread (h : handle) (init : Z) (o : owner) (w : process) : Z * owner * process :=
  let '(ret, data, w) := CreateWorkerSpecificData self h (private_data_ o) w in
  if negb (ret =? 0) then (ret, mkOwner (o_thread o) data, w)
  else
    let '(r, t, w) := Server_StartThread init (o_thread o) w in
    (r, mkOwner t data, w).

(** The data goes first. *)
Definition Holy_StopThread (h : handle) (o : owner) (w : process) : outcome (Z * owner * process) :=
  let '(ret, data, w) := delete_data self h (private_data_ o) w in
  if negb (ret =? 0) then Ret (ret, mkOwner (o_thread o) data, w)
  else
    let! (r, t, w) := StopThread self (o_thread o) w in
    Ret (r, mkOwner t data, w).

(** ** ClientThread and BackendThread *)

Record peer_owner : Type := mkPeer { p_owner : owner; handle_ : option handle; own_handle_ : bool }.

(** [StartThread] of both. [own_handle_] ends false on every path. *)
Definition Peer_StartThread (p : peer_owner) (w : process) : Z * peer_owner * process :=
  let h := default DefaultHandle (handle_ p) in
  let '(res, data, w) := CreateWorkerSpecificData self h (private_data_ (p_owner p)) w in
  if negb (res =? 0) then (res, mkPeer (mkOwner (o_thread (p_owner p)) data) (Some h) false, w)
  else
    let '(r, t, w) := StartThread self (o_thread (p_owner p)) w in
    (r, mkPeer (mkOwner t data) (Some h) false, w).

(** [StopThread] of both. Without a handle the data would be deleted through a null
    pointer. *)
Definition Peer_StopThread (p : peer_owner) (w : process) : outcome (Z * peer_owner * process) :=
  let o := p_owner p in
  match handle_ p, private_data_ o with
  | None, Some _ => Fault UseAfterFree
  | h, data =>
      let '(res, data, w) := delete_data self (default DefaultHandle h) data w in
      if negb (res =? 0) then Ret (res, mkPeer (mkOwner (o_thread o) data) h (own_handle_ p), w)
      else
        let w := if own_handle_ p then note HandleDeleted w else w in
        let! (r, t, w) := StopThread self (o_thread o) w in
        Ret (r, mkPeer (mkOwner t data) h (own_handle_ p), w)
  end.

Definition Client_StartThread : peer_owner -> process -> Z * peer_owner * process := Peer_StartThread.
Definition Client_StopThread : peer_owner -> process -> outcome (Z * peer_owner * process) := Peer_StopThread.
Definition Backend_StartThread : peer_owner -> process -> Z * peer_owner * process := Peer_StartThread.
Definition Backend_StopThread : peer_owner -> process -> outcome (Z * peer_owner * process) := Peer_StopThread.

(** ** DispatchThread *)

(** The workers from number [i] on are started. *)
Fixpoint start_workers (h : handle) (i : Z) (l : list owner) (w : process) : Z * list owner * process :=
  match l with
  | [] => (0, [], w)
  | o :: l =>
      let '(ret, data, w) := CreateWorkerSpecificData i h (private_data_ o) w in
      if negb (ret =? 0) then (ret, mkOwner (o_thread o) data :: l, w)
      else
        let '(ret, t, w) := StartThread i (o_thread o) w in
        let o := mkOwner t data in
        if negb (ret =? 0) then (ret, o :: l, w)
        else let '(ret, l, w) := start_workers h (i + 1) l w in (ret, o :: l, w)
  end.

Record dispatcher : Type := mkDispatcher { d_self : Thread; d_workers : list owner }.

Definition Dispatch_StartThread (h : handle) (init : Z) (d : dispatcher) (w : process) : Z * dispatcher * process :=
  let '(ret, l, w) := start_workers h 0 (d_workers d) w in
  if negb (ret =? 0) then (ret, mkDispatcher (d_self d) l, w)
  else let '(ret, t, w) := Server_StartThread init (d_self d) w in (ret, mkDispatcher t l, w).

(** Each worker is joined before its data goes. *)
Fixpoint stop_workers (h : handle) (i : Z) (l : list owner) (w : process) : outcome (Z * list owner * process) :=
  match l with
  | [] => Ret (0, [], w)
  | o :: l =>
      let! (ret, t, w) := StopThread i (o_thread o) w in
      if negb (ret =? 0) then Ret (ret, mkOwner t (private_data_ o) :: l, w)
      else
        let '(ret, data, w) := delete_data i h (private_data_ o) w in
        if negb (ret =? 0) then Ret (ret, mkOwner t data :: l, w)
        else let! (ret, l, w) := stop_workers h (i + 1) l w in Ret (ret, mkOwner t data :: l, w)
  end.

Definition Dispatch_StopThread (h : handle) (d : dispatcher) (w : process) : outcome (Z * dispatcher * process) :=
  let told := map (fun o => mkOwner (set_should_stop (o_thread o)) (private_data_ o)) (d_workers d) in
  let! (ret, l, w) := stop_workers h 0 told w in
  if negb (ret =? 0) then Ret (ret, mkDispatcher (d_self d) l, w)
  else
    let! (ret, t, w) := StopThread self (d_self d) w in
    Ret (ret, mkDispatcher t l, w).

(** * ThreadPool *)

(** [ThreadPool::Worker] *)
Record pool_worker : Type := mkPoolWorker { start_ : bool; worker_id : Z }.

(** The pool; [None] for [cltq_] once it has been deleted. Workers are known by the
    place where [new Worker] put them. *)
Record pool : Type := mkPool {
  worker_num_ : nat;
  workers_ : list pool_worker;
  pool_running_ : bool;
  pool_should_stop_ : bool;
  cltq_alive : bool
}.

Definition new_ThreadPool (worker_num : nat) : pool := mkPool worker_num [] false false true.

(** [Worker::start] *)
Definition worker_start (who : Z) (k : pool_worker) (w : process) : Z * pool_worker * process :=
  if start_ k then (0, k, w)
  else
    let '(r, id, w) := pthread_create who w in
    if negb (r =? 0) then (-1, mkPoolWorker false (default (worker_id k) id), w)
    else (0, mkPoolWorker true (default (worker_id k) id), w).

(** [Worker::stop] *)
Definition worker_stop (who : Z) (k : pool_worker) (w : process) : outcome (Z * pool_worker * process) :=
  if start_ k then
    let! (r, w) := pthread_join who (worker_id k) w in
    if negb (r =? 0) then Ret (-1, k, w) else Ret (0, mkPoolWorker false (worker_id k), w)
  else Ret (0, k, w).

(** The loop of [start_thread_pool] from [i] on: a new worker at the end of the
    vector, and then the one at [i] is started. *)
Fixpoint start_pool (n : nat) (i : nat) (l : list pool_worker) (w : process)
    : RetCode * list pool_worker * process :=
  match n with
  | O => (kSuccess, l, w)
  | S n =>
      let l := l ++ [mkPoolWorker false 0] in
      match l !! i with
      | None => (kSuccess, l, w)
      | Some k =>
          let '(res, k, w) := worker_start (Z.of_nat i) k w in
          let l := <[i := k]> l in
          if negb (res =? 0) then (kCreateThreadError, l, w) else start_pool n (S i) l w
      end
  end.

Definition start_thread_pool (p : pool) (w : process) : RetCode * pool * process :=
  if pool_running_ p then (kSuccess, p, w)
  else
    let '(ret, l, w) := start_pool (worker_num_ p) 0 (workers_ p) w in
    match ret with
    | kSuccess => (ret, mkPool (worker_num_ p) l true false (cltq_alive p), w)
    | _ => (ret, mkPool (worker_num_ p) l false false (cltq_alive p), w)
    end.

(** The loop of [stop_thread_pool]: it ends at the first that cannot be joined. *)
Fixpoint stop_pool (i : nat) (l : list pool_worker) (w : process) : outcome (Z * process) :=
  match l with
  | [] => Ret (0, w)
  | k :: l =>
      let! (res, _, w) := worker_stop (Z.of_nat i) k w in
      if negb (res =? 0) then Ret (res, w) else stop_pool (S i) l w
  end.

Definition stop_thread_pool (p : pool) (w : process) : outcome (Z * pool * process) :=
  if pool_running_ p then
    let! (res, w) := stop_pool 0 (workers_ p) w in
    Ret (res, mkPool (worker_num_ p) [] false true (cltq_alive p), w)
  else Ret (0, p, w).

(** [~ThreadPool] *)
Definition delete_ThreadPool (p : pool) (w : process) : outcome (pool * process) :=
  let! (_, p, w) := stop_thread_pool p w in
  Ret (mkPool (worker_num_ p) (workers_ p) (pool_running_ p) (pool_should_stop_ p) false, w).
