(* ===== verification/LifecycleTheorems.v ===== *)
(** The theorems on the start and stop of threads: which of them give back what they
    took, and in which order. *)
From S2P Require Import Pink Prelude Lifecycle.

(** * Reading a trace *)

Definition spawns (tr : list thread_event) : list (Z * Z) :=
  omap (fun e => match e with Spawned who id => Some (who, id) | _ => None end) tr.
Definition joins (tr : list thread_event) : list (Z * Z) :=
  omap (fun e => match e with Joined who id => Some (who, id) | _ => None end) tr.
Definition creates (tr : list thread_event) : list (Z * Z) :=
  omap (fun e => match e with DataCreated who d => Some (who, d) | _ => None end) tr.
Definition deletes (tr : list thread_event) : list (Z * Z) :=
  omap (fun e => match e with DataDeleted who d => Some (who, d) | _ => None end) tr.

(** No data is deleted while the thread it was made for may use it. *)
Definition deletes_after_join (tr : list thread_event) : Prop :=
  forall pre who d post, tr = pre ++ DataDeleted who d :: post ->
  forall id, Spawned who id ∈ pre -> Joined who id ∈ pre.

(** * The dispatcher *)

Definition spawn_of (i : Z) (o : owner) : list thread_event :=
  if running_ (o_thread o) then [Spawned i (thread_id_ (o_thread o))] else [].
Definition join_of (i : Z) (o : owner) : list thread_event :=
  if running_ (o_thread o) then [Joined i (thread_id_ (o_thread o))] else [].
Definition create_of (i : Z) (o : owner) : list thread_event :=
  match private_data_ o with Some d => [DataCreated i d] | None => [] end.
Definition delete_of (i : Z) (o : owner) : list thread_event :=
  match private_data_ o with Some d => [DataDeleted i d] | None => [] end.

Fixpoint start_trace (i : Z) (l : list owner) : list thread_event :=
  match l with [] => [] | o :: l => create_of i o ++ spawn_of i o ++ start_trace (i + 1) l end.
Fixpoint stop_trace (i : Z) (l : list owner) : list thread_event :=
  match l with [] => [] | o :: l => join_of i o ++ delete_of i o ++ stop_trace (i + 1) l end.

(** The threads of the workers. *)
Definition ids (l : list owner) : list Z :=
  omap (fun o => if running_ (o_thread o) then Some (thread_id_ (o_thread o)) else None) l.

(** What a start has taken from [w]. *)
Record started (h : handle) (i : Z) (l : list owner) (w w' : process) : Prop := {
  st_trace : trace w' = trace w ++ start_trace i l;
  st_live : live w' = live w ∪ list_to_set (ids l);
  st_ids : Forall (fun id => next_id w <= id < next_id w') (ids l);
  st_nodup : NoDup (ids l);
  st_next : next_id w <= next_id w';
  st_create : create_results w' = [];
  st_delete : delete_results w' = delete_results w;
  st_default : h = DefaultHandle -> Forall (fun o => private_data_ o = None) l
}.

Lemma data_spec h i w : exists r data w',
  CreateWorkerSpecificData i h None w = (r, data, w') /\
  trace w' = trace w ++ create_of i (mkOwner new_Thread data) /\ live w' = live w /\ next_id w' = next_id w /\
  create_results w' = create_results w /\ delete_results w' = delete_results w /\ (h = DefaultHandle -> data = None).
Proof.
  destruct h; simpl.
  - destruct (default (0, None) (head (data_results w))) as [r [d|]]; eexists _, _, _; split; try done; split_and!; try done.
    by rewrite app_nil_r.
  - eexists _, _, _. split; [done|]. split_and!; try done. by rewrite app_nil_r.
Qed.

Lemma create_of_thread i t t' d : create_of i (mkOwner t d) = create_of i (mkOwner t' d).
Proof. done. Qed.

Lemma idle_started h i l w : create_results w = [] -> Forall (fun o => o = new_owner) l -> started h i l w w.
Proof.
  intros Hc Hl. assert (E : start_trace i l = [] /\ ids l = []).
  { revert i. induction Hl as [|o l -> _ IH]; intros i; [done|]. destruct (IH (i + 1)) as [E1 E2]. by simpl. }
  destruct E as [E1 E2]. split; rewrite ?E1, ?E2; try done; [by rewrite app_nil_r|set_solver|constructor|].
  intros _. eapply Forall_impl; [exact Hl|]. by intros ? ->.
Qed.

Lemma start_workers_spec h l : forall i w,
  Forall (fun o => o = new_owner) l -> create_results w = [] ->
  exists r l' w', start_workers h i l w = (r, l', w') /\ started h i l' w w' /\ length l' = length l /\
    (r = 0 -> Forall (fun o => running_ (o_thread o) = true) l').
Proof.
  induction l as [|o l IH]; intros i w Hl Hc; cbn [start_workers].
  { exists 0, [], w. split; [done|]. split; [by apply idle_started|done]. }
  apply Forall_cons in Hl as [-> Hl]. cbn [private_data_ new_owner o_thread].
  destruct (data_spec h i w) as (r & data & w1 & -> & T1 & L1 & N1 & C1 & D1 & F1).
  destruct (Z.eqb_spec r 0) as [->|Hr]; cbn [negb].
  - unfold StartThread, pthread_create. cbn [new_Thread running_]. rewrite C1, Hc. cbn [head tail default].
    change (0 =? 0) with true. cbn [negb from_option]. unfold id.
    set (w2 := note _ _). set (o1 := mkOwner _ data).
    destruct (IH (i + 1) w2 Hl) as (r' & l' & w' & -> & HS & Hlen & Hall); [done|].
    exists r', (o1 :: l'), w'. split; [done|]. destruct HS as [ST SL SI SN SX SC SD SF]. cbn in SX.
    assert (Hfresh : next_id w1 ∉ ids l').
    { intros Hin. rewrite Forall_forall in SI. apply SI in Hin. cbn in Hin. lia. }
    split; [|split; [simpl; congruence|intros E; apply Forall_cons; split; [done|by apply Hall]]].
    split; cbn [start_trace ids omap list_omap o1 o_thread running_ thread_id_ private_data_]; try done.
    + rewrite ST. cbn. rewrite T1, <- !app_assoc. done.
    + rewrite SL. cbn. rewrite L1. set_solver.
    + apply Forall_cons. split; [lia|]. eapply Forall_impl; [exact SI|]. cbn. lia.
    + by constructor.
    + lia.
    + rewrite SD. by cbn.
    + intros Eh. apply Forall_cons. split; [by apply F1|by apply SF].
  - exists r, (mkOwner new_Thread data :: l), w1. split; [done|].
    destruct (idle_started h (i + 1) l w1 ltac:(congruence) Hl) as [ST SL SI SN SX SC SD SF].
    split; [|split; [done|by intros ->]]. split; cbn [start_trace ids omap list_omap o_thread running_ private_data_ new_Thread]; try done.
    + rewrite ST at 1. rewrite T1, <- !app_assoc. done.
    + by rewrite SL, L1.
    + by rewrite <- N1.
    + lia.
    + intros Eh. apply Forall_cons. split; [by apply F1|by apply SF].
Qed.

(** Nothing is left. *)
Definition stopped (o : owner) : Prop := running_ (o_thread o) = false /\ private_data_ o = None.

Definition told (l : list owner) : list owner :=
  map (fun o => mkOwner (set_should_stop (o_thread o)) (private_data_ o)) l.

Lemma stop_workers_spec h l : forall i w,
  NoDup (ids l) -> Forall (fun id => id ∈ live w) (ids l) -> delete_results w = [] ->
  (h = DefaultHandle -> Forall (fun o => private_data_ o = None) l) ->
  exists l' w', stop_workers h i (told l) w = Ret (0, l', w') /\ Forall stopped l' /\
    trace w' = trace w ++ stop_trace i l /\ live w' = live w ∖ list_to_set (ids l) /\ length l' = length l.
Proof.
  induction l as [|[t data] l IH]; intros i w Hnd Hin Hdel Hdef.
  { exists [], w. split; [done|]. split; [done|]. rewrite app_nil_r. split; [done|]. split; [set_solver|done]. }
  assert (Hdef' : h = DefaultHandle -> Forall (fun o => private_data_ o = None) l).
  { intros E. specialize (Hdef E). by apply Forall_cons in Hdef as [_ Hdef]. }
  assert (HJ : exists w1, StopThread i (set_should_stop t) w = Ret (0, mkThread true false (thread_id_ t), w1) /\
    trace w1 = trace w ++ join_of i (mkOwner t data) /\ live w1 = live w ∖ list_to_set (ids [mkOwner t data]) /\ delete_results w1 = []).
  { unfold StopThread, join_of. cbn [set_should_stop running_ thread_id_ o_thread ids omap list_omap]. destruct (running_ t) eqn:Er.
    - unfold pthread_join. rewrite bool_decide_eq_true_2.
      2:{ cbn [ids omap list_omap o_thread] in Hin. rewrite Er in Hin. by apply Forall_cons in Hin as [? _]. }
      cbn [obind]. eexists. split; [done|]. split; [done|]. split; [|done]. cbn. set_solver.
    - exists w. split; [done|]. rewrite app_nil_r. split; [done|]. split; [set_solver|done]. }
  destruct HJ as (w1 & HJ & T1 & L1 & D1). cbn [told map stop_workers o_thread private_data_]. rewrite HJ. cbn [obind negb Z.eqb].
  change (0 =? 0) with true. cbn [negb].
  assert (Hids : ids (mkOwner t data :: l) = ids [mkOwner t data] ++ ids l) by (unfold ids; by rewrite <- omap_app).
  rewrite Hids in Hnd, Hin. apply NoDup_app in Hnd as (_ & Hdj & Hnd). apply Forall_app in Hin as [_ Hin].
  assert (Hin1 : forall w2, live w2 = live w1 -> Forall (fun id => id ∈ live w2) (ids l)).
  { intros w2 ->. rewrite L1. rewrite Forall_forall in Hin |- *. intros id Hid. specialize (Hin id Hid).
    apply elem_of_difference. split; [done|]. intros Hx%elem_of_list_to_set. by apply (Hdj id). }
  assert (Hgo : exists w2, delete_data i h data w1 = (0, None, w2) /\ live w2 = live w1 /\ delete_results w2 = [] /\
    trace w2 = trace w1 ++ delete_of i (mkOwner t data)).
  { destruct data as [d|]; [|exists w1; cbn; by rewrite app_nil_r]. destruct h; [|specialize (Hdef eq_refl); by apply Forall_cons in Hdef as [? _]].
    cbn [delete_data DeleteWorkerSpecificData]. rewrite D1. eexists. by split_and!. }
  destruct Hgo as (w2 & -> & L2 & D2 & T2). change (0 =? 0) with true. cbn [negb]. fold (told l).
  destruct (IH (i + 1) w2 Hnd (Hin1 w2 L2) D2 Hdef') as (l' & w' & -> & Hst & T' & L' & Hlen). cbn [obind].
  eexists _, w'. split; [done|]. split; [by apply Forall_cons|]. cbn [stop_trace]. rewrite T', T2, T1, <- !app_assoc. split; [done|].
  split; [|simpl; congruence]. rewrite L', L2, L1, Hids, list_to_set_app_L. set_solver.
Qed.

(** ** The trace of a whole life *)

Lemma deleted_behind (l1 l2 pre post : list thread_event) e :
  e ∉ l1 -> l1 ++ l2 = pre ++ e :: post -> exists pre', pre = l1 ++ pre' /\ l2 = pre' ++ e :: post.
Proof.
  revert pre. induction l1 as [|x l1 IH]; intros pre Hn E; [by exists pre|].
  destruct pre as [|y pre]; simpl in E; injection E as -> E; [set_solver|].
  destruct (IH pre) as (pre' & -> & ?); [set_solver|done|]. by exists pre'.
Qed.

Lemma start_events i l e : e ∈ start_trace i l ->
  exists k o, l !! k = Some o /\ (e ∈ create_of (i + Z.of_nat k) o \/ e ∈ spawn_of (i + Z.of_nat k) o).
Proof.
  revert i. induction l as [|o l IH]; intros i; cbn [start_trace]; [set_solver|]. rewrite !elem_of_app. intros [H|[H|H]].
  - exists 0%nat, o. rewrite Z.add_0_r. auto.
  - exists 0%nat, o. rewrite Z.add_0_r. auto.
  - destruct (IH _ H) as (k & o' & Hk & He). exists (S k), o'. by replace (i + Z.of_nat (S k)) with (i + 1 + Z.of_nat k) by lia.
Qed.

Lemma stop_events i l e : e ∈ stop_trace i l ->
  exists k o, l !! k = Some o /\ (e ∈ join_of (i + Z.of_nat k) o \/ e ∈ delete_of (i + Z.of_nat k) o).
Proof.
  revert i. induction l as [|o l IH]; intros i; cbn [stop_trace]; [set_solver|]. rewrite !elem_of_app. intros [H|[H|H]].
  - exists 0%nat, o. rewrite Z.add_0_r. auto.
  - exists 0%nat, o. rewrite Z.add_0_r. auto.
  - destruct (IH _ H) as (k & o' & Hk & He). exists (S k), o'. by replace (i + Z.of_nat (S k)) with (i + 1 + Z.of_nat k) by lia.
Qed.

Lemma in_spawn_of i o e : e ∈ spawn_of i o -> running_ (o_thread o) = true /\ e = Spawned i (thread_id_ (o_thread o)).
Proof. unfold spawn_of. destruct (running_ _); set_solver. Qed.
Lemma in_join_of i o e : e ∈ join_of i o -> exists id, e = Joined i id.
Proof. unfold join_of. destruct (running_ _); set_solver. Qed.
Lemma in_create_of i o e : e ∈ create_of i o -> exists d, e = DataCreated i d.
Proof. unfold create_of. destruct (private_data_ _); set_solver. Qed.
Lemma in_delete_of i o e : e ∈ delete_of i o -> exists d, e = DataDeleted i d.
Proof. unfold delete_of. destruct (private_data_ _); set_solver. Qed.

(** When the data of a worker goes its thread has been joined. *)
Lemma stop_deletes i l : forall pre who d post,
  stop_trace i l = pre ++ DataDeleted who d :: post ->
  exists k o, l !! k = Some o /\ who = i + Z.of_nat k /\ (running_ (o_thread o) = true -> Joined who (thread_id_ (o_thread o)) ∈ pre).
Proof.
  revert i. induction l as [|o l IH]; intros i pre who d post E; cbn [stop_trace] in E; [by destruct pre|].
  apply deleted_behind in E as (pre1 & -> & E); [|intros [? ?]%in_join_of; done].
  destruct (decide (DataDeleted who d ∈ delete_of i o)) as [Hd|Hd].
  - apply in_delete_of in Hd as [d' [= -> ->]]. exists 0%nat, o. rewrite Z.add_0_r. split; [done|]. split; [done|].
    intros Hr. apply elem_of_app. left. unfold join_of. rewrite Hr. by left.
  - apply deleted_behind in E as (pre2 & -> & E); [|done]. destruct (IH _ _ _ _ _ E) as (k & o' & Hk & -> & Hj).
    exists (S k), o'. split; [done|]. split; [lia|]. intros Hr. rewrite !elem_of_app. right; right. by apply Hj.
Qed.

(** A whole trace, [s] and [j] being the dispatcher's own thread. *)
Definition whole (l : list owner) (s j : list thread_event) : list thread_event :=
  start_trace 0 l ++ s ++ stop_trace 0 l ++ j.
Definition own_spawn (id : option Z) : list thread_event := match id with Some id => [Spawned self id] | None => [] end.
Definition own_join (id : option Z) : list thread_event := match id with Some id => [Joined self id] | None => [] end.

Lemma whole_ordered l id : deletes_after_join (whole l (own_spawn id) (own_join id)).
Proof.
  intros pre who d post E id' Hs. unfold whole in E.
  apply deleted_behind in E as (pre1 & -> & E).
  2:{ intros (k & o & _ & [H|H])%start_events; [by apply in_create_of in H as [? ?]|by apply in_spawn_of in H as [_ ?]]. }
  apply deleted_behind in E as (pre2 & -> & E); [|destruct id; simpl; set_solver].
  assert (Hd : exists post', stop_trace 0 l = pre2 ++ DataDeleted who d :: post').
  { destruct id as [id|]; simpl in E; [|rewrite app_nil_r in E; by exists post].
    destruct post as [|x post _] using rev_ind; [by apply app_inj_tail in E as [_ ?]|].
    rewrite app_comm_cons, app_assoc in E. apply app_inj_tail in E as [-> _]. by exists post. }
  destruct Hd as [post' Hd]. destruct (stop_deletes _ _ _ _ _ _ Hd) as (k & o & Hk & -> & Hj).
  rewrite !elem_of_app in Hs |- *. right; right. destruct Hs as [Hs|[Hs|Hs]].
  - apply start_events in Hs as (k' & o' & Hk' & [Hs|Hs]); [by apply in_create_of in Hs as [? ?]|].
    apply in_spawn_of in Hs as [Hr [= E1 ->]]. assert (k' = k) as -> by lia. assert (o' = o) as -> by congruence. by apply Hj.
  - destruct id as [id|]; simpl in Hs; [|set_solver]. apply list_elem_of_singleton in Hs. injection Hs as Hs _. unfold self in Hs. lia.
  - exfalso. assert (Hin : Spawned (0 + Z.of_nat k) id' ∈ stop_trace 0 l) by (rewrite Hd; set_solver).
    apply stop_events in Hin as (k' & o' & _ & [H|H]); [by apply in_join_of in H as [? ?]|by apply in_delete_of in H as [? ?]].
Qed.

Lemma start_stop_balance i l :
  joins (stop_trace i l) = spawns (start_trace i l) /\ deletes (stop_trace i l) = creates (start_trace i l) /\
  spawns (stop_trace i l) = [] /\ creates (stop_trace i l) = [] /\ joins (start_trace i l) = [] /\ deletes (start_trace i l) = [].
Proof.
  revert i. induction l as [|o l IH]; intros i; [done|]. cbn [start_trace stop_trace].
  destruct (IH (i + 1)) as (H1 & H2 & H3 & H4 & H5 & H6). unfold joins, spawns, creates, deletes in *.
  rewrite !omap_app, H1, H2, H3, H4, H5, H6. unfold join_of, spawn_of, create_of, delete_of.
  destruct (running_ _), (private_data_ _); by split_and!.
Qed.

Lemma whole_balanced l id : let tr := whole l (own_spawn id) (own_join id) in joins tr = spawns tr /\ deletes tr = creates tr.
Proof.
  destruct (start_stop_balance 0 l) as (H1 & H2 & H3 & H4 & H5 & H6). unfold whole, joins, spawns, creates, deletes in *.
  cbv zeta. rewrite !omap_app, H1, H2, H3, H4, H5, H6. destruct id; cbn; by rewrite ?app_nil_r.
Qed.

(** C38: stopping a dispatcher gives back what starting it took, and in a safe order.
    Assumed are that every [pthread_create] succeeds (otherwise [StopThread] can join a
    thread that is not there, [failed_start_stays_running]) and that every
    [DeleteWorkerSpecificData] does (otherwise [StopThread] returns early). Whatever
    [CreateWorkerSpecificData] answers to the workers and whether or not the server
    can listen: after [StartThread], also one
    that one of these two has stopped half way with an error, [StopThread] returns 0, every thread that
    was created has been joined once and every piece of data that was made has been
    deleted once, in the same order, nothing is running, and no data is deleted before
    the thread that uses it has ended. A start without an error has all the workers
    and the dispatcher running. *)
Theorem dispatch_stop_undoes_start h init n w :
  create_results w = [] -> delete_results w = [] -> trace w = [] -> (forall id, id ∈ live w -> id < next_id w) ->
  exists r d1 w1 d2 w2,
    Dispatch_StartThread h init (mkDispatcher new_Thread (replicate n new_owner)) w = (r, d1, w1) /\
    Dispatch_StopThread h d1 w1 = Ret (0, d2, w2) /\
    (r = 0 -> length (d_workers d1) = n /\ Forall (fun o => running_ (o_thread o) = true) (d_workers d1) /\ is_running (d_self d1) = true) /\
    live w2 = live w /\ Forall stopped (d_workers d2) /\ is_running (d_self d2) = false /\
    joins (trace w2) = spawns (trace w2) /\ deletes (trace w2) = creates (trace w2) /\ deletes_after_join (trace w2).
Proof.
  intros Hc Hd Htr Hlt. unfold Dispatch_StartThread. cbn [d_workers d_self].
  destruct (start_workers_spec h (replicate n new_owner) 0 w) as (r & l & w1 & -> & HS & Hlen & Hall); [by apply Forall_replicate|done|].
  rewrite length_replicate in Hlen. destruct HS as [ST SL SI SN SX SC SD SF]. rewrite Htr in ST. cbn [app] in ST.
  assert (Hin : forall w', live w1 ⊆ live w' -> Forall (fun id => id ∈ live w') (ids l)).
  { intros w' Hsub. apply Forall_forall. intros id Hid. apply Hsub. rewrite SL. apply elem_of_union_r. by apply elem_of_list_to_set. }
  assert (Hnew : forall id, id ∈ live w -> id ∈@{gset Z} list_to_set (ids l) -> False).
  { intros id Hw Hl%elem_of_list_to_set. rewrite Forall_forall in SI. apply SI in Hl. apply Hlt in Hw. lia. }
  (* the dispatcher's own thread, if it has one *)
  assert (Hown : exists id t w2 r2,
    (if negb (r =? 0) then (r, mkDispatcher new_Thread l, w1)
     else let '(ret, t, w) := Server_StartThread init new_Thread w1 in (ret, mkDispatcher t l, w)) = (r2, mkDispatcher t l, w2) /\
    trace w2 = start_trace 0 l ++ own_spawn id /\ live w2 = live w1 ∪ list_to_set (option_list id) /\ delete_results w2 = [] /\
    (r2 = 0 -> r = 0 /\ running_ t = true) /\ (forall i, id = Some i -> i = next_id w1 /\ thread_id_ t = i) /\
    running_ t = bool_decide (is_Some id)).
  { destruct (Z.eqb_spec r 0) as [->|Hr]; cbn [negb].
    - unfold Server_StartThread. destruct (Z.eqb_spec init 0) as [->|Hi]; cbn [negb].
      + unfold StartThread, pthread_create. cbn [new_Thread running_]. rewrite SC. cbn.
        exists (Some (next_id w1)). eexists _, _, _. split; [done|]. cbn. rewrite ST. split_and!; try done; [set_solver|congruence|].
        intros i [= ->]. done.
      + exists None, new_Thread, w1, init. rewrite ST, app_nil_r. split_and!; try done; [set_solver|congruence].
    - exists None, new_Thread, w1, r. rewrite ST, app_nil_r. split_and!; try done; [set_solver|congruence]. }
  destruct Hown as (id & t & w2 & r2 & -> & T2 & L2 & D2 & H0 & Hid & Hrun).
  exists r2, (mkDispatcher t l), w2. unfold Dispatch_StopThread. cbn [d_workers d_self]. fold (told l).
  destruct (stop_workers_spec h l 0 w2 SN (Hin w2 ltac:(set_solver)) D2 SF) as (l' & w3 & -> & Hst & T3 & L3 & Hlen').
  cbn [obind]. change (0 =? 0) with true. cbn [negb].
  assert (HJ : exists w4, StopThread self t w3 = Ret (0, mkThread true false (thread_id_ t), w4) /\
    trace w4 = trace w3 ++ own_join id /\ live w4 = live w3 ∖ list_to_set (option_list id)).
  { unfold StopThread. rewrite Hrun. destruct id as [i|]; cbn.
    - destruct (Hid i eq_refl) as [Ei ->]. unfold pthread_join. rewrite bool_decide_eq_true_2.
      + eexists. split; [done|]. cbn. split; [done|]. set_solver.
      + rewrite L3, L2. apply elem_of_difference. split; [cbn; set_solver|]. rewrite elem_of_list_to_set. intros Hx.
        rewrite Forall_forall in SI. apply SI in Hx. lia.
    - exists w3. rewrite app_nil_r. split_and!; try done. set_solver. }
  destruct HJ as (w4 & -> & T4 & L4). cbn [obind]. exists (mkDispatcher (mkThread true false (thread_id_ t)) l'), w4.
  assert (Htrace : trace w4 = whole l (own_spawn id) (own_join id)) by (rewrite T4, T3, T2; unfold whole; by rewrite <- !app_assoc).
  split; [done|]. split; [done|]. split; [intros E; destruct (H0 E) as [-> Ht]; cbn; auto|]. split.
  { rewrite L4, L3, L2, SL. apply set_eq. intros x. rewrite !elem_of_difference, !elem_of_union.
    split; [tauto|]. intros Hx. split_and!; [auto| |].
    - intros Hl. by apply (Hnew x).
    - rewrite elem_of_list_to_set. destruct id as [i|]; simpl; [|set_solver]. intros ->%list_elem_of_singleton. destruct (Hid i eq_refl) as [-> _]. specialize (Hlt _ Hx). lia. }
  split; [done|]. split; [done|]. rewrite Htrace. destruct (whole_balanced l id). split_and!; try done. apply whole_ordered.
Qed.

(** A process at its beginning whose handle gives two workers their data. *)
Definition fresh_process (creates : list Z) : process := mkProcess ∅ 1 creates [(0, Some 10); (0, Some 11)] [] [].

Lemma dispatch_stop_undoes_start_witness :
  exists d1 w1 d2 w2,
    Dispatch_StartThread UserHandle 0 (mkDispatcher new_Thread (replicate 2 new_owner)) (fresh_process []) = (0, d1, w1) /\
    Dispatch_StopThread UserHandle d1 w1 = Ret (0, d2, w2) /\ live w2 = ∅ /\
    spawns (trace w1) = [(0, 1); (1, 2); (self, 3)] /\ creates (trace w1) = [(0, 10); (1, 11)] /\
    joins (trace w2) = spawns (trace w2) /\ deletes (trace w2) = creates (trace w2) /\ deletes_after_join (trace w2).
Proof.
  destruct (dispatch_stop_undoes_start UserHandle 0 2 (fresh_process [])) as (r & d1 & w1 & d2 & w2 & E1 & E2 & _ & H3 & _ & _ & H6 & H7 & H8);
    [done|done|done|set_solver|].
  assert (Er : (Dispatch_StartThread UserHandle 0 (mkDispatcher new_Thread (replicate 2 new_owner)) (fresh_process [])).1.1 = r) by by rewrite E1.
  assert (Et : trace w1 = trace (Dispatch_StartThread UserHandle 0 (mkDispatcher new_Thread (replicate 2 new_owner)) (fresh_process [])).2) by by rewrite E1.
  exists d1, w1, d2, w2. split; [rewrite E1; by rewrite <- Er|]. split; [exact E2|]. split; [exact H3|]. rewrite Et. split; [reflexivity|].
  split; [reflexivity|]. split; [exact H6|]. split; [exact H7|exact H8].
Defined.

(** * A thread that cannot be created *)

(** A [StartThread] that fails cannot be repaired. When [pthread_create] reports
    an error the object says all the same that it is running: a second [StartThread]
    returns success and creates nothing, and [StopThread] joins a thread that does not
    exist. *)
Theorem failed_start_stays_running who t w r q :
  running_ t = false -> create_results w = r :: q -> r <> 0 -> thread_id_ t ∉ live w ->
  exists t1 w1, StartThread who t w = (r, t1, w1) /\ is_running t1 = true /\ live w1 = live w /\ trace w1 = trace w /\
    StartThread who t1 w1 = (0, t1, w1) /\ StopThread who t1 w1 = Fault BadThread.
Proof.
  intros Hr Hc Hne Hn. unfold StartThread at 1. rewrite Hr. unfold pthread_create. rewrite Hc. cbn [head tail default from_option].
  unfold id. rewrite (proj2 (Z.eqb_neq r 0)) by done. eexists _, _. split; [done|]. split_and!; try done.
  unfold StopThread, pthread_join. cbn. by rewrite bool_decide_eq_false_2.
Qed.

Lemma failed_start_stays_running_witness :
  exists t1 w1, StartThread self new_Thread (fresh_process [11]) = (11, t1, w1) /\ is_running t1 = true /\ live w1 = ∅ /\ trace w1 = [] /\
    StartThread self t1 w1 = (0, t1, w1) /\ StopThread self t1 w1 = Fault BadThread.
Proof. apply (failed_start_stays_running self new_Thread (fresh_process [11]) 11 []); done. Defined.

(** * Data that goes before its thread *)

(** What a stop does that deletes first. *)
Definition deletes_first (d id : Z) (stop : process -> outcome (Z * process)) (w : process) : Prop :=
  let r := default 0 (head (delete_results w)) in
  exists w', stop w = Ret (r, w') /\
    if r =? 0 then trace w' = trace w ++ [DataDeleted self d; Joined self id] /\ live w' = live w ∖ {[id]}
    else trace w' = trace w ++ [DataDeleted self d] /\ live w' = live w.

Lemma delete_data_spec d w : exists r w1,
  delete_data self UserHandle (Some d) w = (r, if r =? 0 then None else Some d, w1) /\ r = default 0 (head (delete_results w)) /\
  trace w1 = trace w ++ [DataDeleted self d] /\ live w1 = live w.
Proof. cbn [delete_data DeleteWorkerSpecificData]. eexists _, _. split; [reflexivity|]. done. Qed.

Lemma StopThread_running who t w : running_ t = true -> thread_id_ t ∈ live w -> exists w1,
  StopThread who t w = Ret (0, mkThread true false (thread_id_ t), w1) /\
  trace w1 = trace w ++ [Joined who (thread_id_ t)] /\ live w1 = live w ∖ {[thread_id_ t]}.
Proof.
  intros Hr Hl. unfold StopThread, pthread_join. rewrite Hr, bool_decide_eq_true_2 by done. eexists. split; [reflexivity|]. done.
Qed.

(** [HolyThread], [ClientThread] and [BackendThread] delete the data of a thread
    that runs. [StopThread] first calls [DeleteWorkerSpecificData] on the data the
    thread hands to every connection it makes, and only then tells the thread to stop
    and joins it; when the handle reports an error the thread is not even told to
    stop, and runs on without its data. (The dispatcher joins first.) *)
Theorem stop_deletes_data_in_use o d w :
  private_data_ o = Some d -> running_ (o_thread o) = true -> thread_id_ (o_thread o) ∈ live w ->
  Spawned self (thread_id_ (o_thread o)) ∈ trace w -> Joined self (thread_id_ (o_thread o)) ∉ trace w ->
  let holy w := let! (r, _, w) := Holy_StopThread UserHandle o w in Ret (r, w) in
  let client w := let! (r, _, w) := Client_StopThread (mkPeer o (Some UserHandle) false) w in Ret (r, w) in
  let backend w := let! (r, _, w) := Backend_StopThread (mkPeer o (Some UserHandle) false) w in Ret (r, w) in
  forall stop, stop = holy \/ stop = client \/ stop = backend ->
    deletes_first d (thread_id_ (o_thread o)) stop w /\
    (forall r w', stop w = Ret (r, w') -> ~ deletes_after_join (trace w')).
Proof.
  intros Hd Hr Hl Hs Hj. cbv zeta. destruct o as [t data]. simpl in Hd, Hr, Hl, Hs, Hj |- *. subst data.
  assert (HS : forall stop, deletes_first d (thread_id_ t) stop w -> forall r w', stop w = Ret (r, w') -> ~ deletes_after_join (trace w')).
  { intros stop (w1 & E1 & HD) r w' E Ha. rewrite E in E1. injection E1 as -> <-.
    assert (exists post, trace w' = trace w ++ DataDeleted self d :: post) as [post Ht].
    { destruct (_ =? 0); destruct HD as [-> _]; by eexists. }
    apply Hj. by apply (Ha _ _ _ _ Ht). }
  destruct (delete_data_spec d w) as (r & w1 & E & Er & T1 & L1).
  destruct (StopThread_running self t w1 Hr ltac:(by rewrite L1)) as (w2 & E2 & T2 & L2).
  assert (Hboth : forall stop, (stop w = if r =? 0 then Ret (0, w2) else Ret (r, w1)) -> deletes_first d (thread_id_ t) stop w).
  { intros stop E3. unfold deletes_first. rewrite <- Er, E3. destruct (Z.eqb_spec r 0) as [->|Hne].
    - exists w2. split; [done|]. by rewrite T2, L2, T1, L1, <- app_assoc.
    - by exists w1. }
  assert (H1 : deletes_first d (thread_id_ t) (fun w => let! (r, _, w) := Holy_StopThread UserHandle (mkOwner t (Some d)) w in Ret (r, w)) w).
  { apply Hboth. unfold Holy_StopThread. cbn [private_data_ o_thread]. rewrite E. destruct (r =? 0); cbn [negb]; [by rewrite E2|done]. }
  assert (H2 : deletes_first d (thread_id_ t) (fun w => let! (r, _, w) := Peer_StopThread (mkPeer (mkOwner t (Some d)) (Some UserHandle) false) w in Ret (r, w)) w).
  { apply Hboth. unfold Peer_StopThread. cbn [private_data_ o_thread p_owner handle_ own_handle_ default from_option]. unfold id.
    rewrite E. destruct (r =? 0); cbn [negb]; [by rewrite E2|done]. }
  intros stop [-> |[-> | ->]]; (split; [done|]); intros r' w' E'; [by apply (HS _ H1 r')|by apply (HS _ H2 r')..].
Qed.

Definition running_owner : owner := mkOwner (mkThread false true 1) (Some 10).
Definition running_process : process := mkProcess {[1]} 2 [] [] [] [DataCreated self 10; Spawned self 1].

Lemma stop_deletes_data_in_use_witness :
  let client w := let! (r, _, w) := Client_StopThread (mkPeer running_owner (Some UserHandle) false) w in Ret (r, w) in
  deletes_first 10 1 client running_process /\ (forall r w', client running_process = Ret (r, w') -> ~ deletes_after_join (trace w')).
Proof.
  apply (stop_deletes_data_in_use running_owner 10 running_process); try done; simpl; [set_solver..|by right; left].
Defined.

(** * The thread pool *)

(** The process after [k] threads have been created for the workers from [i] on. *)
Fixpoint spawned (k : nat) (i : nat) (w : process) : process :=
  match k with O => w | S k => spawned k (S i) (pthread_create (Z.of_nat i) w).2 end.
Definition started_workers (k : nat) (first : Z) : list pool_worker := map (mkPoolWorker true) (seqZ first (Z.of_nat k)).

Lemma seqZ_S m k : seqZ m (Z.of_nat (S k)) = m :: seqZ (m + 1) (Z.of_nat k).
Proof. rewrite seqZ_cons by lia. do 2 f_equal; lia. Qed.

Lemma pthread_create_ok who w q : create_results w = 0 :: q ->
  pthread_create who w = (0, Some (next_id w), mkProcess ({[next_id w]} ∪ live w) (next_id w + 1) q (data_results w) (delete_results w)
    (trace w ++ [Spawned who (next_id w)])).
Proof. intros E. unfold pthread_create. by rewrite E. Qed.

Lemma start_pool_run k : forall n i l w q,
  length l = i -> create_results w = replicate k 0 ++ q ->
  start_pool (k + n) i l w = start_pool n (i + k) (l ++ started_workers k (next_id w)) (spawned k i w) /\
  create_results (spawned k i w) = q /\ next_id (spawned k i w) = next_id w + Z.of_nat k /\
  live (spawned k i w) = live w ∪ list_to_set (seqZ (next_id w) (Z.of_nat k)) /\
  trace (spawned k i w) = trace w ++ imap (fun j id => Spawned (Z.of_nat (i + j)) id) (seqZ (next_id w) (Z.of_nat k)).
Proof.
  induction k as [|k IH]; intros n i l w q Hl Hc.
  { simpl in *. rewrite Nat.add_0_r, !app_nil_r. split_and!; try done; [lia|set_solver]. }
  cbn [Nat.add start_pool]. rewrite lookup_app_r by lia. rewrite Hl, Nat.sub_diag. cbn [lookup list_lookup].
  unfold worker_start. cbn [start_ worker_id spawned]. rewrite (pthread_create_ok _ w (replicate k 0 ++ q)) by done.
  change (0 =? 0) with true. cbn [negb default from_option snd]. unfold id.
  rewrite insert_app_r_alt by lia. rewrite Hl, Nat.sub_diag. cbn [insert list_insert].
  set (w1 := mkProcess _ _ _ _ _ _). destruct (IH n (S i) (l ++ [mkPoolWorker true (next_id w)]) w1 q) as (E & C & N & L & T);
    [rewrite length_app; simpl; lia|done|].
  rewrite E. unfold started_workers. rewrite seqZ_S. cbn [map].
  assert (En : next_id w1 = next_id w + 1) by done. rewrite En in *. split_and!; try done.
  - rewrite <- app_assoc. f_equal. lia.
  - lia.
  - rewrite L. cbn. set_solver.
  - rewrite T. cbn. rewrite <- app_assoc. cbn. do 2 f_equal; [f_equal; lia|]. apply imap_ext. intros j x _. simpl. f_equal. lia.
Qed.

(** Stopping the workers of a run. *)
Lemma stop_pool_run k : forall first i w,
  (forall id, first <= id < first + Z.of_nat k -> id ∈ live w) ->
  exists w', stop_pool i (started_workers k first) w = Ret (0, w') /\ live w' = live w ∖ list_to_set (seqZ first (Z.of_nat k)) /\
    trace w' = trace w ++ imap (fun j id => Joined (Z.of_nat (i + j)) id) (seqZ first (Z.of_nat k)).
Proof.
  induction k as [|k IH]; intros first i w Hin.
  { exists w. split; [done|]. split; [set_solver|by rewrite app_nil_r]. }
  unfold started_workers. rewrite seqZ_S. cbn [map stop_pool]. unfold worker_stop. cbn [start_ worker_id]. unfold pthread_join.
  rewrite bool_decide_eq_true_2 by (apply Hin; lia). cbn [obind]. change (0 =? 0) with true. cbn [negb obind].
  set (w1 := note _ _). destruct (IH (first + 1) (S i) w1) as (w' & E & L & T).
  { intros id Hid. cbn. apply elem_of_difference. split; [apply Hin; lia|]. set_unfold. lia. }
  fold (started_workers k (first + 1)). exists w'. split; [exact E|]. split; [rewrite L; cbn; set_solver|].
  rewrite T. cbn. rewrite <- app_assoc. cbn. do 2 f_equal; [f_equal; lia|]. apply imap_ext. intros j x _. simpl. f_equal. lia.
Qed.

(** A pool that cannot start all its workers leaves the others behind. When
    [pthread_create] fails for the worker number [k], [start_thread_pool] reports
    [kCreateThreadError] with [k] threads running, but the pool does not count as
    running: [stop_thread_pool] does nothing, and the destructor deletes the queue
    under the [k] threads. When all can be created the pool starts [n] of them and
    [stop_thread_pool] joins each, after which nothing runs. *)
Theorem pool_start_all_or_strand n w :
  (forall id, id ∈ live w -> id < next_id w) ->
  (forall q, create_results w = replicate n 0 ++ q ->
     exists p1 w1 p2 w2, start_thread_pool (new_ThreadPool n) w = (kSuccess, p1, w1) /\
       live w1 = live w ∪ list_to_set (seqZ (next_id w) (Z.of_nat n)) /\
       stop_thread_pool p1 w1 = Ret (0, p2, w2) /\ live w2 = live w /\ workers_ p2 = [] /\
       trace w2 = trace w ++ imap (fun j id => Spawned (Z.of_nat j) id) (seqZ (next_id w) (Z.of_nat n)) ++
                             imap (fun j id => Joined (Z.of_nat j) id) (seqZ (next_id w) (Z.of_nat n))) /\
  (forall k r q, (k < n)%nat -> r <> 0 -> create_results w = replicate k 0 ++ r :: q ->
     exists p1 w1 p2, start_thread_pool (new_ThreadPool n) w = (kCreateThreadError, p1, w1) /\
       live w1 = live w ∪ list_to_set (seqZ (next_id w) (Z.of_nat k)) /\
       stop_thread_pool p1 w1 = Ret (0, p1, w1) /\ delete_ThreadPool p1 w1 = Ret (p2, w1) /\ cltq_alive p2 = false).
Proof.
  intros Hlt. split.
  - intros q Hc. unfold start_thread_pool. cbn [new_ThreadPool pool_running_ worker_num_ workers_ cltq_alive].
    destruct (start_pool_run n 0 0 [] w q eq_refl Hc) as (E & C & N & L & T). rewrite Nat.add_0_r in E. rewrite E.
    cbn [start_pool app Nat.add] in *.
    destruct (stop_pool_run n (next_id w) 0 (spawned n 0 w)) as (w2 & E2 & L2 & T2).
    { intros id Hid. rewrite L. apply elem_of_union_r, elem_of_list_to_set, elem_of_seqZ. lia. }
    eexists _, _, _, w2. split; [done|]. split; [done|]. unfold stop_thread_pool. cbn [pool_running_ workers_ worker_num_ cltq_alive]. rewrite E2. split; [done|]. split; [|split; [done|]].
    + rewrite L2, L. apply set_eq. intros x. rewrite elem_of_difference, elem_of_union, elem_of_list_to_set, elem_of_seqZ.
      split; [tauto|]. intros Hx. split; [auto|]. specialize (Hlt _ Hx). lia.
    + by rewrite T2, T, <- app_assoc.
  - intros k r q Hk Hr Hc. unfold start_thread_pool. cbn [new_ThreadPool pool_running_ worker_num_ workers_ cltq_alive].
    destruct (start_pool_run k (n - k) 0 [] w (r :: q) eq_refl Hc) as (E & C & N & L & T).
    replace (k + (n - k))%nat with n in E by lia. rewrite E. cbn [app Nat.add] in *.
    destruct (n - k)%nat as [|m] eqn:Em; [lia|]. cbn [start_pool].
    assert (Hlen : length (started_workers k (next_id w)) = k) by (unfold started_workers; rewrite length_map, length_seqZ; lia).
    rewrite lookup_app_r by lia. rewrite Hlen, Nat.sub_diag. cbn [lookup list_lookup].
    unfold worker_start, pthread_create. cbn [start_ worker_id]. rewrite C. cbn [head tail default from_option]. unfold id.
    rewrite (proj2 (Z.eqb_neq r 0)) by done. cbn [negb]. rewrite (proj2 (Z.eqb_neq r 0)) by done. cbn [negb].
    change (-1 =? 0) with false. cbn [negb]. eexists _, _, _. split; [done|]. split; [done|]. done.
Qed.

Lemma pool_start_all_or_strand_witness :
  exists p1 w1 p2, start_thread_pool (new_ThreadPool 3) (fresh_process [0; 0; 11]) = (kCreateThreadError, p1, w1) /\
    live w1 = ∅ ∪ list_to_set (seqZ 1 2) /\
    stop_thread_pool p1 w1 = Ret (0, p1, w1) /\ delete_ThreadPool p1 w1 = Ret (p2, w1) /\ cltq_alive p2 = false.
Proof.
  destruct (pool_start_all_or_strand 3 (fresh_process [0; 0; 11])) as [_ H]; [set_solver|].
  apply (H 2%nat 11 []); [lia|done|done].
Defined.
