(* ===== verification/ServerSocket.v ===== *)
(** [pink/src/server_socket.h], [pink/src/server_socket.cc], and the parts of
    [pink/src/server_thread.cc] that make and delete the listening sockets:
    [InitHandle], [StartThread], the end of [ThreadMain] and the destructor.

    The kernel's side is the table of the descriptors of the process, and a script
    that says for each [Listen] which of its calls succeed. [bind] fails, whatever the
    script says, for an address at which the process listens already. *)
From S2P Require Import Pink Prelude PinkEpoll Lifecycle.

(** * The kernel *)

(** A descriptor: the address and port it is bound to, whether it listens, its status
    flags and whether it is closed by [exec]. *)
Record lsock : Type := mkLsock { l_bound : option (Z * Z); l_listens : bool; l_flags : Z; l_cloexec : bool }.

(** The answers to the calls of one [Listen]: the number [socket] gives, if any, and
    which of [setsockopt], [bind], [listen] and the two [fcntl] for the flags work. *)
Record listen_answer : Type := mkAnswer {
  a_socket : option Z; a_setsockopt : bool; a_bind : bool; a_listen : bool; a_getfl : bool; a_setfl : bool
}.

Record net : Type := mkNet { socks : gmap Z lsock; answers : list listen_answer }.

Definition put_socks (m : gmap Z lsock) (n : net) : net := mkNet m (answers n).

(** Out of descriptors when the script is over. *)
Definition next_answer (n : net) : listen_answer * net :=
  (default (mkAnswer None false false false false false) (head (answers n)), mkNet (socks n) (tail (answers n))).

Definition rc (ok : bool) : Z := if ok then 0 else -1.

(** A descriptor that is open changes, or [EBADF]. *)
Definition n_change (ok : bool) (f : lsock -> lsock) (fd : Z) (n : net) : Z * net :=
  match socks n !! fd with
  | Some s => if ok then (0, put_socks (<[fd := f s]> (socks n)) n) else (-1, n)
  | None => (-1, n)
  end.

(** [socket]: a number that is not in use. *)
Definition sys_socket (a : option Z) (n : net) : Z * net :=
  match a with
  | Some fd =>
      if (0 <=? fd) && bool_decide (socks n !! fd = None)
      then (fd, put_socks (<[fd := mkLsock None false 2 false]> (socks n)) n) else (-1, n)
  | None => (-1, n)
  end.

Definition INADDR_ANY : Z := 0.

(** Whether [bind] of an address and port meets a listening socket: the port is the
    same, and the address too or one of the two stands for all. Port 0 asks the
    kernel for a port of its choice. *)
Definition clashes (at_ : Z * Z) (s : lsock) : bool :=
  match l_bound s with
  | Some (addr, port) =>
      l_listens s && negb (port =? 0) && (port =? at_.2) &&
      ((addr =? at_.1) || (addr =? INADDR_ANY) || (at_.1 =? INADDR_ANY))
  | None => false
  end.
Definition in_use (at_ : Z * Z) (n : net) : bool := existsb (fun '(_, s) => clashes at_ s) (map_to_list (socks n)).

Definition sys_bind (ok : bool) (fd : Z) (at_ : Z * Z) (n : net) : Z * net :=
  n_change (ok && negb (in_use at_ n)) (fun s => mkLsock (Some at_) (l_listens s) (l_flags s) (l_cloexec s)) fd n.
Definition sys_listen (ok : bool) (fd : Z) (n : net) : Z * net :=
  n_change ok (fun s => mkLsock (l_bound s) true (l_flags s) (l_cloexec s)) fd n.
Definition set_cloexec (fd : Z) (n : net) : net :=
  (n_change true (fun s => mkLsock (l_bound s) (l_listens s) (l_flags s) true) fd n).2.
Definition n_close (fd : Z) (n : net) : net := put_socks (delete fd (socks n)) n.

(** [Setnonblocking] of pink_util.cc, with all its branches. *)
Definition Setnonblocking (getfl setfl : bool) (fd : Z) (n : net) : Z * net :=
  match socks n !! fd with
  | Some s =>
      if negb getfl then (-1, n_close fd n)
      else
        let flags := Z.lor (l_flags s) O_NONBLOCK in
        let '(r, n) := n_change setfl (fun s => mkLsock (l_bound s) (l_listens s) flags (l_cloexec s)) fd n in
        if r <? 0 then (-1, n_close fd n) else (flags, n)
  | None => (-1, n_close fd n)
  end.

(** * ServerSocket *)

Record ServerSocket : Type := mkServerSocket {
  port_ : Z; flags_ : Z; send_timeout_ : Z; recv_timeout_ : Z; accept_timeout_ : Z; accept_backlog_ : Z;
  tcp_send_buffer_ : Z; tcp_recv_buffer_ : Z; keep_alive_ : bool; listening_ : bool; is_block_ : bool;
  servaddr_ : Z * Z; sockfd_ : Z
}.

Definition put_sockfd (fd : Z) (s : ServerSocket) : ServerSocket :=
  mkServerSocket (port_ s) (flags_ s) (send_timeout_ s) (recv_timeout_ s) (accept_timeout_ s) (accept_backlog_ s)
    (tcp_send_buffer_ s) (tcp_recv_buffer_ s) (keep_alive_ s) (listening_ s) (is_block_ s) (servaddr_ s) fd.
Definition put_servaddr (at_ : Z * Z) (s : ServerSocket) : ServerSocket :=
  mkServerSocket (port_ s) (flags_ s) (send_timeout_ s) (recv_timeout_ s) (accept_timeout_ s) (accept_backlog_ s)
    (tcp_send_buffer_ s) (tcp_recv_buffer_ s) (keep_alive_ s) (listening_ s) (is_block_ s) at_ (sockfd_ s).
Definition put_listening (b : bool) (s : ServerSocket) : ServerSocket :=
  mkServerSocket (port_ s) (flags_ s) (send_timeout_ s) (recv_timeout_ s) (accept_timeout_ s) (accept_backlog_ s)
    (tcp_send_buffer_ s) (tcp_recv_buffer_ s) (keep_alive_ s) b (is_block_ s) (servaddr_ s) (sockfd_ s).
Definition put_flags (flags : Z) (s : ServerSocket) : ServerSocket :=
  mkServerSocket (port_ s) flags (send_timeout_ s) (recv_timeout_ s) (accept_timeout_ s) (accept_backlog_ s)
    (tcp_send_buffer_ s) (tcp_recv_buffer_ s) (keep_alive_ s) (listening_ s) (is_block_ s) (servaddr_ s) (sockfd_ s).

(** The setters, which the program does not use. *)
Definition set_port (port : Z) (s : ServerSocket) : ServerSocket :=
  mkServerSocket port (flags_ s) (send_timeout_ s) (recv_timeout_ s) (accept_timeout_ s) (accept_backlog_ s)
    (tcp_send_buffer_ s) (tcp_recv_buffer_ s) (keep_alive_ s) (listening_ s) (is_block_ s) (servaddr_ s) (sockfd_ s).
Definition set_keep_alive (b : bool) (s : ServerSocket) : ServerSocket :=
  mkServerSocket (port_ s) (flags_ s) (send_timeout_ s) (recv_timeout_ s) (accept_timeout_ s) (accept_backlog_ s)
    (tcp_send_buffer_ s) (tcp_recv_buffer_ s) b (listening_ s) (is_block_ s) (servaddr_ s) (sockfd_ s).
Definition set_send_timeout (ms : Z) (s : ServerSocket) : ServerSocket :=
  mkServerSocket (port_ s) (flags_ s) ms (recv_timeout_ s) (accept_timeout_ s) (accept_backlog_ s)
    (tcp_send_buffer_ s) (tcp_recv_buffer_ s) (keep_alive_ s) (listening_ s) (is_block_ s) (servaddr_ s) (sockfd_ s).
Definition set_recv_timeout (ms : Z) (s : ServerSocket) : ServerSocket :=
  mkServerSocket (port_ s) (flags_ s) (send_timeout_ s) ms (accept_timeout_ s) (accept_backlog_ s)
    (tcp_send_buffer_ s) (tcp_recv_buffer_ s) (keep_alive_ s) (listening_ s) (is_block_ s) (servaddr_ s) (sockfd_ s).

(** [htons] takes 16 bits. *)
Definition to_port (port : Z) : Z := port mod 2 ^ 16.

Section socket.
(** [inet_addr] of the C library, and what is in a member nobody has set. *)
Context (inet_addr : bytes -> Z) (garbage : Z).

Definition new_ServerSocket (port : Z) (is_block : bool) : ServerSocket :=
  mkServerSocket port garbage 0 0 0 1024 0 0 false false is_block (garbage, garbage) garbage.

(** [SetNonBlock] *)
Definition SetNonBlock (a : listen_answer) (s : ServerSocket) (n : net) : Z * ServerSocket * net :=
  let '(flags, n) := Setnonblocking (a_getfl a) (a_setfl a) (sockfd_ s) n in
  (if flags =? -1 then -1 else 0, put_flags flags s, n).

(** The address [Listen] asks for. *)
Definition address_of (bind_ip : bytes) : Z :=
  match bind_ip with [] => INADDR_ANY | _ => inet_addr (cstr bind_ip) end.

Definition Listen (bind_ip : bytes) (s : ServerSocket) (n : net) : RetCode * ServerSocket * net :=
  let '(a, n) := next_answer n in
  let '(fd, n) := sys_socket (a_socket a) n in
  let s := put_servaddr (0, 0) (put_sockfd fd s) in
  let '(ret, n) := n_change (a_setsockopt a) id fd n in
  if ret <? 0 then (kSetSockOptError, s, n)
  else
    let s := put_servaddr (address_of bind_ip, to_port (port_ s)) s in
    let n := set_cloexec fd n in
    let '(ret, n) := sys_bind (a_bind a) fd (servaddr_ s) n in
    if ret <? 0 then (kBindError, s, n)
    else
      let '(ret, n) := sys_listen (a_listen a) fd n in
      if ret <? 0 then (kListenError, s, n)
      else
        let s := put_listening true s in
        if negb (is_block_ s) then let '(_, s, n) := SetNonBlock a s n in (kSuccess, s, n)
        else (kSuccess, s, n).

(** [Close], which is all the destructor does. *)
Definition Close (s : ServerSocket) (n : net) : net := n_close (sockfd_ s) n.

(** * ServerThread *)

(** The part of the server that listens: [ips_] in the order of the set, [port_],
    [server_sockets_], [server_fds_] and [pink_epoll_]. *)
Record listener : Type := mkListener {
  ips_ : list bytes; lt_port : Z; server_sockets_ : list ServerSocket; server_fds_ : gset Z; lt_epoll : PinkEpoll
}.

Definition any_address : bytes := bs "0.0.0.0".

(** The constructors of [ServerThread]: without an address, for one and for a set. *)
Definition new_listener_any (port : Z) (e : PinkEpoll) : listener := mkListener [any_address] port [] ∅ e.
Definition new_listener_ip (ip : bytes) (port : Z) (e : PinkEpoll) : listener := mkListener [ip] port [] ∅ e.
Definition new_listener (ips : list bytes) (port : Z) (e : PinkEpoll) : listener := mkListener ips port [] ∅ e.

Definition LISTEN_MASK : Z := Z.lor EPOLLIN (Z.lor EPOLLERR EPOLLHUP).

(** The loop of [InitHandle]. *)
Fixpoint init_sockets (ips : list bytes) (l : listener) (n : net) : RetCode * listener * net :=
  match ips with
  | [] => (kSuccess, l, n)
  | ip :: ips =>
      let '(ret, s, n) := Listen ip (new_ServerSocket (lt_port l) false) n in
      let l := mkListener (ips_ l) (lt_port l) (server_sockets_ l ++ [s]) (server_fds_ l) (lt_epoll l) in
      if negb (bool_decide (ret = kSuccess)) then (ret, l, n)
      else
        let opened := bool_decide (is_Some (socks n !! sockfd_ s)) in
        init_sockets ips
          (mkListener (ips_ l) (lt_port l) (server_sockets_ l) ({[sockfd_ s]} ∪ server_fds_ l)
             (PinkAddEvent opened (sockfd_ s) LISTEN_MASK (lt_epoll l)).2) n
  end.

(** [0.0.0.0] stands for all addresses. *)
Definition listen_ips (ips : list bytes) : list bytes :=
  if bool_decide (any_address ∈ ips) then [any_address] else ips.

Definition InitHandle (l : listener) (n : net) : RetCode * listener * net :=
  init_sockets (listen_ips (ips_ l))
    (mkListener (listen_ips (ips_ l)) (lt_port l) (server_sockets_ l) (server_fds_ l) (lt_epoll l)) n.

Definition ret_code (r : RetCode) : Z :=
  match r with
  | kSuccess => 0 | kBindError => 1 | kCreateThreadError => 2 | kListenError => 3
  | kSetSockOptError => 4 | kCreateThreadPoolError => 5
  end.

(** [ServerThread::StartThread], whole. *)
Definition Listener_StartThread (l : listener) (t : Thread) (n : net) (w : process)
    : Z * listener * Thread * net * process :=
  let '(ret, l, n) := InitHandle l n in
  let '(r, t, w) := Server_StartThread (ret_code ret) t w in
  (r, l, t, n, w).

(** [delete] of each of [server_sockets_]. *)
Definition delete_sockets (l : list ServerSocket) (n : net) : net := foldl (fun n s => Close s n) n l.

(** The end of [ThreadMain]; the kernel stops watching what is closed. *)
Definition end_of_loop (l : listener) (n : net) : listener * net :=
  (mkListener (ips_ l) (lt_port l) [] ∅
     (foldl (fun e s => (epoll_ctl_del (sockfd_ s) e).2) (lt_epoll l) (server_sockets_ l)),
   delete_sockets (server_sockets_ l) n).

(** [~ServerThread], which deletes the poller first. *)
Definition delete_ServerThread (l : listener) (n : net) : net := delete_sockets (server_sockets_ l) n.
End socket.
