(* ===== verification/ServerSocketTheorems.v ===== *)
(** The theorems on the listening sockets of a server: what a start takes and what the
    end gives back, and when a server can be started again. *)
From S2P Require Import Pink Prelude PinkEpoll Lifecycle ServerSocket.

(** * The kernel's table *)

(** Only [fd] may differ. *)
Record same_but (fd : Z) (n n' : net) : Prop := {
  sb_socks : delete fd (socks n') = delete fd (socks n);
  sb_answers : answers n' = answers n
}.

Lemma same_but_refl fd n : same_but fd n n.
Proof. done. Qed.
Lemma same_but_trans fd n1 n2 n3 : same_but fd n1 n2 -> same_but fd n2 n3 -> same_but fd n1 n3.
Proof. intros [] []. split; congruence. Qed.
#[local] Hint Resolve same_but_refl : core.

Lemma n_change_spec ok f fd n r n' :
  n_change ok f fd n = (r, n') ->
  same_but fd n n' /\
  (r = 0 /\ ok = true /\ (exists s, socks n !! fd = Some s /\ socks n' = <[fd := f s]> (socks n)) \/ r = -1 /\ n' = n).
Proof.
  unfold n_change. destruct (socks n !! fd) as [s|] eqn:E; [destruct ok|]; intros [= <- <-]; [|by auto..].
  split; [|left; eauto]. split; [|done]. simpl. by rewrite delete_insert_eq.
Qed.

Lemma n_close_same fd n : same_but fd n (n_close fd n).
Proof. split; [|done]. simpl. by rewrite delete_delete_eq. Qed.

Lemma Setnonblocking_spec g f fd n r n' :
  Setnonblocking g f fd n = (r, n') ->
  same_but fd n n' /\
  (g = true -> f = true -> forall s, socks n !! fd = Some s -> exists s',
     socks n' !! fd = Some s' /\ l_bound s' = l_bound s /\ l_listens s' = l_listens s /\
     l_cloexec s' = l_cloexec s /\ l_flags s' = Z.lor (l_flags s) O_NONBLOCK).
Proof.
  unfold Setnonblocking. destruct (socks n !! fd) as [s|] eqn:E.
  2:{ intros [= <- <-]. split; [apply n_close_same|done]. }
  destruct g; cbn [negb]; [|intros [= <- <-]; by split; [apply n_close_same|]].
  destruct (n_change f _ fd n) as [r1 n1] eqn:Ec. destruct (n_change_spec _ _ _ _ _ _ Ec) as [Hs Hr].
  destruct (Z.ltb_spec r1 0) as [Hlt|Hge]; intros [= <- <-].
  - split; [by eapply same_but_trans, n_close_same|]. intros _ ->. destruct Hr as [(-> & _)|[-> ->]]; [lia|].
    unfold n_change in Ec. by rewrite E in Ec.
  - split; [done|]. intros _ _ s0 [= <-]. destruct Hr as [(_ & _ & s1 & Es & ->)|[-> _]]; [|lia].
    rewrite lookup_insert_eq. eexists. split; [done|]. by replace s1 with s by congruence.
Qed.

(** * One [Listen] *)
Section listen.
Context (inet_addr : bytes -> Z) (garbage : Z).

#[local] Abbreviation Listen := (Listen inet_addr).
#[local] Abbreviation address_of := (address_of inet_addr).

(** A socket that listens at an address as the server wants it. *)
Definition serves (ip : bytes) (port : Z) (s : lsock) : Prop :=
  l_bound s = Some (address_of ip, to_port port) /\ l_listens s = true /\ l_cloexec s = true /\ Z.testbit (l_flags s) 11 = true.

Definition flags_ok (a : listen_answer) : Prop := a_getfl a = true /\ a_setfl a = true.

Lemma sys_socket_spec a n fd n' :
  socks n !! (-1) = None -> sys_socket a n = (fd, n') ->
  answers n' = answers n /\ delete fd (socks n') = socks n /\ socks n !! fd = None /\ socks n' !! (-1) = None /\
  (fd = -1 /\ n' = n \/ 0 <= fd /\ socks n' = <[fd := mkLsock None false 2 false]> (socks n)).
Proof.
  intros Hm. unfold sys_socket.
  assert (H1 : delete (-1) (socks n) = socks n) by by apply delete_id.
  destruct a as [k|]; [|intros [= <- <-]; split_and!; auto].
  destruct (Z.leb_spec 0 k); cbn [andb]; [|intros [= <- <-]; split_and!; auto].
  case_bool_decide as Hk; intros [= <- <-]; [|split_and!; auto]. simpl.
  rewrite delete_insert_id, lookup_insert_ne by (done || lia). split_and!; auto.
Qed.

Lemma in_use_true at_ n : in_use at_ n = true <-> exists fd s, socks n !! fd = Some s /\ clashes at_ s = true.
Proof.
  unfold in_use. rewrite existsb_exists. split.
  - intros ([fd s] & Hin & Hc). exists fd, s. split; [|done]. by apply elem_of_map_to_list, list_elem_of_In.
  - intros (fd & s & Hs & Hc). exists (fd, s). split; [|done]. by apply list_elem_of_In, elem_of_map_to_list.
Qed.

Lemma same_but_sub fd n n' : delete fd (socks n') = socks n -> socks n ⊆ socks n'.
Proof. intros <-. apply delete_subseteq. Qed.

Lemma in_use_mono at_ n n' : socks n ⊆ socks n' -> in_use at_ n = true -> in_use at_ n' = true.
Proof. rewrite !in_use_true. intros Hs (fd & s & Hl & Hc). exists fd, s. split; [by eapply lookup_weaken|done]. Qed.

(** What one [Listen] does: it adds one descriptor, or none when there is none. *)
Record listened (ip : bytes) (s : ServerSocket) (n : net) (ret : RetCode) (s' : ServerSocket) (n' : net) : Prop := {
  li_answers : answers n' = tail (answers n);
  li_delete : delete (sockfd_ s') (socks n') = socks n;
  li_fresh : socks n !! sockfd_ s' = None;
  li_minus : socks n' !! (-1) = None;
  li_used : in_use (address_of ip, to_port (port_ s)) n = true -> ret = kSetSockOptError \/ ret = kBindError;
  li_serves : ret = kSuccess -> is_block_ s = false -> Forall flags_ok (answers n) ->
    exists k, socks n' !! sockfd_ s' = Some k /\ serves ip (port_ s) k
}.

(** The common part of all the ends of [Listen]. *)
Lemma listened_at ip s n fd n1 ret s' n' :
  socks n !! (-1) = None -> 0 <= fd -> answers n1 = tail (answers n) -> delete fd (socks n1) = socks n -> socks n !! fd = None ->
  sockfd_ s' = fd -> same_but fd n1 n' ->
  (in_use (address_of ip, to_port (port_ s)) n = true -> ret = kSetSockOptError \/ ret = kBindError) ->
  (ret = kSuccess -> is_block_ s = false -> Forall flags_ok (answers n) ->
    exists k, socks n' !! fd = Some k /\ serves ip (port_ s) k) ->
  listened ip s n ret s' n'.
Proof.
  intros Hm Hfd HA HD HF <- [Hs Ha] HU HS. split; [congruence|congruence|done| |done|done].
  rewrite <- Hm, <- HD, <- Hs. by rewrite lookup_delete_ne by lia.
Qed.

Lemma change_ok ok f fd n r n' k :
  socks n !! fd = Some k -> n_change ok f fd n = (r, n') -> 0 <= r -> socks n' !! fd = Some (f k).
Proof.
  intros Hk Hc Hr. apply n_change_spec in Hc as [_ [(_ & _ & s & Hs & ->)|[-> _]]]; [|lia].
  rewrite lookup_insert_eq. congruence.
Qed.

Lemma Listen_spec ip s n ret s' n' :
  socks n !! (-1) = None -> Listen ip s n = (ret, s', n') -> listened ip s n ret s' n'.
Proof.
  intros Hm. unfold ServerSocket.Listen, next_answer. set (a := default _ _). set (n0 := mkNet _ _).
  destruct (sys_socket (a_socket a) n0) as [fd n1] eqn:E1.
  destruct (sys_socket_spec _ _ _ _ (Hm : socks n0 !! (-1) = None) E1) as (A1 & D1 & F1 & M1 & [[-> ->]|[Hfd S1]]).
  { unfold n_change at 1. rewrite F1. intros [= <- <- <-]. split; try done; auto. }
  assert (K1 : socks n1 !! fd = Some (mkLsock None false 2 false)) by by rewrite S1, lookup_insert_eq.
  pose proof (listened_at ip s n fd n1) as LA. specialize (LA) with (1 := Hm) (2 := Hfd) (3 := A1) (4 := D1) (5 := F1).
  destruct (n_change (a_setsockopt a) id fd n1) as [r2 n2] eqn:E2. pose proof (n_change_spec _ _ _ _ _ _ E2) as [B2 _].
  destruct (Z.ltb_spec r2 0) as [|H2]; [intros [= <- <- <-]; apply LA; auto; done|].
  pose proof (change_ok _ _ _ _ _ _ _ K1 E2 H2) as K2. unfold id in K2.
  unfold set_cloexec. destruct (n_change true _ fd n2) as [r3 n3] eqn:E3. pose proof (n_change_spec _ _ _ _ _ _ E3) as [B3 _].
  assert (K3 : socks n3 !! fd = Some (mkLsock None false 2 true)).
  { unfold n_change in E3. rewrite K2 in E3. injection E3 as <- <-. simpl. by rewrite lookup_insert_eq. }
  cbn [snd put_servaddr put_sockfd servaddr_ port_]. unfold sys_bind.
  assert (Hsub : socks n ⊆ socks n3).
  { apply (same_but_sub fd). rewrite (sb_socks _ _ _ B3), (sb_socks _ _ _ B2). exact D1. }
  destruct (n_change (a_bind a && _) _ fd n3) as [r4 n4] eqn:E4. pose proof (n_change_spec _ _ _ _ _ _ E4) as [B4 C4].
  assert (B14 : same_but fd n1 n4) by eauto using same_but_trans.
  destruct (Z.ltb_spec r4 0) as [|H4]; [intros [= <- <- <-]; apply LA; auto; done|].
  pose proof (change_ok _ _ _ _ _ _ _ K3 E4 H4) as K4. cbn in K4.
  assert (HU : in_use (address_of ip, to_port (port_ s)) n = true -> False).
  { intros Hu%(in_use_mono _ _ _ Hsub). destruct C4 as [(_ & Hok & _)|[-> _]]; [|lia]. rewrite Hu in Hok. by destruct (a_bind a). }
  destruct (sys_listen (a_listen a) fd n4) as [r5 n5] eqn:E5. pose proof (n_change_spec _ _ _ _ _ _ E5) as [B5 _].
  assert (B15 : same_but fd n1 n5) by eauto using same_but_trans.
  destruct (Z.ltb_spec r5 0) as [|H5]; [intros [= <- <- <-]; apply LA; auto; [tauto|done]|].
  pose proof (change_ok _ _ _ _ _ _ _ K4 E5 H5) as K5. cbn in K5.
  cbn [put_listening put_servaddr put_sockfd is_block_]. destruct (is_block_ s) eqn:Eb; cbn [negb]; [intros [= <- <- <-]; apply LA; auto; [tauto|done]|].
  unfold SetNonBlock. cbn [put_listening put_servaddr put_sockfd sockfd_]. destruct (Setnonblocking _ _ fd n5) as [r6 n6] eqn:E6.
  destruct (Setnonblocking_spec _ _ _ _ _ _ E6) as [B6 C6]. intros [= <- <- <-].
  apply LA; [done|by eapply same_but_trans|tauto|]. intros _ _ Hall.
  assert (flags_ok a) as [Hg Hf].
  { unfold a. destruct (answers n) as [|a' q] eqn:Ea; [|by apply Forall_cons in Hall as [? _]].
    exfalso. unfold a in E1. cbn in E1. injection E1 as <- _. lia. }
  destruct (C6 Hg Hf _ K5) as (k & Hk & P1 & P2 & P3 & P4). exists k. split; [done|].
  unfold serves. rewrite P1, P2, P3, P4. by cbn.
Qed.

(** * [InitHandle] *)

Definition fds_of (l : list ServerSocket) : list Z := map sockfd_ l.

(** A socket of the server, in the table and in the poller. *)
Definition up (port : Z) (n : net) (e : PinkEpoll) (ip : bytes) (s : ServerSocket) : Prop :=
  (exists k, socks n !! sockfd_ s = Some k /\ serves ip port k) /\
  interest e !! sockfd_ s = Some (LISTEN_MASK, DFd (sockfd_ s)).

(** The table without the descriptors of some sockets, as [delete_sockets] leaves it. *)
Definition without (l : list ServerSocket) (m : gmap Z lsock) : gmap Z lsock := foldl (fun m s => delete (sockfd_ s) m) m l.

Lemma delete_sockets_socks l n : socks (delete_sockets l n) = without l (socks n).
Proof. revert n. induction l as [|s l IH]; intros n; [done|]. apply (IH (Close s n)). Qed.
Lemma delete_sockets_answers l n : answers (delete_sockets l n) = answers n.
Proof. revert n. induction l as [|s l IH]; intros n; [done|]. apply (IH (Close s n)). Qed.

Lemma without_delete k l m : without l (delete k m) = delete k (without l m).
Proof. revert m. unfold without. induction l as [|s l IH]; intros m; [done|]. cbn. by rewrite (delete_delete m), IH. Qed.
Lemma without_sub l m : without l m ⊆ m.
Proof.
  revert m. unfold without. induction l as [|s l IH]; intros m; [done|]. cbn. etrans; [apply IH|apply delete_subseteq].
Qed.

(** The kernel watches open descriptors only. *)
Definition watches_open (e : PinkEpoll) (n : net) : Prop := forall fd, is_Some (interest e !! fd) -> is_Some (socks n !! fd).

Lemma epoll_del_eq fd e : (epoll_ctl_del fd e).2 = set_interest (delete fd (interest e)) e.
Proof.
  unfold epoll_ctl_del. destruct (interest e !! fd) eqn:E; [done|]. rewrite delete_id by done. by destruct e.
Qed.

(** The poller without the descriptors of some sockets, as [end_of_loop] leaves it. *)
Definition unwatched (l : list ServerSocket) (e : PinkEpoll) : PinkEpoll :=
  foldl (fun e s => (epoll_ctl_del (sockfd_ s) e).2) e l.

Lemma unwatched_del l fd e : unwatched l (epoll_ctl_del fd e).2 = (epoll_ctl_del fd (unwatched l e)).2.
Proof.
  revert e. unfold unwatched. induction l as [|s l IH]; intros e; [done|]. cbn [foldl]. rewrite <- IH. f_equal. rewrite !epoll_del_eq. unfold set_interest.
  simpl. by rewrite (delete_delete (interest e)).
Qed.

(** What the loop of [InitHandle] does. *)
Record inited (ips : list bytes) (l : listener) (n : net) (ret : RetCode) (l' : listener) (n' : net) (ups rest : list ServerSocket)
    : Prop := {
  in_sockets : server_sockets_ l' = server_sockets_ l ++ ups ++ rest;
  in_fds : server_fds_ l' = server_fds_ l ∪ list_to_set (fds_of ups);
  in_ips : ips_ l' = ips_ l;
  in_port : lt_port l' = lt_port l;
  in_rest : ret = kSuccess /\ rest = [] /\ length ups = length ips \/
            ret <> kSuccess /\ length rest = 1%nat /\ (length ups < length ips)%nat;
  in_without : without (ups ++ rest) (socks n') = socks n;
  in_minus : socks n' !! (-1) = None;
  in_interest : interest (lt_epoll l) ⊆ interest (lt_epoll l');
  in_poller : watches_open (lt_epoll l) n -> Forall flags_ok (answers n) ->
    unwatched ups (lt_epoll l') = lt_epoll l;
  in_up : watches_open (lt_epoll l) n -> Forall flags_ok (answers n) ->
    Forall2 (up (lt_port l) n' (lt_epoll l')) (take (length ups) ips) ups
}.

Lemma del_add_event fd mask e : interest e !! fd = None ->
  (epoll_ctl_del fd (PinkAddEvent true fd mask e).2).2 = e.
Proof.
  intros He. unfold PinkAddEvent, epoll_ctl_add. cbn [negb]. rewrite He. cbn [snd]. unfold epoll_ctl_del. simpl.
  rewrite lookup_insert_eq. unfold set_interest. simpl. rewrite delete_insert_id by done. by destruct e.
Qed.

(** The poller after a new socket has been given to it. *)
Lemma added_event fd mask e n n1 k :
  watches_open e n -> delete fd (socks n1) = socks n -> socks n !! fd = None -> socks n1 !! fd = Some k ->
  let e1 := (PinkAddEvent (bool_decide (is_Some (socks n1 !! fd))) fd mask e).2 in
  interest e1 !! fd = Some (mask, DFd fd) /\ watches_open e1 n1 /\ (epoll_ctl_del fd e1).2 = e.
Proof.
  intros Hw HD HF Hk. assert (He : interest e !! fd = None).
  { destruct (interest e !! fd) eqn:E; [|done]. destruct (Hw fd) as [? ?]; [by eexists|congruence]. }
  rewrite bool_decide_eq_true_2 by (by rewrite Hk). cbn zeta. split; [|split; [|by apply del_add_event]];
    unfold PinkAddEvent, epoll_ctl_add; cbn [negb]; rewrite He; cbn [snd set_interest interest]; [by rewrite lookup_insert_eq|].
  intros fd'. simpl. destruct (decide (fd' = fd)) as [->|Hne]; [by rewrite Hk|]. rewrite lookup_insert_ne by done.
  intros [x Hx]%Hw. exists x. rewrite <- HD in Hx. by rewrite lookup_delete_ne in Hx by done.
Qed.

Lemma add_event_sub o fd mask e : interest e ⊆ interest (PinkAddEvent o fd mask e).2.
Proof.
  unfold PinkAddEvent, epoll_ctl_add. destruct o; cbn [negb]; [|done]. destruct (interest e !! fd) eqn:E; [done|]. simpl.
  by apply insert_subseteq.
Qed.

Lemma up_mono port n n' e e' ip s :
  socks n ⊆ socks n' -> interest e ⊆ interest e' -> up port n e ip s -> up port n' e' ip s.
Proof.
  intros Hn He ((k & Hk & Hs) & Hi). split; [exists k; split; [by eapply lookup_weaken|done]|by eapply lookup_weaken].
Qed.

Lemma Forall_tail {A} (P : A -> Prop) l : Forall P l -> Forall P (tail l).
Proof. by destruct 1. Qed.

Lemma init_sockets_spec ips l n ret l' n' :
  socks n !! (-1) = None -> init_sockets inet_addr garbage ips l n = (ret, l', n') ->
  exists ups rest, inited ips l n ret l' n' ups rest.
Proof.
  revert l n. induction ips as [|ip ips IH]; intros l n Hm; cbn [init_sockets].
  { intros [= <- <- <-]. exists [], []. split; rewrite ?app_nil_r; try done; [set_solver|by left]. }
  destruct (Listen ip (new_ServerSocket garbage (lt_port l) false) n) as [[r s] n1] eqn:EL.
  apply Listen_spec in EL as [LA LD LF LM _ LS]; [|done]. cbn [new_ServerSocket port_ is_block_] in LS.
  case_bool_decide as Hr; cbn [negb].
  2:{ intros [= <- <- <-]. exists [], [s]. split; try done; [set_solver|right; simpl; split_and!; [done|done|lia]]. }
  set (l1 := mkListener _ _ _ _ _). intros E. apply IH in E as (ups & rest & []); [|done].
  exists (s :: ups), rest. split; subst l1; cbn [server_sockets_ server_fds_ ips_ lt_port lt_epoll] in *; try done.
  - by rewrite in_sockets0, <- !app_assoc.
  - rewrite in_fds0. simpl. set_solver.
  - destruct in_rest0 as [(? & ? & ?)|(? & ? & ?)]; [left|right]; simpl; split_and!; done || lia.
  - change (without (ups ++ rest) (delete (sockfd_ s) (socks n')) = socks n). by rewrite without_delete, in_without0.
  - etrans; [apply add_event_sub|done].
  - intros Hw Hall. destruct (LS Hr eq_refl Hall) as (k & Hk & _).
    destruct (added_event (sockfd_ s) LISTEN_MASK (lt_epoll l) n n1 k Hw LD LF Hk) as (_ & Hw1 & Hd).
    change (unwatched ups (epoll_ctl_del (sockfd_ s) (lt_epoll l')).2 = lt_epoll l).
    rewrite unwatched_del, in_poller0; [done|done|]. rewrite LA. by apply Forall_tail.
  - intros Hw Hall. destruct (LS Hr eq_refl Hall) as (k & Hk & Hs).
    destruct (added_event (sockfd_ s) LISTEN_MASK (lt_epoll l) n n1 k Hw LD LF Hk) as (Hi & Hw1 & _).
    cbn [length take]. constructor.
    + apply (up_mono _ n1 _ (PinkAddEvent (bool_decide (is_Some (socks n1 !! sockfd_ s))) (sockfd_ s) LISTEN_MASK (lt_epoll l)).2);
        [rewrite <- in_without0; apply without_sub|done|]. split; [by exists k|done].
    + apply in_up0; [done|]. rewrite LA. by apply Forall_tail.
Qed.
End listen.

Lemma listen_ips_idem ips : listen_ips (listen_ips ips) = listen_ips ips.
Proof. unfold listen_ips. repeat case_bool_decide; done. Qed.

Lemma InitHandle_spec inet_addr garbage ips port e n ret l n' :
  socks n !! (-1) = None -> InitHandle inet_addr garbage (new_listener ips port e) n = (ret, l, n') ->
  exists ups rest, inited inet_addr (listen_ips ips) (new_listener (listen_ips ips) port e) n ret l n' ups rest.
Proof. intros Hm H. exact (init_sockets_spec inet_addr garbage _ _ _ _ _ _ Hm H). Qed.


(** The first address is taken: [bind] is not reached or fails. *)
Lemma start_blocked inet_addr garbage ip ips l n t w :
  socks n !! (-1) = None -> listen_ips (ips_ l) = ip :: ips -> in_use (address_of inet_addr ip, to_port (lt_port l)) n = true ->
  exists r s n2, Listener_StartThread inet_addr garbage l t n w =
    (r, mkListener (ip :: ips) (lt_port l) (server_sockets_ l ++ [s]) (server_fds_ l) (lt_epoll l), t, n2, w) /\ (r = 1 \/ r = 4).
Proof.
  intros Hm Hips Hu. unfold Listener_StartThread, InitHandle. rewrite Hips. cbn [init_sockets].
  destruct (Listen _ _ _ _) as [[r s] n2] eqn:EL. apply Listen_spec in EL as [_ _ _ _ LU _]; [|done].
  cbn [ips_ lt_port server_sockets_ server_fds_ lt_epoll new_ServerSocket port_] in *.
  exists (ret_code r), s, n2. destruct (LU Hu) as [-> | ->]; cbn; auto.
Qed.


(** * Witnesses *)

(** A process with the poller's pipe at 3, and a system where the second of two
    addresses is not one of the machine's. *)
Definition quiet_net (q : list listen_answer) : net := mkNet {[3 := mkLsock None false 0 false]} q.
Definition yes_at (fd : Z) : listen_answer := mkAnswer (Some fd) true true true true true.
Definition no_bind_at (fd : Z) : listen_answer := mkAnswer (Some fd) true false true true true.
Definition two_ips : list bytes := [bs "10.0.0.1"; bs "10.0.0.2"].
Definition last_digit (ip : bytes) : Z := match last ip with Some c => code c | None => -1 end.
Definition half_started := InitHandle last_digit 77 (new_listener two_ips 9221 (new_PinkEpoll 3)) (quiet_net [yes_at 5; no_bind_at 6]).
Definition full_started := InitHandle last_digit 77 (new_listener two_ips 9221 (new_PinkEpoll 3)) (quiet_net [yes_at 5; yes_at 6]).

Lemma quiet_watches q : watches_open (new_PinkEpoll 3) (quiet_net q).
Proof.
  intros fd [x Hx]. change (interest (new_PinkEpoll 3)) with ({[3 := (LISTEN_MASK, DFd 3)]} : gmap Z (Z * epoll_data)) in Hx.
  by apply lookup_singleton_Some in Hx as [<- _].
Qed.



(** The result of [SetNonBlock] is not looked at: when it fails it has closed the
    descriptor, and [Listen] still reports success, so that [server_fds_] gets a number
    that anybody may get next. *)
Example listen_hides_closed_socket :
  let '(ret, s, n) := Listen last_digit (bs "10.0.0.1") (new_ServerSocket 77 9221 false)
    (quiet_net [mkAnswer (Some 5) true true true true false]) in
  ret = kSuccess /\ listening_ s = true /\ sockfd_ s = 5 /\ socks n !! 5 = None.
Proof. by vm_compute. Qed.
