(* ===== verification/TaskQueue.v ===== *)
(** [pink/include/bg_thread.h], [pink/src/bg_thread.cc], [pink/include/thread_pool.h]
    and [pink/src/thread_pool.cc]: a bounded queue of tasks and a queue of timers,
    filled by any number of threads and emptied by one background thread or by the
    workers of a pool.

    Threads interleave between the points where they touch shared state: a thread
    is a program counter [pc], one for every such point of the code, and [local]
    is what the thread does there. A thread in a wait does nothing until another
    signals its condition variable. *)
From S2P Require Import Pink Prelude.

Section queue.
(** A function and its argument. *)
Context {T : Type}.

(** * The shared state *)

Abbreviation tid := nat.

(** What has happened, for the statements; the code does not keep it. [pushed],
    [taken] and [ran] are what has gone through [queue_]: [taken] says of each task
    whether it was taken to be run or cleared. [delayed], [fired] and [timers_ran]
    are the same of [timer_queue_]: [fired] says of each timer at what time it was
    taken to be run, or that it was cleared. [swallowed] is the time at which
    [SwallowReadyTasks] looks at the timers. *)
Record history : Type := mkHistory {
  pushed : list T;
  taken : list (bool * T);
  ran : list T;
  delayed : list (Z * T);
  fired : list (option Z * (Z * T));
  timers_ran : list (Z * T);
  swallowed : option Z
}.

(** The members of [BGThread] and [TaskQueue], with the atomic flag. *)
Record shared : Type := mkShared {
  queue_ : list T;
  timer_queue_ : list (Z * T);
  should_stop_ : bool;
  mu_ : option tid;
  past : history
}.

Definition set_stop (s : shared) : shared :=
  mkShared (queue_ s) (timer_queue_ s) true (mu_ s) (past s).
Definition set_mu (m : option tid) (s : shared) : shared :=
  mkShared (queue_ s) (timer_queue_ s) (should_stop_ s) m (past s).
Definition set_past (h : history) (s : shared) : shared :=
  mkShared (queue_ s) (timer_queue_ s) (should_stop_ s) (mu_ s) h.

(** A task, a timer has been run; the clock of [SwallowReadyTasks] has been read. *)
Definition log_ran (t : T) (s : shared) : shared :=
  let h := past s in
  set_past (mkHistory (pushed h) (taken h) (ran h ++ [t]) (delayed h) (fired h) (timers_ran h) (swallowed h)) s.
Definition log_timer (e : Z) (t : T) (s : shared) : shared :=
  let h := past s in
  set_past (mkHistory (pushed h) (taken h) (ran h) (delayed h) (fired h) (timers_ran h ++ [(e, t)]) (swallowed h)) s.
Definition log_swallow (n : Z) (s : shared) : shared :=
  let h := past s in
  set_past (mkHistory (pushed h) (taken h) (ran h) (delayed h) (fired h) (timers_ran h) (Some n)) s.

(** [queue_.push] *)
Definition push (t : T) (s : shared) : shared :=
  let h := past s in
  mkShared (queue_ s ++ [t]) (timer_queue_ s) (should_stop_ s) (mu_ s)
    (mkHistory (pushed h ++ [t]) (taken h) (ran h) (delayed h) (fired h) (timers_ran h) (swallowed h)).
(** [queue_.pop] with the rest [q] *)
Definition pop (t : T) (q : list T) (s : shared) : shared :=
  let h := past s in
  mkShared q (timer_queue_ s) (should_stop_ s) (mu_ s)
    (mkHistory (pushed h) (taken h ++ [(true, t)]) (ran h) (delayed h) (fired h) (timers_ran h) (swallowed h)).
(** The two [swap]s of [QueueClear]. *)
Definition clear (s : shared) : shared :=
  let h := past s in
  mkShared [] [] (should_stop_ s) (mu_ s)
    (mkHistory (pushed h) (taken h ++ map (pair false) (queue_ s)) (ran h)
       (delayed h) (fired h ++ map (pair None) (timer_queue_ s)) (timers_ran h) (swallowed h)).

(** [std::priority_queue] with the order of [TimerItem]: the earliest is on top. *)
Fixpoint timer_push (e : Z) (t : T) (l : list (Z * T)) : list (Z * T) :=
  match l with
  | [] => [(e, t)]
  | (e', t') :: l' => if e <? e' then (e, t) :: l else (e', t') :: timer_push e t l'
  end.

(** [timer_queue_.push] *)
Definition add_timer (e : Z) (t : T) (s : shared) : shared :=
  let h := past s in
  mkShared (queue_ s) (timer_push e t (timer_queue_ s)) (should_stop_ s) (mu_ s)
    (mkHistory (pushed h) (taken h) (ran h) (delayed h ++ [(e, t)]) (fired h) (timers_ran h) (swallowed h)).
(** [timer_queue_.pop] with the rest [l], at the time [unow] *)
Definition pop_timer (unow e : Z) (t : T) (l : list (Z * T)) (s : shared) : shared :=
  let h := past s in
  mkShared (queue_ s) l (should_stop_ s) (mu_ s)
    (mkHistory (pushed h) (taken h) (ran h) (delayed h) (fired h ++ [(Some unow, (e, t))]) (timers_ran h) (swallowed h)).

(** [unow / 1000 >= exec_time / 1000], both unsigned. *)
Definition due (unow exec_time : Z) : bool := exec_time / 1000 <=? unow / 1000.

(** [now.tv_sec * 1000000 + timeout * 1000 + now.tv_usec] *)
Definition exec_time (timeout unow : Z) : Z := to_u64 (unow + timeout * 1000).

(** The milliseconds to wait, [static_cast<uint32_t>((exec_time - unow) / 1000)]. *)
Definition timed_ms (e unow : Z) : Z := (to_u64 (e - unow) / 1000) mod 2 ^ 32.

(** * Program counters *)

Inductive pc : Type :=
  (* the loop of [ThreadMain], or of [WorkerRun] and [RunOnce] *)
  | Top                   (** [while (!should_stop())] *)
  | Locking               (** [mu_.Lock()] *)
  | Testing               (** the condition of the inner [while] *)
  | ToWait                (** it holds: [rsignal_.Wait()] is called *)
  | WaitR                 (** in the wait *)
  | WokenR                (** signalled, [mu_] to be taken again *)
  | Checking              (** [if (should_stop())] *)
  | Timers                (** [if (!timer_queue_.empty())] *)
  | MayWait (unow ms : Z) (** [else if (queue_.empty() && !should_stop())] *)
  | ToTimed (unow ms : Z) (** [rsignal_.TimedWait(ms)] is called, the time being [unow] *)
  | TimedR (unow ms : Z)  (** in the wait *)
  | WokenT                (** awake, [mu_] to be taken again and released *)
  | Front                 (** [if (!queue_.empty())] *)
  | FrontUnlock (t : T)   (** popped and signalled: [mu_.Unlock()] *)
  | RunQ (t : T)          (** [( *function)(arg)], a task of [queue_] *)
  | RunT (e : Z) (t : T)  (** the same, a timer *)
  (* [SwallowReadyTasks] *)
  | SwLock | SwQueue | SwRun (t : T)
  | SwNow | SwLockT (unow : Z) | SwTimers (unow : Z) | SwRunT (unow e : Z) (t : T)
  | Exit                  (** the thread has ended *)
  (* [Schedule] *)
  | PLock (t : T) | PTesting (t : T) | PToWait (t : T) | WaitW (t : T) | WokenW (t : T)
  | PCheck (t : T) | PPush (t : T)
  (* [DelaySchedule] *)
  | DNow (timeout : Z) (t : T) | DLock (e : Z) (t : T) | DCheck (e : Z) (t : T) | DPush (e : Z) (t : T)
  | PSignal               (** [rsignal_.Signal()] of both *)
  (* [QueueClear] *)
  | QLock | QClear | QSignal
  | Unlock                (** [mu_.Unlock()] and return *)
  (* [StopThread], [stop_thread_pool] *)
  | SSet | SSignalR | SSignalW | SJoin
  | Done.

Inductive cv : Type := rsignal_ | wsignal_.
#[export] Instance cv_eq_dec : EqDecision cv.
Proof. solve_decision. Defined.
Inductive effect : Type := Quiet | Signal (c : cv) | SignalAll (c : cv).
#[export] Instance effect_eq_dec : EqDecision effect.
Proof. solve_decision. Defined.

(** Whether a thread waits on a condition variable, and where it goes on. *)
Definition waits (c : cv) (p : pc) : bool :=
  match c, p with
  | rsignal_, (WaitR | TimedR _ _) => true
  | wsignal_, WaitW _ => true
  | _, _ => false
  end.
Definition woken (p : pc) : pc :=
  match p with WaitR => WokenR | TimedR _ _ => WokenT | WaitW t => WokenW t | p => p end.

(** * What a thread does *)

(** [bg] is whether the thread is a [BGThread], or a worker of a pool; [full] is
    [full_] or [QUEUE_CAP]. *)
Context (bg : bool) (full : nat).

(** [mu_.Lock()], then [p] *)
Definition locks (i : tid) (s : shared) (p : pc) : option (shared * pc * effect) :=
  match mu_ s with None => Some (set_mu (Some i) s, p, Quiet) | Some _ => None end.
(** [mu_.Unlock()], then [p] *)
Definition unlocks (s : shared) (p : pc) : option (shared * pc * effect) :=
  Some (set_mu None s, p, Quiet).
Definition goes (s : shared) (p : pc) : option (shared * pc * effect) := Some (s, p, Quiet).

Definition is_nil {A} (l : list A) : bool := match l with [] => true | _ => false end.

(** After the loop: a background thread runs what is left, a worker ends. *)
Definition after_loop : pc := if bg then SwLock else Exit.

(** The loop of a consumer: [ThreadMain], or [WorkerRun] and [RunOnce]. *)
Definition consumer_local (unow : Z) (i : tid) (s : shared) (p : pc) : option (shared * pc * effect) :=
  match p with
  | Top => goes s (if should_stop_ s then after_loop else Locking)
  | Locking => locks i s Testing
  | Testing =>
      goes s (if is_nil (queue_ s) && is_nil (timer_queue_ s) && negb (should_stop_ s)
              then ToWait else Checking)
  | ToWait => unlocks s WaitR
  | WokenR => locks i s Testing
  | Checking =>
      if should_stop_ s then unlocks s (if bg then SwLock else Top) else goes s Timers
  | Timers =>
      match timer_queue_ s with
      | [] => goes s Front
      | (e, t) :: l =>
          if due unow e then Some (set_mu None (pop_timer unow e t l s), RunT e t, Quiet)
          else goes s (MayWait unow (timed_ms e unow))
      end
  | MayWait n ms => goes s (if is_nil (queue_ s) && negb (should_stop_ s) then ToTimed n ms else Front)
  | ToTimed n ms => unlocks s (TimedR n ms)
  | TimedR _ _ => goes s WokenT
  | WokenT => match mu_ s with None => goes s Top | Some _ => None end
  | Front =>
      match queue_ s with
      | [] => goes s Top
      | t :: q => Some (pop t q s, FrontUnlock t, Signal wsignal_)
      end
  | FrontUnlock t => unlocks s (RunQ t)
  | RunQ t => goes (log_ran t s) Top
  | RunT e t => goes (log_timer e t s) Top
  | _ => None
  end.

(** [SwallowReadyTasks] *)
Definition swallow_local (unow : Z) (i : tid) (s : shared) (p : pc) : option (shared * pc * effect) :=
  match p with
  | SwLock => locks i s SwQueue
  | SwQueue =>
      match queue_ s with
      | [] => unlocks s SwNow
      | t :: q => Some (set_mu None (pop t q s), SwRun t, Quiet)
      end
  | SwRun t => goes (log_ran t s) SwLock
  | SwNow => goes (log_swallow unow s) (SwLockT unow)
  | SwLockT n => locks i s (SwTimers n)
  | SwTimers n =>
      match timer_queue_ s with
      | [] => unlocks s Exit
      | (e, t) :: l =>
          if due n e then Some (set_mu None (pop_timer n e t l s), SwRunT n e t, Quiet) else unlocks s Exit
      end
  | SwRunT n e t => goes (log_timer e t s) (SwLockT n)
  | _ => None
  end.

(** [Schedule] *)
Definition schedule_local (i : tid) (s : shared) (p : pc) : option (shared * pc * effect) :=
  match p with
  | PLock t => locks i s (PTesting t)
  | PTesting t =>
      goes s (if Nat.leb full (length (queue_ s)) && negb (should_stop_ s) then PToWait t else PCheck t)
  | PToWait t => unlocks s (WaitW t)
  | WokenW t => locks i s (PTesting t)
  | PCheck t => goes s (if should_stop_ s then Unlock else PPush t)
  | PPush t => goes (push t s) PSignal
  | _ => None
  end.

(** [DelaySchedule] *)
Definition delay_local (unow : Z) (i : tid) (s : shared) (p : pc) : option (shared * pc * effect) :=
  match p with
  | DNow timeout t => goes s (DLock (exec_time timeout unow) t)
  | DLock e t => locks i s (DCheck e t)
  | DCheck e t => goes s (if should_stop_ s then Unlock else DPush e t)
  | DPush e t => goes (add_timer e t s) PSignal
  | _ => None
  end.

(** [QueueClear] *)
Definition clear_local (i : tid) (s : shared) (p : pc) : option (shared * pc * effect) :=
  match p with
  | QLock => locks i s QClear
  | QClear => goes (clear s) QSignal
  | QSignal => Some (s, Unlock, Signal wsignal_)
  | _ => None
  end.

(** [StopThread] and [stop_thread_pool]; [exited] is whether the threads to join
    have ended. *)
Definition stop_local (exited : bool) (s : shared) (p : pc) : option (shared * pc * effect) :=
  match p with
  | SSet => goes (set_stop s) SSignalR
  | SSignalR => Some (s, SSignalW, if bg then Signal rsignal_ else SignalAll rsignal_)
  | SSignalW => Some (s, SJoin, if bg then Signal wsignal_ else SignalAll wsignal_)
  | SJoin => if exited then goes s Done else None
  | _ => None
  end.

(** The next point of thread [i] at [p], if it is not blocked. [unow] is what
    [gettimeofday] would return. *)
Definition local (unow : Z) (exited : bool) (i : tid) (s : shared) (p : pc)
    : option (shared * pc * effect) :=
  match p with
  | Top | Locking | Testing | ToWait | WaitR | WokenR | Checking | Timers | MayWait _ _ | ToTimed _ _ | TimedR _ _
  | WokenT | Front | FrontUnlock _ | RunQ _ | RunT _ _ => consumer_local unow i s p
  | SwLock | SwQueue | SwRun _ | SwNow | SwLockT _ | SwTimers _ | SwRunT _ _ _ => swallow_local unow i s p
  | PLock _ | PTesting _ | PToWait _ | WaitW _ | WokenW _ | PCheck _ | PPush _ => schedule_local i s p
  | DNow _ _ | DLock _ _ | DCheck _ _ | DPush _ _ => delay_local unow i s p
  | QLock | QClear | QSignal => clear_local i s p
  | SSet | SSignalR | SSignalW | SJoin => stop_local exited s p
  | PSignal => Some (s, Unlock, Signal rsignal_)
  | Unlock => unlocks s Done
  | Exit | Done => None
  end.

(** * The program *)

Record state : Type := mkState { sh : shared; threads : gmap tid pc }.

(** The program counters of the threads that take tasks. *)
Definition consumer (p : pc) : bool :=
  match p with
  | Top | Locking | Testing | ToWait | WaitR | WokenR | Checking | Timers | MayWait _ _ | ToTimed _ _ | TimedR _ _
  | WokenT | Front | FrontUnlock _ | RunQ _ | RunT _ _ | SwLock | SwQueue | SwRun _ | SwNow | SwLockT _
  | SwTimers _ | SwRunT _ _ _ | Exit => true
  | _ => false
  end.

Definition exited (ths : gmap tid pc) : Prop :=
  forall i p, ths !! i = Some p -> consumer p = true -> p = Exit.

(** Who is woken by an effect: one of the threads that wait, if there is one, or
    all of them. *)
Inductive wakes (ths : gmap tid pc) : effect -> gmap tid pc -> Prop :=
  | wakes_quiet : wakes ths Quiet ths
  | wakes_nobody c :
      (forall j p, ths !! j = Some p -> waits c p = false) -> wakes ths (Signal c) ths
  | wakes_one c j p :
      ths !! j = Some p -> waits c p = true -> wakes ths (Signal c) (<[j := woken p]> ths)
  | wakes_all c : wakes ths (SignalAll c) ((fun p => if waits c p then woken p else p) <$> ths).

(** Thread [i] takes a step. *)
Inductive gstep (st : state) : state -> Prop :=
  | gstep_local i p unow b s' p' e ths' :
      threads st !! i = Some p -> (b = true -> exited (threads st)) ->
      local unow b i (sh st) p = Some (s', p', e) ->
      wakes (<[i := p']> (threads st)) e ths' ->
      gstep st (mkState s' ths').

Inductive reach (st0 : state) : state -> Prop :=
  | reach_refl : reach st0 st0
  | reach_next st st' : reach st0 st -> gstep st st' -> reach st0 st'.

(** The start: empty queues, and threads about to enter the functions above. *)
Definition entry (p : pc) : bool :=
  match p with Top | PLock _ | DNow _ _ | QLock | SSet => true | _ => false end.

Definition init_shared : shared := mkShared [] [] false None (mkHistory [] [] [] [] [] [] None).
Definition init (ths : gmap tid pc) : state := mkState init_shared ths.
End queue.

Arguments history T : clear implicits.
Arguments shared T : clear implicits.
Arguments pc T : clear implicits.
Arguments state T : clear implicits.

(** Open the definition of [local] in a hypothesis. *)
Ltac unfold_local H :=
  unfold local, consumer_local, swallow_local, schedule_local, delay_local, clear_local, stop_local,
    locks, unlocks, goes, after_loop in H.
