(* ===== verification/TaskFacts.v ===== *)
(** Facts about the task queue: mutual exclusion, what the queue holds, and who is
    awake while there is work. *)
From Stdlib Require Import Sorting.Sorted.
From S2P Require Import Pink Prelude TaskQueue.

Section facts.
Context {T : Type} (bg : bool) (full : nat).
Implicit Types (s : shared T) (st : state T) (p q : pc T).

(** * Steps *)

(** The points between [mu_.Lock()] and the release. *)
Definition holds (p : pc T) : bool :=
  match p with
  | Testing | ToWait | Checking | Timers | MayWait _ _ | ToTimed _ _ | Front | FrontUnlock _ | SwQueue
  | SwTimers _ | PTesting _ | PToWait _ | PCheck _ | PPush _ | DCheck _ _ | DPush _ _ | PSignal
  | QClear | QSignal | Unlock => true
  | _ => false
  end.

(** What signalling does to a program counter. *)
Definition same_or_woken (p q : pc T) : Prop := q = p \/ (exists c, waits c p = true /\ q = woken p).

Lemma wakes_lookup ths e ths' j q :
  wakes ths e ths' -> ths' !! j = Some q -> exists p, ths !! j = Some p /\ same_or_woken p q.
Proof.
  destruct 1 as [|c _|c k p Hp Hw|c]; intros Hq.
  - exists q. split; [done|by left].
  - exists q. split; [done|by left].
  - apply lookup_insert_Some in Hq as [[<- <-]|[_ Hq]]; [exists p; split; [done|right; eauto]|exists q; split; [done|by left]].
  - rewrite lookup_fmap in Hq. destruct (ths !! j) as [p|]; [|done]. injection Hq as <-. exists p. split; [done|].
    destruct (waits c p) eqn:E; [right; eauto|by left].
Qed.

Lemma wakes_lookup_inv ths e ths' j p :
  wakes ths e ths' -> ths !! j = Some p -> exists q, ths' !! j = Some q /\ same_or_woken p q.
Proof.
  destruct 1 as [|c _|c k p0 Hp0 Hw|c]; intros Hp.
  - exists p. split; [done|by left].
  - exists p. split; [done|by left].
  - destruct (decide (k = j)) as [->|Hne].
    + exists (woken p0). rewrite lookup_insert_eq. split; [done|]. assert (p = p0) as -> by congruence. right. eauto.
    + exists p. rewrite lookup_insert_ne by done. split; [done|by left].
  - rewrite lookup_fmap, Hp. simpl. eexists. split; [done|]. destruct (waits c p) eqn:E; [right; eauto|by left].
Qed.

Lemma woken_waits c p : waits c p = true ->
  (p = WaitR /\ c = rsignal_ /\ woken p = WokenR) \/ (exists n ms, p = TimedR n ms /\ c = rsignal_ /\ woken p = WokenT) \/
  (exists t, p = WaitW t /\ c = wsignal_ /\ woken p = WokenW t).
Proof. destruct c, p; intros; try done; simpl; eauto 10. Qed.

Lemma same_or_woken_holds p q : same_or_woken p q -> holds q = true -> q = p.
Proof. intros [->|(c & Hw & ->)]; [done|]. by apply woken_waits in Hw as [(-> & _)|[(n & ms & -> & _)|(t & -> & _)]]. Qed.

Lemma same_or_woken_consumer p q : same_or_woken p q -> consumer q = consumer p.
Proof. intros [->|(c & Hw & ->)]; [done|]. by apply woken_waits in Hw as [(-> & _)|[(n & ms & -> & _)|(t & -> & _)]]. Qed.

(** A thread that steps does not end up in a wait that its own signal would end. *)
Lemma local_waits unow b i s p s' p' e :
  local bg full unow b i s p = Some (s', p', e) -> e <> Quiet -> forall c, waits c p' = false.
Proof.
  intros H He c. unfold_local H. destruct p; repeat case_match; simplify_eq; try done;
    by destruct c.
Qed.

(** What a step says: thread [i] went from [p] to [p'], the others have at most
    been woken. *)
Lemma gstep_inv st st' :
  gstep bg full st st' -> exists i p unow b p' e,
    threads st !! i = Some p /\ local bg full unow b i (sh st) p = Some (sh st', p', e) /\
    wakes (<[i := p']> (threads st)) e (threads st') /\
    threads st' !! i = Some p' /\
    (forall j q, j <> i -> threads st' !! j = Some q -> exists q0, threads st !! j = Some q0 /\ same_or_woken q0 q).
Proof.
  intros [i p unow b s' p' e ths' Hp Hb Hl Hw]. exists i, p, unow, b, p', e. simpl. split_and!; try done.
  - destruct (wakes_lookup_inv _ _ _ i p' Hw) as (q & Hq & [->|(c & Hc & ->)]); [apply lookup_insert_eq|done|].
    destruct (decide (e = Quiet)) as [->|Hne].
    + assert (ths' = <[i := p']> (threads st)) as -> by by inversion Hw. apply lookup_insert_eq.
    + by rewrite (local_waits _ _ _ _ _ _ _ _ Hl Hne c) in Hc.
  - intros j q Hne Hq. destruct (wakes_lookup _ _ _ _ _ Hw Hq) as (q0 & Hq0 & Hsw).
    rewrite lookup_insert_ne in Hq0 by done. eauto.
Qed.

(** * Mutual exclusion *)

Definition exclusive st : Prop :=
  forall i p, threads st !! i = Some p -> holds p = true -> mu_ (sh st) = Some i.

(** A step takes the lock when it is free, keeps it, or gives it up. *)
Lemma local_mu unow b i s p s' p' e :
  local bg full unow b i s p = Some (s', p', e) -> (holds p = true -> mu_ s = Some i) ->
  (holds p' = true -> mu_ s' = Some i) /\
  (holds p = false -> mu_ s' = mu_ s \/ (mu_ s = None /\ mu_ s' = Some i)).
Proof.
  intros H Hh. unfold_local H. destruct p; simpl in Hh;
    repeat case_match; simplify_eq; simpl; split; intros; try done; auto; try (by apply Hh).
Qed.

Lemma exclusive_step st st' : gstep bg full st st' -> exclusive st -> exclusive st'.
Proof.
  intros Hs Hx. destruct (gstep_inv _ _ Hs) as (i & p & unow & b & p' & e & Hp & Hl & _ & Hi & Ho).
  destruct (local_mu _ _ _ _ _ _ _ _ Hl (Hx i p Hp)) as [H1 H2].
  intros j q Hq Hh. destruct (decide (j = i)) as [->|Hne].
  - assert (q = p') as -> by congruence. auto.
  - destruct (Ho j q Hne Hq) as (q0 & Hq0 & Hsw). apply (same_or_woken_holds _ _ Hsw) in Hh as Heq. subst q0.
    pose proof (Hx j q Hq0 Hh) as Hm. destruct (holds p) eqn:Ep.
    + pose proof (Hx i p Hp Ep). congruence.
    + destruct (H2 eq_refl) as [->|[Hn _]]; [done|congruence].
Qed.

(** Only one thread is inside. *)
Lemma exclusive_unique st i j p q :
  exclusive st -> threads st !! i = Some p -> threads st !! j = Some q ->
  holds p = true -> holds q = true -> i = j.
Proof. intros Hx Hi Hj Hp Hq. pose proof (Hx _ _ Hi Hp). pose proof (Hx _ _ Hj Hq). congruence. Qed.

(** * The queue *)

(** What a step does to the queue and its history. *)
Inductive moves (s s' : shared T) (p : pc T) : Prop :=
  | moves_none : queue_ s' = queue_ s -> pushed (past s') = pushed (past s) -> taken (past s') = taken (past s) -> moves s s' p
  | moves_push t : p = PPush t -> queue_ s' = queue_ s ++ [t] -> pushed (past s') = pushed (past s) ++ [t] ->
      taken (past s') = taken (past s) -> moves s s' p
  | moves_pop t (l : list T) : p = Front \/ p = SwQueue -> queue_ s = t :: l -> queue_ s' = l -> pushed (past s') = pushed (past s) ->
      taken (past s') = taken (past s) ++ [(true, t)] -> moves s s' p
  | moves_clear : p = QClear -> queue_ s' = [] -> pushed (past s') = pushed (past s) ->
      taken (past s') = taken (past s) ++ map (pair false) (queue_ s) -> moves s s' p.

Lemma local_moves unow b i s p s' p' e :
  local bg full unow b i s p = Some (s', p', e) -> moves s s' p.
Proof.
  intros H. unfold_local H.
  destruct p; repeat case_match; simplify_eq;
    first [by apply moves_none | by eapply moves_push | by eapply moves_pop; eauto | by apply moves_clear].
Qed.

(** The queue holds what has been pushed and not taken, in order, and no more than
    its limit. *)
Record queue_inv st : Prop := {
  q_exclusive : exclusive st;
  q_fifo : pushed (past (sh st)) = map snd (taken (past (sh st))) ++ queue_ (sh st);
  q_bound : (length (queue_ (sh st)) <= full)%nat;
  q_check i t : threads st !! i = Some (PCheck t) ->
    (length (queue_ (sh st)) < full)%nat \/ should_stop_ (sh st) = true;
  q_push i t : threads st !! i = Some (PPush t) -> (length (queue_ (sh st)) < full)%nat
}.

Lemma local_stop unow b i s p s' p' e :
  local bg full unow b i s p = Some (s', p', e) ->
  should_stop_ s' = should_stop_ s \/ (p = SSet /\ should_stop_ s' = true).
Proof.
  intros H. unfold_local H. destruct p; repeat case_match; simplify_eq; auto.
Qed.

(** How a thread comes to the points of [Schedule]. *)
Lemma local_check unow b i s p s' p' e t :
  local bg full unow b i s p = Some (s', p', e) -> p' = PCheck t ->
  s' = s /\ ((length (queue_ s) < full)%nat \/ should_stop_ s = true).
Proof.
  intros H ->. unfold_local H. destruct p; repeat case_match; simplify_eq.
  split; [done|]. match goal with H : (_ && _)%bool = false |- _ => apply andb_false_iff in H as [E|E] end.
  - left. apply Nat.leb_gt in E. done.
  - right. by apply negb_false_iff in E.
Qed.

Lemma local_push unow b i s p s' p' e t :
  local bg full unow b i s p = Some (s', p', e) -> p' = PPush t ->
  s' = s /\ p = PCheck t /\ should_stop_ s = false.
Proof.
  intros H ->. unfold_local H. destruct p; repeat case_match; by simplify_eq.
Qed.

Lemma queue_inv_step st st' : gstep bg full st st' -> queue_inv st -> queue_inv st'.
Proof.
  intros Hs [Hx Hf Hb Hc Hp].
  destruct (gstep_inv _ _ Hs) as (i & p & unow & b & p' & e & Hpi & Hl & _ & Hi & Ho).
  pose proof (local_moves _ _ _ _ _ _ _ _ Hl) as Hm.
  assert (Hother : forall j q, holds q = true -> j <> i -> threads st' !! j = Some q -> threads st !! j = Some q /\
    holds p = false).
  { intros j q Hh Hne Hj. destruct (Ho j q Hne Hj) as (q0 & Hq0 & Hsw).
    apply (same_or_woken_holds _ _ Hsw) in Hh as Heq. subst q0. split; [done|].
    destruct (holds p) eqn:Ep; [|done]. destruct Hne. by eapply exclusive_unique. }
  assert (Hkeep : holds p = false -> queue_ (sh st') = queue_ (sh st)).
  { intros Hh. destruct Hm as [Hq _ _|t E _ _ _|t l [E|E] _ _ _ _|E _ _ _]; [done|by subst p..]. }
  split.
  - by eapply exclusive_step.
  - destruct Hm as [-> -> ->|t _ -> -> ->|t l _ Hq -> -> ->|_ -> -> ->]; rewrite ?Hf, ?Hq, ?map_app; simpl.
    + done.
    + by rewrite app_assoc.
    + by rewrite <- app_assoc.
    + rewrite map_map. simpl. by rewrite map_id, app_nil_r.
  - destruct Hm as [-> _ _|t E -> _ _|t l _ Hq -> _ _|_ -> _ _]; simpl; try lia.
    + subst p. rewrite length_app. simpl. pose proof (Hp _ _ Hpi). lia.
    + rewrite Hq in Hb. simpl in Hb. lia.
  - intros j t Hj. destruct (decide (j = i)) as [->|Hne].
    + assert (p' = PCheck t) as E by congruence. destruct (local_check _ _ _ _ _ _ _ _ _ Hl E) as [-> H]. done.
    + destruct (Hother j _ (eq_refl : holds (PCheck t) = true) Hne Hj) as [Hj0 Hh]. rewrite (Hkeep Hh).
      destruct (Hc j t Hj0) as [?|Hst]; [by left|]. right.
      destruct (local_stop _ _ _ _ _ _ _ _ Hl) as [->|[_ ->]]; done.
  - intros j t Hj. destruct (decide (j = i)) as [->|Hne].
    + assert (p' = PPush t) as E by congruence. destruct (local_push _ _ _ _ _ _ _ _ _ Hl E) as (-> & -> & Hst).
      destruct (Hc i t Hpi) as [?|?]; [done|congruence].
    + destruct (Hother j _ (eq_refl : holds (PPush t) = true) Hne Hj) as [Hj0 Hh]. rewrite (Hkeep Hh). by apply (Hp j t).
Qed.

(** * The timers *)

(** What a step does to the timers and their history. *)
Inductive timer_moves (s s' : shared T) (p p' : pc T) : Prop :=
  | tmoves_none : timer_queue_ s' = timer_queue_ s -> delayed (past s') = delayed (past s) ->
      fired (past s') = fired (past s) -> timer_moves s s' p p'
  | tmoves_push e t : p = DPush e t -> p' = PSignal -> timer_queue_ s' = timer_push e t (timer_queue_ s) ->
      delayed (past s') = delayed (past s) ++ [(e, t)] -> fired (past s') = fired (past s) -> timer_moves s s' p p'
  | tmoves_pop n e t : timer_queue_ s = (e, t) :: timer_queue_ s' -> due n e = true ->
      (p = Timers /\ p' = RunT e t) \/ (p = SwTimers n /\ p' = SwRunT n e t) ->
      delayed (past s') = delayed (past s) -> fired (past s') = fired (past s) ++ [(Some n, (e, t))] ->
      timer_moves s s' p p'
  | tmoves_clear : p = QClear -> timer_queue_ s' = [] -> delayed (past s') = delayed (past s) ->
      fired (past s') = fired (past s) ++ map (fun x => (None, x)) (timer_queue_ s) -> timer_moves s s' p p'.

Lemma local_timer_moves unow b i s p s' p' e :
  local bg full unow b i s p = Some (s', p', e) -> timer_moves s s' p p'.
Proof.
  intros H. unfold_local H.
  destruct p; repeat case_match; simplify_eq;
    first [by apply tmoves_none | by eapply tmoves_push | by eapply tmoves_pop; eauto | by apply tmoves_clear].
Qed.

Definition earlier (a b : Z * T) : Prop := a.1 <= b.1.

Lemma timer_push_perm e (t : T) l : timer_push e t l ≡ₚ (e, t) :: l.
Proof.
  induction l as [|[e' t'] l IH]; simpl; [done|]. destruct (e <? e'); [done|]. rewrite IH. apply Permutation_swap.
Qed.

Lemma timer_push_sorted e (t : T) l : StronglySorted earlier l -> StronglySorted earlier (timer_push e t l).
Proof.
  induction 1 as [|[e' t'] l Hs IH Hf]; simpl; [by repeat constructor|]. destruct (Z.ltb_spec e e').
  - constructor; [by constructor|]. constructor; [unfold earlier; simpl; lia|].
    eapply Forall_impl; [exact Hf|]. unfold earlier. simpl. intros; lia.
  - constructor; [done|]. rewrite timer_push_perm. by constructor.
Qed.

(** A timer that was taken to be run was due. *)
Definition fired_due (f : option Z * (Z * T)) : Prop :=
  match f.1 with Some n => due n f.2.1 = true | None => True end.

(** The timers are those accepted and not taken, the earliest first; none was taken
    before it was due. *)
Record timer_inv st : Prop := {
  t_all : delayed (past (sh st)) ≡ₚ map snd (fired (past (sh st))) ++ timer_queue_ (sh st);
  t_due : Forall fired_due (fired (past (sh st)));
  t_sorted : StronglySorted earlier (timer_queue_ (sh st))
}.

Lemma timer_inv_step st st' : gstep bg full st st' -> timer_inv st -> timer_inv st'.
Proof.
  intros Hs [Ha Hd Ho]. destruct (gstep_inv _ _ Hs) as (i & p & unow & b & p' & e & _ & Hl & _).
  destruct (local_timer_moves _ _ _ _ _ _ _ _ Hl) as [Eq Ed Ef|e' t _ _ Eq Ed Ef|n e' t Eq Hdue _ Ed Ef|_ Eq Ed Ef].
  - split; by rewrite ?Eq, ?Ed, ?Ef.
  - split; rewrite ?Eq, ?Ed, ?Ef; [|done|by apply timer_push_sorted].
    rewrite Ha, timer_push_perm, <- app_assoc. apply Permutation_app_head. symmetry. apply Permutation_cons_append.
  - rewrite Eq in Ha, Ho. split; rewrite ?Ed, ?Ef; [|by apply Forall_app; repeat constructor|by inversion Ho].
    by rewrite Ha, map_app, <- app_assoc.
  - split; rewrite ?Eq, ?Ed, ?Ef; [|apply Forall_app; split; [done|]; by apply Forall_map, Forall_true|constructor].
    rewrite Ha, map_app, map_map, app_nil_r. by rewrite map_id.
Qed.

Lemma timer_inv_init ths : timer_inv (init ths).
Proof. by repeat constructor. Qed.

Lemma due_earlier n e e' : e <= e' -> due n e = false -> due n e' = false.
Proof. unfold due. intros H Hd. apply Z.leb_gt in Hd. apply Z.leb_gt. pose proof (Z.div_le_mono e e' 1000). lia. Qed.

(** What is left, if the earliest is not due. *)
Lemma none_due n e (t : T) l : StronglySorted earlier ((e, t) :: l) -> due n e = false ->
  Forall (fun x => due n x.1 = false) ((e, t) :: l).
Proof.
  intros Ho Hd. inversion Ho as [|? ? _ Hf]. subst. constructor; [done|].
  eapply Forall_impl; [exact Hf|]. intros x Hx. by eapply due_earlier.
Qed.

Lemma queue_inv_init ths :
  (forall i p, ths !! i = Some p -> entry p = true) -> queue_inv (init ths).
Proof.
  intros He. split; simpl; try done; try lia.
  - intros i p Hp Hh. pose proof (He i p Hp). by destruct p.
  - intros i t Hp. by pose proof (He _ _ Hp).
  - intros i t Hp. by pose proof (He _ _ Hp).
Qed.
End facts.
