(* ===== verification/TaskTheorems.v ===== *)
(** The theorems on the task queue: what every interleaving of its users keeps, that
    a background thread runs what was scheduled, that no task is left sleeping on,
    and the interleavings in which stopping hangs. *)
From S2P Require Import Pink Prelude TaskQueue TaskFacts.

(** * Reachable states *)
Section reachable.
Context {T : Type} (bg : bool) (full : nat).
Implicit Types (s : shared T) (st : state T) (p q : pc T).

(** Rule induction on the reachable states. *)
Lemma reach_invariant (P : state T -> Prop) st0 st :
  reach bg full st0 st -> P st0 -> (forall a b, gstep bg full a b -> P a -> P b) -> P st.
Proof. induction 1; eauto. Qed.

Lemma reach_queue_inv ths st :
  (forall i p, ths !! i = Some p -> entry p = true) -> reach bg full (init ths) st -> queue_inv full st.
Proof.
  intros He Hr. apply (reach_invariant (queue_inv full) _ _ Hr); [by apply queue_inv_init|].
  intros a b. apply queue_inv_step.
Qed.

(** * Consumers *)

(** The points a thread comes to only when it has been told to stop. *)
Definition stopped (p : pc T) : bool :=
  match p with
  | SwLock | SwQueue | SwRun _ | SwNow | SwLockT _ | SwTimers _ | SwRunT _ _ _ | Exit => true
  | _ => false
  end.

(** The points past the ready tasks. *)
Definition past_ready (p : pc T) : bool :=
  match p with SwNow | SwLockT _ | SwTimers _ | SwRunT _ _ _ | Exit => true | _ => false end.

Definition stops_inv st : Prop :=
  forall i p, threads st !! i = Some p -> stopped p = true -> should_stop_ (sh st) = true.

Lemma local_stopped unow b i s p s' p' e :
  local bg full unow b i s p = Some (s', p', e) -> stopped p' = true ->
  stopped p = true \/ should_stop_ s' = true.
Proof.
  intros H Hs. unfold_local H.
  destruct p; repeat case_match; simplify_eq; auto.
Qed.

Lemma local_consumer unow b i s p s' p' e :
  local bg full unow b i s p = Some (s', p', e) -> consumer p' = consumer p.
Proof.
  intros H. unfold_local H. destruct p; repeat case_match; by simplify_eq.
Qed.

Lemma same_or_woken_stopped p q : same_or_woken p q -> stopped q = true -> q = p.
Proof. intros [->|(c & Hw & ->)]; [done|]. by apply woken_waits in Hw as [(-> & _)|[(n & ms & -> & _)|(t & -> & _)]]. Qed.

Lemma stops_inv_step st st' : gstep bg full st st' -> stops_inv st -> stops_inv st'.
Proof.
  intros Hs Hx. destruct (gstep_inv _ _ _ _ Hs) as (i & p & unow & b & p' & e & Hp & Hl & _ & Hi & Ho).
  assert (Hkeep : should_stop_ (sh st) = true -> should_stop_ (sh st') = true).
  { intros E. by destruct (local_stop _ _ _ _ _ _ _ _ _ _ Hl) as [->|[_ ->]]. }
  intros j q Hq Hst. destruct (decide (j = i)) as [->|Hne].
  - assert (q = p') as -> by congruence.
    destruct (local_stopped _ _ _ _ _ _ _ _ Hl Hst) as [Hpst|]; [|done]. apply Hkeep. by apply (Hx i p).
  - destruct (Ho j q Hne Hq) as (q0 & Hq0 & Hsw). apply (same_or_woken_stopped _ _ Hsw) in Hst as Heq. subst q0.
    apply Hkeep. by apply (Hx j q).
Qed.
End reachable.

(** * The background thread runs what was scheduled *)
Section drain.
Context {T : Type} (full : nat) (c : nat).
Implicit Types (s : shared T) (st : state T) (p q : pc T).

(** The task a thread has taken from [queue_] and not run yet. *)
Definition inflight (p : pc T) : list T :=
  match p with FrontUnlock t | RunQ t | SwRun t => [t] | _ => [] end.

(** The tasks that were taken to be run. *)
Definition to_run (l : list (bool * T)) : list T := map snd (List.filter fst l).
#[local] Arguments to_run : simpl never.

Lemma to_run_app l1 l2 : to_run (l1 ++ l2) = to_run l1 ++ to_run l2.
Proof. unfold to_run. by rewrite List.filter_app, map_app. Qed.

Lemma to_run_cleared l : to_run (map (pair false) l) = [].
Proof. unfold to_run. by induction l. Qed.

Record drain_inv st : Prop := {
  d_queue : queue_inv full st;
  d_stops : stops_inv st;
  d_consumer : exists p, threads st !! c = Some p /\ consumer p = true /\
    ran (past (sh st)) ++ inflight p = to_run (taken (past (sh st))) /\
    (past_ready p = true -> queue_ (sh st) = [] /\ forall i t, threads st !! i <> Some (PPush t));
  d_others i p : threads st !! i = Some p -> i <> c -> consumer p = false
}.

Lemma local_inflight unow b i s p s' p' e :
  local true full unow b i s p = Some (s', p', e) -> consumer p = true ->
  ran (past s) ++ inflight p = to_run (taken (past s)) -> ran (past s') ++ inflight p' = to_run (taken (past s')).
Proof.
  intros H Hc Hr. unfold_local H.
  destruct p; try done; repeat case_match; simplify_eq; cbn in Hr |- *;
    rewrite ?to_run_app, <- ?Hr, ?app_nil_r; done.
Qed.

Lemma local_inflight_other unow b i s p s' p' e :
  local true full unow b i s p = Some (s', p', e) -> consumer p = false ->
  ran (past s') = ran (past s) /\ to_run (taken (past s')) = to_run (taken (past s)).
Proof.
  intros H Hc. unfold_local H.
  destruct p; try done; repeat case_match; simplify_eq; cbn;
    rewrite ?to_run_app, ?to_run_cleared, ?app_nil_r; done.
Qed.

Lemma local_past_ready unow b i s p s' p' e :
  local true full unow b i s p = Some (s', p', e) -> consumer p = true -> past_ready p' = true ->
  queue_ s' = queue_ s /\ (past_ready p = true \/ (p = SwQueue /\ queue_ s = [])).
Proof.
  intros H Hc Hp. unfold_local H.
  destruct p; try done; repeat case_match; simplify_eq; cbn in *; auto.
Qed.

Lemma same_or_woken_inflight p q : same_or_woken p q -> inflight q = inflight p /\ past_ready q = past_ready p.
Proof. intros [->|(k & Hw & ->)]; [done|]. by apply woken_waits in Hw as [(-> & _)|[(n & ms & -> & _)|(t & -> & _)]]. Qed.

Lemma drain_inv_step st st' : gstep true full st st' -> drain_inv st -> drain_inv st'.
Proof.
  intros Hs [Hq Hst (pc0 & Hc & Hcc & Hrun & Hpast) Hoth].
  destruct (gstep_inv _ _ _ _ Hs) as (i & p & unow & b & p' & e & Hpi & Hl & Hw & Hi & Ho).
  pose proof (stops_inv_step _ _ _ _ Hs Hst) as Hst'.
  assert (Hnew : forall j t, threads st' !! j = Some (PPush t) ->
    threads st !! j = Some (PPush t) \/ should_stop_ (sh st) = false).
  { intros j t Hj. destruct (decide (j = i)) as [->|Hne].
    - assert (p' = PPush t) as E by congruence.
      destruct (local_push _ _ _ _ _ _ _ _ _ _ _ Hl E) as (_ & _ & ?). by right.
    - destruct (Ho j _ Hne Hj) as (q0 & Hq0 & Hsw).
      left. by rewrite (same_or_woken_holds _ _ Hsw (eq_refl : holds (PPush t) = true)). }
  split; [by eapply queue_inv_step|done| |].
  - destruct (decide (i = c)) as [->|Hne].
    + assert (p = pc0) as -> by congruence. exists p'. split; [done|].
      rewrite (local_consumer _ _ _ _ _ _ _ _ _ _ Hl). split; [done|].
      split; [by eapply local_inflight|]. intros Hp'.
      destruct (local_past_ready _ _ _ _ _ _ _ _ Hl Hcc Hp') as [Hqe [Hp|[-> Hnil]]].
      * destruct (Hpast Hp) as [Hnil Hnone]. split; [congruence|]. intros j t Hj.
        destruct (Hnew j t Hj) as [Hj0|Hs0]; [by eapply Hnone|].
        assert (stopped pc0 = true) by by destruct pc0. by rewrite (Hst c pc0) in Hs0.
      * split; [congruence|]. intros j t Hj. destruct (Hnew j t Hj) as [Hj0|Hs0].
        -- assert (j = c) as -> by by eapply exclusive_unique; [apply (q_exclusive _ _ Hq)|done..]. congruence.
        -- by rewrite (Hst c SwQueue) in Hs0.
    + assert (Hpc : consumer p = false) by (by eapply Hoth).
      destruct (wakes_lookup_inv _ _ _ c pc0 Hw) as (q & Hqc & Hsw); [by rewrite lookup_insert_ne|].
      exists q. split; [done|]. rewrite (same_or_woken_consumer _ _ Hsw). split; [done|].
      destruct (same_or_woken_inflight _ _ Hsw) as [-> ->].
      destruct (local_inflight_other _ _ _ _ _ _ _ _ Hl Hpc) as [-> ->]. split; [done|].
      intros Hp. destruct (Hpast Hp) as [Hnil Hnone]. split.
      * destruct (local_moves _ _ _ _ _ _ _ _ _ _ Hl) as [Hq' _ _|t E _ _ _|t l [E|E] _ _ _ _|E Hq' _ _];
          [congruence| |by subst p..|done]. subst p. destruct (Hnone i t). done.
      * intros j t Hj. destruct (Hnew j t Hj) as [Hj0|Hs0]; [by eapply Hnone|].
        assert (stopped pc0 = true) by by destruct pc0. by rewrite (Hst c pc0) in Hs0.
  - intros j q Hj Hne. destruct (decide (j = i)) as [->|Hji].
    + assert (q = p') as -> by congruence. rewrite (local_consumer _ _ _ _ _ _ _ _ _ _ Hl). by eapply Hoth.
    + destruct (Ho j q Hji Hj) as (q0 & Hq0 & Hsw). rewrite (same_or_woken_consumer _ _ Hsw). by eapply Hoth.
Qed.

(** The timer a thread has taken and not run yet, and those taken to be run. *)
Definition inflight_timer (p : pc T) : list (Z * T) :=
  match p with RunT e t | SwRunT _ e t => [(e, t)] | _ => [] end.

Definition to_fire (l : list (option Z * (Z * T))) : list (Z * T) :=
  map snd (List.filter (fun f => bool_decide (is_Some f.1)) l).
#[local] Arguments to_fire : simpl never.

Lemma to_fire_app l1 l2 : to_fire (l1 ++ l2) = to_fire l1 ++ to_fire l2.
Proof. unfold to_fire. by rewrite List.filter_app, map_app. Qed.

Lemma to_fire_cleared l : to_fire (map (pair None) l) = [].
Proof. unfold to_fire. by induction l. Qed.

(** The time at which [SwallowReadyTasks] has looked at the clock. *)
Definition swallow_time (p : pc T) : option Z :=
  match p with SwLockT n | SwTimers n | SwRunT n _ _ => Some n | _ => None end.

(** Where the thread is with the timers; when it has ended those that are left were
    not due and no more come. *)
Record timer_drain st : Prop := {
  td_timers : timer_inv st;
  td_consumer : exists p, threads st !! c = Some p /\
    timers_ran (past (sh st)) ++ inflight_timer p = to_fire (fired (past (sh st))) /\
    (forall n, swallow_time p = Some n -> swallowed (past (sh st)) = Some n) /\
    (p = Exit -> (forall i e t, threads st !! i <> Some (DPush e t)) /\
       exists n, swallowed (past (sh st)) = Some n /\
         Forall (fun x => due n x.1 = false) (timer_queue_ (sh st)))
}.

Lemma local_inflight_timer unow b i s p s' p' e :
  local true full unow b i s p = Some (s', p', e) -> consumer p = true ->
  timers_ran (past s) ++ inflight_timer p = to_fire (fired (past s)) ->
  (forall n, swallow_time p = Some n -> swallowed (past s) = Some n) ->
  timers_ran (past s') ++ inflight_timer p' = to_fire (fired (past s')) /\
  (forall n, swallow_time p' = Some n -> swallowed (past s') = Some n).
Proof.
  intros H Hc Hr Hn. unfold_local H.
  destruct p; try done; repeat case_match; simplify_eq; cbn in Hr, Hn |- *;
    rewrite ?to_fire_app, <- ?Hr, ?app_nil_r; split; auto; intros; simplify_eq; auto.
Qed.

Lemma local_inflight_timer_other unow b i s p s' p' e :
  local true full unow b i s p = Some (s', p', e) -> consumer p = false ->
  timers_ran (past s') = timers_ran (past s) /\ to_fire (fired (past s')) = to_fire (fired (past s)) /\
  swallowed (past s') = swallowed (past s).
Proof.
  intros H Hc. unfold_local H.
  destruct p; try done; repeat case_match; simplify_eq; cbn;
    rewrite ?to_fire_app, ?to_fire_cleared, ?app_nil_r; done.
Qed.

(** The thread ends when no timer is left or the earliest is not due. *)
Lemma local_exit unow b i s p s' p' e :
  local true full unow b i s p = Some (s', p', e) -> p' = Exit ->
  exists n, p = SwTimers n /\ timer_queue_ s' = timer_queue_ s /\ past s' = past s /\
    (timer_queue_ s = [] \/ exists e t l, timer_queue_ s = (e, t) :: l /\ due n e = false).
Proof.
  intros H ->. unfold_local H.
  destruct p; repeat case_match; simplify_eq; eexists; split_and!; eauto 10.
Qed.

Lemma local_delay unow b i s p s' p' e ex t :
  local true full unow b i s p = Some (s', p', e) -> p' = DPush ex t -> should_stop_ s = false.
Proof. intros H ->. unfold_local H. destruct p; repeat case_match; by simplify_eq. Qed.

Lemma same_or_woken_timer p q : same_or_woken p q ->
  inflight_timer q = inflight_timer p /\ swallow_time q = swallow_time p /\ (q = Exit -> p = Exit).
Proof. intros [->|(k & Hw & ->)]; [done|]. by apply woken_waits in Hw as [(-> & _)|[(n & ms & -> & _)|(t & -> & _)]]. Qed.

(** No call adds a timer after the thread has looked at the flag. *)
Lemma no_new_timer st st' : gstep true full st st' -> should_stop_ (sh st) = true ->
  (forall i e t, threads st !! i <> Some (DPush e t)) -> forall i e t, threads st' !! i <> Some (DPush e t).
Proof.
  intros Hs Hst Hno j ex t Hj.
  destruct (gstep_inv _ _ _ _ Hs) as (i & p & unow & b & p' & e & Hpi & Hl & Hw & Hi & Ho).
  destruct (decide (j = i)) as [->|Hne].
  - assert (p' = DPush ex t) as E by congruence. by rewrite (local_delay _ _ _ _ _ _ _ _ _ _ Hl E) in Hst.
  - destruct (Ho j _ Hne Hj) as (q0 & Hq0 & Hsw).
    rewrite <- (same_or_woken_holds _ _ Hsw (eq_refl : holds (DPush ex t) = true)) in Hq0. by eapply Hno.
Qed.

Lemma timer_drain_step st st' :
  gstep true full st st' -> drain_inv st -> timer_drain st -> timer_drain st'.
Proof.
  intros Hs Hd [Ht (pc0 & Hc & Hrun & Hn & Hx)].
  split; [by eapply timer_inv_step|].
  pose proof (d_stops _ Hd) as Hst. destruct (d_consumer _ Hd) as (pc1 & Hc1 & Hcc & _).
  assert (pc1 = pc0) as -> by congruence.
  destruct (gstep_inv _ _ _ _ Hs) as (i & p & unow & b & p' & e & Hpi & Hl & Hw & Hi & Ho).
  destruct (decide (i = c)) as [->|Hne].
  - assert (p = pc0) as -> by congruence. exists p'. split; [done|].
    destruct (local_inflight_timer _ _ _ _ _ _ _ _ Hl Hcc Hrun Hn) as [Hrun' Hn']. split_and!; [done..|].
    intros E. destruct (local_exit _ _ _ _ _ _ _ _ Hl E) as (n & -> & Hq & Hp & Hleft).
    rewrite Hq, Hp. split.
    + apply (no_new_timer _ _ Hs (Hst c _ Hc eq_refl)). intros j ex t Hj.
      assert (j = c) as -> by by eapply exclusive_unique; [apply (q_exclusive _ _ (d_queue _ Hd))|done..].
      congruence.
    + exists n. split; [by apply Hn|]. destruct Hleft as [->|(e' & t & l & E' & Hdue)]; [constructor|].
      pose proof (t_sorted _ Ht) as Hso. rewrite E' in Hso |- *. by apply none_due.
  - assert (Hpc : consumer p = false) by by eapply (d_others _ Hd).
    destruct (wakes_lookup_inv _ _ _ c pc0 Hw) as (q & Hqc & Hsw); [by rewrite lookup_insert_ne|].
    exists q. split; [done|]. destruct (same_or_woken_timer _ _ Hsw) as (-> & -> & Hxq).
    destruct (local_inflight_timer_other _ _ _ _ _ _ _ _ Hl Hpc) as (-> & -> & ->). split_and!; [done..|].
    intros ->. destruct (Hx (Hxq eq_refl)) as [Hno (n & Hsn & Hleft)]. split.
    + apply (no_new_timer _ _ Hs); [|done]. rewrite (Hxq eq_refl) in Hc. by apply (Hst c Exit).
    + exists n. split; [done|].
      destruct (local_timer_moves _ _ _ _ _ _ _ _ _ _ Hl) as [-> _ _|e' t E _ _ _ _|k e' t _ _ E _ _|_ -> _ _].
      * done.
      * subst p. by destruct (Hno i e' t).
      * by destruct E as [[-> _]|[-> _]].
      * constructor.
Qed.

(** Both hold in every reachable state. *)
Lemma reach_drained ths st :
  (forall i p, ths !! i = Some p -> entry p = true) ->
  ths !! c = Some Top -> (forall i, i <> c -> ths !! i <> Some Top) ->
  reach true full (init ths) st -> drain_inv st /\ timer_drain st.
Proof.
  intros He Hc Hu Hr. apply (reach_invariant _ _ (fun st => drain_inv st /\ timer_drain st) _ _ Hr).
  - split; split; [by apply queue_inv_init| |by exists Top| |by apply timer_inv_init|by exists Top].
    + intros i p Hp Hs. pose proof (He i p Hp). by destruct p.
    + intros i p Hp Hne. pose proof (He i p Hp). destruct p; try done. by destruct (Hu i Hne).
  - intros a b Hs [Hd Ht]. split; [by eapply drain_inv_step|by eapply timer_drain_step].
Qed.

(** What they say of a thread that has ended. *)
Lemma drain_inv_exit st : drain_inv st -> threads st !! c = Some Exit ->
  queue_ (sh st) = [] /\ pushed (past (sh st)) = map snd (taken (past (sh st))) /\
  ran (past (sh st)) = to_run (taken (past (sh st))).
Proof.
  intros [Hq _ (p & Hp & _ & Hrun & Hpast) _] Hx. assert (p = Exit) as -> by congruence.
  destruct (Hpast eq_refl) as [Hnil _]. simpl in Hrun. rewrite app_nil_r in Hrun.
  pose proof (q_fifo _ _ Hq) as Hf. by rewrite Hnil, app_nil_r in Hf.
Qed.

Lemma timer_drain_exit st : timer_drain st -> threads st !! c = Some Exit ->
  delayed (past (sh st)) ≡ₚ map snd (fired (past (sh st))) ++ timer_queue_ (sh st) /\
  timers_ran (past (sh st)) = to_fire (fired (past (sh st))) /\ Forall fired_due (fired (past (sh st))) /\
  exists n, swallowed (past (sh st)) = Some n /\ Forall (fun x => due n x.1 = false) (timer_queue_ (sh st)).
Proof.
  intros [[Ha Hd _] (p & Hp & Hrun & _ & Hx)] He. assert (p = Exit) as -> by congruence.
  simpl in Hrun. rewrite app_nil_r in Hrun. by destruct (Hx eq_refl).
Qed.

(** Who calls [QueueClear]. *)
Definition clears (p : pc T) : bool := match p with QLock | QClear => true | _ => false end.

Definition no_clear st : Prop :=
  (forall i p, threads st !! i = Some p -> clears p = false) /\ to_run (taken (past (sh st))) = map snd (taken (past (sh st))) /\
  to_fire (fired (past (sh st))) = map snd (fired (past (sh st))).

Lemma no_clear_step st st' : gstep true full st st' -> no_clear st -> no_clear st'.
Proof.
  intros Hs (Hn & He & Hf). destruct (gstep_inv _ _ _ _ Hs) as (i & p & unow & b & p' & e & Hpi & Hl & Hw & Hi & Ho).
  pose proof (Hn i p Hpi) as Hp. split_and!.
  - intros j q Hj. destruct (decide (j = i)) as [->|Hne].
    + assert (q = p') as -> by congruence. clear - Hl Hp. unfold_local Hl.
      destruct p; repeat case_match; by simplify_eq.
    + destruct (Ho j q Hne Hj) as (q0 & Hq0 & [->|(k & Hk & ->)]); [by eapply Hn|].
      by apply woken_waits in Hk as [(-> & _)|[(n & ms & -> & _)|(t & -> & _)]].
  - destruct (local_moves _ _ _ _ _ _ _ _ _ _ Hl) as [_ _ ->|t _ _ _ ->|t l _ _ _ _ ->|E _ _ _]; [done..| |by subst p].
    rewrite to_run_app, map_app, He. done.
  - destruct (local_timer_moves _ _ _ _ _ _ _ _ _ _ Hl) as [_ _ ->|? ? _ _ _ _ ->|n ex t _ _ _ _ ->|E _ _ _]; [done..| |by subst p].
    rewrite to_fire_app, map_app, Hf. done.
Qed.
End drain.

(** * No task is slept on *)
Section awake.
Context {T : Type} (bg : bool) (full : nat).
Implicit Types (s : shared T) (st : state T) (p q : pc T).

(** About to signal, or a consumer that is neither in a wait nor about to enter one. *)
Definition awake (p : pc T) : bool :=
  match p with
  | PSignal => true
  | ToWait | WaitR | ToTimed _ _ | TimedR _ _ | Exit => false
  | p => consumer p
  end.

(** In a timed wait, or about to enter it, that ends when the timer [e] is due. *)
Definition timed_until (e : Z) (p : pc T) : Prop :=
  match p with ToTimed n ms | TimedR n ms => n + ms * 1000 <= e | _ => False end.

(** What [MayWait] has computed from the earliest timer. *)
Definition timer_seen s (p : pc T) : Prop :=
  match p with
  | MayWait n ms | ToTimed n ms => exists e t l, timer_queue_ s = (e, t) :: l /\ n + ms * 1000 <= e
  | _ => True
  end.

(** What the points before a wait have tested. *)
Definition may_sleep s (p : pc T) : Prop :=
  match p with
  | ToWait => queue_ s = [] /\ timer_queue_ s = []
  | ToTimed _ _ => queue_ s = []
  | _ => True
  end.

Definition someone st (P : pc T -> Prop) : Prop := exists i p, threads st !! i = Some p /\ P p.

Record awake_inv st : Prop := {
  a_exclusive : exclusive st;
  a_stops : stops_inv st;
  a_sleep i p : threads st !! i = Some p -> may_sleep (sh st) p /\ timer_seen (sh st) p;
  a_consumer : someone st (fun p => consumer p = true);
  a_queue : should_stop_ (sh st) = false -> queue_ (sh st) <> [] -> someone st (fun p => awake p = true);
  a_timers e t l : should_stop_ (sh st) = false -> timer_queue_ (sh st) = (e, t) :: l ->
    someone st (fun p => awake p = true \/ timed_until e p)
}.

(** The wait ends before the timer is due. *)
Lemma timed_ms_early e unow : due unow e = false -> unow + timed_ms e unow * 1000 <= e.
Proof.
  unfold due, timed_ms. intros H. apply Z.leb_gt in H.
  assert (unow < e) by (destruct (Z.lt_ge_cases unow e) as [|G]; [done|]; pose proof (Z.div_le_mono e unow 1000); lia).
  pose proof (Z.mod_le (to_u64 (e - unow) / 1000) (2 ^ 32)).
  pose proof (Z.mod_le (e - unow) (2 ^ 64)). pose proof (Z.mod_pos_bound (e - unow) (2 ^ 64)).
  assert (0 <= to_u64 (e - unow) <= e - unow) by (unfold to_u64 in *; lia).
  pose proof (Z.div_pos (to_u64 (e - unow)) 1000). pose proof (Z.mul_div_le (to_u64 (e - unow)) 1000). lia.
Qed.

(** Whoever changes what there is to do holds the lock, and then signals or is awake. *)
Lemma local_work unow b i s p s' p' e :
  local bg full unow b i s p = Some (s', p', e) ->
  (holds p = false -> queue_ s' = queue_ s /\ timer_queue_ s' = timer_queue_ s) /\
  (queue_ s' <> [] -> queue_ s <> [] \/ p' = PSignal) /\
  (timer_queue_ s' = [] \/ timer_queue_ s' = timer_queue_ s \/ awake p' = true \/ stopped p' = true) /\
  (may_sleep s p -> timer_seen s p -> may_sleep s' p' /\ timer_seen s' p').
Proof.
  intros H. unfold_local H.
  destruct p; repeat case_match; simplify_eq; simpl; split_and!; intros; simplify_eq; auto; try done.
  - unfold is_nil in *. by repeat case_match.
  - split; [done|]. do 3 eexists. split; [done|]. by apply timed_ms_early.
  - unfold is_nil in *. by repeat case_match.
Qed.

(** A consumer stops being awake only to sleep rightly, to end or to signal. *)
Lemma local_awake unow b i s p s' p' e :
  local bg full unow b i s p = Some (s', p', e) -> awake p = true ->
  awake p' = true \/ stopped p' = true \/ p' = ToWait \/ (exists n ms, p' = ToTimed n ms) \/
  (p = PSignal /\ e = Signal rsignal_ /\ queue_ s' = queue_ s /\ timer_queue_ s' = timer_queue_ s).
Proof.
  intros H Ha. unfold_local H.
  destruct p; try done; repeat case_match; simplify_eq;
    first [by left | by right; left | by do 2 right; left | by do 3 right; left; eauto | by do 4 right].
Qed.

Lemma local_timed unow b i s p s' p' e ex :
  local bg full unow b i s p = Some (s', p', e) -> timed_until ex p -> timed_until ex p' \/ awake p' = true.
Proof. intros H Ht. unfold_local H. destruct p; try done; repeat case_match; simplify_eq; auto. Qed.

Lemma same_or_woken_awake p q : same_or_woken p q -> awake p = true -> awake q = true.
Proof. intros [->|(c & Hw & ->)]; [done|]. by apply woken_waits in Hw as [(-> & _)|[(n & ms & -> & _)|(t & -> & _)]]. Qed.

Lemma same_or_woken_timed p q e : same_or_woken p q -> timed_until e p -> awake q = true \/ timed_until e q.
Proof.
  intros [->|(c & Hw & ->)]; [by right|]. apply woken_waits in Hw as [(-> & _)|[(n & ms & -> & _ & ->)|(t & -> & _)]]; try done.
  by left.
Qed.

(** Signalling leaves a consumer awake, if one has not ended and none is about to
    sleep. *)
Lemma signal_wakes ths ths' i p :
  wakes ths (Signal rsignal_) ths' -> ths !! i = Some p -> consumer p = true -> p <> Exit -> holds p = false ->
  exists j q, ths' !! j = Some q /\ awake q = true.
Proof.
  intros Hw Hp Hc He Hh. inversion Hw as [|k Hn E E'|k j q Hq Hwq E E'|]; subst.
  - pose proof (Hn i p Hp) as Hn0. exists i, p. split; [done|]. by destruct p.
  - exists j, (woken q). split; [apply lookup_insert_eq|]. by destruct q.
Qed.

(** The state after a step in which the flag was not set. *)
Lemma awake_after st st' i p unow b p' e :
  exclusive st -> stops_inv st -> stops_inv st' -> someone st (fun p => consumer p = true) ->
  threads st !! i = Some p -> local bg full unow b i (sh st) p = Some (sh st', p', e) ->
  wakes (<[i := p']> (threads st)) e (threads st') -> threads st' !! i = Some p' ->
  should_stop_ (sh st') = false -> awake p = true ->
  awake p' = true \/ (p' = ToWait \/ exists n ms, p' = ToTimed n ms) \/ someone st' (fun p => awake p = true).
Proof.
  intros Hx Hst Hst' (k & pk & Hk & Hck) Hpi Hl Hw Hi Hs0 Ha.
  destruct (local_awake _ _ _ _ _ _ _ _ Hl Ha) as [?|[Hp'|[->|[(n & ms & ->)|(-> & -> & _)]]]].
  - by left.
  - by rewrite (Hst' i p' Hi Hp') in Hs0.
  - by right; left; left.
  - right; left; right. by exists n, ms.
  - do 2 right. apply (signal_wakes _ _ k pk Hw).
    + rewrite lookup_insert_ne; [done|]. intros ->. by assert (pk = PSignal) as -> by congruence.
    + done.
    + intros ->. destruct (local_stop _ _ _ _ _ _ _ _ _ _ Hl) as [E|[E _]]; [|done].
      rewrite (Hst k Exit Hk eq_refl) in E. congruence.
    + destruct (holds pk) eqn:E; [|done].
      assert (k = i) as -> by by eapply exclusive_unique. by assert (pk = PSignal) as -> by congruence.
Qed.

(** Nobody who is about to sleep sees work come. *)
Lemma sleep_after st st' : gstep bg full st st' -> exclusive st ->
  (forall i p, threads st !! i = Some p -> may_sleep (sh st) p /\ timer_seen (sh st) p) ->
  forall j q, threads st' !! j = Some q -> may_sleep (sh st') q /\ timer_seen (sh st') q.
Proof.
  intros Hs Hx Hsl j q Hj.
  destruct (gstep_inv _ _ _ _ Hs) as (i & p & unow & b & p' & e & Hpi & Hl & _ & Hi & Ho).
  destruct (local_work _ _ _ _ _ _ _ _ Hl) as (Hfree & _ & _ & Hsleep). destruct (decide (j = i)) as [->|Hne].
  - assert (q = p') as -> by congruence. destruct (Hsl i p Hpi). auto.
  - destruct (holds q) eqn:Eh; [|by destruct q].
    destruct (Ho j _ Hne Hj) as (q0 & Hq0 & Hsw).
    rewrite <- (same_or_woken_holds _ _ Hsw Eh) in Hq0.
    destruct (holds p) eqn:Ep; [destruct Hne; exact (exclusive_unique _ _ _ _ _ Hx Hq0 Hpi Eh Ep)|].
    destruct (Hfree eq_refl) as [Hq Ht]. destruct (Hsl j q Hq0). destruct q; simpl in *; by rewrite ?Hq, ?Ht.
Qed.

Lemma awake_inv_step st st' : gstep bg full st st' -> awake_inv st -> awake_inv st'.
Proof.
  intros Hs [Hx Hst Hsl Hcon Haq Hat].
  destruct (gstep_inv _ _ _ _ Hs) as (i & p & unow & b & p' & e & Hpi & Hl & Hw & Hi & Ho).
  pose proof (stops_inv_step _ _ _ _ Hs Hst) as Hst'.
  pose proof (exclusive_step _ _ _ _ Hs Hx) as Hx'.
  destruct (local_work _ _ _ _ _ _ _ _ Hl) as (_ & Hmore & Htim & _).
  pose proof (sleep_after _ _ Hs Hx Hsl) as Hsl'.
  assert (Hs00 : should_stop_ (sh st') = false -> should_stop_ (sh st) = false).
  { intros E'. destruct (local_stop _ _ _ _ _ _ _ _ _ _ Hl) as [<-|[_ E]]; congruence. }
  pose proof (fun H0 Ha => awake_after _ _ _ _ _ _ _ _ Hx Hst Hst' Hcon Hpi Hl Hw Hi H0 Ha) as Hafter.
  assert (Hother : forall j q, j <> i -> threads st !! j = Some q ->
    exists q', threads st' !! j = Some q' /\ same_or_woken q q').
  { intros j q Hne Hj. apply (wakes_lookup_inv _ _ _ j q Hw). by rewrite lookup_insert_ne. }
  split; [done..| | |].
  - destruct Hcon as (k & pk & Hk & Hck). destruct (decide (k = i)) as [->|Hne].
    + exists i, p'. split; [done|]. rewrite (local_consumer _ _ _ _ _ _ _ _ _ _ Hl). congruence.
    + destruct (Hother k pk Hne Hk) as (q & Hq & Hsw). exists k, q. by rewrite (same_or_woken_consumer _ _ Hsw).
  - intros Hs0 Hq. destruct (Hmore Hq) as [Hq0|E]; [|by exists i, p'; subst p'].
    destruct (Haq (Hs00 Hs0) Hq0) as (j & q & Hj & Ha). destruct (decide (j = i)) as [->|Hne].
    + assert (q = p) as -> by congruence. destruct (Hafter Hs0 Ha) as [?|[Hz|?]]; [by exists i, p'| |done].
      destruct (Hsl' i p' Hi) as [Hm _]. destruct Hz as [->|(n & ms & ->)]; simpl in Hm; intuition congruence.
    + destruct (Hother j q Hne Hj) as (q' & Hq' & Hsw). exists j, q'. split; [done|by eapply same_or_woken_awake].
  - intros ex t l Hs0 Ht. destruct Htim as [E|[E|[E|E]]]; [congruence| |by exists i, p'; auto|by rewrite (Hst' i p' Hi E) in Hs0].
    destruct (Hat ex t l (Hs00 Hs0)) as (j & q & Hj & Hq); [congruence|]. destruct (decide (j = i)) as [->|Hne].
    + assert (q = p) as -> by congruence. destruct Hq as [Ha|Hq].
      * destruct (Hafter Hs0 Ha) as [?|[Hz|(k & r & Hk & Hr)]]; [by exists i, p'; auto| |by exists k, r; auto].
        exists i, p'. split; [done|]. destruct (Hsl' i p' Hi) as [Hm Hse]. destruct Hz as [->|(n & ms & ->)]; simpl in *.
        -- destruct Hm; congruence.
        -- right. destruct Hse as (e1 & t1 & l1 & E1 & He).
           rewrite E1 in Ht. by injection Ht as -> _ _.
      * exists i, p'. split; [done|]. destruct (local_timed _ _ _ _ _ _ _ _ ex Hl Hq); auto.
    + destruct (Hother j q Hne Hj) as (q' & Hq' & Hsw). exists j, q'. split; [done|].
      destruct Hq as [Ha|Hq]; [left; by eapply same_or_woken_awake|by eapply same_or_woken_timed].
Qed.

Lemma awake_inv_init ths c :
  (forall i p, ths !! i = Some p -> entry p = true) -> ths !! c = Some Top -> awake_inv (init ths).
Proof.
  intros He Hc. split; simpl; try done.
  - intros i p Hp Hh. pose proof (He i p Hp). by destruct p.
  - intros i p Hp Hh. pose proof (He i p Hp). by destruct p.
  - intros i p Hp. pose proof (He _ _ Hp). by destruct p.
  - by exists c, Top.
Qed.
End awake.

(** * The theorems *)

(** C20: however the users of a task queue interleave, at most one of them is between
    [mu_.Lock()] and the release, the queue never holds more than its limit, and
    what has been pushed is, in this order, what has been popped or cleared and then
    what the queue still holds: no task is lost, duplicated or overtaken. *)
Theorem queue_fifo_and_bounded {T} (bg : bool) (full : nat) (ths : gmap nat (pc T)) st :
  (forall i p, ths !! i = Some p -> entry p = true) -> reach bg full (init ths) st ->
  (forall i j p q, threads st !! i = Some p -> threads st !! j = Some q -> holds p = true -> holds q = true -> i = j) /\
  (length (queue_ (sh st)) <= full)%nat /\
  pushed (past (sh st)) = map snd (taken (past (sh st))) ++ queue_ (sh st).
Proof.
  intros He Hr. pose proof (reach_queue_inv _ _ _ _ He Hr) as [Hx Hf Hb _ _].
  split; [|done]. intros i j p q Hi Hj Hp Hq. by eapply exclusive_unique.
Qed.

(** C21: when the thread of a [BGThread] has ended, after whatever its callers did:
    the queue is empty, every task that [Schedule] accepted has been run or cleared,
    the run ones in the order they were scheduled. Of the timers that [DelaySchedule]
    accepted, each has been run, cleared or is left in [timer_queue_]; none was taken
    before it was due, and those that are left are exactly the ones that were not due
    when [SwallowReadyTasks] looked at the clock: they are never run. If nobody
    cleared the queues then exactly the accepted tasks have been run, and the
    accepted timers are those run and those left. *)
Theorem background_runs_all {T} (full : nat) (ths : gmap nat (pc T)) (c : nat) st :
  (forall i p, ths !! i = Some p -> entry p = true) ->
  ths !! c = Some Top -> (forall i, i <> c -> ths !! i <> Some Top) ->
  reach true full (init ths) st -> threads st !! c = Some Exit ->
  let h := past (sh st) in
  queue_ (sh st) = [] /\ pushed h = map snd (taken h) /\ ran h = to_run (taken h) /\
  delayed h ≡ₚ map snd (fired h) ++ timer_queue_ (sh st) /\ timers_ran h = to_fire (fired h) /\
  Forall fired_due (fired h) /\
  (exists n, swallowed h = Some n /\ Forall (fun x => due n x.1 = false) (timer_queue_ (sh st))) /\
  ((forall i, ths !! i <> Some QLock) ->
   ran h = pushed h /\ delayed h ≡ₚ timers_ran h ++ timer_queue_ (sh st)).
Proof.
  intros He Hc Hu Hr Hx h.
  destruct (reach_drained _ _ _ _ He Hc Hu Hr) as [Hd Ht].
  destruct (drain_inv_exit _ _ _ Hd Hx) as (Hnil & Hf & Hrun).
  destruct (timer_drain_exit _ _ Ht Hx) as (Hall & Hfire & Hdue & Hleft).
  split_and!; try done. intros Hn.
  assert (Hno : no_clear st).
  { apply (reach_invariant _ _ _ _ _ Hr); [|intros a b; apply no_clear_step]. split_and!; try done.
    intros i q Hi. pose proof (He i q Hi). destruct q; try done. by destruct (Hn i). }
  destruct Hno as (_ & Er & Ef). subst h. by rewrite Hrun, Hf, Hfire, Hall, Er, Ef.
Qed.

(** C22: while nobody has asked the threads to stop, work is never left to sleeping
    consumers. If a task is queued then some thread is about to signal, or some
    consumer is neither in a wait nor about to enter one, not even a timed one. If a
    timer is queued then the same holds, or some consumer is in a timed wait that
    ends when the earliest timer is due or before. *)
Theorem work_is_not_slept_on {T} (bg : bool) (full : nat) (ths : gmap nat (pc T)) (c : nat) st :
  (forall i p, ths !! i = Some p -> entry p = true) -> ths !! c = Some Top ->
  reach bg full (init ths) st -> should_stop_ (sh st) = false ->
  (queue_ (sh st) <> [] -> someone st (fun p => awake p = true)) /\
  (forall e t l, timer_queue_ (sh st) = (e, t) :: l -> someone st (fun p => awake p = true \/ timed_until e p)).
Proof.
  intros He Hc Hr Hs.
  assert (Ha : awake_inv st).
  { apply (reach_invariant bg full _ _ _ Hr); [by eapply awake_inv_init|]. intros a b. apply awake_inv_step. }
  split; [by apply (a_queue _ Ha)|]. intros e t l. by apply (a_timers _ Ha).
Qed.

(** * Schedules *)
Section schedules.
Context {T : Type} (bg : bool) (full : nat).
Implicit Types (st : state T).

(** Thread [i] steps when the clock says [unow]; a signal nobody waits for is lost,
    and one that somebody waits for wakes [j]. *)
Definition wake_one (c : cv) (j : nat) (ths : gmap nat (pc T)) : option (gmap nat (pc T)) :=
  if bool_decide (map_Forall (fun _ p => waits c p = false) ths) then Some ths
  else match ths !! j with
       | Some p => if waits c p then Some (<[j := woken p]> ths) else None
       | None => None
       end.

Definition run_step (o : nat * Z * nat) st : option (state T) :=
  let '(i, unow, j) := o in
  match threads st !! i with
  | Some p =>
      match local bg full unow false i (sh st) p with
      | Some (s', p', e) =>
          let ths := <[i := p']> (threads st) in
          match e with
          | Quiet => Some (mkState s' ths)
          | Signal c => mkState s' <$> wake_one c j ths
          | SignalAll c => Some (mkState s' ((fun q => if waits c q then woken q else q) <$> ths))
          end
      | None => None
      end
  | None => None
  end.

Fixpoint run (l : list (nat * Z * nat)) st : option (state T) :=
  match l with [] => Some st | o :: l => match run_step o st with Some st' => run l st' | None => None end end.

Lemma wake_one_wakes c j ths ths' : wake_one c j ths = Some ths' -> wakes ths (Signal c) ths'.
Proof.
  unfold wake_one. case_bool_decide as E; [intros [= <-]; by apply wakes_nobody|].
  destruct (ths !! j) as [p|] eqn:Ej; [|done]. destruct (waits c p) eqn:Ew; [|done]. intros [= <-]. by eapply wakes_one.
Qed.

Lemma run_step_gstep o st st' : run_step o st = Some st' -> gstep bg full st st'.
Proof.
  destruct o as [[i unow] j]. unfold run_step. destruct (threads st !! i) as [p|] eqn:Ei; [|done].
  destruct (local _ _ _ _ _ _ _) as [[[s' p'] e]|] eqn:El; [|done]. intros H.
  assert (exists ths', st' = mkState s' ths' /\ wakes (<[i := p']> (threads st)) e ths') as (ths' & -> & Hw).
  { destruct e as [|c|c].
    - injection H as <-. eexists. split; [done|apply wakes_quiet].
    - apply fmap_Some in H as (ths' & Hw & ->). exists ths'. split; [done|by eapply wake_one_wakes].
    - injection H as <-. eexists. split; [done|apply wakes_all]. }
  by apply (gstep_local _ _ _ i p unow false s' p' e).
Qed.

Lemma run_reach l st0 st st' : reach bg full st0 st -> run l st = Some st' -> reach bg full st0 st'.
Proof.
  revert st. induction l as [|o l IH]; simpl; intros st Hr H; [by injection H as <-|].
  destruct (run_step o st) as [st1|] eqn:E; [|done]. eapply IH; [|done].
  eapply reach_next; [done|]. by eapply run_step_gstep.
Qed.

(** Nobody can step, if each thread that is not asleep needs a lock that is taken or
    waits for a consumer that has not ended. *)
Definition stuck st : Prop := forall st', ~ gstep bg full st st'.

Definition blocked (s : shared T) (p : pc T) : bool :=
  match p with
  | WaitR | WaitW _ | Exit | Done | SJoin => true
  | SwLock | Locking | PLock _ => match mu_ s with Some _ => true | None => false end
  | _ => false
  end.

Lemma blocked_stuck st :
  map_Forall (fun _ p => blocked (sh st) p = true) (threads st) -> ~ exited (threads st) -> stuck st.
Proof.
  intros Hb He st' [i p unow b s' p' e ths' Hp Hx Hl _]. pose proof (Hb i p Hp) as Hbp. unfold blocked in Hbp.
  unfold_local Hl. destruct p; try done; try by destruct (mu_ (sh st)). destruct b; [|done]. by destruct (He (Hx eq_refl)).
Qed.
End schedules.

(** A schedule: the threads that step, one after the other, at time 0. *)
Definition at0 (l : list nat) : list (nat * Z * nat) := map (fun i => (i, 0, 0%nat)) l.

(** Stopping can hang, and in two ways. A consumer that has tested [should_stop()]
    and not yet entered its wait misses the signal of [StopThread], which sets the
    flag and signals without [mu_]: the consumer then waits, and [StopThread] joins
    it, for ever. And a background thread whose only work is a timer that is not
    due, and that sees the flag change between its two tests, leaves the loop body
    with [mu_] locked and then locks it again. *)
Theorem stop_can_hang (full : nat) :
  (forall bg, exists st : state nat,
    reach bg full (init {[0%nat := Top; 1%nat := SSet]}) st /\
    threads st !! 0%nat = Some WaitR /\ threads st !! 1%nat = Some SJoin /\ stuck bg full st) /\
  (exists st : state nat,
    reach true full (init {[0%nat := Top; 1%nat := DNow 60000 7%nat; 2%nat := SSet]}) st /\
    threads st !! 0%nat = Some SwLock /\ mu_ (sh st) = Some 0%nat /\ stuck true full st).
Proof.
  split.
  - intros bg. exists (mkState (set_stop init_shared) {[0%nat := WaitR; 1%nat := SJoin]}). split_and!.
    + apply (run_reach _ _ (at0 [0;0;0;1;1;1;0])%nat _ _ _ (reach_refl _ _ _)).
      destruct bg; vm_compute; reflexivity.
    + done.
    + done.
    + apply blocked_stuck; [by apply (bool_decide_unpack _); vm_compute|].
      intros He. by pose proof (He 0%nat WaitR eq_refl eq_refl).
  - exists (mkState (mkShared [] [(60000000, 7%nat)] true (Some 0%nat)
         (mkHistory [] [] [] [(60000000, 7%nat)] [] [] None))
       {[0%nat := SwLock; 1%nat := Done; 2%nat := SJoin]}). split_and!; try done.
    + apply (run_reach _ _ (at0 [1;1;1;1;1;1; 0;0;0;0;0; 2;2;2; 0;0;0])%nat _ _ _ (reach_refl _ _ _)).
      vm_compute; reflexivity.
    + apply blocked_stuck; [by apply (bool_decide_unpack _); vm_compute|].
      intros He. by pose proof (He 0%nat SwLock eq_refl eq_refl).
Qed.

(** * A run *)

(** Two callers schedule the task 5 and the timers 6 and 7, the latter in a minute; a
    third stops the thread, which then runs what is left and due. *)
Definition sample_threads : gmap nat (pc nat) :=
  {[0%nat := Top; 1%nat := PLock 5%nat; 2%nat := DNow 0 6%nat; 3%nat := DNow 60000 7%nat; 4%nat := SSet]}.
Definition sample_scheduled : state nat :=
  mkState (mkShared [5%nat] [(0, 6%nat); (60000000, 7%nat)] false None
      (mkHistory [5%nat] [] [] [(0, 6%nat); (60000000, 7%nat)] [] [] None))
    {[0%nat := Top; 1%nat := Done; 2%nat := Done; 3%nat := Done; 4%nat := SSet]}.
Definition sample_ended : state nat :=
  mkState (mkShared [] [(60000000, 7%nat)] true None
      (mkHistory [5%nat] [(true, 5%nat)] [5%nat] [(0, 6%nat); (60000000, 7%nat)] [(Some 0, (0, 6%nat))]
         [(0, 6%nat)] (Some 0)))
    {[0%nat := Exit; 1%nat := Done; 2%nat := Done; 3%nat := Done; 4%nat := SJoin]}.

Lemma sample_entry i p : sample_threads !! i = Some p -> entry p = true.
Proof.
  revert i p. change (map_Forall (fun _ p => entry p = true) sample_threads).
  apply (bool_decide_unpack _). by vm_compute.
Qed.

Lemma sample_shape : map_Forall (fun i p => match p with Top => i = 0%nat | QLock => False | _ => True end) sample_threads.
Proof. repeat apply map_Forall_insert_2; try done. Qed.

Lemma sample_scheduled_reach : reach true 10 (init sample_threads) sample_scheduled.
Proof.
  apply (run_reach _ _ (at0 [1;1;1;1;1;1; 2;2;2;2;2;2; 3;3;3;3;3;3])%nat _ _ _ (reach_refl _ _ _)).
  vm_compute; reflexivity.
Qed.

Lemma sample_ended_reach : reach true 10 (init sample_threads) sample_ended.
Proof.
  apply (run_reach _ _ (at0 [4;4;4; 0;0;0;0;0;0;0;0;0;0;0;0])%nat _ _ _ sample_scheduled_reach).
  vm_compute; reflexivity.
Qed.

(** The comment on [SwallowReadyTasks] says that all the remaining tasks of the ready
    and the timer queue are swallowed; a timer that is not due is dropped. *)
Theorem stop_drops_timers :
  exists st : state nat, reach true 10 (init sample_threads) st /\ threads st !! 0%nat = Some Exit /\
    timer_queue_ (sh st) = [(60000000, 7%nat)] /\ (60000000, 7%nat) ∈ delayed (past (sh st)) /\
    (60000000, 7%nat) ∉ timers_ran (past (sh st)).
Proof.
  exists sample_ended. split; [exact sample_ended_reach|]. split_and!; [done..| |];
    by apply (bool_decide_unpack _); vm_compute.
Qed.

Lemma queue_fifo_and_bounded_witness :
  (length (queue_ (sh sample_scheduled)) <= 10)%nat /\
  pushed (past (sh sample_ended)) = map snd (taken (past (sh sample_ended))) ++ queue_ (sh sample_ended).
Proof.
  split.
  - apply (queue_fifo_and_bounded true 10 sample_threads sample_scheduled sample_entry sample_scheduled_reach).
  - apply (queue_fifo_and_bounded true 10 sample_threads sample_ended sample_entry sample_ended_reach).
Defined.

Lemma background_runs_all_witness :
  threads sample_ended !! 0%nat = Some Exit /\
  ran (past (sh sample_ended)) = pushed (past (sh sample_ended)) /\
  delayed (past (sh sample_ended)) ≡ₚ timers_ran (past (sh sample_ended)) ++ [(60000000, 7%nat)].
Proof.
  split; [reflexivity|].
  apply (background_runs_all 10 sample_threads 0 sample_ended sample_entry eq_refl
    (fun i Hne E => Hne (sample_shape i Top E)) sample_ended_reach eq_refl).
  intros i E. exact (sample_shape i QLock E).
Defined.

Lemma work_is_not_slept_on_witness :
  someone sample_scheduled (fun p => awake p = true) /\
  someone sample_scheduled (fun p => awake p = true \/ timed_until 0 p).
Proof.
  destruct (work_is_not_slept_on true 10 sample_threads 0 sample_scheduled sample_entry eq_refl
    sample_scheduled_reach eq_refl) as [Hq Ht].
  split; [apply Hq; discriminate|exact (Ht 0 6%nat _ eq_refl)].
Defined.
