(* ===== verification/PubSub.v ===== *)
(** [pink/include/pink_pubsub.h] and [pink/src/pink_pubsub.cc]: the thread that
    keeps which connections have subscribed to which channels and patterns, and
    sends them what is published.

    Each public function takes the locks it needs and is modelled as one step;
    [Publish] hands its message to the thread and waits for the count, so it is
    two steps with the thread's event between them. A connection that a function
    is given by reference may be an element of the very vectors it changes: such
    a reference is a value of [conn_ref]. *)
From S2P Require Import Pink Prelude Sys StdMap PinkConn PinkEpoll.

(** * The message *)

(** [ConstructPublishResp] *)
Definition resp_part (s : bytes) : bytes := bs "$" ++ to_dec (zlen s) ++ CRLF ++ s ++ CRLF.

Definition ConstructPublishResp (subscribe_channel publish_channel msg : bytes) (pattern : bool) : bytes :=
  let common_msg := bs "message" in
  let pattern_msg := bs "pmessage" in
  if pattern then
    bs "*4" ++ CRLF ++ resp_part pattern_msg ++ resp_part subscribe_channel ++
    resp_part publish_channel ++ resp_part msg
  else
    bs "*3" ++ CRLF ++ resp_part common_msg ++ resp_part publish_channel ++ resp_part msg.

(** * The state *)

Inductive ReadyState : Type := kNotReady | kReady.

#[export] Instance ReadyState_eq_dec : EqDecision ReadyState.
Proof. solve_decision. Defined.

Record ConnHandle : Type := mkConnHandle { conn : ptr; ready_state : ReadyState }.

Definition UpdateReadyState (state : ReadyState) (h : ConnHandle) : ConnHandle := mkConnHandle (conn h) state.
Definition handle_IsReady (h : ConnHandle) : bool := bool_decide (ready_state h = kReady).

(** A map from channels to the connections that have subscribed. *)
Abbreviation table := (stdmap bytes (list ptr)).

(** The members that are used. [msg_pipe_] is how many bytes the message pipe
    holds and [in_conn_] the local variable of [ThreadMain]. *)
Record pubsub (C : Type) : Type := mkPubSub {
  conns_ : stdmap Z ConnHandle;
  pubsub_channel_ : table;
  pubsub_pattern_ : table;
  channel_ : bytes;
  message_ : bytes;
  receivers_ : Z;
  msg_receive_fd : Z;
  msg_pipe_ : nat;
  pink_epoll_ : PinkEpoll;
  in_conn_ : option ptr;
  mem : world C
}.
Arguments mkPubSub {C}.
Arguments conns_ {C}. Arguments pubsub_channel_ {C}. Arguments pubsub_pattern_ {C}.
Arguments channel_ {C}. Arguments message_ {C}. Arguments receivers_ {C}.
Arguments msg_receive_fd {C}. Arguments msg_pipe_ {C}. Arguments pink_epoll_ {C}.
Arguments in_conn_ {C}. Arguments mem {C}.

Section pubsub.
Context {C : Type} {Ops : ConnOps C}.
(** [slash::stringmatchlen] without its last argument: the first string is the
    pattern. *)
Context (stringmatchlen : bytes -> bytes -> bool).
Implicit Types t : pubsub C.

Definition put_conns (m : stdmap Z ConnHandle) t : pubsub C :=
  mkPubSub m (pubsub_channel_ t) (pubsub_pattern_ t) (channel_ t) (message_ t) (receivers_ t)
    (msg_receive_fd t) (msg_pipe_ t) (pink_epoll_ t) (in_conn_ t) (mem t).
Definition put_epoll (e : PinkEpoll) t : pubsub C :=
  mkPubSub (conns_ t) (pubsub_channel_ t) (pubsub_pattern_ t) (channel_ t) (message_ t) (receivers_ t)
    (msg_receive_fd t) (msg_pipe_ t) e (in_conn_ t) (mem t).
Definition put_in_conn (p : option ptr) t : pubsub C :=
  mkPubSub (conns_ t) (pubsub_channel_ t) (pubsub_pattern_ t) (channel_ t) (message_ t) (receivers_ t)
    (msg_receive_fd t) (msg_pipe_ t) (pink_epoll_ t) p (mem t).
Definition put_mem (w : world C) t : pubsub C :=
  mkPubSub (conns_ t) (pubsub_channel_ t) (pubsub_pattern_ t) (channel_ t) (message_ t) (receivers_ t)
    (msg_receive_fd t) (msg_pipe_ t) (pink_epoll_ t) (in_conn_ t) w.
Definition put_receivers (n : Z) t : pubsub C :=
  mkPubSub (conns_ t) (pubsub_channel_ t) (pubsub_pattern_ t) (channel_ t) (message_ t) n
    (msg_receive_fd t) (msg_pipe_ t) (pink_epoll_ t) (in_conn_ t) (mem t).
Definition put_message (ch msg : bytes) (n : nat) t : pubsub C :=
  mkPubSub (conns_ t) (pubsub_channel_ t) (pubsub_pattern_ t) ch msg (receivers_ t)
    (msg_receive_fd t) n (pink_epoll_ t) (in_conn_ t) (mem t).

(** The table of the patterns or that of the channels. *)
Definition table_of (pattern : bool) t : table := if pattern then pubsub_pattern_ t else pubsub_channel_ t.
Definition put_table (pattern : bool) (m : table) t : pubsub C :=
  mkPubSub (conns_ t) (if pattern then pubsub_channel_ t else m) (if pattern then m else pubsub_pattern_ t)
    (channel_ t) (message_ t) (receivers_ t) (msg_receive_fd t) (msg_pipe_ t) (pink_epoll_ t) (in_conn_ t) (mem t).

(** The constructor, with the reading ends of the two pipes. *)
Definition new_PubSubThread (receive_fd msg_fd : Z) (w : world C) : pubsub C :=
  mkPubSub [] [] [] [] [] (-1) msg_fd 0
    (PinkAddEvent true msg_fd (Z.lor EPOLLIN (Z.lor EPOLLERR EPOLLHUP)) (new_PinkEpoll receive_fd)).2 None w.

(** The references the thread holds. *)
Definition refs t : list ptr :=
  map (fun h => conn h.2) (conns_ t) ++ concat (map snd (pubsub_channel_ t)) ++
  concat (map snd (pubsub_pattern_ t)) ++ option_list (in_conn_ t) ++
  omap item_conn (notify_queue (pink_epoll_ t)).

(** One reference to [p] has ended. *)
Definition drop_ref (p : ptr) t : pubsub C := put_mem (release (refs t) p (mem t)) t.

(** [in_conn = p] *)
Definition assign_in_conn (p : option ptr) t : pubsub C :=
  let t' := put_in_conn p t in
  match in_conn_ t with Some old => drop_ref old t' | None => t' end.

(** A [const std::shared_ptr<PinkConn>&]: a variable of the caller, or the
    element [i] of the vector of [key]. *)
Inductive conn_ref : Type :=
  | Local (p : ptr)
  | Elem (pattern : bool) (key : bytes) (i : nat).

Definition vec_of (pattern : bool) (key : bytes) t : list ptr :=
  match sm_find key (table_of pattern t) with Some v => v | None => [] end.

Definition read_ref (r : conn_ref) t : outcome ptr :=
  match r with
  | Local p => Ret p
  | Elem pattern key i =>
      match vec_of pattern key t !! i with Some p => Ret p | None => Fault OutOfBounds end
  end.

(** * Connections *)

(** [vector::erase] of the first element that is [p]. *)
Fixpoint erase_first (p : ptr) (v : list ptr) : list ptr :=
  match v with
  | [] => []
  | q :: v => if bool_decide (q = p) then v else q :: erase_first p v
  end.

(** A loop of [RemoveConn]: the reference is followed at every comparison. *)
Fixpoint remove_from (pattern : bool) (keys : list bytes) (r : conn_ref) t : outcome (pubsub C) :=
  match keys with
  | [] => Ret t
  | k :: keys =>
      match vec_of pattern k t with
      | [] => remove_from pattern keys r t
      | v =>
          let! p := read_ref r t in
          if bool_decide (p ∈ v)
          then remove_from pattern keys r
                 (drop_ref p (put_table pattern (sm_set k (erase_first p v) (table_of pattern t)) t))
          else remove_from pattern keys r t
      end
  end.

Definition RemoveConn (r : conn_ref) t : outcome (pubsub C) :=
  let! t := remove_from true (map fst (pubsub_pattern_ t)) r t in
  remove_from false (map fst (pubsub_channel_ t)) r t.

(** [conn->fd()] *)
Definition fd_of_ref (r : conn_ref) t : outcome Z :=
  let! p := read_ref r t in
  let! c := deref p (mem t) in
  Ret (fd_ (conn_base c)).

(** [conns_.erase(fd)] *)
Definition erase_handle (fd : Z) t : pubsub C :=
  match sm_find fd (conns_ t) with
  | None => t
  | Some h => drop_ref (conn h) (put_conns (sm_erase fd (conns_ t)) t)
  end.

Definition MoveConnOut (r : conn_ref) t : outcome (pubsub C) :=
  let! t := RemoveConn r t in
  let! fd := fd_of_ref r t in
  let t := put_epoll (PinkDelEvent fd (pink_epoll_ t)).2 t in
  let! fd := fd_of_ref r t in
  Ret (erase_handle fd t).

(** [conns_[fd] = std::make_shared<ConnHandle>(conn)] *)
Definition insert_handle (fd : Z) (p : ptr) t : pubsub C :=
  let t' := put_conns (sm_set fd (mkConnHandle p kNotReady) (conns_ t)) t in
  match sm_find fd (conns_ t) with Some h => drop_ref (conn h) t' | None => t' end.

Definition MoveConnIn (p : ptr) (notify_type : NotifyType) t : outcome (pubsub C) :=
  let! c := deref p (mem t) in
  let! it := new_PinkItem (fd_ (conn_base c)) (ip_port_ (conn_base c)) notify_type in
  Ret (insert_handle (fd_ (conn_base c)) p (put_epoll (Register it true (pink_epoll_ t)).2 t)).

Definition UpdateConnReadyState (fd : Z) (state : ReadyState) t : pubsub C :=
  match sm_find fd (conns_ t) with
  | None => t
  | Some h => put_conns (sm_set fd (UpdateReadyState state h) (conns_ t)) t
  end.

Definition IsReady (fd : Z) t : bool :=
  match sm_find fd (conns_ t) with Some h => handle_IsReady h | None => false end.

(** * Subscriptions *)

(** The entries whose vector has the connection. *)
Definition count_in (p : ptr) (m : table) : Z := zlen (filter (fun kv => p ∈ kv.2) (m : list (bytes * list ptr))).

Definition ClientChannelSize (p : ptr) t : Z :=
  count_in p (pubsub_channel_ t) + count_in p (pubsub_pattern_ t).

(** [insert({ch, {}})] and what follows it, with the count. *)
Definition subscribe_in (p : ptr) (ch : bytes) (subscribed : Z) (m : table) : table * Z :=
  let '(m, inserted) := sm_insert ch [] m in
  let vec := match sm_find ch m with Some v => v | None => [] end in
  if negb inserted then
    if bool_decide (p ∈ vec) then (m, subscribed) else (sm_set ch (vec ++ [p]) m, subscribed + 1)
  else (sm_set ch (vec ++ [p]) m, subscribed + 1).

(** The loop of [Subscribe]; its branch for channels inserts into
    [pubsub_pattern_] too. *)
Fixpoint subscribe_loop (p : ptr) (pattern : bool) (channels : list bytes) (subscribed : Z)
    (result : list (bytes * Z)) t : list (bytes * Z) * pubsub C :=
  match channels with
  | [] => (result, t)
  | ch :: channels =>
      let '(t, subscribed) :=
        if pattern then
          let '(m, n) := subscribe_in p ch subscribed (pubsub_pattern_ t) in (put_table true m t, n)
        else
          let '(m, n) := subscribe_in p ch subscribed (pubsub_pattern_ t) in (put_table true m t, n) in
      subscribe_loop p pattern channels subscribed (result ++ [(ch, subscribed)]) t
  end.

Definition Subscribe (p : ptr) (channels : list bytes) (pattern : bool) t
    : outcome (list (bytes * Z) * pubsub C) :=
  let subscribed := ClientChannelSize p t in
  let! t := if subscribed =? 0 then MoveConnIn p kNotiWait t else Ret t in
  Ret (subscribe_loop p pattern channels subscribed [] t).

(** The report on all channels: the count goes down, nothing is removed here. *)
Fixpoint report_all (p : ptr) (m : table) (subscribed : Z) : list (bytes * Z) :=
  match m with
  | [] => []
  | (k, v) :: m =>
      if bool_decide (p ∈ v) then (k, subscribed - 1) :: report_all p m (subscribed - 1)
      else report_all p m subscribed
  end.

(** [erase(remove(begin, end, conn), end)] *)
Definition remove_all (p : ptr) (v : list ptr) : list ptr := filter (fun q => q <> p) v.

Fixpoint unsubscribe_loop (p : ptr) (pattern : bool) (channels : list bytes) (subscribed : Z)
    (result : list (bytes * Z)) t : list (bytes * Z) * pubsub C :=
  match channels with
  | [] => (result, t)
  | ch :: channels =>
      match sm_find ch (table_of pattern t) with
      | Some v =>
          if bool_decide (p ∈ v) then
            unsubscribe_loop p pattern channels (subscribed - 1) (result ++ [(ch, subscribed - 1)])
              (drop_ref p (put_table pattern (sm_set ch (remove_all p v) (table_of pattern t)) t))
          else unsubscribe_loop p pattern channels subscribed (result ++ [(ch, subscribed)]) t
      | None => unsubscribe_loop p pattern channels subscribed (result ++ [(ch, 0)]) t
      end
  end.

Definition UnSubscribe (p : ptr) (channels : list bytes) (pattern : bool) t
    : outcome (Z * list (bytes * Z) * pubsub C) :=
  let subscribed := ClientChannelSize p t in
  let exist := negb (subscribed =? 0) in
  match channels with
  | [] =>
      let result := report_all p (table_of pattern t) subscribed in
      let! t := if exist then MoveConnOut (Local p) t else Ret t in
      Ret (0, result, t)
  | _ =>
      let '(result, t) := unsubscribe_loop p pattern channels subscribed [] t in
      let subscribed := ClientChannelSize p t in
      let! t := if (subscribed =? 0) && exist then MoveConnOut (Local p) t else Ret t in
      Ret (subscribed, result, t)
  end.

(** * Questions *)

Definition is_empty_vec (v : list ptr) : bool := match v with [] => true | _ => false end.

(** [PubSubChannels]; the name of the channel is given as the pattern. *)
Definition PubSubChannels (pattern : bytes) t : list bytes :=
  if bool_decide (pattern = []) then
    map fst (List.filter (fun kv => negb (is_empty_vec kv.2)) (pubsub_channel_ t))
  else
    map fst (List.filter (fun kv => stringmatchlen kv.1 pattern && negb (is_empty_vec kv.2)) (pubsub_channel_ t)).

Definition num_sub (ch : bytes) (m : table) : Z :=
  fold_left (fun n kv => if bool_decide (kv.1 = ch) then zlen kv.2 else n) m 0.

Definition PubSubNumSub (channels : list bytes) t : list (bytes * Z) :=
  map (fun ch => (ch, num_sub ch (pubsub_channel_ t))) channels.

Definition PubSubNumPat t : Z := fold_left (fun n kv => n + zlen kv.2) (pubsub_pattern_ t) 0.
End pubsub.
