(* ===== verification/PubSubThread.v ===== *)
(** [PubSubThread::Publish], [ThreadMain] and [Cleanup] of [pink/src/pink_pubsub.cc]:
    the events of the thread. *)
From S2P Require Import Pink Prelude Sys StdMap PinkConn PinkEpoll PubSub.

Section thread.
Context {C : Type} {Ops : ConnOps C}.
Context (stringmatchlen : bytes -> bytes -> bool).
Implicit Types t : pubsub C.

Definition conn_call {R} (f : C -> sock -> outcome (R * C * sock)) (p : ptr) t : outcome (R * pubsub C) :=
  let! (r, w) := call f p (mem t) in
  Ret (r, put_mem w t).

(** Any change of the object behind a pointer. *)
Definition on_conn (f : C -> C) (p : ptr) t : outcome (pubsub C) :=
  let! c := deref p (mem t) in
  Ret (put_mem (set_heap (<[p := f c]> (heap (mem t))) (mem t)) t).

(** [CloseFd]: the descriptor is closed, which takes it out of the poller. *)
Definition CloseFd (r : conn_ref) t : outcome (pubsub C) :=
  let! fd := fd_of_ref r t in
  Ret (put_epoll (epoll_ctl_del fd (pink_epoll_ t)).2 (put_mem (close_fd fd (mem t)) t)).

(** * Publishing *)

(** The first half of [Publish], with [pub_mutex_] taken. *)
Definition Publish_send (channel msg : bytes) t : pubsub C := put_message channel msg (S (msg_pipe_ t)) t.

(** The second half: it waits while [receivers_] is -1. *)
Definition Publish_receive t : option (Z * pubsub C) :=
  if receivers_ t =? -1 then None else Some (receivers_ t, put_receivers (-1) t).

(** The message for element [i] of a vector, and whether it counts as received. *)
Definition send_one (pattern : bool) (key channel msg : bytes) (i : nat) t : outcome (Z * pubsub C) :=
  let r := Elem pattern key i in
  let! fd := fd_of_ref r t in
  if negb (IsReady fd t) then Ret (0, t)
  else
    let resp := ConstructPublishResp key channel msg pattern in
    let! p := read_ref r t in
    let! t := on_conn (conn_WriteResp resp) p t in
    let! (write_status, t) := conn_call conn_SendReply p t in
    match write_status with
    | kWriteHalf =>
        let! fd := fd_of_ref r t in
        Ret (0, put_epoll (PinkModEvent fd EPOLLIN EPOLLOUT (pink_epoll_ t)).2 t)
    | kWriteError =>
        let! t := MoveConnOut r t in
        let! t := CloseFd r t in
        Ret (0, t)
    | kWriteAll => Ret (1, t)
    end.

(** The loop over a vector: it looks at the size again every time, and the vector
    does not grow, so as many rounds as its first size are enough. *)
Fixpoint send_vec (rounds : nat) (pattern : bool) (key channel msg : bytes) (i : nat) (receivers : Z) t
    : outcome (Z * pubsub C) :=
  match rounds with
  | O => Ret (receivers, t)
  | S rounds =>
      if Nat.ltb i (length (vec_of pattern key t)) then
        let! (n, t) := send_one pattern key channel msg i t in
        send_vec rounds pattern key channel msg (S i) (receivers + n) t
      else Ret (receivers, t)
  end.

Fixpoint send_keys (pattern : bool) (keys : list bytes) (channel msg : bytes) (receivers : Z) t
    : outcome (Z * pubsub C) :=
  match keys with
  | [] => Ret (receivers, t)
  | k :: keys =>
      if (if pattern then stringmatchlen k channel else bool_decide (channel = k)) then
        let! (receivers, t) := send_vec (length (vec_of pattern k t)) pattern k channel msg 0 receivers t in
        send_keys pattern keys channel msg receivers t
      else send_keys pattern keys channel msg receivers t
  end.

(** The event of the message pipe. *)
Definition message_event (mask : Z) t : outcome (pubsub C) :=
  if has EPOLLIN mask then
    let channel := channel_ t in
    let msg := message_ t in
    let t := put_message [] [] (pred (msg_pipe_ t)) t in
    let! (receivers, t) := send_keys false (map fst (pubsub_channel_ t)) channel msg 0 t in
    let! (receivers, t) := send_keys true (map fst (pubsub_pattern_ t)) channel msg receivers t in
    Ret (put_receivers receivers t)
  else Ret t.

(** * Connections *)

(** The item read from the pipe. *)
Definition item_event (ti : PinkItem) t : pubsub C :=
  let fd := item_fd ti in
  match item_notify_type ti with
  | kNotiEpollout => put_epoll (PinkModEvent fd 0 EPOLLOUT (pink_epoll_ t)).2 t
  | kNotiEpollin => put_epoll (PinkModEvent fd 0 EPOLLIN (pink_epoll_ t)).2 t
  | kNotiEpolloutAndEpollin => put_epoll (PinkModEvent fd 0 (Z.lor EPOLLOUT EPOLLIN) (pink_epoll_ t)).2 t
  | kNotiWait => put_epoll (PinkAddEvent (is_open fd (mem t)) fd 0 (pink_epoll_ t)).2 t
  | _ => t
  end.

Definition notify_event t : pubsub C :=
  match notify_queue (pink_epoll_ t) with
  | [] => t
  | ti :: q =>
      let t := item_event ti (put_epoll (set_notify_queue q (pink_epoll_ t)) t) in
      match item_conn ti with Some p => drop_ref p t | None => t end
  end.

(** How a part of a connection's event ends. *)
Inductive part : Type :=
  | Goes (should_close : bool)
  | Continues.

Definition ready_to_reply (c : C) : bool := is_writable_ (conn_base c) && conn_is_reply c.

Definition write_part (fd mask : Z) (p : ptr) t : outcome (part * pubsub C) :=
  let! c := deref p (mem t) in
  if has EPOLLOUT mask && ready_to_reply c then
    let! (write_status, t) := conn_call conn_SendReply p t in
    match write_status with
    | kWriteAll =>
        let! t := on_conn (conn_set_is_reply false) p t in
        Ret (Goes false, put_epoll (PinkModEvent fd 0 EPOLLIN (pink_epoll_ t)).2 t)
    | kWriteHalf => Ret (Continues, t)
    | kWriteError => Ret (Goes true, t)
    end
  else Ret (Goes false, t).

Definition read_part (fd mask : Z) (p : ptr) (should_close : bool) t : outcome (part * pubsub C) :=
  if negb should_close && has EPOLLIN mask then
    let! (getRes, t) := conn_call conn_GetRequest p t in
    if negb (bool_decide (getRes = kReadAll)) && negb (bool_decide (getRes = kReadHalf))
    then Ret (Goes true, t)
    else
      let! c := deref p (mem t) in
      if ready_to_reply c then
        let! (write_status, t) := conn_call conn_SendReply p t in
        match write_status with
        | kWriteAll => let! t := on_conn (conn_set_is_reply false) p t in Ret (Goes should_close, t)
        | kWriteHalf => Ret (Goes should_close, put_epoll (PinkModEvent fd EPOLLIN EPOLLOUT (pink_epoll_ t)).2 t)
        | kWriteError => Ret (Goes true, t)
        end
      else Ret (Continues, t)
  else Ret (Goes should_close, t).

(** Here [in_conn] is passed by reference, and is no element of a vector. *)
Definition close_part (mask : Z) (p : ptr) (should_close : bool) t : outcome (pubsub C) :=
  if has EPOLLERR mask || has EPOLLHUP mask || should_close then
    let! t := MoveConnOut (Local p) t in
    let! t := CloseFd (Local p) t in
    Ret (assign_in_conn None t)
  else Ret t.

Definition conn_event (fd mask : Z) t : outcome (pubsub C) :=
  let t := assign_in_conn None t in
  match sm_find fd (conns_ t) with
  | None => Ret (put_epoll (PinkDelEvent fd (pink_epoll_ t)).2 t)
  | Some h =>
      let p := conn h in
      let t := assign_in_conn (Some p) t in
      let! (r, t) := write_part fd mask p t in
      match r with
      | Continues => Ret t
      | Goes should_close =>
          let! (r, t) := read_part fd mask p should_close t in
          match r with
          | Continues => Ret t
          | Goes should_close => close_part mask p should_close t
          end
      end
  end.

(** * The loop *)

(** One entry of [firedevent()]. *)
Definition handle_event_of (fd mask : Z) t : outcome (pubsub C) :=
  if (fd =? notify_receive_fd (pink_epoll_ t)) && has EPOLLIN mask then Ret (notify_event t)
  else if fd =? msg_receive_fd t then message_event mask t
  else conn_event fd mask t.

Fixpoint handle_events (evs : list (Z * (Z * epoll_data))) t : outcome (pubsub C) :=
  match evs with
  | [] => Ret t
  | (fd, (mask, _)) :: evs =>
      let! t := handle_event_of fd mask t in
      handle_events evs t
  end.

(** [Cleanup] *)
Fixpoint close_all (l : list (Z * ConnHandle)) t : outcome (pubsub C) :=
  match l with
  | [] => Ret t
  | (_, h) :: l => let! t := CloseFd (Local (conn h)) t in close_all l t
  end.

Definition Cleanup t : outcome (pubsub C) :=
  let l := conns_ t in
  let! t := close_all l t in
  Ret (fold_left (fun t h => drop_ref (conn h.2) t) l (put_conns [] t)).

(** [ThreadMain]: what [PinkPoll] reports in each round until [should_stop()], and
    the end. *)
Fixpoint rounds (l : list (list (Z * (Z * epoll_data)))) t : outcome (pubsub C) :=
  match l with
  | [] => Ret t
  | evs :: l => let! t := handle_events evs t in rounds l t
  end.

Definition ThreadMain (l : list (list (Z * (Z * epoll_data)))) t : outcome (pubsub C) :=
  let! t := rounds l t in Cleanup t.

(** [Publish], when the thread takes the event of its message next. *)
Definition Publish (channel msg : bytes) t : outcome (option (Z * pubsub C)) :=
  let! t := message_event EPOLLIN (Publish_send channel msg t) in
  Ret (Publish_receive t).
End thread.
