(* ===== verification/PubSubFacts.v ===== *)
(** Facts about the subscriptions: a table as the set of its pairs of a channel and
    a subscriber, and what the operations do to that set. *)
From S2P Require Import Pink Prelude Sys StdMap PinkConn PinkEpoll PubSub.

(** * Tables as sets *)

Definition pairs_of (kv : bytes * list ptr) : list (bytes * ptr) := map (pair kv.1) kv.2.

(** The abstract state of a table. *)
Definition subs (m : table) : gset (bytes * ptr) := list_to_set (concat (map pairs_of m)).

(** The subscriptions of one connection. *)
Definition subs_of (p : ptr) (x : gset (bytes * ptr)) : Z := Z.of_nat (size (filter (fun kp => kp.2 = p) x)).

(** A table in order, with every subscriber once. *)
Definition table_ok (m : table) : Prop := sm_sorted m /\ forall k v, sm_find k m = Some v -> NoDup v.

Lemma elem_of_subs_list k p (m : table) : (k, p) ∈ subs m <-> exists v, (k, v) ∈ m /\ p ∈ v.
Proof.
  unfold subs. rewrite elem_of_list_to_set. induction m as [|[k' v'] m IH]; simpl; [set_solver|].
  rewrite elem_of_app, IH. unfold pairs_of. simpl. rewrite list_elem_of_fmap. set_solver.
Qed.

Lemma elem_of_subs k p (m : table) :
  sm_sorted m -> (k, p) ∈ subs m <-> exists v, sm_find k m = Some v /\ p ∈ v.
Proof. intros Hs. rewrite elem_of_subs_list. by setoid_rewrite (sm_find_elem k _ m Hs). Qed.

Lemma subs_nil k p (m : table) : sm_sorted m -> sm_find k m = None -> (k, p) ∉ subs m.
Proof. intros Hs Hn Hin. apply elem_of_subs in Hin as (v & Hv & _); [congruence|done]. Qed.

(** Storing a vector for a key. *)
Lemma subs_set k v (m : table) :
  sm_sorted m ->
  subs (sm_set k v m) = filter (fun kp => kp.1 <> k) (subs m) ∪ list_to_set (map (pair k) v).
Proof.
  intros Hs. apply set_eq. intros [k' p].
  rewrite (elem_of_subs k' p (sm_set k v m)) by by apply sm_set_sorted.
  rewrite elem_of_union, elem_of_filter, elem_of_list_to_set, list_elem_of_fmap, elem_of_subs by done. simpl.
  destruct (decide (k' = k)) as [->|Hne].
  - rewrite sm_find_set_eq. set_solver.
  - rewrite sm_find_set_ne by done. set_solver.
Qed.

Lemma table_ok_set k v m : table_ok m -> NoDup v -> table_ok (sm_set k v m).
Proof.
  intros [Hs Hn] Hv. split; [by apply sm_set_sorted|]. intros k' v'.
  destruct (decide (k' = k)) as [->|Hne].
  - rewrite sm_find_set_eq. by intros [= <-].
  - rewrite sm_find_set_ne by done. apply Hn.
Qed.

(** The count of the code is the count of the set. *)
Lemma count_in_subs p (m : table) : sm_sorted m -> count_in p m = subs_of p (subs m).
Proof.
  intros Hs. unfold count_in, subs_of, zlen. f_equal.
  set (l := map (fun kv : bytes * list ptr => (kv.1, p)) (filter (fun kv => p ∈ kv.2) m)).
  assert (filter (fun kp => kp.2 = p) (subs m) = list_to_set l) as ->.
  { apply set_eq. intros [k q]. rewrite elem_of_filter, elem_of_list_to_set, elem_of_subs_list. unfold l.
    rewrite list_elem_of_fmap. simpl. split.
    - intros [-> (v & Hv & Hp)]. exists (k, v). split; [done|]. by apply list_elem_of_filter.
    - intros ([k' v] & [= -> ->] & [Hp Hv]%list_elem_of_filter). split; [done|]. by exists v. }
  rewrite size_list_to_set; [by unfold l; rewrite length_map|].
  unfold l. clear l. apply sm_sorted_nodup in Hs. unfold stdmap in *.
  induction m as [|[k v] m IH]; [constructor|]. apply NoDup_cons in Hs as [Hk Hs].
  rewrite filter_cons. case_decide; [|by apply IH]. simpl. constructor; [|by apply IH].
  intros ([k' v'] & [= <-] & [_ Hin]%list_elem_of_filter)%list_elem_of_fmap. apply Hk.
  apply list_elem_of_fmap. by exists (k, v').
Qed.

Lemma subs_of_insert k p x :
  subs_of p ({[(k, p)]} ∪ x) = subs_of p x + (if bool_decide ((k, p) ∈ x) then 0 else 1).
Proof.
  unfold subs_of. case_bool_decide as H.
  - assert ({[(k, p)]} ∪ x = x) as -> by set_solver. lia.
  - assert (filter (fun kp => kp.2 = p) ({[(k, p)]} ∪ x) = {[(k, p)]} ∪ filter (fun kp => kp.2 = p) x) as ->.
    { apply set_eq. intros [k' q]. rewrite elem_of_union, !elem_of_filter. set_solver. }
    rewrite size_union by set_solver. rewrite size_singleton. lia.
Qed.

Lemma subs_of_remove k p x :
  subs_of p (x ∖ {[(k, p)]}) = subs_of p x - (if bool_decide ((k, p) ∈ x) then 1 else 0).
Proof.
  case_bool_decide as H.
  - assert (x = {[(k, p)]} ∪ (x ∖ {[(k, p)]})) as Hx.
    { apply set_eq. intros y. destruct (decide (y = (k, p))); set_solver. }
    rewrite Hx at 2. rewrite subs_of_insert. rewrite bool_decide_eq_false_2 by set_solver. lia.
  - assert (x ∖ {[(k, p)]} = x) as -> by set_solver. lia.
Qed.

(** * Subscribing *)

Lemma subscribe_in_spec p ch n m :
  table_ok m ->
  exists m', subscribe_in p ch n m = (m', n + subs_of p ({[(ch, p)]} ∪ subs m) - subs_of p (subs m)) /\
    table_ok m' /\ subs m' = {[(ch, p)]} ∪ subs m.
Proof.
  intros [Hs Hn]. unfold subscribe_in, sm_insert. rewrite subs_of_insert.
  destruct (sm_find ch m) as [v|] eqn:E; cbn [negb].
  - rewrite E. case_bool_decide as Hp.
    + assert ((ch, p) ∈ subs m) as Hin by (apply elem_of_subs; eauto). rewrite bool_decide_eq_true_2 by done.
      exists m. split; [f_equal; lia|]. split; [done|set_solver].
    + assert ((ch, p) ∉ subs m) as Hin by (rewrite elem_of_subs by done; naive_solver).
      rewrite bool_decide_eq_false_2 by done. exists (sm_set ch (v ++ [p]) m). split; [f_equal; lia|]. split.
      * apply table_ok_set; [done|]. apply NoDup_app. split; [by eapply Hn|]. split; [set_solver|apply NoDup_singleton].
      * rewrite subs_set by done. apply set_eq. intros [k q].
        rewrite !elem_of_union, elem_of_filter, elem_of_list_to_set, list_elem_of_fmap, elem_of_singleton. simpl.
        rewrite elem_of_subs by done. destruct (decide (k = ch)) as [->|]; [rewrite E; set_solver|set_solver].
  - rewrite sm_find_set_eq. assert ((ch, p) ∉ subs m) as Hin by by apply subs_nil.
    rewrite bool_decide_eq_false_2 by done. eexists. split; [f_equal; lia|].
    assert (Hok : table_ok (sm_set ch [] m)) by (apply table_ok_set; [done|constructor]). split.
    + apply table_ok_set; [done|apply NoDup_singleton].
    + rewrite !subs_set by by destruct Hok. apply set_eq. intros [k q].
      rewrite !elem_of_union, !elem_of_filter, !elem_of_union, elem_of_filter. simpl.
      destruct (decide (k = ch)) as [->|]; [|set_solver].
      pose proof (subs_nil ch q m Hs E). set_solver.
Qed.

(** A connection joins some channels, or leaves them. *)
Definition joins (p : ptr) (chs : list bytes) (x : gset (bytes * ptr)) : gset (bytes * ptr) :=
  x ∪ list_to_set (map (fun ch => (ch, p)) chs).
Definition leaves (p : ptr) (chs : list bytes) (x : gset (bytes * ptr)) : gset (bytes * ptr) :=
  x ∖ list_to_set (map (fun ch => (ch, p)) chs).

Lemma joins_cons p ch chs x : joins p (ch :: chs) x = joins p chs ({[(ch, p)]} ∪ x).
Proof. unfold joins. simpl. set_solver. Qed.

Lemma joins_nil p x : joins p [] x = x.
Proof. unfold joins. simpl. set_solver. Qed.

Lemma leaves_nil p x : leaves p [] x = x.
Proof. unfold leaves. simpl. set_solver. Qed.

Lemma leaves_cons p ch chs x : leaves p (ch :: chs) x = leaves p chs (x ∖ {[(ch, p)]}).
Proof. unfold leaves. simpl. set_solver. Qed.

Section facts.
Context {C : Type} {Ops : ConnOps C}.
Implicit Types t : pubsub C.

Lemma put_table_put b m m' t : put_table b m (put_table b m' t) = put_table b m t.
Proof. by destruct b. Qed.

Lemma table_put b m t : table_of b (put_table b m t) = m.
Proof. by destruct b. Qed.

Lemma put_table_id b t : put_table b (table_of b t) t = t.
Proof. by destruct b, t. Qed.

(** The loop of [Subscribe] registers with the patterns in both modes. *)
Lemma subscribe_loop_spec p b chs n result t :
  table_ok (pubsub_pattern_ t) ->
  exists m, subscribe_loop p b chs n result t =
    (result ++ imap (fun i ch => (ch, n + subs_of p (joins p (take (S i) chs) (subs (pubsub_pattern_ t)))
                                    - subs_of p (subs (pubsub_pattern_ t)))) chs, put_table true m t) /\
    table_ok m /\ subs m = joins p chs (subs (pubsub_pattern_ t)).
Proof.
  revert n result t. induction chs as [|ch chs IH]; intros n result t Hok.
  - exists (pubsub_pattern_ t). simpl. rewrite app_nil_r. change (pubsub_pattern_ t) with (table_of true t) at 1.
    rewrite put_table_id, joins_nil. done.
  - destruct (subscribe_in_spec p ch n _ Hok) as (m1 & Hin & Hok1 & Hs1).
    set (n1 := n + subs_of p ({[(ch, p)]} ∪ subs (pubsub_pattern_ t)) - subs_of p (subs (pubsub_pattern_ t))) in *.
    destruct (IH n1 (result ++ [(ch, n1)]) (put_table true m1 t) Hok1) as (m & Hl & Hok' & Hs').
    exists m. split; [|split; [done|by rewrite Hs'; simpl; rewrite Hs1, joins_cons]].
    cbn [subscribe_loop]. rewrite Hin.
    assert (forall x : pubsub C * Z, (if b then x else x) = x) as -> by by intros; destruct b.
    rewrite Hl, put_table_put, <- app_assoc. simpl. rewrite Hs1, joins_cons, joins_nil.
    do 3 f_equal. apply imap_ext. intros i x _. simpl. rewrite joins_cons. f_equal. subst n1. lia.
Qed.

(** * Leaving *)

Lemma drop_ref_held p t : p ∈ held (mem t) -> drop_ref p t = t.
Proof.
  intros Hp. unfold drop_ref, release. rewrite bool_decide_eq_true_2 by (apply elem_of_app; by right). by destruct t.
Qed.

Definition known (k : bytes) (m : table) : bool := match sm_find k m with Some _ => true | None => false end.

Lemma known_set k ch v (m : table) : known ch m = true -> known k (sm_set ch v m) = known k m.
Proof.
  unfold known. intros H. destruct (decide (k = ch)) as [->|Hne].
  - rewrite sm_find_set_eq. by destruct (sm_find ch m).
  - by rewrite sm_find_set_ne.
Qed.

(** A table without one of the subscribers of a key. *)
Lemma subs_remove_all p ch v (m : table) :
  table_ok m -> sm_find ch m = Some v ->
  table_ok (sm_set ch (remove_all p v) m) /\ subs (sm_set ch (remove_all p v) m) = subs m ∖ {[(ch, p)]}.
Proof.
  intros [Hs Hn] Hv. split; [apply table_ok_set; [done|]; by apply NoDup_filter, (Hn ch)|].
  rewrite subs_set by done. apply set_eq. intros [k q].
  rewrite elem_of_difference, elem_of_union, elem_of_filter, elem_of_list_to_set, list_elem_of_fmap, elem_of_singleton, elem_of_subs by done.
  unfold remove_all. simpl. destruct (decide (k = ch)) as [->|Hne].
  - rewrite Hv. split.
    + intros [[? _]|(q' & [= <-] & [Hq Hin]%list_elem_of_filter)]; [done|]. split; [eauto|]. congruence.
    + intros [(v' & [= <-] & Hin) Hq]. right. exists q. split; [done|]. apply list_elem_of_filter. split; [congruence|done].
  - split; [|by intros [? _]; left]. intros [[_ ?]|(q' & [= -> <-] & _)]; [|done]. split; [done|congruence].
Qed.

Lemma unsubscribe_loop_spec p b chs n result t :
  table_ok (table_of b t) -> p ∈ held (mem t) ->
  let x := subs (table_of b t) in
  exists m, unsubscribe_loop p b chs n result t =
    (result ++ imap (fun i ch => (ch, if known ch (table_of b t)
                                      then n + subs_of p (leaves p (take (S i) chs) x) - subs_of p x else 0)) chs,
     put_table b m t) /\
    table_ok m /\ subs m = leaves p chs x.
Proof.
  revert n result t. induction chs as [|ch chs IH]; intros n result t Hok Hp x.
  - exists (table_of b t). simpl. by rewrite app_nil_r, put_table_id, leaves_nil.
  - cbn [unsubscribe_loop].
    assert (Hskip : forall y, (ch, p) ∉ x -> leaves p (ch :: y) x = leaves p y x).
    { intros y Hy. rewrite leaves_cons. assert (x ∖ {[(ch, p)]} = x) as -> by set_solver. done. }
    destruct (sm_find ch (table_of b t)) as [v|] eqn:Hv; [case_bool_decide as Hin|].
    + destruct (subs_remove_all p ch v _ Hok Hv) as [Hok1 Hs1].
      set (m1 := sm_set ch (remove_all p v) (table_of b t)) in *. rewrite drop_ref_held by by destruct b.
      destruct (IH (n - 1) (result ++ [(ch, n - 1)]) (put_table b m1 t)) as (m & Hl & Hokm & Hsm);
        [by rewrite table_put|done|].
      exists m. rewrite Hl, put_table_put, <- app_assoc, table_put, Hs1. rewrite table_put, Hs1 in Hsm.
      rewrite Hsm, leaves_cons. split; [|done]. simpl.
      assert (Hsub : subs_of p (x ∖ {[(ch, p)]}) = subs_of p x - 1).
      { rewrite subs_of_remove, bool_decide_eq_true_2; [done|]. apply elem_of_subs; [apply Hok|eauto]. }
      rewrite leaves_cons, leaves_nil. fold x. unfold known at 2. rewrite Hv, Hsub. replace (n + (subs_of p x - 1) - subs_of p x) with (n - 1) by lia. do 3 f_equal.
      apply imap_ext. intros i y _. simpl. rewrite leaves_cons. unfold m1. rewrite known_set by by unfold known; rewrite Hv.
      destruct (known y (table_of b t)); [|done]. f_equal. lia.
    + assert (Hno : (ch, p) ∉ x) by (unfold x; rewrite elem_of_subs by apply Hok; naive_solver).
      destruct (IH n (result ++ [(ch, n)]) t Hok Hp) as (m & Hl & Hokm & Hsm).
      exists m. rewrite Hl, <- app_assoc. fold x. fold x in Hsm. rewrite Hskip by done. split; [|done]. simpl.
      rewrite Hskip, leaves_nil by done. unfold known at 2. rewrite Hv. replace (n + subs_of p x - subs_of p x) with n by lia. do 3 f_equal.
      apply imap_ext. intros i y _. simpl. by rewrite Hskip.
    + assert (Hno : (ch, p) ∉ x) by (apply subs_nil; [apply Hok|done]).
      destruct (IH n (result ++ [(ch, 0)]) t Hok Hp) as (m & Hl & Hokm & Hsm).
      exists m. rewrite Hl, <- app_assoc. fold x. fold x in Hsm. rewrite Hskip by done. split; [|done]. simpl.
      unfold known at 2. rewrite Hv. do 3 f_equal.
      apply imap_ext. intros i y _. simpl. by rewrite Hskip.
Qed.

(** * Moving out *)

Lemma erase_first_nodup p v : NoDup v -> erase_first p v = remove_all p v.
Proof.
  unfold remove_all. induction v as [|q v IH]; [done|]. intros [Hq Hv]%NoDup_cons. simpl. case_bool_decide as E.
  - subst. rewrite filter_cons_False by (intros H; by apply H). clear IH Hv.
    induction v as [|x v IH]; [done|]. apply not_elem_of_cons in Hq as [Hne Hq].
    rewrite filter_cons_True by congruence. f_equal. auto.
  - rewrite filter_cons_True by done. f_equal. auto.
Qed.

Lemma known_find k (m : table) v : sm_find k m = Some v -> known k m = true.
Proof. unfold known. by intros ->. Qed.

(** [RemoveConn] over some of the keys, with a reference that stays. *)
Lemma remove_from_spec p b keys t :
  table_ok (table_of b t) -> p ∈ held (mem t) ->
  exists m, remove_from b keys (Local p) t = Ret (put_table b m t) /\ table_ok m /\
    subs m = leaves p keys (subs (table_of b t)).
Proof.
  revert t. induction keys as [|k keys IH]; intros t Hok Hp.
  - exists (table_of b t). by rewrite put_table_id, leaves_nil.
  - cbn [remove_from]. rewrite leaves_cons. cbn [read_ref obind].
    destruct (sm_find k (table_of b t)) as [v|] eqn:Hv.
    + unfold vec_of. rewrite Hv.
      destruct (subs_remove_all p k v _ Hok Hv) as [Hok1 Hs1].
      rewrite <- (erase_first_nodup p v) in Hok1, Hs1 by by apply (proj2 Hok k).
      destruct (decide (p ∈ v)) as [Hin|Hin].
      * destruct v as [|q v]; [by apply elem_of_nil in Hin|].
        rewrite bool_decide_eq_true_2, drop_ref_held by (try done; by destruct b).
        destruct (IH (put_table b (sm_set k (erase_first p (q :: v)) (table_of b t)) t)) as (m & Hm & Hokm & Hsm);
          [by rewrite table_put|done|].
        exists m. rewrite Hm, put_table_put. rewrite table_put, Hs1 in Hsm. done.
      * assert (subs (table_of b t) ∖ {[(k, p)]} = subs (table_of b t)) as ->.
        { assert ((k, p) ∉ subs (table_of b t)); [|set_solver]. rewrite elem_of_subs by apply Hok. naive_solver. }
        destruct v as [|q v]; [by apply IH|]. rewrite bool_decide_eq_false_2 by done. by apply IH.
    + assert (subs (table_of b t) ∖ {[(k, p)]} = subs (table_of b t)) as ->.
      { pose proof (subs_nil k p _ (proj1 Hok) Hv). set_solver. }
      unfold vec_of. rewrite Hv. by apply IH.
Qed.

(** All keys: nothing is left of the connection. *)
Lemma leaves_keys p (m : table) : leaves p (map fst m) (subs m) = filter (fun kp => kp.2 <> p) (subs m).
Proof.
  unfold leaves. apply set_eq. intros [k q].
  rewrite elem_of_difference, elem_of_filter, elem_of_list_to_set, list_elem_of_fmap. simpl. split.
  - intros [Hin Hn]. split; [|done]. intros ->. apply Hn. exists k. split; [done|].
    apply elem_of_subs_list in Hin as (v & Hv & _). apply list_elem_of_fmap. by exists (k, v).
  - intros [Hne Hin]. split; [done|]. intros (k' & [= -> ->] & _). done.
Qed.

Lemma subs_of_filter p x : subs_of p (filter (fun kp => kp.2 <> p) x) = 0.
Proof.
  unfold subs_of. assert (filter (fun kp => kp.2 = p) (filter (fun kp => kp.2 <> p) x) = ∅) as ->.
  { apply set_eq. intros y. rewrite !elem_of_filter. set_solver. }
  by rewrite size_empty.
Qed.

(** The tables in order. *)
Definition tables_ok t : Prop := table_ok (pubsub_channel_ t) /\ table_ok (pubsub_pattern_ t).

(** What [MoveConnOut] leaves, for a connection its caller holds. *)
Record moved_out (p : ptr) (fd : Z) t t' : Prop := {
  mo_tables : tables_ok t';
  mo_channel : subs (pubsub_channel_ t') = filter (fun kp => kp.2 <> p) (subs (pubsub_channel_ t));
  mo_pattern : subs (pubsub_pattern_ t') = filter (fun kp => kp.2 <> p) (subs (pubsub_pattern_ t));
  mo_conns : conns_ t' = sm_erase fd (conns_ t);
  mo_epoll : pink_epoll_ t' = (PinkDelEvent fd (pink_epoll_ t)).2
}.

Lemma erase_handle_rest fd t :
  pubsub_channel_ (erase_handle fd t) = pubsub_channel_ t /\ pubsub_pattern_ (erase_handle fd t) = pubsub_pattern_ t /\
  pink_epoll_ (erase_handle fd t) = pink_epoll_ t /\
  (sm_sorted (conns_ t) -> conns_ (erase_handle fd t) = sm_erase fd (conns_ t)).
Proof.
  unfold erase_handle. destruct (sm_find fd (conns_ t)) eqn:E; [done|]. split_and!; try done.
  intros Hs. by rewrite sm_erase_absent.
Qed.

Lemma MoveConnOut_spec p c t :
  tables_ok t -> sm_sorted (conns_ t) -> p ∈ held (mem t) -> heap (mem t) !! p = Some c ->
  exists t', MoveConnOut (Local p) t = Ret t' /\ moved_out p (fd_ (conn_base c)) t t'.
Proof.
  intros [Hch Hpa] Hs Hp Hc. unfold MoveConnOut, RemoveConn.
  destruct (remove_from_spec p true (map fst (pubsub_pattern_ t)) t Hpa Hp) as (m1 & -> & Hok1 & Hs1). cbn [obind].
  destruct (remove_from_spec p false (map fst (pubsub_channel_ t)) (put_table true m1 t) Hch Hp) as (m2 & Hm2 & Hok2 & Hs2).
  change (pubsub_channel_ (put_table true m1 t)) with (pubsub_channel_ t). rewrite Hm2. cbn [obind].
  set (t2 := put_table false m2 (put_table true m1 t)).
  assert (Hfd : forall e, fd_of_ref (Local p) (put_epoll e t2) = Ret (fd_ (conn_base c))).
  { intros e. unfold fd_of_ref, deref. simpl. by rewrite Hc. }
  assert (fd_of_ref (Local p) t2 = Ret (fd_ (conn_base c))) as -> by (rewrite <- (Hfd (pink_epoll_ t2)); by destruct t2).
  cbn [obind]. rewrite Hfd. cbn [obind]. eexists. split; [done|].
  destruct (erase_handle_rest (fd_ (conn_base c)) (put_epoll (PinkDelEvent (fd_ (conn_base c)) (pink_epoll_ t2)).2 t2))
    as (H1 & H2 & H3 & H4).
  split.
  - unfold tables_ok. by rewrite H1, H2.
  - rewrite H1. simpl. rewrite Hs2. apply leaves_keys.
  - rewrite H2. simpl. rewrite Hs1. apply leaves_keys.
  - by apply H4.
  - by rewrite H3.
Qed.
End facts.
