(* ===== verification/PubSubTheorems.v ===== *)
(** The theorems on publish and subscribe. *)
From S2P Require Import Pink Prelude Sys StdMap PinkConn PinkEpoll PubSub PubSubThread PubSubFacts.
From S2P Require Import WorkerTheorems.

(** * Subscriptions *)
Section subscriptions.
Context {C : Type} {Ops : ConnOps C}.
Implicit Types t : pubsub C.

Lemma ClientChannelSize_subs p t :
  tables_ok t -> ClientChannelSize p t = subs_of p (subs (pubsub_channel_ t)) + subs_of p (subs (pubsub_pattern_ t)).
Proof. intros [[H1 _] [H2 _]]. unfold ClientChannelSize. by rewrite !count_in_subs. Qed.

Lemma drop_ref_rest p t :
  conns_ (drop_ref p t) = conns_ t /\ pubsub_channel_ (drop_ref p t) = pubsub_channel_ t /\
  pubsub_pattern_ (drop_ref p t) = pubsub_pattern_ t /\ pink_epoll_ (drop_ref p t) = pink_epoll_ t.
Proof. done. Qed.

(** [MoveConnIn] only adds a handle and an item. *)
Lemma MoveConnIn_spec p c k t :
  heap (mem t) !! p = Some c -> zlen (ip_port_ (conn_base c)) < IP_PORT_SIZE ->
  exists t', MoveConnIn p k t = Ret t' /\
    pubsub_channel_ t' = pubsub_channel_ t /\ pubsub_pattern_ t' = pubsub_pattern_ t /\
    sm_find (fd_ (conn_base c)) (conns_ t') = Some (mkConnHandle p kNotReady).
Proof.
  intros Hc Hip. unfold MoveConnIn, deref, new_PinkItem. rewrite Hc. cbn [obind].
  rewrite (proj2 (Z.ltb_lt _ _) Hip). cbn [obind]. eexists. split; [done|].
  unfold insert_handle. simpl. destruct (sm_find _ (conns_ t)); simpl; by rewrite sm_find_set_eq.
Qed.

(** C23: [Subscribe] adds the pairs of the given channels and the connection to the set
    of pattern subscriptions - in both of its modes - and to nothing else; the
    count it reports for each channel is the number of the connection's
    subscriptions once that channel has joined; a connection that had none is
    moved in, not ready. *)
Theorem subscribe_refines p c chs b t :
  tables_ok t -> heap (mem t) !! p = Some c -> zlen (ip_port_ (conn_base c)) < IP_PORT_SIZE ->
  exists result t', Subscribe p chs b t = Ret (result, t') /\ tables_ok t' /\
    subs (pubsub_pattern_ t') = joins p chs (subs (pubsub_pattern_ t)) /\
    subs (pubsub_channel_ t') = subs (pubsub_channel_ t) /\
    result = imap (fun i ch => (ch, subs_of p (subs (pubsub_channel_ t)) +
                                    subs_of p (joins p (take (S i) chs) (subs (pubsub_pattern_ t))))) chs /\
    (ClientChannelSize p t = 0 -> sm_find (fd_ (conn_base c)) (conns_ t') = Some (mkConnHandle p kNotReady)).
Proof.
  intros Hok Hc Hip. unfold Subscribe.
  assert (exists t1, (if ClientChannelSize p t =? 0 then MoveConnIn p kNotiWait t else Ret t) = Ret t1 /\
    pubsub_channel_ t1 = pubsub_channel_ t /\ pubsub_pattern_ t1 = pubsub_pattern_ t /\
    (ClientChannelSize p t = 0 -> sm_find (fd_ (conn_base c)) (conns_ t1) = Some (mkConnHandle p kNotReady)))
    as (t1 & -> & H1 & H2 & H3).
  { destruct (Z.eqb_spec (ClientChannelSize p t) 0) as [E|E].
    - destruct (MoveConnIn_spec p c kNotiWait t Hc Hip) as (t1 & -> & ? & ? & ?). by exists t1.
    - by exists t. }
  cbn [obind]. destruct Hok as [Hch Hpa].
  destruct (subscribe_loop_spec p b chs (ClientChannelSize p t) [] t1) as (m & -> & Hm & Hs); [by rewrite H2|].
  eexists _, _. split; [done|]. simpl. unfold tables_ok. simpl. rewrite H1, H2 in *. split_and!; try done.
  apply imap_ext. intros i ch _. rewrite ClientChannelSize_subs by done. f_equal. lia.
Qed.

Lemma subs_of_zero p x : subs_of p x = 0 -> filter (fun kp => kp.2 <> p) x = x.
Proof.
  unfold subs_of. intros H. assert (size (filter (fun kp => kp.2 = p) x) = 0%nat) as Hs by lia.
  apply size_empty_inv in Hs. apply set_eq. intros [k q]. rewrite elem_of_filter. simpl. split; [tauto|].
  intros Hin. split; [|done]. intros ->. apply (not_elem_of_empty (C:=gset (bytes * ptr)) (k, p)), Hs. by apply elem_of_filter.
Qed.

Lemma subs_of_nonneg p x : 0 <= subs_of p x.
Proof. unfold subs_of. lia. Qed.

Lemma PinkDelEvent_gone fd e : interest (PinkDelEvent fd e).2 !! fd = None.
Proof.
  unfold PinkDelEvent, epoll_ctl_del. destruct (interest e !! fd) eqn:E; simpl; [apply lookup_delete_eq|done].
Qed.

(** C24: [UnSubscribe] of given channels removes exactly their pairs from the table of
    its mode; it reports for a known channel the number of subscriptions left at
    that point and 0 for an unknown one; it returns what is left in both tables,
    and moves a connection out, off the poller, exactly when it had something and
    nothing is left. *)
Theorem unsubscribe_refines p c ch chs b t :
  tables_ok t -> sm_sorted (conns_ t) -> p ∈ held (mem t) -> heap (mem t) !! p = Some c ->
  exists n result t', UnSubscribe p (ch :: chs) b t = Ret (n, result, t') /\ tables_ok t' /\
    subs (table_of b t') = leaves p (ch :: chs) (subs (table_of b t)) /\
    subs (table_of (negb b) t') = subs (table_of (negb b) t) /\
    result = imap (fun i k => (k, if known k (table_of b t)
      then subs_of p (subs (table_of (negb b) t)) + subs_of p (leaves p (take (S i) (ch :: chs)) (subs (table_of b t)))
      else 0)) (ch :: chs) /\
    n = ClientChannelSize p t' /\
    (if bool_decide (n = 0 /\ ClientChannelSize p t <> 0)
     then sm_find (fd_ (conn_base c)) (conns_ t') = None /\ interest (pink_epoll_ t') !! fd_ (conn_base c) = None
     else conns_ t' = conns_ t /\ pink_epoll_ t' = pink_epoll_ t).
Proof.
  intros Hok Hs Hp Hc. unfold UnSubscribe.
  assert (Htb : table_ok (table_of b t)) by by destruct b, Hok.
  destruct (unsubscribe_loop_spec p b (ch :: chs) (ClientChannelSize p t) [] t Htb Hp) as (m & -> & Hm & Hsm).
  set (t1 := put_table b m t) in *. cbn [app].
  assert (Hok1 : tables_ok t1) by (destruct b, Hok; done).
  assert (Hb1 : subs (table_of b t1) = leaves p (ch :: chs) (subs (table_of b t))) by (unfold t1; by rewrite table_put).
  assert (Hn1 : table_of (negb b) t1 = table_of (negb b) t) by by destruct b.
  assert (Hres : forall x, ClientChannelSize p t + x - subs_of p (subs (table_of b t)) =
    subs_of p (subs (table_of (negb b) t)) + x).
  { intros x. rewrite ClientChannelSize_subs by done. destruct b; simpl; lia. }
  assert (Himap : imap (fun i k => (k, if known k (table_of b t)
      then ClientChannelSize p t + subs_of p (leaves p (take (S i) (ch :: chs)) (subs (table_of b t))) - subs_of p (subs (table_of b t))
      else 0)) (ch :: chs) = imap (fun i k => (k, if known k (table_of b t)
      then subs_of p (subs (table_of (negb b) t)) + subs_of p (leaves p (take (S i) (ch :: chs)) (subs (table_of b t)))
      else 0)) (ch :: chs)).
  { apply imap_ext. intros i k _. f_equal. by rewrite Hres. }
  destruct (decide (ClientChannelSize p t1 = 0 /\ ClientChannelSize p t <> 0)) as [[E1 E2]|E].
  - rewrite (proj2 (Z.eqb_eq _ _) E1), (proj2 (Z.eqb_neq _ _) E2). cbn [andb negb].
    destruct (MoveConnOut_spec p c t1 Hok1 Hs Hp Hc) as (t' & -> & [Mt Mc Mp Mco Me]). cbn [obind].
    pose proof E1 as E0. rewrite ClientChannelSize_subs in E0 by done.
    pose proof (subs_of_nonneg p (subs (pubsub_channel_ t1))). pose proof (subs_of_nonneg p (subs (pubsub_pattern_ t1))).
    rewrite subs_of_zero in Mc, Mp by lia.
    assert (Hsame : forall b', subs (table_of b' t') = subs (table_of b' t1)) by by intros [].
    eexists _, _, _. split; [done|]. split_and!; try done.
    + by rewrite Hsame.
    + by rewrite Hsame, Hn1.
    + rewrite !ClientChannelSize_subs, Mc, Mp; done.
    + rewrite bool_decide_eq_true_2 by done. rewrite Mco, Me. split; [by apply sm_find_erase_eq|apply PinkDelEvent_gone].
  - assert (((ClientChannelSize p t1 =? 0) && negb (ClientChannelSize p t =? 0))%bool = false) as ->.
    { destruct (Z.eqb_spec (ClientChannelSize p t1) 0), (Z.eqb_spec (ClientChannelSize p t) 0); try done. by destruct E. }
    cbn [obind]. eexists _, _, _. split; [done|]. split_and!; try done.
    + by rewrite Hn1.
    + by rewrite bool_decide_eq_false_2.
Qed.

(** Without channels everything goes, in both tables. *)
Lemma unsubscribe_all p c b t :
  tables_ok t -> sm_sorted (conns_ t) -> p ∈ held (mem t) -> heap (mem t) !! p = Some c ->
  ClientChannelSize p t <> 0 ->
  exists result t', UnSubscribe p [] b t = Ret (0, result, t') /\ moved_out p (fd_ (conn_base c)) t t' /\
    ClientChannelSize p t' = 0.
Proof.
  intros Hok Hs Hp Hc Hn. unfold UnSubscribe. rewrite (proj2 (Z.eqb_neq _ _) Hn). cbn [negb].
  destruct (MoveConnOut_spec p c t Hok Hs Hp Hc) as (t' & -> & Hm). cbn [obind].
  eexists _, _. split; [done|]. split; [done|]. destruct Hm as [Mt Mc Mp _ _]. rewrite ClientChannelSize_subs by done.
  by rewrite Mc, Mp, !subs_of_filter.
Qed.
End subscriptions.

(** * The channels *)
Section channels.
Context {C : Type} {Ops : ConnOps C}.
Context (stringmatchlen : bytes -> bytes -> bool).
Implicit Types t : pubsub C.

(** What happens to the thread: the public functions, in any order and with any
    arguments, a batch of its events, its end, and what others do to the process. *)
Inductive pstep : pubsub C -> pubsub C -> Prop :=
  | P_subscribe p chs b t r t' : Subscribe p chs b t = Ret (r, t') -> pstep t t'
  | P_unsubscribe p chs b t r t' : UnSubscribe p chs b t = Ret (r, t') -> pstep t t'
  | P_move_in p k t t' : MoveConnIn p k t = Ret t' -> pstep t t'
  | P_move_out p t t' : MoveConnOut (Local p) t = Ret t' -> pstep t t'
  | P_ready fd s t : pstep t (UpdateConnReadyState fd s t)
  | P_send ch msg t : pstep t (Publish_send ch msg t)
  | P_receive t n t' : Publish_receive t = Some (n, t') -> pstep t t'
  | P_events evs t t' : handle_events stringmatchlen evs t = Ret t' -> pstep t t'
  | P_cleanup t t' : Cleanup t = Ret t' -> pstep t t'
  | P_world w t : pstep t (put_mem w t).

Inductive preach (t0 : pubsub C) : pubsub C -> Prop :=
  | preach_start : preach t0 t0
  | preach_step t t' : preach t0 t -> pstep t t' -> preach t0 t'.

(** An operation that leaves an empty table of channels empty. *)
Definition no_channel (t : pubsub C) : Prop := pubsub_channel_ t = [].
Definition stays_empty (o : outcome (pubsub C)) : Prop := forall t', o = Ret t' -> no_channel t'.
Definition stays_empty_2 {R} (o : outcome (R * pubsub C)) : Prop := forall r t', o = Ret (r, t') -> no_channel t'.

Lemma empty_bind o k : stays_empty o -> (forall t, no_channel t -> stays_empty (k t)) -> stays_empty (let! t := o in k t).
Proof. destruct o as [t|f]; [|done]. intros H Hk. by apply Hk, H. Qed.
Lemma empty_bind_2 {R} o (k : pubsub C -> outcome (R * pubsub C)) :
  stays_empty o -> (forall t, no_channel t -> stays_empty_2 (k t)) -> stays_empty_2 (let! t := o in k t).
Proof. destruct o as [t|f]; [|done]. intros H Hk. by apply Hk, H. Qed.
Lemma empty_2_bind {R} (o : outcome (R * pubsub C)) k :
  stays_empty_2 o -> (forall r t, no_channel t -> stays_empty (k (r, t))) -> stays_empty (let! rt := o in k rt).
Proof. destruct o as [[r t]|f]; [|done]. intros H Hk. by apply Hk, (H r t). Qed.
Lemma empty_2_bind_2 {R R'} (o : outcome (R * pubsub C)) (k : R * pubsub C -> outcome (R' * pubsub C)) :
  stays_empty_2 o -> (forall r t, no_channel t -> stays_empty_2 (k (r, t))) -> stays_empty_2 (let! rt := o in k rt).
Proof. destruct o as [[r t]|f]; [|done]. intros H Hk. by apply Hk, (H r t). Qed.
Lemma empty_any {A} (o : outcome A) k : (forall a, stays_empty (k a)) -> stays_empty (let! a := o in k a).
Proof. destruct o as [a|f]; [|done]. intros Hk. apply Hk. Qed.
Lemma empty_any_2 {A R} (o : outcome A) (k : A -> outcome (R * pubsub C)) :
  (forall a, stays_empty_2 (k a)) -> stays_empty_2 (let! a := o in k a).
Proof. destruct o as [a|f]; [|done]. intros Hk. apply Hk. Qed.
Lemma empty_ret t : no_channel t -> stays_empty (Ret t).
Proof. by intros H t' [= <-]. Qed.
Lemma empty_ret_2 {R} (r : R) t : no_channel t -> stays_empty_2 (Ret (r, t)).
Proof. by intros H r' t' [= <- <-]. Qed.

Lemma remove_from_empty b keys r t : no_channel t -> stays_empty (remove_from b keys r t).
Proof.
  revert t. induction keys as [|k keys IH]; intros t Ht; simpl; [by apply empty_ret|].
  destruct b.
  - destruct (vec_of true k t); [by apply IH|]. apply empty_any. intros p. case_bool_decide; by apply IH.
  - unfold vec_of. simpl. rewrite Ht. simpl. by apply IH.
Qed.

Lemma MoveConnOut_empty r t : no_channel t -> stays_empty (MoveConnOut r t).
Proof.
  intros Ht. unfold MoveConnOut. apply empty_bind.
  - unfold RemoveConn. apply empty_bind; [by apply remove_from_empty|]. intros. by apply remove_from_empty.
  - clear t Ht. intros t Ht. apply empty_any. intros fd. apply empty_any. intros fd'. apply empty_ret.
    unfold erase_handle. by destruct (sm_find _ _).
Qed.

Lemma MoveConnIn_empty p k t : no_channel t -> stays_empty (MoveConnIn p k t).
Proof.
  intros Ht. unfold MoveConnIn. apply empty_any. intros c. apply empty_any. intros it. apply empty_ret.
  unfold insert_handle. simpl. by destruct (sm_find _ _).
Qed.

Lemma CloseFd_empty r t : no_channel t -> stays_empty (CloseFd r t).
Proof. intros Ht. unfold CloseFd. apply empty_any. intros fd. by apply empty_ret. Qed.

Lemma on_conn_empty f p t : no_channel t -> stays_empty (on_conn f p t).
Proof. intros Ht. unfold on_conn. apply empty_any. intros c. by apply empty_ret. Qed.

Lemma conn_call_empty {R} (f : C -> sock -> outcome (R * C * sock)) p t : no_channel t -> stays_empty_2 (conn_call f p t).
Proof. intros Ht. unfold conn_call. apply empty_any_2. intros [r w]. by apply empty_ret_2. Qed.

Lemma assign_in_conn_empty p t : no_channel t -> no_channel (assign_in_conn p t).
Proof. intros Ht. unfold assign_in_conn. by destruct (in_conn_ t). Qed.

Lemma send_one_empty b key ch msg i t : no_channel t -> stays_empty_2 (send_one b key ch msg i t).
Proof.
  intros Ht. unfold send_one. apply empty_any_2. intros fd. destruct (IsReady fd t); [|by apply empty_ret_2].
  cbn [negb]. apply empty_any_2. intros p. apply empty_bind_2; [by apply on_conn_empty|]. clear t Ht. intros t Ht.
  apply empty_2_bind_2; [by apply conn_call_empty|]. clear t Ht. intros [| |] t Ht.
  - apply empty_any_2. intros fd'. by apply empty_ret_2.
  - by apply empty_ret_2.
  - apply empty_bind_2; [by apply MoveConnOut_empty|]. clear t Ht. intros t Ht.
    apply empty_bind_2; [by apply CloseFd_empty|]. clear t Ht. intros t Ht. by apply empty_ret_2.
Qed.

Lemma send_vec_empty rounds b key ch msg i n t : no_channel t -> stays_empty_2 (send_vec rounds b key ch msg i n t).
Proof.
  revert i n t. induction rounds as [|rounds IH]; intros i n t Ht; simpl; [by apply empty_ret_2|].
  destruct (Nat.ltb _ _); [|by apply empty_ret_2]. apply empty_2_bind_2; [by apply send_one_empty|]. intros. by apply IH.
Qed.

Lemma send_keys_empty b keys ch msg n t : no_channel t -> stays_empty_2 (send_keys stringmatchlen b keys ch msg n t).
Proof.
  revert n t. induction keys as [|k keys IH]; intros n t Ht; simpl; [by apply empty_ret_2|].
  destruct (if b then _ else _); [|by apply IH]. apply empty_2_bind_2; [by apply send_vec_empty|]. intros. by apply IH.
Qed.

Lemma message_event_empty mask t : no_channel t -> stays_empty (message_event stringmatchlen mask t).
Proof.
  intros Ht. unfold message_event. destruct (has _ _); [|by apply empty_ret].
  apply empty_2_bind; [by apply send_keys_empty|]. intros n t1 Ht1.
  apply empty_2_bind; [by apply send_keys_empty|]. intros n' t2 Ht2. by apply empty_ret.
Qed.

Lemma write_part_empty fd mask p t : no_channel t -> stays_empty_2 (write_part fd mask p t).
Proof.
  intros Ht. unfold write_part. apply empty_any_2. intros c. destruct (_ && _); [|by apply empty_ret_2].
  apply empty_2_bind_2; [by apply conn_call_empty|]. clear t Ht. intros [| |] t Ht; try by apply empty_ret_2.
  apply empty_bind_2; [by apply on_conn_empty|]. clear t Ht. intros t Ht. by apply empty_ret_2.
Qed.

Lemma read_part_empty fd mask p b t : no_channel t -> stays_empty_2 (read_part fd mask p b t).
Proof.
  intros Ht. unfold read_part. destruct (_ && _); [|by apply empty_ret_2].
  apply empty_2_bind_2; [by apply conn_call_empty|]. clear t Ht. intros r t Ht.
  destruct (_ && _); [by apply empty_ret_2|]. apply empty_any_2. intros c. destruct (ready_to_reply c); [|by apply empty_ret_2].
  apply empty_2_bind_2; [by apply conn_call_empty|]. clear t Ht. intros [| |] t Ht; try by apply empty_ret_2.
  apply empty_bind_2; [by apply on_conn_empty|]. clear t Ht. intros t Ht. by apply empty_ret_2.
Qed.

Lemma conn_event_empty fd mask t : no_channel t -> stays_empty (conn_event fd mask t).
Proof.
  intros Ht. apply (assign_in_conn_empty None) in Ht. unfold conn_event. destruct (sm_find fd _) as [h|]; [|by apply empty_ret].
  apply (assign_in_conn_empty (Some (conn h))) in Ht.
  apply empty_2_bind; [by apply write_part_empty|]. clear t Ht. intros [b|] t Ht; [|by apply empty_ret].
  apply empty_2_bind; [by apply read_part_empty|]. clear t Ht b. intros [b|] t Ht; [|by apply empty_ret].
  unfold close_part. destruct (_ || _); [|by apply empty_ret].
  apply empty_bind; [by apply MoveConnOut_empty|]. clear t Ht. intros t Ht.
  apply empty_bind; [by apply CloseFd_empty|]. clear t Ht. intros t Ht. by apply empty_ret, assign_in_conn_empty.
Qed.

Lemma notify_event_empty t : no_channel t -> no_channel (notify_event t).
Proof.
  intros Ht. unfold notify_event. destruct (notify_queue _) as [|ti q]; [done|].
  assert (no_channel (item_event ti (put_epoll (set_notify_queue q (pink_epoll_ t)) t))).
  { unfold item_event. by destruct (item_notify_type ti). }
  by destruct (item_conn ti).
Qed.

Lemma handle_events_empty evs t : no_channel t -> stays_empty (handle_events stringmatchlen evs t).
Proof.
  revert t. induction evs as [|[fd [mask d]] evs IH]; intros t Ht; simpl; [by apply empty_ret|].
  apply empty_bind; [|done]. unfold handle_event_of.
  destruct (_ && _); [by apply empty_ret, notify_event_empty|].
  destruct (_ =? _); [by apply message_event_empty|by apply conn_event_empty].
Qed.

Lemma close_all_empty l t : no_channel t -> stays_empty (close_all l t).
Proof.
  revert t. induction l as [|[fd h] l IH]; intros t Ht; simpl; [by apply empty_ret|].
  apply empty_bind; [by apply CloseFd_empty|done].
Qed.

Lemma subscribe_loop_empty p b chs n r t : no_channel t -> no_channel (subscribe_loop p b chs n r t).2.
Proof.
  revert n r t. induction chs as [|ch chs IH]; intros n r t Ht; simpl; [done|].
  destruct (subscribe_in p ch n (pubsub_pattern_ t)) as [m n']. by destruct b; apply IH.
Qed.

Lemma unsubscribe_loop_empty p b chs n r t : no_channel t -> no_channel (unsubscribe_loop p b chs n r t).2.
Proof.
  revert n r t. induction chs as [|ch chs IH]; intros n r t Ht; simpl; [done|].
  destruct (sm_find ch (table_of b t)) as [v|] eqn:E; [|by apply IH].
  case_bool_decide; apply IH; [|done]. destruct b; [done|]. simpl in E. by rewrite Ht in E.
Qed.

Lemma UnSubscribe_empty p chs b t : no_channel t -> stays_empty_2 (UnSubscribe p chs b t).
Proof.
  intros Ht. unfold UnSubscribe. destruct chs as [|ch chs].
  - apply empty_bind_2; [|intros; by apply empty_ret_2].
    destruct (negb _); [by apply MoveConnOut_empty|by apply empty_ret].
  - pose proof (unsubscribe_loop_empty p b (ch :: chs) (ClientChannelSize p t) [] t Ht) as H.
    destruct (unsubscribe_loop _ _ _ _ _ _) as [r t1]. simpl in H.
    apply empty_bind_2; [|intros; by apply empty_ret_2].
    destruct (_ && _); [by apply MoveConnOut_empty|by apply empty_ret].
Qed.

Lemma Subscribe_empty p chs b t : no_channel t -> stays_empty_2 (Subscribe p chs b t).
Proof.
  intros Ht. unfold Subscribe. apply empty_bind_2; [destruct (_ =? _); [by apply MoveConnIn_empty|by apply empty_ret]|].
  intros t1 Ht1 r t' H. injection H as H.
  pose proof (subscribe_loop_empty p b chs (ClientChannelSize p t) [] t1 Ht1) as H'. by rewrite H in H'.
Qed.

Lemma Cleanup_empty t : no_channel t -> stays_empty (Cleanup t).
Proof.
  intros Ht. unfold Cleanup. apply empty_bind; [by apply close_all_empty|]. intros t1 Ht1. apply empty_ret.
  assert (Hl : forall l t', no_channel t' -> no_channel (fold_left (fun t h => drop_ref (conn (h : Z * ConnHandle).2) t) l t')).
  { intros l. induction l as [|h l IH]; [done|]. intros t' Ht'. by apply IH. }
  by apply Hl.
Qed.

Lemma pstep_empty t t' : pstep t t' -> no_channel t -> no_channel t'.
Proof.
  destruct 1 as [p chs b t r t' H|p chs b t r t' H|p k t t' H|p t t' H|fd s t|ch msg t|t n t' H|evs t t' H|t t' H|w t];
    intros Ht.
  - by eapply Subscribe_empty.
  - by eapply UnSubscribe_empty.
  - by eapply MoveConnIn_empty.
  - by eapply MoveConnOut_empty.
  - unfold UpdateConnReadyState. by destruct (sm_find fd (conns_ t)).
  - done.
  - unfold Publish_receive in H. destruct (_ =? _); [done|]. by injection H as <- <-.
  - by eapply handle_events_empty.
  - by eapply Cleanup_empty.
  - done.
Qed.

(** A run of the thread is a sequence of these steps. *)
Lemma ThreadMain_reach l t0 t t' : preach t0 t -> ThreadMain stringmatchlen l t = Ret t' -> preach t0 t'.
Proof.
  revert t. unfold ThreadMain. induction l as [|evs l IH]; intros t Hr; cbn [rounds].
  - intros H. eapply preach_step; [exact Hr|by apply P_cleanup].
  - destruct (handle_events stringmatchlen evs t) as [t1|] eqn:E; [|done]. cbn [obind].
    apply IH. eapply preach_step; [exact Hr|by eapply P_events].
Qed.

(** No sequence of calls and events ever registers a channel: [Subscribe] of
    channels goes into the table of the patterns, so the table of the channels
    stays empty, [PubSubChannels] reports nothing, [PubSubNumSub] reports 0 for
    every channel, and unsubscribing from a channel reports 0 and changes nothing. *)
Theorem channels_never_registered rfd mfd w t :
  preach (new_PubSubThread rfd mfd w) t ->
  pubsub_channel_ t = [] /\
  (forall pattern, PubSubChannels stringmatchlen pattern t = []) /\
  (forall chs, PubSubNumSub chs t = map (fun ch => (ch, 0)) chs) /\
  (forall p chs n r, unsubscribe_loop p false chs n r t = (r ++ map (fun ch => (ch, 0)) chs, t)).
Proof.
  intros Hr. assert (Ht : no_channel t) by (induction Hr; [done|by eapply pstep_empty]).
  unfold no_channel in Ht. split_and!; [done| | |].
  - intros pattern. unfold PubSubChannels. rewrite Ht. by case_bool_decide.
  - intros chs. unfold PubSubNumSub. by rewrite Ht.
  - intros p chs. induction chs as [|ch chs IH]; intros n r; simpl; [by rewrite app_nil_r|].
    rewrite Ht. simpl. by rewrite IH, <- (app_assoc r).
Qed.
End channels.
