(* ===== verification/PubSubPublish.v ===== *)
(** What [Publish] delivers: the event of the thread against a reference that lists
    the ready subscribers and sends to each, and what happens when a send fails. *)
From S2P Require Import Pink Prelude Sys StdMap PinkConn PinkEpoll PubSub PubSubThread PubSubFacts.
From S2P Require Import RedisCodec WorkerTheorems.

(** The message is the RESP command that says so. *)
Lemma ConstructPublishResp_command key channel msg (pattern : bool) :
  ConstructPublishResp key channel msg pattern =
  resp_command (if pattern then [bs "pmessage"; key; channel; msg] else [bs "message"; channel; msg]).
Proof.
  unfold ConstructPublishResp, resp_command, resp_bulks, resp_bulk, resp_part.
  destruct pattern; simpl; rewrite ?app_nil_r; reflexivity.
Qed.

Section publish.
Context {C : Type} {Ops : ConnOps C} {CL : ConnLaws C}.
Context (stringmatchlen : bytes -> bytes -> bool).
Implicit Types (t : pubsub C) (w : world C) (e : PinkEpoll).

(** * The reference *)

(** Which keys a message on the channel is for. *)
Definition matches (pattern : bool) (key channel : bytes) : bool :=
  if pattern then stringmatchlen key channel else bool_decide (channel = key).

(** A connection the user has declared ready. *)
Definition ready (conns : stdmap Z ConnHandle) w (p : ptr) : bool :=
  match heap w !! p with
  | Some c => match sm_find (fd_ (conn_base c)) conns with Some h => handle_IsReady h | None => false end
  | None => false
  end.

(** Who gets the message, in order: a connection once for every match. *)
Definition targets_in (pattern : bool) (channel : bytes) (conns : stdmap Z ConnHandle) w (m : table)
    : list (bool * bytes * ptr) :=
  concat (map (fun kv => if matches pattern kv.1 channel
                         then map (fun p => (pattern, kv.1, p)) (List.filter (ready conns w) kv.2) else []) m).

Definition targets (channel : bytes) t : list (bool * bytes * ptr) :=
  targets_in false channel (conns_ t) (mem t) (pubsub_channel_ t) ++
  targets_in true channel (conns_ t) (mem t) (pubsub_pattern_ t).

(** One connection is given the message and told to write; what does not fit waits
    for the descriptor to become writable. [None] when writing fails. *)
Definition deliver_one (channel msg : bytes) (target : bool * bytes * ptr) w e : option (Z * world C * PinkEpoll) :=
  let '(pattern, key, p) := target in
  match heap w !! p with
  | None => None
  | Some c =>
      let resp := resp_command (if pattern then [bs "pmessage"; key; channel; msg] else [bs "message"; channel; msg]) in
      match call conn_SendReply p (set_heap (<[p := conn_WriteResp resp c]> (heap w)) w) with
      | Ret (kWriteAll, w) => Some (1, w, e)
      | Ret (kWriteHalf, w) => Some (0, w, (PinkModEvent (fd_ (conn_base c)) EPOLLIN EPOLLOUT e).2)
      | _ => None
      end
  end.

Fixpoint deliver (channel msg : bytes) (ts : list (bool * bytes * ptr)) (n : Z) w e
    : option (Z * world C * PinkEpoll) :=
  match ts with
  | [] => Some (n, w, e)
  | target :: ts =>
      match deliver_one channel msg target w e with
      | Some (d, w, e) => deliver channel msg ts (n + d) w e
      | None => None
      end
  end.

(** * The event against the reference *)

(** The descriptors of the connections, which no operation changes. *)
Definition fd_at w (p : ptr) : option Z := (fun c => fd_ (conn_base c)) <$> heap w !! p.
Definition same_fds w w' : Prop := forall p, fd_at w' p = fd_at w p.

Lemma ready_same conns w w' p : same_fds w w' -> ready conns w' p = ready conns w p.
Proof. intros H. specialize (H p). unfold fd_at, ready in *. by destruct (heap w' !! p), (heap w !! p); simplify_eq/=; rewrite ?H. Qed.

Lemma put_sock_heap fd s w : heap (put_sock fd s w) = heap w.
Proof. unfold put_sock. by destruct (fds w !! fd). Qed.

Lemma call_SendReply_fds p w r w' : call conn_SendReply p w = Ret (r, w') -> same_fds w w'.
Proof.
  unfold call, deref. destruct (heap w !! p) as [c|] eqn:Hc; [|done]. cbn [obind].
  pose proof (SendReply_id c (sock_of (fd_ (conn_base c)) w)) as Hid.
  destruct (conn_SendReply c _) as [[[r0 c'] s]|]; [|done]. cbn [obind]. intros [= <- <-] q. unfold fd_at.
  rewrite put_sock_heap. simpl. destruct (decide (q = p)) as [->|Hne].
  - rewrite lookup_insert_eq, Hc. simpl. f_equal. by injection Hid.
  - by rewrite lookup_insert_ne.
Qed.

Lemma deliver_one_fds channel msg target w e d w' e' :
  deliver_one channel msg target w e = Some (d, w', e') -> same_fds w w' /\ 0 <= d.
Proof.
  destruct target as [[b k] p]. unfold deliver_one. destruct (heap w !! p) as [c|] eqn:Hc; [|done].
  set (resp := resp_command _). set (w1 := set_heap _ w).
  destruct (call conn_SendReply p w1) as [[[| |] w2]|] eqn:Hs; intros; simplify_eq;
    (split; [|done]); intros q; rewrite (call_SendReply_fds _ _ _ _ Hs q); unfold w1, fd_at; simpl;
    (destruct (decide (q = p)) as [->|Hne]; [rewrite lookup_insert_eq, Hc; simpl|by rewrite lookup_insert_ne]);
    f_equal; by injection (WriteResp_id resp c).
Qed.

(** One round of the loop. *)
Lemma send_one_deliver b k channel msg i p t d w' e' :
  vec_of b k t !! i = Some p -> ready (conns_ t) (mem t) p = true ->
  deliver_one channel msg (b, k, p) (mem t) (pink_epoll_ t) = Some (d, w', e') ->
  send_one b k channel msg i t = Ret (d, put_epoll e' (put_mem w' t)).
Proof.
  intros Hi Hr Hd. unfold deliver_one in Hd. unfold ready in Hr. destruct (heap (mem t) !! p) as [c|] eqn:Hc; [|done].
  assert (Href : forall w e, read_ref (Elem b k i) (put_epoll e (put_mem w t)) = Ret p).
  { intros w e. unfold read_ref. change (vec_of b k (put_epoll e (put_mem w t))) with (vec_of b k t). by rewrite Hi. }
  assert (Href0 : read_ref (Elem b k i) t = Ret p) by (rewrite <- (Href (mem t) (pink_epoll_ t)); by destruct t).
  assert (Hfd0 : fd_of_ref (Elem b k i) t = Ret (fd_ (conn_base c))).
  { unfold fd_of_ref. rewrite Href0. cbn [obind]. unfold deref. by rewrite Hc. }
  unfold send_one. rewrite Hfd0. cbn [obind]. unfold IsReady. rewrite Hr. cbn [negb]. rewrite Href0. cbn [obind].
  unfold on_conn, deref at 1. rewrite Hc. cbn [obind].
  rewrite ConstructPublishResp_command. set (resp := resp_command _) in *. unfold conn_call.
  change (mem (put_mem ?w t)) with w. set (w1 := set_heap _ (mem t)) in *.
  destruct (call conn_SendReply p w1) as [[[| |] w2]|] eqn:Hs; try done; cbn [obind]; injection Hd as <- <- <-.
  - change (put_mem w2 (put_mem w1 t)) with (put_mem w2 t).
    assert (fd_of_ref (Elem b k i) (put_mem w2 t) = Ret (fd_ (conn_base c))) as ->; [|done].
    unfold fd_of_ref. change (put_mem w2 t) with (put_epoll (pink_epoll_ t) (put_mem w2 t)). rewrite Href. cbn [obind].
    pose proof (call_SendReply_fds _ _ _ _ Hs p) as Hf. unfold fd_at, w1 in Hf. simpl in Hf. rewrite lookup_insert_eq in Hf.
    unfold deref. simpl. destruct (heap w2 !! p) as [c2|]; [|done]. simpl in Hf. injection Hf as Hf. cbn [obind].
    f_equal. injection (WriteResp_id resp c). congruence.
  - done.
Qed.

Lemma deliver_app channel msg ts1 ts2 n w e r :
  deliver channel msg (ts1 ++ ts2) n w e = Some r ->
  exists n1 w1 e1, deliver channel msg ts1 n w e = Some (n1, w1, e1) /\ deliver channel msg ts2 n1 w1 e1 = Some r.
Proof.
  revert n w e. induction ts1 as [|x ts1 IH]; intros n w e; simpl; [intros H; by exists n, w, e|].
  destruct (deliver_one _ _ _ _ _) as [[[d w'] e']|]; [|done]. apply IH.
Qed.

Lemma deliver_fds channel msg ts n w e n' w' e' :
  deliver channel msg ts n w e = Some (n', w', e') -> same_fds w w' /\ n <= n'.
Proof.
  revert n w e. induction ts as [|x ts IH]; intros n w e; simpl.
  - intros [= <- <- <-]. split; [done|lia].
  - destruct (deliver_one _ _ _ _ _) as [[[d w1] e1]|] eqn:E; [|done]. intros H.
    destruct (deliver_one_fds _ _ _ _ _ _ _ _ E) as [H1 Hd]. destruct (IH _ _ _ H) as [H2 Hn].
    split; [|lia]. intros p. by rewrite (H2 p), (H1 p).
Qed.

(** Everybody in a vector is alive. *)
Definition alive w (v : list ptr) : Prop := forall p, p ∈ v -> is_Some (fd_at w p).

Lemma alive_same w w' v : same_fds w w' -> alive w v -> alive w' v.
Proof. intros Hs Ha p Hp. rewrite (Hs p). by apply Ha. Qed.

Lemma send_vec_deliver b k channel msg v : forall pre t n n' w' e',
  vec_of b k t = pre ++ v -> alive (mem t) v ->
  deliver channel msg (map (fun p => (b, k, p)) (List.filter (ready (conns_ t) (mem t)) v)) n (mem t) (pink_epoll_ t)
    = Some (n', w', e') ->
  send_vec (length v) b k channel msg (length pre) n t = Ret (n', put_epoll e' (put_mem w' t)).
Proof.
  induction v as [|p v IH]; intros pre t n n' w' e' Hv Ha Hd.
  - simpl in *. injection Hd as <- <- <-. by destruct t.
  - cbn [length send_vec]. rewrite Hv, length_app. simpl length.
    rewrite (proj2 (Nat.ltb_lt _ _)) by lia.
    assert (Hi : vec_of b k t !! length pre = Some p) by (rewrite Hv; by apply list_lookup_middle).
    destruct (Ha p) as [fd Hfd]; [set_solver|]. unfold fd_at in Hfd.
    destruct (heap (mem t) !! p) as [c|] eqn:Hc; [|done]. injection Hfd as Hfd.
    simpl List.filter in Hd. destruct (ready (conns_ t) (mem t) p) eqn:Hr.
    + cbn [map deliver] in Hd. destruct (deliver_one _ _ _ _ _) as [[[d w1] e1]|] eqn:E; [|done].
      rewrite (send_one_deliver _ _ _ _ _ _ _ _ _ _ Hi Hr E). cbn [obind].
      destruct (deliver_one_fds _ _ _ _ _ _ _ _ E) as [Hs _].
      replace (S (length pre)) with (length (pre ++ [p])) by (rewrite length_app; simpl; lia).
      rewrite (IH (pre ++ [p]) (put_epoll e1 (put_mem w1 t)) (n + d) n' w' e'); [done| | |].
      * change (vec_of b k t = (pre ++ [p]) ++ v). by rewrite <- app_assoc.
      * apply (alive_same _ _ _ Hs). intros q Hq. apply Ha. set_solver.
      * simpl. rewrite (List.filter_ext _ (ready (conns_ t) (mem t))); [done|]. intros q. by apply ready_same.
    + assert (send_one b k channel msg (length pre) t = Ret (0, t)) as ->.
      { unfold send_one, fd_of_ref, read_ref. rewrite Hi. cbn [obind]. unfold deref. rewrite Hc. cbn [obind].
        unfold ready in Hr. rewrite Hc in Hr. unfold IsReady. by rewrite Hr. }
      cbn [obind]. rewrite Z.add_0_r. replace (S (length pre)) with (length (pre ++ [p])) by (rewrite length_app; simpl; lia).
      apply IH; [by rewrite <- app_assoc|intros q Hq; apply Ha; set_solver|done].
Qed.

Lemma targets_in_same b channel conns w w' m : same_fds w w' -> targets_in b channel conns w' m = targets_in b channel conns w m.
Proof.
  intros Hs. unfold targets_in. f_equal. apply map_ext. intros [k v]. simpl. destruct (matches b k channel); [|done].
  f_equal. apply List.filter_ext. intros p. by apply ready_same.
Qed.

Lemma send_keys_deliver b channel msg l : forall t n n' w' e',
  (forall k v, (k, v) ∈ l -> vec_of b k t = v /\ alive (mem t) v) ->
  deliver channel msg (targets_in b channel (conns_ t) (mem t) l) n (mem t) (pink_epoll_ t) = Some (n', w', e') ->
  send_keys stringmatchlen b (map fst l) channel msg n t = Ret (n', put_epoll e' (put_mem w' t)).
Proof.
  induction l as [|[k v] l IH]; intros t n n' w' e' Hl Hd.
  - cbn in Hd. injection Hd as <- <- <-. by destruct t.
  - destruct (Hl k v) as [Hv Ha]; [set_solver|].
    assert (Hl' : forall k v, (k, v) ∈ l -> vec_of b k t = v /\ alive (mem t) v) by (intros; apply Hl; set_solver).
    cbn [map send_keys fst]. unfold targets_in in Hd. cbn [map concat fst snd] in Hd.
    unfold matches at 1 in Hd. destruct (if b then stringmatchlen k channel else bool_decide (channel = k)).
    + apply deliver_app in Hd as (n1 & w1 & e1 & H1 & H2). rewrite Hv.
      pose proof (send_vec_deliver b k channel msg v [] t n n1 w1 e1 Hv Ha H1) as Hvec. simpl length in Hvec.
      rewrite Hvec. cbn [obind].
      destruct (deliver_fds _ _ _ _ _ _ _ _ _ H1) as [Hs _].
      rewrite (IH (put_epoll e1 (put_mem w1 t)) n1 n' w' e'); [done| |].
      * intros k' v' Hin. destruct (Hl' k' v' Hin) as [Hv' Ha']. split; [done|]. by apply (alive_same _ _ _ Hs).
      * change (conns_ (put_epoll e1 (put_mem w1 t))) with (conns_ t). simpl mem. simpl pink_epoll_.
        by rewrite (targets_in_same _ _ _ _ _ _ Hs).
    + by apply IH.
Qed.

(** Everybody in a table is alive. *)
Definition table_alive w (m : table) : Prop := forall k v, (k, v) ∈ m -> alive w v.

(** C25: [Publish] gives the message to each ready subscriber of the channel, and then
    to each ready subscriber of each matching pattern, exactly once per match and
    in the order of the tables; it queues the RESP command, asks the connection to
    write, watches for writability what could not be written at once, and returns
    how many wrote everything - provided no write fails. *)
Theorem publish_delivers channel msg t n w' e' :
  sm_sorted (pubsub_channel_ t) -> sm_sorted (pubsub_pattern_ t) ->
  table_alive (mem t) (pubsub_channel_ t) -> table_alive (mem t) (pubsub_pattern_ t) ->
  deliver channel msg (targets channel t) 0 (mem t) (pink_epoll_ t) = Some (n, w', e') ->
  Publish stringmatchlen channel msg t =
    Ret (Some (n, put_receivers (-1) (put_epoll e' (put_mem w' (put_message [] [] (msg_pipe_ t) t))))).
Proof.
  intros Hs1 Hs2 Ha1 Ha2 Hd. unfold targets in Hd. apply deliver_app in Hd as (n1 & w1 & e1 & H1 & H2).
  set (t0 := put_message [] [] (msg_pipe_ t) t).
  assert (Publish stringmatchlen channel msg t =
    let! u := (let! (r, u) := send_keys stringmatchlen false (map fst (pubsub_channel_ t)) channel msg 0 t0 in
               let! (r, u) := send_keys stringmatchlen true (map fst (pubsub_pattern_ u)) channel msg r u in
               Ret (put_receivers r u)) in
    Ret (Publish_receive u)) as -> by reflexivity.
  destruct (deliver_fds _ _ _ _ _ _ _ _ _ H1) as [Hfd1 Hn1]. destruct (deliver_fds _ _ _ _ _ _ _ _ _ H2) as [_ Hn2].
  assert (Hvec : forall b (u : pubsub C), table_of b u = table_of b t -> forall k v, (k, v) ∈ table_of b t -> vec_of b k u = v).
  { intros b u Hu k v Hin. unfold vec_of. rewrite Hu.
    assert (sm_find k (table_of b t) = Some v) as -> by (apply sm_find_elem; by destruct b). done. }
  rewrite (send_keys_deliver false channel msg (pubsub_channel_ t) t0 0 n1 w1 e1); [| |done].
  2:{ intros k v Hin. split; [by apply (Hvec false t0 eq_refl)|by eapply Ha1]. }
  cbn [obind]. change (pubsub_pattern_ (put_epoll e1 (put_mem w1 t0))) with (pubsub_pattern_ t).
  rewrite (send_keys_deliver true channel msg (pubsub_pattern_ t) (put_epoll e1 (put_mem w1 t0)) n1 n w' e'); cbn [obind].
  - unfold Publish_receive. change (receivers_ (put_receivers n ?u)) with n. rewrite (proj2 (Z.eqb_neq n (-1))) by lia. done.
  - intros k v Hin. split; [by apply (Hvec true _ eq_refl)|]. apply (alive_same _ _ _ Hfd1). by eapply Ha2.
  - change (conns_ (put_epoll e1 (put_mem w1 t0))) with (conns_ t). simpl mem. simpl pink_epoll_.
    by rewrite (targets_in_same _ _ _ _ _ _ Hfd1).
Qed.

End publish.

(** * A send that fails *)
Section failing.
Context {C : Type} {Ops : ConnOps C} {CL : ConnLaws C}.
Implicit Types (t : pubsub C) (w : world C).

Lemma release_held_heap rs p w q : q ∈ held w -> heap (release rs p w) !! q = heap w !! q.
Proof.
  intros Hq. unfold release. case_bool_decide as E; [done|]. simpl. rewrite lookup_delete_ne; [done|].
  intros ->. apply E, elem_of_app. by right.
Qed.

Lemma release_rest rs p w : held (release rs p w) = held w /\ fds (release rs p w) = fds w.
Proof. unfold release. by case_bool_decide. Qed.

(** The write that fails, up to the call of [MoveConnOut]. *)
Lemma send_one_fails key channel msg t a ca r s i :
  vec_of true key t !! i = Some a -> heap (mem t) !! a = Some ca -> IsReady (fd_ (conn_base ca)) t = true ->
  conn_SendReply (conn_WriteResp (ConstructPublishResp key channel msg true) ca) (sock_of (fd_ (conn_base ca)) (mem t))
    = Ret (kWriteError, r, s) ->
  exists w, send_one true key channel msg i t =
    (let! t := MoveConnOut (Elem true key i) (put_mem w t) in
     let! t := CloseFd (Elem true key i) t in Ret (0, t)) /\
    heap w = <[a := r]> (heap (mem t)) /\ held w = held (mem t) /\
    (forall fd, is_open fd w = is_open fd (mem t)).
Proof.
  intros Hi Hc Hr Hs. assert (Href : forall w, read_ref (Elem true key i) (put_mem w t) = Ret a).
  { intros w. unfold read_ref. change (vec_of true key (put_mem w t)) with (vec_of true key t). by rewrite Hi. }
  assert (Href0 : read_ref (Elem true key i) t = Ret a) by (rewrite <- (Href (mem t)); by destruct t).
  unfold send_one, fd_of_ref. rewrite Href0. cbn [obind]. unfold deref at 1. rewrite Hc. cbn [obind]. rewrite Hr. cbn [negb].
  unfold on_conn, deref at 1. rewrite Hc. cbn [obind].
  set (c1 := conn_WriteResp _ ca) in *. unfold conn_call, call, deref. simpl mem. cbn [heap set_heap].
  rewrite lookup_insert_eq. cbn [obind].
  assert (fd_ (conn_base c1) = fd_ (conn_base ca)) as Hfd by by injection (WriteResp_id (ConstructPublishResp key channel msg true) ca).
  rewrite Hfd. change (sock_of ?fd (set_heap ?h ?w)) with (sock_of fd w). rewrite Hs. cbn [obind].
  eexists (put_sock (fd_ (conn_base ca)) s (set_heap (<[a := r]> (<[a := c1]> (heap (mem t)))) (mem t))).
  split; [done|]. rewrite put_sock_heap. simpl. rewrite insert_insert_eq. split; [done|].
  unfold put_sock. simpl. destruct (fds (mem t) !! fd_ (conn_base ca)) as [d|] eqn:E; simpl; [|done].
  split; [done|]. intros fd. unfold is_open. simpl. apply bool_decide_ext.
  destruct (decide (fd = fd_ (conn_base ca))) as [->|Hne]; [rewrite lookup_insert_eq, E; by split|by rewrite lookup_insert_ne].
Qed.

(** When the send to the first of two subscribers of a pattern fails, the thread
    drops the second one instead: [MoveConnOut] is given a reference into the vector
    it erases from, so after the erasure the reference is the next connection. That
    one loses its handle and its descriptor is closed, while the one that failed
    keeps both; and when there is no next one, the reference is past the end. *)
Theorem publish_error_hits_next key channel msg t a ca r s rest :
  pubsub_pattern_ t = [(key, a :: rest)] -> pubsub_channel_ t = [] -> sm_sorted (conns_ t) ->
  heap (mem t) !! a = Some ca -> IsReady (fd_ (conn_base ca)) t = true ->
  conn_SendReply (conn_WriteResp (ConstructPublishResp key channel msg true) ca) (sock_of (fd_ (conn_base ca)) (mem t))
    = Ret (kWriteError, r, s) ->
  match rest with
  | [] => send_one true key channel msg 0 t = Fault OutOfBounds
  | b :: _ => forall cb, heap (mem t) !! b = Some cb -> b ∈ held (mem t) -> a ∈ held (mem t) ->
      fd_ (conn_base cb) <> fd_ (conn_base ca) -> a <> b ->
      exists t', send_one true key channel msg 0 t = Ret (0, t') /\
        sm_find (fd_ (conn_base cb)) (conns_ t') = None /\ fds (mem t') !! fd_ (conn_base cb) = None /\
        sm_find (fd_ (conn_base ca)) (conns_ t') = sm_find (fd_ (conn_base ca)) (conns_ t) /\
        (is_open (fd_ (conn_base ca)) (mem t') = is_open (fd_ (conn_base ca)) (mem t))
  end.
Proof.
  intros Hp Hch Hs Hc Hr Hse.
  assert (Hvec : forall m (t : pubsub C), pubsub_pattern_ t = [(key, m)] -> vec_of true key t = m).
  { intros m t' E. unfold vec_of. simpl. rewrite E. simpl. by rewrite less_irrefl. }
  destruct (send_one_fails key channel msg t a ca r s 0) as (w & -> & Hw & Hheld & Hopen); [by rewrite (Hvec _ t Hp)|done..|].
  set (t3 := drop_ref a (put_table true [(key, rest)] (put_mem w t))).
  assert (RemoveConn (Elem true key 0) (put_mem w t) = Ret t3) as Hrm.
  { unfold RemoveConn. simpl pubsub_pattern_. rewrite Hp. cbn [map fst remove_from]. unfold read_ref.
    rewrite (Hvec (a :: rest)) by done. simpl lookup. cbn [obind]. rewrite bool_decide_eq_true_2 by set_solver. cbn [obind].
    cbn [erase_first]. rewrite bool_decide_eq_true_2 by done. simpl table_of. rewrite Hp. simpl sm_set. rewrite less_irrefl.
    unfold drop_ref. simpl pubsub_channel_. by rewrite Hch. }
  unfold MoveConnOut. rewrite Hrm. cbn [obind].
  assert (Hv3 : vec_of true key t3 = rest) by by apply Hvec.
  destruct rest as [|b rest].
  - unfold fd_of_ref, read_ref. by rewrite Hv3.
  - intros cb Hcb Hb Ha Hne Hab.
    assert (Hfd : forall u, vec_of true key u = b :: rest -> heap (mem u) !! b = Some cb ->
      fd_of_ref (Elem true key 0) u = Ret (fd_ (conn_base cb))).
    { intros u Hu Hm. unfold fd_of_ref, read_ref. rewrite Hu. simpl lookup. cbn [obind]. unfold deref. by rewrite Hm. }
    assert (Hb3 : heap (mem t3) !! b = Some cb).
    { unfold t3, drop_ref. simpl. rewrite release_held_heap by (simpl; by rewrite Hheld). simpl. rewrite Hw. by rewrite lookup_insert_ne. }
    rewrite (Hfd t3 Hv3 Hb3). cbn [obind]. rewrite (Hfd (put_epoll _ t3)) by done. cbn [obind].
    set (fb := fd_ (conn_base cb)) in *. set (t4 := put_epoll (PinkDelEvent fb (pink_epoll_ t3)).2 t3).
    assert (Hb4 : heap (mem (erase_handle fb t4)) !! b = Some cb /\
      (forall fd, is_open fd (mem (erase_handle fb t4)) = is_open fd (mem t)) /\ vec_of true key (erase_handle fb t4) = b :: rest).
    { assert (fds (mem t3) = fds w) as Hf3 by apply release_rest.
      assert (held (mem t3) = held w) as Hh3 by apply release_rest.
      unfold erase_handle. simpl conns_. destruct (sm_find fb (conns_ t)) as [h|]; simpl.
      - split; [|split; [|done]].
        + rewrite release_held_heap; [done|]. change (b ∈ held (mem t3)). by rewrite Hh3, Hheld.
        + intros fd. rewrite <- Hopen. unfold is_open. by rewrite (proj2 (release_rest _ _ _)), <- Hf3.
      - split; [done|]. split; [|done]. intros fd. rewrite <- Hopen. unfold is_open. by rewrite <- Hf3. }
    destruct Hb4 as (H1 & H2 & H3). unfold CloseFd. rewrite (Hfd _ H3 H1). cbn [obind].
    destruct (erase_handle_rest fb t4) as (_ & _ & _ & Hcn). pose proof (Hcn Hs) as Hcn'.
    eexists. split; [done|]. simpl. rewrite Hcn'. change (conns_ t4) with (conns_ t).
    split; [by apply sm_find_erase_eq|]. split; [apply lookup_delete_eq|]. split; [by apply sm_find_erase_ne|].
    rewrite <- H2. unfold is_open. simpl. by rewrite lookup_delete_ne.
Qed.
End failing.
