(* ===== verification/PubSubWitness.v ===== *)
(** Runs of publish and subscribe: the theorems at a concrete thread with two
    connections and one pattern. *)
From S2P Require Import Pink Prelude Sys StdMap PinkConn PinkEpoll PubSub PubSubThread PubSubFacts.
From S2P Require Import WorkerTheorems PubSubTheorems PubSubPublish.

(** A pattern that may end in a star. *)
Fixpoint star_match (pattern s : bytes) : bool :=
  match pattern, s with
  | [], [] => true
  | [c], _ => if ceq c "*"%char then true else bool_decide (s = [c])
  | c :: pattern, d :: s => ceq c d && star_match pattern s
  | _, _ => false
  end.

Definition news : bytes := bs "news.*".
Definition sport : bytes := bs "news.sport".

(** Connections 1 and 2 on descriptors 7 and 8, which both accept [grants]. *)
Definition two_clients (grants : list grant) : world EchoConn :=
  mkWorld {[1 := mkEcho (new_PinkConn 7 (bs "10.0.0.1:70") 0) []; 2 := mkEcho (new_PinkConn 8 (bs "10.0.0.1:80") 0) []]}
    3 [1; 2] {[7 := mkDesc 2 (mkSock [] grants []); 8 := mkDesc 2 (mkSock [] [Accepts 100] [])]} [].

(** The thread after both have subscribed and are ready. *)
Definition start (grants : list grant) : pubsub EchoConn := new_PubSubThread 3 4 (two_clients grants).
Definition subscribed (grants : list grant) : pubsub EchoConn :=
  put_table true [(news, [1; 2])]
    (put_conns [(7, mkConnHandle 1 kReady); (8, mkConnHandle 2 kReady)] (start grants)).

Lemma start_ok grants : tables_ok (start grants).
Proof. by split; split; [constructor| |constructor|]. Qed.

Lemma subscribed_ok grants : tables_ok (subscribed grants).
Proof.
  split; split; try done; [constructor|repeat constructor|].
  intros k v H. apply (sm_find_elem_1 (K:=bytes)) in H. apply list_elem_of_singleton in H as [= -> ->].
  by apply (bool_decide_unpack _).
Qed.

Lemma subscribe_refines_witness :
  exists result t', Subscribe 1 [news; sport; news] false (start []) = Ret (result, t') /\
    result = [(news, 1); (sport, 2); (news, 2)] /\ subs (pubsub_channel_ t') = ∅.
Proof.
  destruct (subscribe_refines 1 (mkEcho (new_PinkConn 7 (bs "10.0.0.1:70") 0) []) [news; sport; news] false (start []) (start_ok [])
    eq_refl ltac:(by vm_compute)) as (result & t' & H1 & _ & _ & H2 & H3 & _).
  exists result, t'. split; [done|]. split; [rewrite H3; by vm_compute|by rewrite H2].
Defined.

Lemma unsubscribe_refines_witness :
  exists n result t', UnSubscribe 1 [news; sport] true (subscribed []) = Ret (n, result, t') /\
    result = [(news, 0); (sport, 0)] /\ n = ClientChannelSize 1 t'.
Proof.
  destruct (unsubscribe_refines 1 (mkEcho (new_PinkConn 7 (bs "10.0.0.1:70") 0) []) news [sport] true (subscribed []) (subscribed_ok []))
    as (n & result & t' & H1 & _ & _ & _ & H3 & H4 & _).
  - repeat constructor.
  - by apply (bool_decide_unpack _).
  - reflexivity.
  - exists n, result, t'. split; [done|]. split; [rewrite H3; by vm_compute|done].
Defined.

Lemma channels_never_registered_witness :
  exists r t', Subscribe 1 [sport] false (start []) = Ret (r, t') /\ PubSubNumSub [sport] t' = [(sport, 0)].
Proof.
  destruct (Subscribe 1 [sport] false (start [])) as [[r t']|f] eqn:E; [|by vm_compute in E].
  exists r, t'. split; [done|].
  apply (channels_never_registered star_match 3 4 (two_clients []) t').
  eapply preach_step; [apply preach_start|]. by eapply P_subscribe.
Defined.

(** Both get the message; the first can write 5 bytes only. *)
Lemma publish_delivers_witness :
  exists t', Publish star_match sport (bs "goal") (subscribed [Accepts 5]) = Ret (Some (1, t')) /\
    option_map (fun d => length (sent (d_sock d))) (fds (mem t') !! 8) = Some 57%nat /\
    option_map (fun d => length (sent (d_sock d))) (fds (mem t') !! 7) = Some 5%nat.
Proof.
  eexists. split.
  - eapply (publish_delivers star_match sport (bs "goal") (subscribed [Accepts 5])).
    + constructor.
    + repeat constructor.
    + intros k v H. by apply elem_of_nil in H.
    + intros k v H p Hp. apply list_elem_of_singleton in H as [= -> ->].
      apply elem_of_cons in Hp as [->|Hp]; [by eexists|]. apply list_elem_of_singleton in Hp as ->. by eexists.
    + vm_compute. reflexivity.
  - by vm_compute.
Defined.

(** The first cannot write: the second is closed. *)
Lemma publish_error_hits_next_witness :
  exists t', send_one true news sport (bs "goal") 0 (subscribed [WrFails EOTHER]) = Ret (0, t') /\
    sm_find 8 (conns_ t') = None /\ is_open 7 (mem t') = true.
Proof.
  destruct (publish_error_hits_next news sport (bs "goal") (subscribed [WrFails EOTHER]) 1
    (mkEcho (new_PinkConn 7 (bs "10.0.0.1:70") 0) [])
    (mkEcho (new_PinkConn 7 (bs "10.0.0.1:70") 0) (ConstructPublishResp news sport (bs "goal") true))
    (mkSock [] [] []) [2] eq_refl eq_refl ltac:(repeat constructor) eq_refl eq_refl eq_refl
    (mkEcho (new_PinkConn 8 (bs "10.0.0.1:80") 0) [])) as (t' & H1 & H2 & _ & _ & H3); try done.
  - by apply (bool_decide_unpack _).
  - by apply (bool_decide_unpack _).
  - exists t'. split; [done|]. split; [done|]. etransitivity; [exact H3|reflexivity].
Defined.
