(* ===== verification/HttpConn.v ===== *)
(** [pink/include/http_conn.h] and [pink/src/http_conn.cc]: the HTTP connection: the
    parser of a request's header, the states of a request and of its response, and
    the calls of the user's [HTTPHandles]. *)
From S2P Require Import Pink Prelude Sys StdMap PinkConn.

Definition kHTTPMaxMessage : Z := 1024 * 1024 * 8.
Definition kHTTPMaxHeader : Z := 1024 * 1024.

Definition http_status_map : stdmap Z bytes :=
  [(100, bs "Continue"); (101, bs "Switching Protocols"); (102, bs "Processing");
   (200, bs "OK"); (201, bs "Created"); (202, bs "Accepted"); (203, bs "Non-Authoritative Information");
   (204, bs "No Content"); (205, bs "Reset Content"); (206, bs "Partial Content"); (207, bs "Multi-Status");
   (400, bs "Bad Request"); (401, bs "Unauthorized"); (402, bs ""); (403, bs "Forbidden");
   (404, bs "Not Found"); (405, bs "Method Not Allowed"); (406, bs "Not Acceptable");
   (407, bs "Proxy Authentication Required"); (408, bs "Request Timeout"); (409, bs "Conflict");
   (416, bs "Requested Range not satisfiable");
   (500, bs "Internal Server Error"); (501, bs "Not Implemented"); (502, bs "Bad Gateway");
   (503, bs "Service Unavailable"); (504, bs "Gateway Timeout"); (505, bs "HTTP Version Not Supported");
   (506, bs "Variant Also Negotiates"); (507, bs "Insufficient Storage"); (508, bs "Bandwidth Limit Exceeded");
   (509, bs "Not Extended")].

(** * Strings *)

(** [strstr] and [std::string::find]: where [pat] first occurs. *)
Fixpoint is_prefix (pat l : bytes) : bool :=
  match pat, l with
  | [], _ => true
  | c :: pat, d :: l => (c =?c d) && is_prefix pat l
  | _ :: _, [] => false
  end.
Fixpoint find_sub (pat l : bytes) : option nat :=
  if is_prefix pat l then Some 0%nat
  else match l with [] => None | _ :: l => S <$> find_sub pat l end.

(** [std::stoul]: white space, a sign, and at least one digit; what follows them is
    ignored. *)
Fixpoint skip_space (s : bytes) : bytes :=
  match s with c :: s' => if isspace c then skip_space s' else s | [] => [] end.
Fixpoint digits_of (s : bytes) : bytes :=
  match s with c :: s' => if isdigit c then c :: digits_of s' else [] | [] => [] end.
Definition stoul (s : bytes) : outcome Z :=
  let s := skip_space s in
  let '(neg, s) := match s with
                   | c :: s' => if c =?c "-"%char then (true, s') else if c =?c "+"%char then (false, s') else (false, s)
                   | [] => (false, [])
                   end in
  match digits_of s with
  | [] => Fault InvalidArgument
  | d => if SIZE_MAX <? dec_value d then Fault OutOfRange
         else Ret (if neg then to_u64 (- dec_value d) else dec_value d)
  end.

(** * The request *)

Inductive RequestParserStatus : Type :=
  | kHeaderMethod | kHeaderPath | kHeaderVersion | kHeaderParamKey | kHeaderParamValue.
Inductive RequestStatus : Type := kNewRequest | kHeaderReceiving | kBodyReceiving | kBodyReceived.

#[export] Instance RequestParserStatus_eq_dec : EqDecision RequestParserStatus.
Proof. solve_decision. Defined.
#[export] Instance RequestStatus_eq_dec : EqDecision RequestStatus.
Proof. solve_decision. Defined.

Abbreviation params := (stdmap bytes bytes).

(** [rbuf_] up to [rbuf_pos_] is the list [rbuf_]. *)
Record HTTPRequest : Type := mkRequest {
  method_ : bytes;
  url_ : bytes;
  path_ : bytes;
  version_ : bytes;
  content_type_ : bytes;
  reply_100continue_ : bool;
  postform_params_ : params;
  query_params_ : params;
  headers_ : params;
  client_ip_port_ : bytes;
  req_status_ : RequestStatus;
  parse_status_ : RequestParserStatus;
  rbuf_ : bytes;
  remain_recv_len_ : Z
}.

Definition rbuf_pos_ (r : HTTPRequest) : Z := zlen (rbuf_ r).

Definition new_HTTPRequest : HTTPRequest :=
  mkRequest [] [] [] [] [] false [] [] [] [] kNewRequest kHeaderMethod [] 0.

(** [HTTPRequest::Reset] for a connection of the address. *)
Definition request_Reset (ip_port : bytes) (r : HTTPRequest) : HTTPRequest :=
  mkRequest [] [] [] [] [] false [] [] [] ip_port (req_status_ r) kHeaderMethod [] 0.

(** What the line parser changes. *)
Definition put_line (st : RequestParserStatus) (method url version : bytes) (headers : params) (r : HTTPRequest)
    : HTTPRequest :=
  mkRequest method url (path_ r) version (content_type_ r) (reply_100continue_ r) (postform_params_ r)
    (query_params_ r) headers (client_ip_port_ r) (req_status_ r) st (rbuf_ r) (remain_recv_len_ r).
Definition put_path (path : bytes) (query : params) (r : HTTPRequest) : HTTPRequest :=
  mkRequest (method_ r) (url_ r) path (version_ r) (content_type_ r) (reply_100continue_ r) (postform_params_ r)
    query (headers_ r) (client_ip_port_ r) (req_status_ r) (parse_status_ r) (rbuf_ r) (remain_recv_len_ r).
Definition put_content (type : bytes) (reply100 : bool) (remain : Z) (r : HTTPRequest) : HTTPRequest :=
  mkRequest (method_ r) (url_ r) (path_ r) (version_ r) type reply100 (postform_params_ r)
    (query_params_ r) (headers_ r) (client_ip_port_ r) (req_status_ r) (parse_status_ r) (rbuf_ r) remain.
Definition put_req_status (st : RequestStatus) (r : HTTPRequest) : HTTPRequest :=
  mkRequest (method_ r) (url_ r) (path_ r) (version_ r) (content_type_ r) (reply_100continue_ r) (postform_params_ r)
    (query_params_ r) (headers_ r) (client_ip_port_ r) st (parse_status_ r) (rbuf_ r) (remain_recv_len_ r).
Definition put_rbuf (buf : bytes) (remain : Z) (r : HTTPRequest) : HTTPRequest :=
  mkRequest (method_ r) (url_ r) (path_ r) (version_ r) (content_type_ r) (reply_100continue_ r) (postform_params_ r)
    (query_params_ r) (headers_ r) (client_ip_port_ r) (req_status_ r) (parse_status_ r) buf remain.

(** [query_value] and [postform_value] *)
Definition query_value (field : bytes) (r : HTTPRequest) : bytes :=
  match sm_find field (query_params_ r) with Some v => v | None => [] end.
Definition postform_value (field : bytes) (r : HTTPRequest) : bytes :=
  match sm_find field (postform_params_ r) with Some v => v | None => [] end.

Section parser.
(** [slash::StringToLower] *)
Context (StringToLower : bytes -> bytes).

(** One byte of a header line; [key] and [value] are the locals. *)
Definition head_byte (c : ascii) (key value : bytes) (r : HTTPRequest) : bytes * bytes * HTTPRequest :=
  let put st method url version headers := put_line st method url version headers r in
  match parse_status_ r with
  | kHeaderMethod =>
      if negb (c =?c SP) then (key, value, put kHeaderMethod (method_ r ++ [c]) (url_ r) (version_ r) (headers_ r))
      else (key, value, put kHeaderPath (method_ r) (url_ r) (version_ r) (headers_ r))
  | kHeaderPath =>
      if negb (c =?c SP) then (key, value, put kHeaderPath (method_ r) (url_ r ++ [c]) (version_ r) (headers_ r))
      else (key, value, put kHeaderVersion (method_ r) (url_ r) (version_ r) (headers_ r))
  | kHeaderVersion =>
      if negb (c =?c CR) && negb (c =?c LF)
      then (key, value, put kHeaderVersion (method_ r) (url_ r) (version_ r ++ [c]) (headers_ r))
      else if c =?c LF then (key, value, put kHeaderParamKey (method_ r) (url_ r) (version_ r) (headers_ r))
      else (key, value, r)
  | kHeaderParamKey =>
      if negb (c =?c ":"%char) && negb (c =?c SP) then (key ++ [c], value, r)
      else if c =?c SP then (key, value, put kHeaderParamValue (method_ r) (url_ r) (version_ r) (headers_ r))
      else (key, value, r)
  | kHeaderParamValue =>
      if negb (c =?c CR) && negb (c =?c LF) then (key, value ++ [c], r)
      else if c =?c CR
      then (key, value, put kHeaderParamKey (method_ r) (url_ r) (version_ r)
                          (sm_set (StringToLower key) value (headers_ r)))
      else (key, value, r)
  end.

Fixpoint head_bytes (line key value : bytes) (r : HTTPRequest) : HTTPRequest :=
  match line with
  | [] => r
  | c :: line => let '(key, value, r) := head_byte c key value r in head_bytes line key value r
  end.

(** [ParseHeadLine] of the bytes between its positions; it always returns true. *)
Definition ParseHeadLine (line : bytes) (r : HTTPRequest) : HTTPRequest := head_bytes line [] [] r.

Fixpoint find_lf (data : bytes) (size : nat) : nat :=
  match size, data with
  | S size, c :: data => if c =?c LF then 0%nat else S (find_lf data size)
  | _, _ => 0%nat
  end.

(** [ParseParameters] of the bytes from its position on. A round takes at least
    one byte. *)
Fixpoint ParseParameters (fuel : nat) (data : bytes) (query : params) : outcome params :=
  match fuel with
  | O => Fault Diverges
  | S fuel =>
      match data with
      | [] => Ret query
      | _ =>
          let mid := match index_of "="%char data with Some n => n | None => length data end in
          let stop := match index_of "&"%char data with Some n => n | None => length data end in
          ParseParameters fuel (drop (S stop) data)
            (if Nat.leb stop mid then sm_set (take stop data) [] query
             else sm_set (take mid data) (take (stop - mid - 1) (drop (S mid) data)) query)
      end
  end.

Definition ParseGetUrl (r : HTTPRequest) : outcome HTTPRequest :=
  let path := url_ r in
  let path :=
    match sm_find (bs "host") (headers_ r) with
    | Some host =>
        match find_sub host path with
        | Some _ => if 7 + zlen host <? zlen path then zdrop (7 + zlen host) path else path
        | None => path
        end
    | None => path
    end in
  match index_of "?"%char path with
  | None => Ret (put_path path (query_params_ r) r)
  | Some n =>
      let! query := ParseParameters (S (length path)) (drop (S n) path) (query_params_ r) in
      Ret (put_path (take n path) query r)
  end.

(** The loop over the lines of the header, from [data] on. A line takes at least
    one byte of the [remain_size] left. *)
Fixpoint header_lines (fuel : nat) (data : bytes) (remain_size : Z) (r : HTTPRequest) : outcome HTTPRequest :=
  match fuel with
  | O => Fault Diverges
  | S fuel =>
      if 4 <? remain_size then
        let n := find_lf data (Z.to_nat remain_size) in
        header_lines fuel (drop (S n) data) (remain_size - (Z.of_nat n + 1)) (ParseHeadLine (take (S n) data) r)
      else Ret r
  end.

(** [headers_.at(key) == value] where the key is present. *)
Definition header_is (key value : bytes) (headers : params) : bool := bool_decide (sm_find key headers = Some value).

(** [ParseHeader]: the length of the header, 0 while it is not complete, or -1. *)
Definition ParseHeader (r : HTTPRequest) : outcome (Z * HTTPRequest) :=
  if kHTTPMaxMessage <=? rbuf_pos_ r then Fault OutOfBounds
  else match find_sub (CRLF ++ CRLF) (cstr (rbuf_ r)) with
  | None => Ret (0, r)
  | Some sep =>
      let header_len := Z.of_nat sep + 4 in
      if header_len <=? 5 then Ret (-1, r)
      else
        let! r := header_lines (S (Z.to_nat header_len)) (rbuf_ r) header_len r in
        let! r := ParseGetUrl r in
        let! remain := match sm_find (bs "content-length") (headers_ r) with
                       | Some v => stoul v
                       | None => Ret 0
                       end in
        let type := match sm_find (bs "content-type") (headers_ r) with Some v => v | None => content_type_ r end in
        let reply100 := header_is (bs "expect") (bs "100-Continue") (headers_ r) ||
                        header_is (bs "expect") (bs "100-continue") (headers_ r) || reply_100continue_ r in
        Ret (header_len, put_content type reply100 remain r)
  end.
End parser.

(** * The response *)

Inductive ResponseStatus : Type := kPrepareHeader | kSendingHeader | kSendingBody.

#[export] Instance ResponseStatus_eq_dec : EqDecision ResponseStatus.
Proof. solve_decision. Defined.

(** [wbuf_] holds the bytes that have been stored so far. *)
Record HTTPResponse : Type := mkResponse {
  resp_status_ : ResponseStatus;
  wbuf_ : bytes;
  buf_len_ : Z;
  wbuf_pos_ : Z;
  remain_send_len_ : Z;
  finished_ : bool;
  status_code_ : Z;
  resp_headers_ : params
}.

Definition new_HTTPResponse : HTTPResponse := mkResponse kPrepareHeader [] 0 0 0 true 200 [].

Definition response_Reset (p : HTTPResponse) : HTTPResponse := mkResponse kPrepareHeader (wbuf_ p) 0 0 0 false 200 [].

Definition put_resp (st : ResponseStatus) (len pos remain : Z) (finished : bool) (p : HTTPResponse) : HTTPResponse :=
  mkResponse st (wbuf_ p) len pos remain finished (status_code_ p) (resp_headers_ p).
Definition put_wbuf (buf : bytes) (len : Z) (p : HTTPResponse) : HTTPResponse :=
  mkResponse (resp_status_ p) buf len (wbuf_pos_ p) (remain_send_len_ p) (finished_ p) (status_code_ p) (resp_headers_ p).

Definition valid_status (code : Z) : bool :=
  ((100 <=? code) && (code <=? 102)) || ((200 <=? code) && (code <=? 207)) ||
  ((400 <=? code) && (code <=? 409)) || (code =? 416) || ((500 <=? code) && (code <=? 509)).

Definition SetStatusCode (code : Z) (p : HTTPResponse) : outcome HTTPResponse :=
  if valid_status code
  then Ret (mkResponse (resp_status_ p) (wbuf_ p) (buf_len_ p) (wbuf_pos_ p) (remain_send_len_ p) (finished_ p) code (resp_headers_ p))
  else Fault AssertFailed.
Definition SetHeaders (key value : bytes) (p : HTTPResponse) : HTTPResponse :=
  mkResponse (resp_status_ p) (wbuf_ p) (buf_len_ p) (wbuf_pos_ p) (remain_send_len_ p) (finished_ p) (status_code_ p)
    (sm_set key value (resp_headers_ p)).
Definition SetHeaders_num (key : bytes) (value : Z) (p : HTTPResponse) : HTTPResponse := SetHeaders key (to_string value) p.

Definition has_header (key : bytes) (p : HTTPResponse) : bool :=
  match sm_find key (resp_headers_ p) with Some _ => true | None => false end.

Definition SetContentLength (size : Z) (p : HTTPResponse) : HTTPResponse :=
  let p := put_resp (resp_status_ p) (buf_len_ p) (wbuf_pos_ p) size (finished_ p) p in
  if has_header (bs "Content-Length") p || has_header (bs "content-length") p then p
  else SetHeaders_num (bs "Content-Length") size p.

(** [snprintf] of a text at [serial_size]: the new size. A text that is cut takes
    the size past [kHTTPMaxHeader], and [Flush] gives up. *)
Definition put_text (text : bytes) (serial_size : Z) : outcome Z :=
  let room := to_u32 (kHTTPMaxHeader - serial_size) in
  if kHTTPMaxMessage <? serial_size + Z.min room (zlen text + 1) then Fault OutOfBounds
  else Ret (serial_size + zlen text).

Definition status_line (code : Z) (reason : bytes) : bytes :=
  bs "HTTP/1.1 " ++ to_string code ++ [SP] ++ cstr reason ++ CRLF.
Definition header_line (key value : bytes) : bytes := cstr key ++ bs ": " ++ cstr value ++ CRLF.

Fixpoint put_header_lines (l : params) (buf : bytes) (serial_size : Z) : outcome (option (bytes * Z)) :=
  match l with
  | [] => Ret (Some (buf, serial_size))
  | (k, v) :: l =>
      let! serial_size := put_text (header_line k v) serial_size in
      if serial_size =? kHTTPMaxHeader then Ret None
      else put_header_lines l (buf ++ header_line k v) serial_size
  end.

(** [SerializeHeader]: the text goes to the start of the buffer. *)
Definition SerializeHeader (p : HTTPResponse) : outcome (option HTTPResponse) :=
  match sm_find (status_code_ p) http_status_map with
  | None => Fault OutOfRange
  | Some reason =>
      let line := status_line (status_code_ p) reason in
      let! serial_size := put_text line 0 in
      if serial_size =? kHTTPMaxHeader then Ret None
      else
        let! r := put_header_lines (resp_headers_ p) line serial_size in
        match r with
        | None => Ret None
        | Some (buf, serial_size) =>
            let! serial_size := put_text CRLF serial_size in
            if serial_size =? kHTTPMaxHeader then Ret None
            else Ret (Some (put_wbuf ((buf ++ CRLF) ++ zdrop serial_size (wbuf_ p)) serial_size p))
        end
  end.

(** * The user's handles *)

(** What [PrepareResponse] does to the response it is given. *)
Inductive resp_op : Type :=
  | OpStatus (code : Z)
  | OpHeader (key value : bytes)
  | OpHeaderNum (key : bytes) (value : Z)
  | OpLength (size : Z).

(** What [WriteResponseBody] returns: bytes it has stored, or a negative number. *)
Inductive body_result : Type := Filled (d : bytes) | Negative (n : Z).

(** The handles, on a state of the user's. *)
Class HTTPHandles (U : Type) : Type := {
  HandleRequest : HTTPRequest -> U -> bool * U;
  HandleBodyData : bytes -> U -> U;
  PrepareResponse : U -> list resp_op * U;
  WriteResponseBody : Z -> U -> body_result * U;
  HandleConnClosed : U -> U
}.

Fixpoint apply_ops (l : list resp_op) (p : HTTPResponse) : outcome HTTPResponse :=
  match l with
  | [] => Ret p
  | OpStatus code :: l => let! p := SetStatusCode code p in apply_ops l p
  | OpHeader k v :: l => apply_ops l (SetHeaders k v p)
  | OpHeaderNum k v :: l => apply_ops l (SetHeaders_num k v p)
  | OpLength n :: l => apply_ops l (SetContentLength n p)
  end.

(** * The connection *)

Record HTTPConn (U : Type) : Type := mkHTTPConn {
  http_base : PinkConn;
  request_ : HTTPRequest;
  response_ : HTTPResponse;
  handles_ : U
}.
Arguments mkHTTPConn {U}. Arguments http_base {U}. Arguments request_ {U}.
Arguments response_ {U}. Arguments handles_ {U}.

Section conn.
Context {U : Type} {H : HTTPHandles U}.
Context (StringToLower : bytes -> bytes).
Implicit Types c : HTTPConn U.

Definition new_HTTPConn (fd : Z) (ip_port : bytes) (now : Z) (u : U) : HTTPConn U :=
  mkHTTPConn (new_PinkConn fd ip_port now) new_HTTPRequest new_HTTPResponse u.

Definition put_request (r : HTTPRequest) c : HTTPConn U := mkHTTPConn (http_base c) r (response_ c) (handles_ c).
Definition put_response (p : HTTPResponse) c : HTTPConn U := mkHTTPConn (http_base c) (request_ c) p (handles_ c).
Definition put_handles (u : U) c : HTTPConn U := mkHTTPConn (http_base c) (request_ c) (response_ c) u.
Definition put_base (b : PinkConn) c : HTTPConn U := mkHTTPConn b (request_ c) (response_ c) (handles_ c).

(** [DoRead] without TLS *)
Definition DoRead c (s : sock) : ReadStatus * HTTPConn U * sock :=
  let r := request_ c in
  let '(n, d, s) := sys_read (kHTTPMaxMessage - rbuf_pos_ r) s in
  match n with
  | IoLen n =>
      if 0 <? n then
        let remain := if bool_decide (req_status_ r = kBodyReceiving) then to_u64 (remain_recv_len_ r - n)
                      else remain_recv_len_ r in
        (kOk, put_request (put_rbuf (rbuf_ r ++ d) remain r) c, s)
      else (kReadClose, c, s)
  | IoErr EAGAIN => (kReadHalf, c, s)
  | IoErr _ => (kReadClose, c, s)
  end.

(** How a round of the loop of [ReadData] ends. *)
Inductive round : Type :=
  | Returns (r : ReadStatus) (c : HTTPConn U) (s : sock)
  | Again (c : HTTPConn U) (s : sock).

Definition closed c : HTTPConn U := put_handles (HandleConnClosed (handles_ c)) c.

(** The state [kHeaderReceiving]. *)
Definition receive_header c (s : sock) : outcome round :=
  let '(st, c, s) := DoRead c s in
  if negb (bool_decide (st = kOk)) then Ret (Returns st (closed c) s)
  else
    let! (header_len, r) := ParseHeader StringToLower (request_ c) in
    let c := put_request r c in
    if (header_len <? 0) || (kHTTPMaxHeader <? rbuf_pos_ r) then Ret (Returns kReadError (closed c) s)
    else if 0 <? header_len then
      let r := put_req_status kBodyReceiving r in
      let '(need_reply, u) := HandleRequest r (handles_ c) in
      let c := put_handles u c in
      if need_reply then Ret (Again (put_request (put_req_status kBodyReceived r) c) s)
      else
        let rest := zdrop header_len (rbuf_ r) in
        let remain := to_u64 (remain_recv_len_ r - (rbuf_pos_ r - header_len)) in
        let r := put_rbuf rest remain r in
        if reply_100continue_ r && negb (remain =? 0) then
          let! p := SetStatusCode 100 (response_ c) in
          Ret (Returns kReadAll (put_response p (put_request (put_content (content_type_ r) false remain r) c)) s)
        else if remain =? 0 then
          Ret (Again (put_request (put_req_status kBodyReceived r) (put_handles (HandleBodyData rest (handles_ c)) c)) s)
        else Ret (Again (put_request r c) s)
    else Ret (Again c s).

(** The state [kBodyReceiving]. *)
Definition receive_body c (s : sock) : outcome round :=
  let '(st, c, s) := DoRead c s in
  if negb (bool_decide (st = kOk)) then Ret (Returns st (closed c) s)
  else
    let r := request_ c in
    let '(r, u) :=
      if (rbuf_pos_ r =? kHTTPMaxMessage) || (remain_recv_len_ r =? 0)
      then (put_rbuf [] (remain_recv_len_ r) r, HandleBodyData (rbuf_ r) (handles_ c))
      else (r, handles_ c) in
    let r := if remain_recv_len_ r =? 0 then put_req_status kBodyReceived r else r in
    Ret (Again (put_request r (put_handles u c)) s).

(** The state [kBodyReceived]. *)
Definition prepare_response c (s : sock) : outcome round :=
  let '(ops, u) := PrepareResponse (handles_ c) in
  let! p := apply_ops ops (response_ c) in
  Ret (Returns kReadAll (put_response p (put_handles u (put_request (put_req_status kNewRequest (request_ c)) c))) s).

Definition read_round c (s : sock) : outcome round :=
  match req_status_ (request_ c) with
  | kHeaderReceiving => receive_header c s
  | kBodyReceiving => receive_body c s
  | kBodyReceived => prepare_response c s
  | kNewRequest => Ret (Again c s)
  end.

Fixpoint read_rounds (fuel : nat) c (s : sock) : outcome (ReadStatus * HTTPConn U * sock) :=
  match fuel with
  | O => Fault Diverges
  | S fuel =>
      let! r := read_round c s in
      match r with
      | Returns st c s => Ret (st, c, s)
      | Again c s => read_rounds fuel c s
      end
  end.

(** [ReadData]; the bound on the rounds is what the socket may still give. *)
Definition ReadData c (s : sock) : outcome (ReadStatus * HTTPConn U * sock) :=
  let fuel := (rd_work (rdq s) + 3)%nat in
  if bool_decide (req_status_ (request_ c) = kNewRequest) then
    let c := put_request (request_Reset (ip_port_ (http_base c)) (request_ c)) c in
    if finished_ (response_ c) then
      read_rounds fuel (put_request (put_req_status kHeaderReceiving (request_ c))
                          (put_response (response_Reset (response_ c)) c)) s
    else Ret (kReadHalf, c, s)
  else read_rounds fuel c s.

Definition GetRequest c (s : sock) : outcome (ReadStatus * HTTPConn U * sock) :=
  let! (status, c, s) := ReadData c s in
  Ret (status, if bool_decide (status = kReadAll) then put_base (PinkConn.set_is_reply true (http_base c)) c else c, s).

(** * Sending *)

(** [write] of [buf_len_] bytes from [wbuf_pos_] on. *)
Definition send_buf (p : HTTPResponse) (s : sock) : outcome (ioret * sock) :=
  if (buf_len_ p <? 0) || (zlen (wbuf_ p) <? wbuf_pos_ p + buf_len_ p) then Fault OutOfBounds
  else Ret (sys_write (ztake (buf_len_ p) (zdrop (wbuf_pos_ p) (wbuf_ p))) s).

(** How a part of [Flush] ends. *)
Inductive flush : Type :=
  | Done (ok : bool) (c : HTTPConn U) (s : sock)
  | Goes (c : HTTPConn U) (s : sock).

Definition prepare_header c (s : sock) : outcome flush :=
  let p := response_ c in
  if bool_decide (resp_status_ p = kPrepareHeader) then
    let! p' := SerializeHeader p in
    match p' with
    | None => Ret (Done false c s)
    | Some p =>
        if kHTTPMaxHeader <? buf_len_ p then Ret (Done false (put_response p c) s)
        else Ret (Goes (put_response (put_resp kSendingHeader (buf_len_ p) (wbuf_pos_ p) (remain_send_len_ p) (finished_ p) p) c) s)
    end
  else Ret (Goes c s).

Definition send_header c (s : sock) : outcome flush :=
  let p := response_ c in
  if bool_decide (resp_status_ p = kSendingHeader) then
    let! (n, s) := send_buf p s in
    match n with
    | IoErr EAGAIN => Ret (Done true c s)
    | IoErr _ => Ret (Done false c s)
    | IoLen n =>
        if n <=? 0 then Ret (Done false c s)
        else if n =? buf_len_ p then
          if status_code_ p =? 100
          then Ret (Done true (put_response (put_resp kPrepareHeader 0 0 (remain_send_len_ p) true p) c) s)
          else Ret (Goes (put_response (put_resp kSendingBody 0 0 (remain_send_len_ p) (finished_ p) p) c) s)
        else Ret (Goes (put_response (put_resp kSendingHeader (buf_len_ p - n) (wbuf_pos_ p + n) (remain_send_len_ p) (finished_ p) p) c) s)
    end
  else Ret (Goes c s).

(** The next piece of the body, when the buffer is empty. *)
Definition fill_body c : outcome (HTTPConn U) :=
  let p := response_ c in
  if buf_len_ p =? 0 then
    let needed_size := Z.min (kHTTPMaxMessage - wbuf_pos_ p) (remain_send_len_ p) in
    let '(res, u) := WriteResponseBody needed_size (handles_ c) in
    match res with
    | Filled d =>
        if kHTTPMaxMessage <? wbuf_pos_ p + zlen d then Fault OutOfBounds
        else Ret (put_response (put_wbuf (ztake (wbuf_pos_ p) (wbuf_ p) ++ d ++ zdrop (wbuf_pos_ p + zlen d) (wbuf_ p)) (zlen d) p)
                    (put_handles u c))
    | Negative n => Ret (put_response (put_wbuf (wbuf_ p) n p) (put_handles u c))
    end
  else Ret c.

Definition send_body c (s : sock) : outcome flush :=
  let p := response_ c in
  if bool_decide (resp_status_ p = kSendingBody) then
    if remain_send_len_ p =? 0
    then Ret (Done true (put_response (put_resp kPrepareHeader (buf_len_ p) (wbuf_pos_ p) 0 true p) c) s)
    else
      let! c := fill_body c in
      let p := response_ c in
      if buf_len_ p =? -1 then Ret (Done false c s)
      else
        let! (n, s) := send_buf p s in
        match n with
        | IoErr EAGAIN => Ret (Done true c s)
        | IoErr _ => Ret (Done false c s)
        | IoLen n =>
            if n <=? 0 then Ret (Done false c s)
            else
              let pos := wbuf_pos_ p + n in
              let pos := if pos =? kHTTPMaxMessage then 0 else pos in
              Ret (Goes (put_response (put_resp kSendingBody (buf_len_ p - n) pos (to_u64 (remain_send_len_ p - n)) (finished_ p) p) c) s)
        end
  else Ret (Goes c s).

(** [Flush] *)
Definition then_flush (r : flush) (k : HTTPConn U -> sock -> outcome flush) : outcome flush :=
  match r with Done ok c s => Ret (Done ok c s) | Goes c s => k c s end.

Definition Flush c (s : sock) : outcome (bool * HTTPConn U * sock) :=
  let! r := prepare_header c s in
  let! r := then_flush r send_header in
  let! r := then_flush r send_body in
  match r with Done ok c s => Ret (ok, c, s) | Goes c s => Ret (true, c, s) end.

Definition SendReply c (s : sock) : outcome (WriteStatus * HTTPConn U * sock) :=
  let! (ok, c, s) := Flush c s in
  Ret (if negb ok then kWriteError else if finished_ (response_ c) then kWriteAll else kWriteHalf, c, s).
End conn.
