(* ===== verification/HttpFacts.v ===== *)
(** Facts about the HTTP connection: its parser ends and keeps the buffer, and
    reading a request ends and stays in the buffer. *)
From S2P Require Import Pink Prelude Sys StdMap PinkConn HttpConn.

(** * The parser ends *)
Section parser.
Context (StringToLower : bytes -> bytes).

Lemma ParseParameters_ends fuel data query :
  (length data < fuel)%nat -> exists q, ParseParameters fuel data query = Ret q.
Proof.
  revert data query. induction fuel as [|fuel IH]; intros data query Hf; [lia|].
  destruct data as [|c data]; [by eexists|]. cbn [ParseParameters]. apply IH.
  rewrite length_drop. simpl in *. lia.
Qed.

(** What the parser leaves alone. *)
Definition same_buffer (r r' : HTTPRequest) : Prop :=
  rbuf_ r' = rbuf_ r /\ req_status_ r' = req_status_ r.

Lemma same_buffer_trans a b d : same_buffer a b -> same_buffer b d -> same_buffer a d.
Proof. intros [H1 H2] [H3 H4]. split; congruence. Qed.

Lemma ParseHeadLine_same line r : same_buffer r (ParseHeadLine StringToLower line r).
Proof.
  unfold ParseHeadLine. generalize (@nil ascii) at 1. generalize (@nil ascii).
  revert r. induction line as [|c line IH]; intros r value key; [done|]. cbn [head_bytes].
  destruct (head_byte StringToLower c key value r) as [[key' value'] r'] eqn:E.
  eapply same_buffer_trans; [|apply IH].
  unfold head_byte in E. destruct (parse_status_ r); repeat case_match; simplify_eq; done.
Qed.

Lemma ParseGetUrl_ends r : exists r', ParseGetUrl r = Ret r' /\ same_buffer r r'.
Proof.
  unfold ParseGetUrl. set (path := match sm_find _ _ with Some _ => _ | None => _ end). clearbody path.
  destruct (index_of "?"%char path) as [n|]; [|by eexists].
  destruct (ParseParameters_ends (S (length path)) (drop (S n) path) (query_params_ r)) as [q ->];
    [rewrite length_drop; lia|]. by eexists.
Qed.

Lemma header_lines_ends fuel data remain r :
  (Z.to_nat remain < fuel)%nat -> exists r', header_lines StringToLower fuel data remain r = Ret r' /\ same_buffer r r'.
Proof.
  revert data remain r. induction fuel as [|fuel IH]; intros data remain r Hf; [lia|]. cbn [header_lines].
  destruct (Z.ltb_spec 4 remain) as [Hr|Hr]; [|by eexists].
  destruct (IH (drop (S (find_lf data (Z.to_nat remain))) data) (remain - (Z.of_nat (find_lf data (Z.to_nat remain)) + 1))
    (ParseHeadLine StringToLower (take (S (find_lf data (Z.to_nat remain))) data) r)) as (r' & -> & Hr'); [lia|].
  eexists. split; [done|]. eapply same_buffer_trans; [apply ParseHeadLine_same|done].
Qed.

(** The ways in which a request can stop the program. *)
Definition http_fault (e : fault) : Prop := e = InvalidArgument \/ e = OutOfRange \/ e = OutOfBounds \/ e = AssertFailed.

Lemma stoul_faults s : wp http_fault (fun _ => True) (stoul s).
Proof. unfold stoul, http_fault. repeat case_match; simpl; auto. Qed.

Lemma ParseHeader_wp r :
  wp http_fault (fun '(n, r') => same_buffer r r') (ParseHeader StringToLower r).
Proof.
  unfold ParseHeader. destruct (kHTTPMaxMessage <=? rbuf_pos_ r); [by right; right; left|].
  destruct (find_sub (CRLF ++ CRLF) (cstr (rbuf_ r))) as [sep|]; [|done].
  destruct (Z.of_nat sep + 4 <=? 5); [done|].
  destruct (header_lines_ends (S (Z.to_nat (Z.of_nat sep + 4))) (rbuf_ r) (Z.of_nat sep + 4) r) as (r1 & -> & H1); [lia|].
  cbn [obind]. destruct (ParseGetUrl_ends r1) as (r2 & -> & H2). cbn [obind].
  apply wp_bind. destruct (sm_find (bs "content-length") (headers_ r2)) as [v|].
  - eapply wp_mono; [|apply stoul_faults]. intros remain _. simpl. by eapply same_buffer_trans.
  - simpl. by eapply same_buffer_trans.
Qed.
End parser.

(** * Reading ends *)
Section conn.
Context {U : Type} {H : HTTPHandles U}.
Context (StringToLower : bytes -> bytes).
Implicit Types c : HTTPConn U.

(** What reading keeps: which connection it is, and the size of its buffer. *)
Record reading c : Prop := { rd_fits : rbuf_pos_ (request_ c) <= kHTTPMaxMessage }.

Definition same_conn c c' : Prop := http_base c' = http_base c.

Lemma DoRead_spec c s st c' s' :
  reading c -> DoRead c s = (st, c', s') ->
  reading c' /\ same_conn c c' /\ response_ c' = response_ c /\ handles_ c' = handles_ c /\
  req_status_ (request_ c') = req_status_ (request_ c) /\ wrq s' = wrq s /\ sent s' = sent s /\
  (st = kOk \/ st = kReadHalf \/ st = kReadClose) /\
  (st = kOk -> (rd_work (rdq s') < rd_work (rdq s))%nat).
Proof.
  intros [Hf] Hd. unfold DoRead in Hd. destruct (sys_read _ s) as [[n d] s1] eqn:R.
  assert (Hc : 0 <= kHTTPMaxMessage - rbuf_pos_ (request_ c)) by lia.
  pose proof (sys_read_work _ s n d s1 Hc R) as Hw. pose proof (sys_read_incoming _ s n d s1 Hc R) as (Hn & Hwq & Hse & _).
  destruct n as [n|e].
  - destruct Hn as [-> Hle]. destruct (Z.ltb_spec 0 (zlen d)) as [Hz|Hz]; simplify_eq.
    + split_and!; try done; [|by left|].
      * split. unfold rbuf_pos_ in *. simpl. rewrite zlen_app. lia.
      * intros _. destruct (zlen d); try lia; exact Hw.
    + split_and!; try done. by right; right.
  - destruct e; simplify_eq; split_and!; try done; auto.
Qed.

(** What a round does. *)
Definition round_ok c (s : sock) (r : round) : Prop :=
  match r with
  | Returns st c' s' => same_conn c c' /\ reading c' /\ wrq s' = wrq s /\ sent s' = sent s /\
      (st = kReadAll \/ st = kReadHalf \/ st = kReadClose \/ st = kReadError)
  | Again c' s' => same_conn c c' /\ reading c' /\ wrq s' = wrq s /\ sent s' = sent s /\
      req_status_ (request_ c') <> kNewRequest /\ (rd_work (rdq s') < rd_work (rdq s))%nat
  end.

Lemma closed_reading c : reading c -> reading (closed c).
Proof. intros [Hf]. split. exact Hf. Qed.

Lemma wp_true {A} F (P : A -> Prop) m : wp F (fun _ => True) m -> (forall a, P a) -> wp F P m.
Proof. intros Hw HP. eapply wp_mono; [|exact Hw]. auto. Qed.

Lemma SetStatusCode_wp code p : wp http_fault (fun _ => True) (SetStatusCode code p).
Proof. unfold SetStatusCode. destruct (valid_status code); simpl; [done|]. by right; right; right. Qed.

Lemma apply_ops_wp l p : wp http_fault (fun _ => True) (apply_ops l p).
Proof.
  revert p. induction l as [|o l IH]; intros p; [done|]. destruct o; cbn [apply_ops]; auto.
  apply wp_bind. eapply wp_mono; [|apply SetStatusCode_wp]. auto.
Qed.

Lemma receive_header_ok c s :
  reading c -> req_status_ (request_ c) <> kNewRequest ->
  wp http_fault (round_ok c s) (receive_header StringToLower c s).
Proof.
  intros Hr Hn. unfold receive_header. destruct (DoRead c s) as [[st c1] s1] eqn:D.
  destruct (DoRead_spec _ _ _ _ _ Hr D) as (Hr1 & Hs1 & _ & _ & Hq & Hw & Hse & Hst & Hk).
  destruct (decide (st = kOk)) as [->|Hne].
  2:{ rewrite bool_decide_eq_false_2 by done. simpl. split_and!; try done; [by apply closed_reading|naive_solver]. }
  rewrite bool_decide_eq_true_2 by done. cbn [negb]. apply wp_bind.
  eapply wp_mono; [|apply ParseHeader_wp]. intros [n r] [Hb Hqr].
  assert (Hrr : reading (put_request r c1)) by (destruct Hr1; split; unfold rbuf_pos_ in *; simpl; by rewrite Hb).
  destruct ((n <? 0) || _)%bool; [simpl; split_and!; try done; [by apply closed_reading|auto]|].
  destruct (0 <? n) eqn:En.
  2:{ simpl. split_and!; try done; [congruence|by apply Hk]. }
  destruct (HandleRequest _ _) as [need u]. destruct need.
  { simpl. split_and!; try done; [destruct Hrr as [Hfit]; by split|by apply Hk]. }
  assert (Hrest : zlen (zdrop n (rbuf_ r)) <= zlen (rbuf_ r)) by (unfold zdrop, zlen; rewrite length_drop; lia).
  destruct Hrr as [Hfit]. unfold rbuf_pos_ in Hfit. simpl in Hfit.
  destruct (_ && _)%bool.
  - apply wp_bind. apply wp_true; [apply SetStatusCode_wp|]. intros p. simpl. split_and!; try done; [|by left].
    split. unfold rbuf_pos_. simpl. lia.
  - destruct (_ =? 0); simpl; (split_and!; try done; [split; unfold rbuf_pos_; simpl; lia|by apply Hk]).
Qed.

Lemma receive_body_ok c s :
  reading c -> req_status_ (request_ c) <> kNewRequest -> wp http_fault (round_ok c s) (receive_body c s).
Proof.
  intros Hr Hn. unfold receive_body. destruct (DoRead c s) as [[st c1] s1] eqn:D.
  destruct (DoRead_spec _ _ _ _ _ Hr D) as (Hr1 & Hs1 & _ & _ & Hq & Hw & Hse & Hst & Hk).
  destruct (decide (st = kOk)) as [->|Hne].
  2:{ rewrite bool_decide_eq_false_2 by done. simpl. split_and!; try done; [by apply closed_reading|naive_solver]. }
  rewrite bool_decide_eq_true_2 by done. cbn [negb]. destruct Hr1 as [Hfit].
  assert (Hnew : req_status_ (request_ c1) <> kNewRequest) by congruence.
  destruct ((_ =? kHTTPMaxMessage) || _)%bool; simpl; destruct (remain_recv_len_ _ =? 0); simpl;
    (split_and!; try done; try (by apply Hk); split; unfold rbuf_pos_, kHTTPMaxMessage in *; simpl; rewrite ?zlen_nil; lia).
Qed.

Lemma read_rounds_ok fuel c s :
  reading c -> req_status_ (request_ c) <> kNewRequest -> (rd_work (rdq s) + 2 <= fuel)%nat ->
  wp http_fault (fun '(st, c', s') => round_ok c s (Returns st c' s')) (read_rounds StringToLower fuel c s).
Proof.
  revert c s. induction fuel as [|fuel IH]; intros c s Hr Hn Hf; [lia|]. cbn [read_rounds]. apply wp_bind.
  assert (Hnext : forall r, round_ok c s r -> wp http_fault (fun '(st, c', s') => round_ok c s (Returns st c' s'))
    (match r with Returns st c s => Ret (st, c, s) | Again c s => read_rounds StringToLower fuel c s end)).
  { intros [st c1 s1|c1 s1]; [done|]. intros (Hs & Hr1 & Hw & Hse & Hn1 & Hlt).
    eapply wp_mono; [|apply IH; [done|done|lia]]. intros [[st c2] s2] (? & ? & ? & ? & ?). simpl.
    split_and!; try done; unfold same_conn in *; congruence. }
  unfold read_round. destruct (req_status_ (request_ c)) eqn:E; [done| | |].
  - eapply wp_mono; [exact Hnext|]. apply receive_header_ok; [done|]. by rewrite E.
  - eapply wp_mono; [exact Hnext|]. apply receive_body_ok; [done|]. by rewrite E.
  - unfold prepare_response. destruct (PrepareResponse (handles_ c)) as [ops u]. apply wp_bind.
    apply wp_true; [apply apply_ops_wp|]. intros p. simpl. split_and!; try done; [by destruct Hr; split|by left].
Qed.

(** A whole call. *)
Lemma GetRequest_ok c s :
  reading c ->
  wp http_fault (fun '(st, c', s') => conn_id (http_base c') = conn_id (http_base c) /\ reading c' /\
    wrq s' = wrq s /\ sent s' = sent s /\
    (st = kReadAll \/ st = kReadHalf \/ st = kReadClose \/ st = kReadError)) (GetRequest StringToLower c s).
Proof.
  intros Hr. unfold GetRequest. apply wp_bind.
  assert (Hend : forall c1 st c' s', same_conn c c1 -> round_ok c1 s (Returns st c' s') ->
    wp http_fault (fun '(st, c', s') => conn_id (http_base c') = conn_id (http_base c) /\ reading c' /\
      wrq s' = wrq s /\ sent s' = sent s /\ (st = kReadAll \/ st = kReadHalf \/ st = kReadClose \/ st = kReadError))
    (Ret (st, if bool_decide (st = kReadAll) then put_base (PinkConn.set_is_reply true (http_base c')) c' else c', s'))).
  { intros c1 st c' s' Hc1 (Hs & Hrd & Hw & Hse & Hst). unfold same_conn in *. simpl.
    case_bool_decide; simpl; split_and!; try done; try (by destruct Hrd; split); unfold conn_id; simpl; by rewrite Hs, Hc1. }
  unfold ReadData. case_bool_decide as E.
  - destruct (finished_ _).
    + eapply wp_mono; [|apply read_rounds_ok]; [intros [[st c'] s']; by apply Hend| | |lia]; [|done].
      split. done.
    + apply (Hend (put_request (request_Reset (ip_port_ (http_base c)) (request_ c)) c)); [done|].
      simpl. split_and!; try done. by right; left.
  - eapply wp_mono; [|apply read_rounds_ok; [done|done|lia]]. intros [[st c'] s']. by apply Hend.
Qed.
End conn.
