(* ===== verification/HttpParse.v ===== *)
(** The text of an HTTP request's head as a client writes it, and what the parser
    makes of it. *)
From S2P Require Import Pink Prelude Sys StdMap PinkConn HttpConn HttpFacts.

(** * The text *)

Definition SEP : bytes := CRLF ++ CRLF.

(** A request: the parts of its head. *)
Record head : Type := mkHead {
  h_method : bytes;
  h_path : bytes;
  h_query : list (bytes * bytes);
  h_version : bytes;
  h_headers : list (bytes * bytes)
}.

Fixpoint query_text (q : list (bytes * bytes)) : bytes :=
  match q with
  | [] => []
  | [(k, v)] => k ++ "="%char :: v
  | (k, v) :: q => k ++ "="%char :: v ++ "&"%char :: query_text q
  end.
Definition url_text (h : head) : bytes :=
  h_path h ++ match h_query h with [] => [] | q => "?"%char :: query_text q end.
Definition first_line (h : head) : bytes := h_method h ++ SP :: url_text h ++ SP :: h_version h.
Definition field_line (kv : bytes * bytes) : bytes := kv.1 ++ ":"%char :: SP :: kv.2.
Definition lines_text (ls : list bytes) : bytes := concat (map (fun l => l ++ CRLF) ls).
Definition head_lines (h : head) : list bytes := first_line h :: map field_line (h_headers h).
Definition head_text (h : head) : bytes := lines_text (head_lines h) ++ CRLF.

(** The text in pieces. *)
Lemma lines_text_cons l ls : lines_text (l :: ls) = l ++ CRLF ++ lines_text ls.
Proof. unfold lines_text. cbn [map concat]. by rewrite <- app_assoc. Qed.

(** What the maps of the parser are to hold. *)
Definition set_all (l : list (bytes * bytes)) (m : params) : params :=
  fold_left (fun m kv => sm_set kv.1 kv.2 m) l m.
Definition lower_keys (StringToLower : bytes -> bytes) (l : list (bytes * bytes)) : list (bytes * bytes) :=
  map (fun kv => (StringToLower kv.1, kv.2)) l.

(** No byte of [l] is one of [cs]. *)
Definition free (cs l : bytes) : Prop := Forall (fun c => c ∉ cs) l.

Lemma free_not_in cs l c : free cs l -> c ∈ cs -> c ∉ l.
Proof. intros Hf Hc Hl. unfold free in Hf. rewrite Forall_forall in Hf. by apply (Hf c). Qed.
Lemma free_cons cs c l : free cs (c :: l) <-> (c ∉ cs) /\ free cs l.
Proof. apply (Forall_cons_iff (fun c => c ∉ cs)). Qed.
Lemma free_app cs l k : free cs (l ++ k) <-> free cs l /\ free cs k.
Proof. apply (Forall_app (fun c => c ∉ cs)). Qed.
Lemma free_sub cs ds l : free ds l -> cs ⊆ ds -> free cs l.
Proof. intros Hf Hs. eapply Forall_impl; [exact Hf|]. set_solver. Qed.

(** A head that can be written and read back. *)
Record head_ok (h : head) : Prop := {
  ok_method : free [NUL; SP; LF] (h_method h);
  ok_path : free [NUL; SP; LF; "?"%char] (h_path h);
  ok_query : Forall (fun kv => free [NUL; SP; LF; "&"%char; "="%char] kv.1 /\ free [NUL; SP; LF; "&"%char] kv.2) (h_query h);
  ok_version : free [NUL; CR; LF] (h_version h);
  ok_headers : Forall (fun kv => free [NUL; SP; LF; ":"%char] kv.1 /\ free [NUL; CR; LF] kv.2) (h_headers h)
}.

Lemma query_text_free h : head_ok h -> free [NUL; SP; LF] (query_text (h_query h)).
Proof.
  intros [_ _ Hq _ _]. induction Hq as [|[k v] q [Hk Hv] _ IH]; [constructor|]. simpl in Hk, Hv.
  assert (free [NUL; SP; LF] k) by (eapply free_sub; [exact Hk|set_solver]).
  assert (free [NUL; SP; LF] v) by (eapply free_sub; [exact Hv|set_solver]).
  cbn [query_text]. destruct q; repeat (rewrite free_app || rewrite free_cons); split_and!; try done; set_solver.
Qed.

Lemma url_text_free h : head_ok h -> free [NUL; SP; LF] (url_text h).
Proof.
  intros Ho. unfold url_text. apply free_app. split; [eapply free_sub; [apply Ho|set_solver]|].
  pose proof (query_text_free h Ho). destruct (h_query h); [constructor|]. apply free_cons. split; [set_solver|done].
Qed.

Lemma head_lines_free h : head_ok h -> Forall (fun l => free [NUL; LF] l /\ l <> []) (head_lines h).
Proof.
  intros Ho. pose proof (url_text_free h Ho) as Hu. destruct Ho as [Hm _ _ Hv Hh]. apply Forall_cons. split.
  - unfold first_line. split; [|by destruct (h_method h)].
    rewrite free_app, free_cons, free_app, free_cons.
    split_and!; try set_solver; eapply free_sub; try done; set_solver.
  - apply Forall_map. eapply Forall_impl; [exact Hh|]. intros [k v] [Hk Hw]. simpl in *. unfold field_line.
    split; [|by destruct k]. rewrite free_app, !free_cons. split_and!; try set_solver; eapply free_sub; try done; set_solver.
Qed.

(** * Finding the end of the head *)

Lemma is_prefix_app p a k : is_prefix p a = true -> is_prefix p (a ++ k) = true.
Proof.
  revert a. induction p as [|c p IH]; intros [|d a]; simpl; try done.
  intros [-> Ha]%andb_true_iff. simpl. by apply IH.
Qed.

Lemma is_prefix_length p a : is_prefix p a = true -> (length p <= length a)%nat.
Proof.
  revert a. induction p as [|x p IH]; intros [|y a]; simpl; try lia; try done.
  intros [_ Ha]%andb_true_iff. apply IH in Ha. lia.
Qed.

Lemma is_prefix_app_inv p a k :
  (length p <= length a)%nat -> is_prefix p (a ++ k) = true -> is_prefix p a = true.
Proof.
  revert a. induction p as [|x p IH]; intros [|y a]; simpl; try lia; try done.
  intros Hl [-> Ha]%andb_true_iff. apply IH; [lia|done].
Qed.

Lemma find_sub_bound pat l n : find_sub pat l = Some n -> (n + length pat <= length l)%nat.
Proof.
  revert n. induction l as [|c l IH]; intros n; cbn [find_sub]; destruct (is_prefix _ _) eqn:E; try done.
  - intros [= <-]. apply is_prefix_length in E. simpl in *. lia.
  - intros [= <-]. apply is_prefix_length in E. simpl in *. lia.
  - destruct (find_sub pat l); [|done]. intros [= <-]. specialize (IH _ eq_refl). simpl. lia.
Qed.

Lemma find_sub_app pat l k n : find_sub pat l = Some n -> find_sub pat (l ++ k) = Some n.
Proof.
  revert n. induction l as [|c l IH]; intros n; cbn [find_sub].
  - destruct (is_prefix pat []) eqn:E; [|done]. intros [= <-]. apply (is_prefix_app _ _ k) in E. simpl in E.
    destruct k; cbn [app find_sub]; by rewrite E.
  - destruct (is_prefix pat (c :: l)) eqn:E.
    + intros [= <-]. apply (is_prefix_app _ _ k) in E. cbn [app find_sub] in *. by rewrite E.
    + destruct (find_sub pat l) as [m|] eqn:F; [|done]. intros [= <-]. cbn [app find_sub].
      destruct (is_prefix pat (c :: l ++ k)) eqn:E2; [|by rewrite (IH m)].
      apply find_sub_bound in F. apply (is_prefix_app_inv pat (c :: l) k) in E2; [congruence|simpl; lia].
Qed.

(** A line is not the end of the head. *)
Lemma find_sep_line l t :
  LF ∉ l -> is_prefix CRLF t = false ->
  find_sub SEP (l ++ CRLF ++ t) = Nat.add (length l + 2) <$> find_sub SEP t.
Proof.
  intros Hl Ht. induction l as [|x l IH].
  - cbn [app CRLF find_sub]. change (is_prefix SEP (CR :: LF :: t)) with (is_prefix CRLF t). rewrite Ht.
    change (is_prefix SEP (LF :: t)) with false. by destruct (find_sub SEP t).
  - rewrite not_elem_of_cons in Hl. destruct Hl as [Hx Hl]. specialize (IH Hl). cbn [app find_sub].
    assert (is_prefix SEP (x :: l ++ CRLF ++ t) = false) as ->.
    { destruct l as [|y l]; simpl; [by destruct (CR =?c x)|].
      rewrite not_elem_of_cons in Hl. rewrite (ceq_neq LF y) by (by destruct Hl). by destruct (CR =?c x). }
    rewrite IH. by destruct (find_sub SEP t).
Qed.

Lemma find_sep_lines ls t :
  Forall (fun l => (LF ∉ l) /\ l <> []) ls -> ls <> [] ->
  find_sub SEP (lines_text ls ++ CRLF ++ t) = Some (length (lines_text ls) - 2)%nat.
Proof.
  induction ls as [|l ls IH]; [done|]. intros [[Hl Hn] Hls]%Forall_cons _.
  rewrite lines_text_cons. rewrite <- !app_assoc. destruct ls as [|l2 ls].
  - clear IH. cbn [lines_text map concat app]. induction l as [|x l IH]; [done|].
    clear Hn. rewrite not_elem_of_cons in Hl. destruct Hl as [Hx Hl]. cbn [app find_sub].
    destruct l as [|y l].
    + simpl. destruct (CR =?c x); done.
    + rewrite IH by done. assert (is_prefix SEP (x :: (y :: l) ++ CRLF ++ CRLF ++ t) = false) as ->.
      { simpl. rewrite not_elem_of_cons in Hl. rewrite (ceq_neq LF y) by (by destruct Hl). by destruct (CR =?c x). }
      simpl. f_equal. rewrite !length_app. simpl. lia.
  - rewrite find_sep_line; [|done|].
    + rewrite IH by done. simpl. f_equal. rewrite !length_app. simpl.
      assert (2 <= length (lines_text (l2 :: ls)))%nat; [|lia]. rewrite lines_text_cons, !length_app. simpl. lia.
    + rewrite lines_text_cons. apply Forall_cons in Hls as [[Hl2 Hn2] _].
      destruct l2 as [|x [|y l2]]; [done| |]; simpl.
      * by destruct (CR =?c x).
      * rewrite !not_elem_of_cons in Hl2. rewrite (ceq_neq LF y) by naive_solver. by destruct (CR =?c x).
Qed.

Lemma head_text_nul h : head_ok h -> NUL ∉ head_text h.
Proof.
  intros Ho. pose proof (head_lines_free h Ho) as Hf. unfold head_text.
  assert (NUL ∉ lines_text (head_lines h)) as Hn; [|set_solver].
  induction Hf as [|l ls [Hl _] _ IH]; [set_solver|]. rewrite lines_text_cons.
  pose proof (free_not_in _ _ NUL Hl ltac:(set_solver)). set_solver.
Qed.

Lemma head_lines_sep h : head_ok h -> Forall (fun l => (LF ∉ l) /\ l <> []) (head_lines h).
Proof.
  intros Ho. eapply Forall_impl; [by apply head_lines_free|]. intros l [Hl Hn]. split; [|done].
  eapply free_not_in; [exact Hl|set_solver].
Qed.

Lemma head_text_length h : (6 <= length (head_text h))%nat.
Proof.
  unfold head_text, head_lines. rewrite lines_text_cons, !length_app. unfold first_line.
  rewrite length_app. simpl. rewrite length_app. simpl. lia.
Qed.

(** The whole head is found, and no proper part of it. *)
Lemma find_head h rest :
  head_ok h -> find_sub SEP (cstr (head_text h ++ rest)) = Some (length (head_text h) - 4)%nat.
Proof.
  intros Ho. rewrite cstr_app by by apply head_text_nul. unfold head_text. rewrite <- app_assoc.
  rewrite find_sep_lines; [|by apply head_lines_sep|done]. f_equal. rewrite length_app. simpl. lia.
Qed.

Lemma find_part_of_head h pre post :
  head_ok h -> pre ++ post = head_text h -> post <> [] -> find_sub SEP (cstr pre) = None.
Proof.
  intros Ho Hpp Hne. pose proof (head_text_nul h Ho) as Hn. rewrite <- Hpp in Hn.
  rewrite cstr_id by set_solver. destruct (find_sub SEP pre) as [n|] eqn:E; [|done]. exfalso.
  pose proof (find_sub_bound _ _ _ E) as Hb. apply (find_sub_app _ _ post) in E. rewrite Hpp in E.
  pose proof (find_head h [] Ho) as F. rewrite app_nil_r, cstr_id in F by by rewrite <- Hpp.
  rewrite E in F. injection F as ->. rewrite <- Hpp, length_app in Hb. destruct post; [done|]. simpl in Hb.
  pose proof (head_text_length h). rewrite <- Hpp, length_app in H. simpl in H. lia.
Qed.

(** * Reading the lines *)
Section lines.
Context (StringToLower : bytes -> bytes).
Abbreviation line_bytes := (head_bytes StringToLower).

Definition put (st : RequestParserStatus) (m u v : bytes) (h : params) (r : HTTPRequest) : HTTPRequest :=
  put_line st m u v h r.

(** One byte of a line whose state is known. *)
Ltac byte_step Hst :=
  cbn [app CRLF head_bytes]; unfold head_byte at 1; simpl parse_status_; rewrite ?Hst;
  repeat first [rewrite ceq_refl | rewrite ceq_neq by (done || set_solver)]; cbn [negb andb].

Lemma read_method l t k v r :
  parse_status_ r = kHeaderMethod -> SP ∉ l ->
  line_bytes (l ++ SP :: t) k v r = line_bytes t k v (put_line kHeaderPath (method_ r ++ l) (url_ r) (version_ r) (headers_ r) r).
Proof.
  revert r. induction l as [|c l IH]; intros r Hst Hl.
  - byte_step Hst. simpl. by rewrite app_nil_r.
  - rewrite not_elem_of_cons in Hl. destruct Hl as [Hc Hl]. byte_step Hst. rewrite IH; [|done|done]. simpl. by rewrite <- app_assoc.
Qed.

Lemma read_url l t k v r :
  parse_status_ r = kHeaderPath -> SP ∉ l ->
  line_bytes (l ++ SP :: t) k v r = line_bytes t k v (put_line kHeaderVersion (method_ r) (url_ r ++ l) (version_ r) (headers_ r) r).
Proof.
  revert r. induction l as [|c l IH]; intros r Hst Hl.
  - byte_step Hst. simpl. by rewrite app_nil_r.
  - rewrite not_elem_of_cons in Hl. destruct Hl as [Hc Hl]. byte_step Hst. rewrite IH; [|done|done]. simpl. by rewrite <- app_assoc.
Qed.

Lemma read_version l k v r :
  parse_status_ r = kHeaderVersion -> free [CR; LF] l ->
  line_bytes (l ++ CRLF) k v r = put_line kHeaderParamKey (method_ r) (url_ r) (version_ r ++ l) (headers_ r) r.
Proof.
  revert r. induction l as [|c l IH]; intros r Hst Hl.
  - byte_step Hst. byte_step Hst. by rewrite app_nil_r.
  - rewrite free_cons in Hl. destruct Hl as [Hc Hl]. byte_step Hst. rewrite IH; [|done|done]. simpl. by rewrite <- app_assoc.
Qed.

Lemma read_key l t k v r :
  parse_status_ r = kHeaderParamKey -> free [SP; ":"%char] l ->
  line_bytes (l ++ ":"%char :: SP :: t) k v r =
  line_bytes t (k ++ l) v (put_line kHeaderParamValue (method_ r) (url_ r) (version_ r) (headers_ r) r).
Proof.
  revert k. induction l as [|c l IH]; intros k Hst Hl.
  - byte_step Hst. byte_step Hst. by rewrite app_nil_r.
  - rewrite free_cons in Hl. destruct Hl as [Hc Hl]. byte_step Hst. rewrite IH; [|done|done]. by rewrite <- app_assoc.
Qed.

Lemma read_value l k v r :
  parse_status_ r = kHeaderParamValue -> free [CR; LF] l ->
  line_bytes (l ++ CRLF) k v r =
  put_line kHeaderParamKey (method_ r) (url_ r) (version_ r) (sm_set (StringToLower k) (v ++ l) (headers_ r)) r.
Proof.
  revert v. induction l as [|c l IH]; intros v Hst Hl.
  - byte_step Hst. byte_step Hst. by rewrite app_nil_r.
  - rewrite free_cons in Hl. destruct Hl as [Hc Hl]. byte_step Hst. rewrite IH; [|done|done]. by rewrite <- app_assoc.
Qed.

Lemma read_first_line h r :
  head_ok h -> parse_status_ r = kHeaderMethod -> method_ r = [] -> url_ r = [] -> version_ r = [] ->
  ParseHeadLine StringToLower (first_line h ++ CRLF) r =
  put_line kHeaderParamKey (h_method h) (url_text h) (h_version h) (headers_ r) r.
Proof.
  intros Ho Hst Hm Hu Hv. unfold ParseHeadLine, first_line. app_norm.
  rewrite read_method; [|done|eapply free_not_in; [apply Ho|set_solver]].
  rewrite read_url; [|done|eapply free_not_in; [by apply url_text_free|set_solver]].
  rewrite read_version; [|done|eapply free_sub; [apply Ho|set_solver]]. simpl. by rewrite Hm, Hu, Hv.
Qed.

Lemma read_field k v r :
  free [NUL; SP; LF; ":"%char] k -> free [NUL; CR; LF] v -> parse_status_ r = kHeaderParamKey ->
  ParseHeadLine StringToLower (field_line (k, v) ++ CRLF) r =
  put_line kHeaderParamKey (method_ r) (url_ r) (version_ r) (sm_set (StringToLower k) v (headers_ r)) r.
Proof.
  intros Hk Hv Hst. unfold ParseHeadLine, field_line. cbn [fst snd]. app_norm.
  rewrite read_key; [|done|eapply free_sub; [exact Hk|set_solver]].
  rewrite read_value; [|done|eapply free_sub; [exact Hv|set_solver]]. done.
Qed.

(** The loop takes the lines one by one. *)
Lemma find_lf_line l t n : LF ∉ l -> (length l < n)%nat -> find_lf (l ++ LF :: t) n = length l.
Proof.
  revert n. induction l as [|c l IH]; intros [|n] Hl Hn; simpl in *; try lia.
  rewrite not_elem_of_cons in Hl. destruct Hl as [Hc Hl]. rewrite (ceq_neq c LF) by done. rewrite IH; [done|done|lia].
Qed.

Lemma header_line_step fuel l t remain r :
  LF ∉ l -> zlen l + 4 < remain + 2 -> 4 < remain ->
  header_lines StringToLower (S fuel) (l ++ CRLF ++ t) remain r =
  header_lines StringToLower fuel t (remain - (zlen l + 2)) (ParseHeadLine StringToLower (l ++ CRLF) r).
Proof.
  intros Hl Hr H4. cbn [header_lines]. rewrite (proj2 (Z.ltb_lt 4 remain)) by done.
  replace (l ++ CRLF ++ t) with ((l ++ [CR]) ++ LF :: t) by by app_norm.
  assert (Hlen : length (l ++ [CR]) = S (length l)) by (rewrite length_app; simpl; lia).
  rewrite find_lf_line; [|set_solver|unfold zlen in *; lia]. rewrite Hlen.
  replace (S (S (length l))) with (length ((l ++ [CR]) ++ [LF])) by (rewrite length_app, Hlen; simpl; lia).
  replace ((l ++ [CR]) ++ LF :: t) with (((l ++ [CR]) ++ [LF]) ++ t) by by app_norm.
  rewrite drop_app_length, take_app_length. f_equal; [unfold zlen; lia|]. by app_norm.
Qed.

Lemma header_fields_read fuel l t r :
  Forall (fun kv => free [NUL; SP; LF; ":"%char] kv.1 /\ free [NUL; CR; LF] kv.2) l ->
  parse_status_ r = kHeaderParamKey -> (length l < fuel)%nat ->
  header_lines StringToLower fuel (lines_text (map field_line l) ++ t) (zlen (lines_text (map field_line l)) + 2) r =
  Ret (put_line kHeaderParamKey (method_ r) (url_ r) (version_ r) (set_all (lower_keys StringToLower l) (headers_ r)) r).
Proof.
  revert fuel r. induction l as [|[k v] l IH]; intros fuel r Hf Hst Hfuel.
  - destruct fuel; [simpl in Hfuel; lia|]. cbn. f_equal. destruct r; simpl in *. by rewrite Hst.
  - apply Forall_cons in Hf as [[Hk Hv] Hf]. destruct fuel as [|fuel]; [simpl in Hfuel; lia|].
    cbn [map]. rewrite lines_text_cons, <- !app_assoc. cbn [fst snd] in *.
    assert (Hl : LF ∉ field_line (k, v)).
    { unfold field_line. simpl. pose proof (free_not_in _ _ LF Hk ltac:(set_solver)).
      pose proof (free_not_in _ _ LF Hv ltac:(set_solver)). set_solver. }
    assert (H2 : 2 <= zlen (field_line (k, v))) by (unfold field_line; simpl; zlen_lia).
    rewrite header_line_step; [|done|..].
    2,3: rewrite !zlen_app; change (zlen CRLF) with 2; zlen_pos; lia.
    rewrite read_field by done. rewrite !zlen_app. change (zlen CRLF) with 2.
    replace (zlen (field_line (k, v)) + (2 + zlen (lines_text (map field_line l))) + 2 - (zlen (field_line (k, v)) + 2))
      with (zlen (lines_text (map field_line l)) + 2) by lia.
    rewrite IH; [done|done|done|simpl in Hfuel; lia].
Qed.
End lines.

(** * The parameters of the query *)

Lemma ParseParameters_read fuel q m :
  Forall (fun kv => free [NUL; SP; LF; "&"%char; "="%char] kv.1 /\ free [NUL; SP; LF; "&"%char] kv.2) q ->
  (length q < fuel)%nat -> ParseParameters fuel (query_text q) m = Ret (set_all q m).
Proof.
  revert fuel m. induction q as [|[k v] q IH]; intros fuel m Hf Hfuel.
  { destruct fuel; [simpl in Hfuel; lia|done]. }
  apply Forall_cons in Hf as [[Hk Hv] Hf]. simpl in Hk, Hv.
  assert (Hke : "="%char ∉ k) by (eapply free_not_in; [exact Hk|set_solver]).
  assert (Hka : "&"%char ∉ k) by (eapply free_not_in; [exact Hk|set_solver]).
  assert (Hva : "&"%char ∉ v) by (eapply free_not_in; [exact Hv|set_solver]).
  assert (Hkv : "&"%char ∉ k ++ "="%char :: v) by set_solver.
  destruct fuel as [|fuel]; [simpl in Hfuel; lia|].
  assert (Hsplit : forall tail, take (length k) (k ++ "="%char :: tail) = k /\ drop (S (length k)) (k ++ "="%char :: tail) = tail).
  { intros tail. split; [apply take_app_length|].
    replace (k ++ "="%char :: tail) with ((k ++ ["="%char]) ++ tail) by by app_norm.
    rewrite drop_app_length'; [done|rewrite length_app; simpl; lia]. }
  assert (Hne : forall tail, exists c0 l0, k ++ "="%char :: tail = c0 :: l0) by (intros tail; destruct k; eauto).
  destruct q as [|kv2 q].
  - change (query_text [(k, v)]) with (k ++ "="%char :: v). destruct (Hne v) as (c0 & l0 & E). destruct (Hsplit v) as [Ht Hd]. cbn [ParseParameters]. rewrite E, <- E.
    rewrite index_of_app, (proj2 (index_of_None _ _)) by done. cbn [app]. rewrite length_app. cbn [length].
    rewrite (proj2 (Nat.leb_gt _ _)) by lia. rewrite Ht, Hd, (drop_ge _ (S _)) by (rewrite length_app; simpl; lia).
    rewrite take_ge by lia. destruct fuel; [simpl in Hfuel; lia|]. done.
  - change (query_text ((k, v) :: kv2 :: q)) with (k ++ "="%char :: v ++ "&"%char :: query_text (kv2 :: q)).
    set (rest := query_text (kv2 :: q)) in *. destruct (Hne (v ++ "&"%char :: rest)) as (c0 & l0 & E).
    destruct (Hsplit (v ++ "&"%char :: rest)) as [Ht Hd]. cbn [ParseParameters]. rewrite E, <- E.
    rewrite (index_of_app _ k) by done. rewrite Ht, Hd.
    replace (k ++ "="%char :: v ++ "&"%char :: rest) with ((k ++ "="%char :: v) ++ "&"%char :: rest) by by app_norm.
    rewrite (index_of_app _ (k ++ _)) by done. rewrite length_app. cbn [length].
    rewrite (proj2 (Nat.leb_gt _ _)) by lia.
    replace (length k + S (length v) - length k - 1)%nat with (length v) by lia. rewrite take_app_length.
    replace ((k ++ "="%char :: v) ++ "&"%char :: rest) with (((k ++ "="%char :: v) ++ ["&"%char]) ++ rest) by by app_norm.
    rewrite drop_app_length' by (rewrite !length_app; simpl; lia). apply IH; [done|simpl in *; lia].
Qed.

(** * The whole head *)

(** What the parser leaves in the request. *)
Definition head_headers (StringToLower : bytes -> bytes) (h : head) : params :=
  set_all (lower_keys StringToLower (h_headers h)) [].
Definition parsed (StringToLower : bytes -> bytes) (h : head) (ip : bytes) (n : Z) (reply100 : bool)
    (st : RequestStatus) (buf : bytes) : HTTPRequest :=
  mkRequest (h_method h) (url_text h) (h_path h) (h_version h)
    (match sm_find (bs "content-type") (head_headers StringToLower h) with Some v => v | None => [] end)
    reply100 [] (set_all (h_query h) []) (head_headers StringToLower h) ip st kHeaderParamKey buf n.

(** A request before its head is parsed. *)
Definition blank (ip : bytes) (st : RequestStatus) (buf : bytes) : HTTPRequest :=
  mkRequest [] [] [] [] [] false [] [] [] ip st kHeaderMethod buf 0.

Section head.
Context (StringToLower : bytes -> bytes).

(** The url does not name the host. *)
Definition host_free (h : head) : Prop :=
  forall host, sm_find (bs "host") (head_headers StringToLower h) = Some host -> find_sub host (url_text h) = None.
Definition content_length (h : head) : outcome Z :=
  match sm_find (bs "content-length") (head_headers StringToLower h) with Some v => stoul v | None => Ret 0 end.
Definition expects_100 (h : head) : bool :=
  header_is (bs "expect") (bs "100-Continue") (head_headers StringToLower h) ||
  header_is (bs "expect") (bs "100-continue") (head_headers StringToLower h).

Lemma header_lines_read h ip st rest :
  head_ok h ->
  header_lines StringToLower (S (Z.to_nat (zlen (head_text h)))) (head_text h ++ rest) (zlen (head_text h))
    (blank ip st (head_text h ++ rest)) =
  Ret (put_line kHeaderParamKey (h_method h) (url_text h) (h_version h) (head_headers StringToLower h)
         (blank ip st (head_text h ++ rest))).
Proof.
  intros Ho. unfold head_text at 2. unfold head_lines. rewrite lines_text_cons, <- !app_assoc.
  pose proof (head_lines_sep h Ho) as Hsep. apply Forall_cons in Hsep as [[Hl Hn] _].
  assert (Hz : zlen (head_text h) = zlen (first_line h) + 2 + (zlen (lines_text (map field_line (h_headers h))) + 2)).
  { unfold head_text, head_lines. rewrite lines_text_cons, !zlen_app. change (zlen CRLF) with 2. lia. }
  assert (H0 : 1 <= zlen (first_line h)) by (destruct (first_line h); [done|zlen_lia]).
  rewrite Hz. rewrite header_line_step; [|done|pose proof (zlen_nonneg (lines_text (map field_line (h_headers h)))); lia..].
  rewrite read_first_line by done.
  replace (zlen (first_line h) + 2 + (zlen (lines_text (map field_line (h_headers h))) + 2) - (zlen (first_line h) + 2))
    with (zlen (lines_text (map field_line (h_headers h))) + 2) by lia.
  rewrite header_fields_read; [done|apply Ho|done|].
  assert (forall l, (2 * length l <= length (lines_text (map field_line l)))%nat) as Hlen.
  { induction l as [|kv l IH]; [simpl; lia|]. cbn [map]. rewrite lines_text_cons, !length_app. simpl. lia. }
  specialize (Hlen (h_headers h)). unfold zlen. lia.
Qed.

Lemma ParseGetUrl_read h r :
  head_ok h -> host_free h -> url_ r = url_text h -> headers_ r = head_headers StringToLower h -> query_params_ r = [] ->
  ParseGetUrl r = Ret (put_path (h_path h) (set_all (h_query h) []) r).
Proof.
  intros Ho Hh Hu Hhd Hq. unfold ParseGetUrl. rewrite Hu, Hhd, Hq.
  assert (match sm_find (bs "host") (head_headers StringToLower h) with
    | Some host => match find_sub host (url_text h) with
                   | Some _ => if 7 + zlen host <? zlen (url_text h) then zdrop (7 + zlen host) (url_text h) else url_text h
                   | None => url_text h end
    | None => url_text h end = url_text h) as ->.
  { destruct (sm_find _ _) as [host|] eqn:E; [|done]. by rewrite (Hh host E). }
  assert (Hp : "?"%char ∉ h_path h) by (eapply free_not_in; [apply Ho|set_solver]).
  unfold url_text. destruct (h_query h) as [|kv q] eqn:E.
  - rewrite app_nil_r, (proj2 (index_of_None _ _)) by done. done.
  - rewrite index_of_app by done.
    replace (h_path h ++ "?"%char :: query_text (kv :: q)) with ((h_path h ++ ["?"%char]) ++ query_text (kv :: q)) by by app_norm.
    rewrite drop_app_length' by (rewrite length_app; simpl; lia).
    rewrite ParseParameters_read; [|rewrite <- E; apply Ho|].
    + cbn [obind]. by rewrite <- app_assoc, take_app_length.
    + assert (forall l, (length l <= length (query_text l))%nat) as Hlen.
      { induction l as [|[k v] [|kv2 l] IH]; [simpl; lia| |].
        - simpl. rewrite length_app. simpl. lia.
        - change (query_text ((k, v) :: kv2 :: l)) with (k ++ "="%char :: v ++ "&"%char :: query_text (kv2 :: l)).
          rewrite length_app. cbn [length] in *. rewrite length_app. cbn [length]. lia. }
      specialize (Hlen (kv :: q)). rewrite !length_app. lia.
Qed.

(** [ParseHeader] of a head, whatever follows it. *)
Lemma ParseHeader_spec h ip st rest :
  head_ok h -> host_free h -> zlen (head_text h ++ rest) < kHTTPMaxMessage ->
  ParseHeader StringToLower (blank ip st (head_text h ++ rest)) =
  (let! n := content_length h in
   Ret (zlen (head_text h), parsed StringToLower h ip n (expects_100 h) st (head_text h ++ rest))).
Proof.
  intros Ho Hh Hz. unfold ParseHeader, rbuf_pos_. cbn [rbuf_ blank].
  rewrite (proj2 (Z.leb_gt _ _)) by done. change (CRLF ++ CRLF) with SEP. rewrite find_head by done.
  pose proof (head_text_length h).
  replace (Z.of_nat (length (head_text h) - 4) + 4) with (zlen (head_text h)) by (unfold zlen; lia).
  rewrite (proj2 (Z.leb_gt _ _)) by (unfold zlen; lia). rewrite header_lines_read by done. cbn [obind].
  rewrite (ParseGetUrl_read h) by done. cbn [obind]. cbn [headers_ put_path put_line blank].
  unfold content_length. destruct (sm_find (bs "content-length") (head_headers StringToLower h)) as [v|].
  - destruct (stoul v); [|done]. cbn [obind]. unfold expects_100. by rewrite orb_false_r.
  - cbn [obind]. unfold expects_100. by rewrite orb_false_r.
Qed.

Lemma ParseHeader_read h ip st rest n :
  head_ok h -> host_free h -> content_length h = Ret n -> zlen (head_text h ++ rest) < kHTTPMaxMessage ->
  ParseHeader StringToLower (blank ip st (head_text h ++ rest)) =
  Ret (zlen (head_text h), parsed StringToLower h ip n (expects_100 h) st (head_text h ++ rest)).
Proof. intros Ho Hh Hc Hz. rewrite ParseHeader_spec by done. by rewrite Hc. Qed.

Lemma ParseHeader_part h ip st pre post :
  head_ok h -> pre ++ post = head_text h -> post <> [] -> zlen pre < kHTTPMaxMessage ->
  ParseHeader StringToLower (blank ip st pre) = Ret (0, blank ip st pre).
Proof.
  intros Ho Hpp Hne Hz. unfold ParseHeader, rbuf_pos_. cbn [rbuf_ blank].
  rewrite (proj2 (Z.leb_gt _ _)) by done. change (CRLF ++ CRLF) with SEP. by rewrite (find_part_of_head h pre post).
Qed.
End head.
