(* ===== verification/HttpServe.v ===== *)
(** How a request that arrives in pieces goes through the states of the HTTP
    connection. *)
From S2P Require Import Pink Prelude Sys StdMap PinkConn HttpConn HttpFacts HttpParse.

(** * What arrives *)

(** Pieces of data, with moments in between when nothing has come yet. *)
Definition trickle (q : list arrival) : Prop :=
  Forall (fun a => (exists d, a = Arrive d /\ d <> []) \/ a = RdFails EAGAIN) q.
Fixpoint data_in (q : list arrival) : bytes :=
  match q with
  | [] => []
  | Arrive d :: q => d ++ data_in q
  | _ :: q => data_in q
  end.
Fixpoint waits (q : list arrival) : nat :=
  match q with
  | [] => 0
  | RdFails EAGAIN :: q => S (waits q)
  | _ :: q => waits q
  end.

(** What a step leaves of the socket. *)
Record rest_of (s s' : sock) : Prop := {
  ro_trickle : trickle (rdq s');
  ro_work : (rd_work (rdq s') < rd_work (rdq s))%nat;
  ro_wrq : wrq s' = wrq s;
  ro_sent : sent s' = sent s
}.

Lemma rest_of_trans a b d : rest_of a b -> rest_of b d -> rest_of a d.
Proof. intros [? ? ? ?] [? ? ? ?]. split; [done|lia|congruence..]. Qed.

Lemma sys_read_trickle count s :
  0 < count -> count <= SSIZE_MAX -> trickle (rdq s) ->
  rdq s = [] \/
  (exists s', sys_read count s = (IoErr EAGAIN, [], s') /\ rest_of s s' /\
     data_in (rdq s') = data_in (rdq s) /\ waits (rdq s) = S (waits (rdq s'))) \/
  (exists d s', sys_read count s = (IoLen (zlen d), d, s') /\ rest_of s s' /\ 0 < zlen d <= count /\
     data_in (rdq s) = d ++ data_in (rdq s') /\ waits (rdq s') = waits (rdq s)).
Proof.
  intros Hc Hm Ht. destruct (rdq s) as [|a q] eqn:Eq; [by left|right].
  apply Forall_cons in Ht as [Ha Hq]. unfold sys_read. rewrite (proj2 (Z.ltb_ge _ _)), (proj2 (Z.eqb_neq _ _)), Eq by lia.
  destruct Ha as [(d & -> & Hd)| ->].
  2:{ left. eexists. split; [done|]. split; [|done]. split; rewrite ?Eq; try done. unfold rd_work. simpl. lia. }
  right. assert (Hz : 0 < zlen d) by (destruct d; [done|unfold zlen; cbn [length]; lia]).
  destruct (Z.leb_spec (zlen d) count) as [Hle|Hgt].
  - eexists _, _. split; [done|]. split_and!; try done. split; rewrite ?Eq; try done.
    unfold rd_work, rd_bytes, zlen in *. simpl. lia.
  - assert (Hl : zlen (ztake count d) = count) by (apply zlen_ztake; lia).
    assert (Hl2 : zlen (zdrop count d) = zlen d - count) by (apply zlen_zdrop; lia).
    eexists _, _. split; [by rewrite Hl|]. split_and!; try lia; try done.
    2:{ cbn [data_in rdq]. by rewrite app_assoc, ztake_zdrop. }
    split; rewrite ?Eq; try done; cbn [rdq].
    + apply Forall_cons. split; [left; eexists; split; [done|]|done]. intros H0. rewrite H0 in Hl2. zlen_lia.
    + unfold rd_work, rd_bytes, zlen in *. simpl. lia.
Qed.

Section serve.
Context {U : Type} {H : HTTPHandles U}.
Context (StringToLower : bytes -> bytes).
Context (h : head) (ip body : bytes) (u0 : U).

Abbreviation req := (parsed StringToLower h ip).

(** The user's object after [k1] waits, the request, and [k2] more waits. *)
Definition seen (k1 k2 : nat) (buf : bytes) : U :=
  Nat.iter k2 HandleConnClosed
    (HandleRequest (req (zlen body) false kBodyReceiving buf) (Nat.iter k1 HandleConnClosed u0)).2.

(** How far the request has come, after [k] waits. *)
Inductive phase (b : PinkConn) (p : HTTPResponse) (s : sock) (k : nat) : HTTPConn U -> Prop :=
  | InHead pre :
      pre ++ data_in (rdq s) = head_text h ++ body -> zlen pre < zlen (head_text h) ->
      phase b p s k (mkHTTPConn b (blank ip kHeaderReceiving pre) p (Nat.iter k HandleConnClosed u0))
  | InBody pre k1 k2 buf :
      (k = k1 + k2)%nat -> pre ++ data_in (rdq s) = body -> data_in (rdq s) <> [] ->
      phase b p s k (mkHTTPConn b (req (zlen body - zlen pre) false kBodyReceiving pre) p (seen k1 k2 buf))
  | Whole k1 k2 buf pre :
      (k = k1 + k2)%nat -> data_in (rdq s) = [] ->
      phase b p s k (mkHTTPConn b (req 0 false kBodyReceived pre) p (HandleBodyData body (seen k1 k2 buf))).

(** The request has been handled, and the response is prepared. *)
Inductive handled (b : PinkConn) (p : HTTPResponse) (k : nat) : HTTPConn U -> Prop :=
  | Handled k1 k2 buf pre p' :
      (k = k1 + k2)%nat ->
      apply_ops (PrepareResponse (HandleBodyData body (seen k1 k2 buf))).1 p = Ret p' ->
      handled b p k (mkHTTPConn b (req 0 false kNewRequest pre) p'
                       (PrepareResponse (HandleBodyData body (seen k1 k2 buf))).2).

(** What the request and the handles have to be like. *)
Class plain_request : Prop := {
  pr_head : head_ok h;
  pr_host : host_free StringToLower h;
  pr_length : content_length StringToLower h = Ret (zlen body);
  pr_expect : expects_100 StringToLower h = false;
  pr_fits : zlen (head_text h ++ body) <= kHTTPMaxHeader;
  pr_request buf u : (HandleRequest (req (zlen body) false kBodyReceiving buf) u).1 = false;
  pr_prepare (u : U) p : exists p', apply_ops (PrepareResponse u).1 p = Ret p'
}.
Context {PR : plain_request}.
Implicit Types c : HTTPConn U.

(** What a round leads to. *)
Inductive round_goes (b : PinkConn) (p : HTTPResponse) (s : sock) (k : nat) : outcome (round (U:=U)) -> Prop :=
  | RoundAgain c' s' :
      phase b p s' k c' -> rest_of s s' -> waits (rdq s') = waits (rdq s) ->
      round_goes b p s k (Ret (Again c' s'))
  | RoundWaits c' s' :
      phase b p s' (S k) c' -> rest_of s s' -> waits (rdq s) = S (waits (rdq s')) ->
      round_goes b p s k (Ret (Returns kReadHalf c' s'))
  | RoundDone c' :
      handled b p k c' -> data_in (rdq s) = [] -> round_goes b p s k (Ret (Returns kReadAll c' s)).

Lemma trickle_empty q : trickle q -> data_in q = [] -> waits q = length q.
Proof.
  intros Hq. induction Hq as [|a q [(d & -> & Hd)| ->] _ IH]; [done|..]; simpl.
  - by destruct d.
  - intros E. by rewrite IH.
Qed.

Lemma app_split {A} (l1 l2 k1 k2 : list A) :
  l1 ++ l2 = k1 ++ k2 ->
  (exists k, l1 = k1 ++ k /\ k2 = k ++ l2) \/ (exists k, k <> [] /\ k1 = l1 ++ k /\ l2 = k ++ k2).
Proof.
  intros [(k & ? & ?)|(k & ? & ?)]%app_eq_inv; [by left; exists k|].
  destruct k as [|x k]; [left; exists []|right; by exists (x :: k)]. subst. by rewrite !app_nil_r.
Qed.

(** The head: a connection that has received [pre] of it. *)
Definition in_head (b : PinkConn) (p : HTTPResponse) (k : nat) (pre : bytes) : HTTPConn U :=
  mkHTTPConn b (blank ip kHeaderReceiving pre) p (Nat.iter k HandleConnClosed u0).

Lemma head_complete b p s k pre d s' first :
  DoRead (in_head b p k pre) s = (kOk, in_head b p k (pre ++ d), s') ->
  pre ++ d = head_text h ++ first -> body = first ++ data_in (rdq s') ->
  rest_of s s' -> waits (rdq s') = waits (rdq s) ->
  round_goes b p s k (receive_header StringToLower (in_head b p k pre) s).
Proof.
  intros HD Hf Hb Hro Hw. pose proof pr_fits as Hfit. assert (Hmax : kHTTPMaxHeader < kHTTPMaxMessage) by done.
  assert (Hbl : zlen body = zlen first + zlen (data_in (rdq s'))) by (rewrite Hb; apply zlen_app).
  pose proof (zlen_nonneg (data_in (rdq s'))) as Hdn. pose proof (head_text_length h) as Hsix.
  pose proof (zlen_nonneg first) as Hfn. rewrite zlen_app in Hfit.
  unfold receive_header. rewrite HD, Hf. change (negb (bool_decide (kOk = kOk))) with false. cbn [in_head request_].
  rewrite (ParseHeader_read StringToLower h ip _ first _ pr_head pr_host pr_length) by (rewrite zlen_app; lia).
  cbn [obind]. rewrite pr_expect. unfold rbuf_pos_.
  change (rbuf_ (req (zlen body) false kHeaderReceiving (head_text h ++ first))) with (head_text h ++ first).
  rewrite (proj2 (Z.ltb_ge (zlen (head_text h)) 0)), (proj2 (Z.ltb_ge kHTTPMaxHeader _)) by (rewrite ?zlen_app; unfold zlen in *; lia).
  rewrite (proj2 (Z.ltb_lt 0 (zlen (head_text h)))) by (unfold zlen; lia). cbn [orb].
  unfold put_request, put_handles. cbn [in_head http_base request_ response_ handles_].
  change (put_req_status kBodyReceiving (req (zlen body) false kHeaderReceiving (head_text h ++ first)))
    with (req (zlen body) false kBodyReceiving (head_text h ++ first)).
  set (r := req (zlen body) false kBodyReceiving (head_text h ++ first)).
  pose proof (pr_request (head_text h ++ first) (Nat.iter k HandleConnClosed u0)) as Hno. fold r in Hno.
  assert (Hu : (HandleRequest r (Nat.iter k HandleConnClosed u0)).2 = seen k 0 (head_text h ++ first)) by done.
  destruct (HandleRequest r (Nat.iter k HandleConnClosed u0)) as [need u]. simpl in Hno, Hu. subst need u.
  change (rbuf_ r) with (head_text h ++ first). change (remain_recv_len_ r) with (zlen body).
  rewrite zdrop_app by done. rewrite zlen_app.
  replace (zlen body - (zlen (head_text h) + zlen first - zlen (head_text h))) with (zlen body - zlen first) by lia.
  rewrite to_u64_id by (unfold kHTTPMaxHeader, zlen in *; lia).
  change (reply_100continue_ (put_rbuf first (zlen body - zlen first) r)) with false. cbn [andb].
  destruct (Z.eqb_spec (zlen body - zlen first) 0) as [E0|E0].
  - assert (Hd0 : data_in (rdq s') = []) by (apply zlen_zero; lia). rewrite E0.
    rewrite Hd0, app_nil_r in Hb. replace (HandleBodyData first) with (HandleBodyData body) by by f_equal.
    apply RoundAgain; [|done|done]. by apply (Whole b p s' k k 0 (head_text h ++ first) first).
  - apply RoundAgain; [|done|done]. apply (InBody b p s' k first k 0 (head_text h ++ first)); [lia|done|].
    intros H0. rewrite H0, zlen_nil in Hbl. lia.
Qed.

Lemma head_goes b p s k pre :
  trickle (rdq s) -> pre ++ data_in (rdq s) = head_text h ++ body -> zlen pre < zlen (head_text h) ->
  round_goes b p s k (receive_header StringToLower (in_head b p k pre) s).
Proof.
  intros Ht Hpre Hlt. pose proof pr_fits as Hfit. assert (Hmax : kHTTPMaxHeader < kHTTPMaxMessage) by done.
  assert (Hcount : 0 < kHTTPMaxMessage - zlen pre) by (rewrite zlen_app in Hfit; pose proof (zlen_nonneg body); lia).
  destruct (sys_read_trickle _ s Hcount ltac:(unfold SSIZE_MAX, kHTTPMaxMessage, kHTTPMaxHeader, zlen in *; lia) Ht) as [E|[(s' & E & Hro & Hd & Hw)|(d & s' & E & Hro & Hz & Hd & Hw)]].
  - rewrite E in Hpre. cbn [data_in] in Hpre. rewrite app_nil_r in Hpre. subst pre. zlen_lia.
  - unfold receive_header, DoRead, rbuf_pos_. cbn [request_ rbuf_ blank in_head]. rewrite E. cbn.
    apply RoundWaits; [|done|done]. apply (InHead b p s' (S k) pre); [by rewrite Hd|done].
  - assert (HD : DoRead (in_head b p k pre) s = (kOk, in_head b p k (pre ++ d), s')).
    { unfold DoRead, rbuf_pos_. cbn [request_ rbuf_ blank in_head]. rewrite E. by rewrite (proj2 (Z.ltb_lt 0 _)) by lia. }
    rewrite Hd, app_assoc in Hpre.
    assert (Hlen : zlen (pre ++ d) <= kHTTPMaxHeader).
    { rewrite <- Hpre, zlen_app in Hfit. pose proof (zlen_nonneg (data_in (rdq s'))). lia. }
    apply app_split in Hpre as [(first & Hf & Hb)|(post & Hne & Hp & Hb)]; [by eapply head_complete|].
    unfold receive_header. rewrite HD. change (negb (bool_decide (kOk = kOk))) with false. cbn [in_head request_].
    rewrite (ParseHeader_part StringToLower h ip _ (pre ++ d) post pr_head) by (try done; lia). cbn [obind].
    unfold rbuf_pos_. rewrite (proj2 (Z.ltb_ge kHTTPMaxHeader _)) by (simpl; lia). cbn.
    apply RoundAgain; [|done|done]. apply (InHead b p s' k (pre ++ d)); [by rewrite Hb, app_assoc, <- Hp|].
    rewrite Hp, (zlen_app _ post). assert (0 < zlen post) by (destruct post; [done|unfold zlen; simpl; lia]). lia.
Qed.

(** The body *)
Lemma body_goes b p s k pre k1 k2 buf :
  trickle (rdq s) -> k = (k1 + k2)%nat -> pre ++ data_in (rdq s) = body -> data_in (rdq s) <> [] ->
  round_goes b p s k
    (receive_body (mkHTTPConn b (req (zlen body - zlen pre) false kBodyReceiving pre) p (seen k1 k2 buf)) s).
Proof.
  intros Ht Hk Hpre Hne. pose proof pr_fits as Hfit. pose proof (head_text_length h) as Hsix.
  assert (Hbl : zlen body = zlen pre + zlen (data_in (rdq s))) by (rewrite <- Hpre; apply zlen_app).
  assert (Hdn : 0 < zlen (data_in (rdq s))) by (destruct (data_in (rdq s)); [done|unfold zlen; simpl; lia]).
  rewrite zlen_app in Hfit. assert (Hmax : zlen body < kHTTPMaxHeader) by (unfold zlen in *; lia).
  assert (Hcount : 0 < kHTTPMaxMessage - zlen pre) by (unfold kHTTPMaxMessage, kHTTPMaxHeader, zlen in *; lia).
  unfold receive_body, DoRead, rbuf_pos_. cbn [request_ rbuf_ parsed].
  destruct (sys_read_trickle _ s Hcount ltac:(unfold SSIZE_MAX, kHTTPMaxMessage, kHTTPMaxHeader, zlen in *; lia) Ht) as [E|[(s' & -> & Hro & Hd & Hw)|(d & s' & -> & Hro & Hz & Hd & Hw)]].
  - by rewrite E in Hne.
  - cbn. apply RoundWaits; [|done|done]. apply (InBody b p s' (S k) pre k1 (S k2) buf); [lia|by rewrite Hd|by rewrite Hd].
  - rewrite (proj2 (Z.ltb_lt 0 _)) by lia. change (negb (bool_decide (kOk = kOk))) with false.
    change (bool_decide (req_status_ (req (zlen body - zlen pre) false kBodyReceiving pre) = kBodyReceiving)) with true.
    cbn [put_request put_rbuf request_ response_ handles_ http_base rbuf_ remain_recv_len_ parsed].
    assert (Hdl : zlen (data_in (rdq s)) = zlen d + zlen (data_in (rdq s'))) by (rewrite Hd; apply zlen_app).
    pose proof (zlen_nonneg (data_in (rdq s'))) as Hdn'. pose proof (zlen_nonneg pre) as Hpn.
    rewrite to_u64_id by (unfold kHTTPMaxHeader in *; lia).
    rewrite (proj2 (Z.eqb_neq (zlen (pre ++ d)) _)) by (rewrite zlen_app; unfold kHTTPMaxHeader, kHTTPMaxMessage in *; lia).
    cbn [orb]. rewrite Hd, app_assoc in Hpre.
    replace (zlen body - zlen pre - zlen d) with (zlen body - zlen (pre ++ d)) by (rewrite zlen_app; lia).
    destruct (Z.eqb_spec (zlen body - zlen (pre ++ d)) 0) as [E0|E0].
    + assert (Hd0 : data_in (rdq s') = []) by (apply zlen_zero; rewrite zlen_app in E0; lia).
      rewrite Hd0, app_nil_r in Hpre. rewrite Hpre. simpl. rewrite Z.sub_diag.
      apply RoundAgain; [|done|done].
      by apply (Whole b p s' k k1 k2 buf []).
    + cbn. rewrite (proj2 (Z.eqb_neq _ _)) by done. apply RoundAgain; [|done|done].
      apply (InBody b p s' k (pre ++ d) k1 k2 buf); [done|done|]. intros H0. rewrite zlen_app in E0.
      rewrite H0, zlen_nil in Hdl. lia.
Qed.

Lemma round_goes_on b p s k c :
  trickle (rdq s) -> phase b p s k c -> round_goes b p s k (read_round StringToLower c s).
Proof.
  intros Ht [pre Hpre Hlt|pre k1 k2 buf Hk Hpre Hne|k1 k2 buf pre Hk Hd]; unfold read_round; cbn [request_ req_status_ blank parsed].
  - by apply head_goes.
  - by apply body_goes.
  - unfold prepare_response. cbn [handles_ response_].
    pose proof (pr_prepare (HandleBodyData body (seen k1 k2 buf)) p) as [p' Hp].
    destruct (PrepareResponse (HandleBodyData body (seen k1 k2 buf))) as [ops u] eqn:E. simpl in Hp. rewrite Hp.
    cbn [obind]. apply RoundDone; [|done].
    pose proof (Handled b p k k1 k2 buf pre p' Hk) as Hh. rewrite E in Hh. by apply Hh.
Qed.

(** A call of [GetRequest]: it waits, with the request on its way, or has
    prepared the response. *)
Inductive call_goes (b : PinkConn) (p : HTTPResponse) (s : sock) (k : nat) : outcome (ReadStatus * HTTPConn U * sock) -> Prop :=
  | CallWaits c' s' :
      phase b p s' (S k) c' -> rest_of s s' -> waits (rdq s) = S (waits (rdq s')) ->
      call_goes b p s k (Ret (kReadHalf, c', s'))
  | CallDone c' s' :
      handled b p k c' -> data_in (rdq s') = [] -> waits (rdq s') = waits (rdq s) ->
      trickle (rdq s') -> wrq s' = wrq s -> sent s' = sent s ->
      call_goes b p s k (Ret (kReadAll, c', s')).

Lemma rounds_go fuel b p s k c :
  trickle (rdq s) -> phase b p s k c -> (rd_work (rdq s) < fuel)%nat ->
  call_goes b p s k (read_rounds StringToLower fuel c s).
Proof.
  revert s c. induction fuel as [|fuel IH]; intros s c Ht Hp Hf; [lia|]. cbn [read_rounds].
  destruct (round_goes_on b p s k c Ht Hp) as [c' s' Hp' Hro Hw|c' s' Hp' Hro Hw|c' Hh Hd]; cbn [obind].
  - destruct Hro as [Ht' Hlt Hwq Hse].
    destruct (IH s' c' Ht' Hp' ltac:(lia)) as [c2 s2 Hp2 Hro2 Hw2|c2 s2 Hh2 Hd2 Hw2 Ht2 Hq2 Hs2].
    + apply CallWaits; [done| |congruence]. by eapply rest_of_trans.
    + apply CallDone; try done; congruence.
  - by apply CallWaits.
  - by apply CallDone.
Qed.

(** The event loop's calls, while they say that more has to come. *)
Fixpoint http_serve (n : nat) c (s : sock) : outcome (ReadStatus * HTTPConn U * sock) :=
  match n with
  | O => Ret (kReadHalf, c, s)
  | S n =>
      let! (st, c, s) := GetRequest StringToLower c s in
      if bool_decide (st = kReadHalf) then http_serve n c s else Ret (st, c, s)
  end.

Lemma call_on_way b p s k c :
  trickle (rdq s) -> phase b p s k c ->
  GetRequest StringToLower c s = (let! (st, c', s') := read_rounds StringToLower (rd_work (rdq s) + 3) c s in
    Ret (st, if bool_decide (st = kReadAll) then put_base (PinkConn.set_is_reply true (http_base c')) c' else c', s')).
Proof.
  intros Ht Hp. unfold GetRequest, ReadData. rewrite bool_decide_eq_false_2; [done|].
  destruct Hp; cbn [request_ req_status_ blank parsed]; discriminate.
Qed.

Lemma serve_on_way n b p s k c :
  trickle (rdq s) -> phase b p s k c -> (waits (rdq s) < n)%nat ->
  exists k' c' s', http_serve n c s = Ret (kReadAll, put_base (PinkConn.set_is_reply true (http_base c')) c', s') /\
    handled b p k' c' /\ (k' + waits (rdq s') = k + waits (rdq s))%nat /\ data_in (rdq s') = [] /\
    wrq s' = wrq s /\ sent s' = sent s.
Proof.
  revert s k c. induction n as [|n IH]; intros s k c Ht Hp Hn; [lia|]. cbn [http_serve].
  rewrite (call_on_way b p s k c Ht Hp).
  destruct (rounds_go (rd_work (rdq s) + 3) b p s k c Ht Hp ltac:(lia)) as [c2 s2 Hp2 [Ht2 _ Hq2 Hs2] Hw2|c2 s2 Hh Hd Hw Ht2 Hq Hs].
  - simpl. destruct (IH s2 (S k) c2 Ht2 Hp2 ltac:(lia)) as (k' & c' & s' & HS & Hh & Hk & Hd & Hq & Hs).
    exists k', c', s'. split_and!; try done; [lia|congruence..].
  - exists k, c2, s2. simpl. split_and!; try done. congruence.
Qed.

(** A connection that waits for a request. *)
Lemma serve_new n c s :
  req_status_ (request_ c) = kNewRequest -> finished_ (response_ c) = true -> ip_port_ (http_base c) = ip ->
  handles_ c = u0 -> http_serve (S n) c s =
  http_serve (S n) (mkHTTPConn (http_base c) (blank ip kHeaderReceiving []) (response_Reset (response_ c)) u0) s.
Proof.
  intros Hst Hfin Hip Hu. cbn [http_serve]. unfold GetRequest, ReadData.
  rewrite bool_decide_eq_true_2 by done. cbn [response_ put_request]. rewrite Hfin, Hip.
  change (bool_decide (req_status_ (request_ (mkHTTPConn (http_base c) (blank ip kHeaderReceiving [])
    (response_Reset (response_ c)) u0)) = kNewRequest)) with false.
  by rewrite <- Hu.
Qed.
End serve.
