(* ===== verification/HttpTheorems.v ===== *)
(** The theorems on the HTTP connection: reading a request ends, a request that
    arrives in pieces reaches the handles whole, and what becomes of bytes that
    follow it. *)
From S2P Require Import Pink Prelude Sys StdMap PinkConn HttpConn HttpFacts HttpParse HttpServe.

(** * The connection as the event loops see it *)
Section conn.
Context {U : Type} {H : HTTPHandles U}.
Context (StringToLower : bytes -> bytes).
Implicit Types c : HTTPConn U.

#[export] Instance http_ops : ConnOps (HTTPConn U) := {|
  conn_base := http_base;
  with_base f c := put_base (f (http_base c)) c;
  conn_GetRequest := GetRequest StringToLower;
  conn_SendReply := SendReply;
  conn_WriteResp := default_WriteResp;
  conn_TryResizeBuffer := default_TryResizeBuffer;
  conn_is_reply := default_is_reply http_base;
  conn_set_is_reply := default_set_is_reply (fun f c => put_base (f (http_base c)) c)
|}.

Lemma wp_alive {A} (P : A -> Prop) m : wp http_fault P m -> wp alive P m.
Proof. destruct m; [done|]. simpl. unfold http_fault, alive. by intros [->|[->|[->| ->]]]. Qed.

Lemma DoRead_base c s st c' s' : DoRead c s = (st, c', s') -> http_base c' = http_base c.
Proof. unfold DoRead. repeat case_match; intros; by simplify_eq. Qed.

Definition round_base (b : PinkConn) (r : round (U:=U)) : Prop :=
  match r with Returns _ c _ => http_base c = b | Again c _ => http_base c = b end.

Lemma read_round_base c s : wp alive (round_base (http_base c)) (read_round StringToLower c s).
Proof.
  unfold read_round. destruct (req_status_ (request_ c)); [done| | |].
  - unfold receive_header. destruct (DoRead c s) as [[st c1] s1] eqn:D. apply DoRead_base in D.
    destruct (negb _); [done|]. eapply alive_bind; [apply wp_alive, ParseHeader_wp|]. intros [n r] _.
    destruct ((n <? 0) || _)%bool; [done|]. destruct (0 <? n); [|done].
    destruct (HandleRequest _ _) as [[] u]; [done|]. destruct (_ && _)%bool.
    + eapply alive_bind; [apply wp_alive, SetStatusCode_wp|]. done.
    + by destruct (_ =? 0).
  - unfold receive_body. destruct (DoRead c s) as [[st c1] s1] eqn:D. apply DoRead_base in D.
    destruct (negb _); [done|]. by destruct (_ || _)%bool.
  - unfold prepare_response. destruct (PrepareResponse _) as [ops u].
    eapply alive_bind; [apply wp_alive, apply_ops_wp|]. done.
Qed.

Lemma read_rounds_base fuel c s :
  wp alive (fun '(_, c', _) => http_base c' = http_base c) (read_rounds StringToLower fuel c s).
Proof.
  revert c s. induction fuel as [|fuel IH]; intros c s; [done|]. cbn [read_rounds].
  eapply alive_bind; [apply read_round_base|]. intros [st c1 s1|c1 s1] E; [done|]. simpl in E. rewrite <- E. apply IH.
Qed.

Lemma http_GetRequest_id c s :
  wp alive (fun '(_, c', _) => conn_id (http_base c') = conn_id (http_base c)) (GetRequest StringToLower c s).
Proof.
  unfold GetRequest. eapply (alive_bind (fun '(_, c', _) => http_base c' = http_base c)).
  - unfold ReadData. repeat case_match; try done;
      (eapply wp_mono; [|apply read_rounds_base]; by intros [[? ?] ?]).
  - intros [[st c1] s1] E. simpl. case_bool_decide; unfold conn_id; simpl; by rewrite E.
Qed.

(** Sending leaves reading alone and takes nothing back. *)
Record keeps c (s : sock) c' (s' : sock) : Prop := {
  kp_base : http_base c' = http_base c;
  kp_request : request_ c' = request_ c;
  kp_rdq : rdq s' = rdq s;
  kp_sent : exists new, sent s' = sent s ++ new
}.
Definition flush_keeps c (s : sock) (r : flush (U:=U)) : Prop :=
  match r with Done _ c' s' => keeps c s c' s' | Goes c' s' => keeps c s c' s' end.

Lemma keeps_sock c c' (s : sock) : http_base c' = http_base c -> request_ c' = request_ c -> keeps c s c' s.
Proof. intros. split; try done. exists []. by rewrite app_nil_r. Qed.

Lemma keeps_trans c1 s1 c2 s2 c3 s3 : keeps c1 s1 c2 s2 -> keeps c2 s2 c3 s3 -> keeps c1 s1 c3 s3.
Proof.
  intros [? ? ? [n1 E1]] [? ? ? [n2 E2]]. split; try congruence. exists (n1 ++ n2). by rewrite E2, E1, app_assoc.
Qed.

Lemma put_text_wp t n : wp alive (fun _ => True) (put_text t n).
Proof. unfold put_text. by case_match. Qed.

Lemma put_header_lines_wp l buf n : wp alive (fun _ => True) (put_header_lines l buf n).
Proof.
  revert buf n. induction l as [|[k v] l IH]; intros buf n; [done|]. cbn [put_header_lines].
  eapply alive_bind; [apply put_text_wp|]. intros m _. by case_match.
Qed.

Lemma SerializeHeader_wp p : wp alive (fun _ => True) (SerializeHeader p).
Proof.
  unfold SerializeHeader. case_match; [|done]. eapply alive_bind; [apply put_text_wp|]. intros n _.
  case_match; [done|]. eapply alive_bind; [apply put_header_lines_wp|]. intros [[buf m]|] _; [|done].
  eapply alive_bind; [apply put_text_wp|]. intros k _. by case_match.
Qed.

Lemma send_buf_wp c c' p s :
  http_base c' = http_base c -> request_ c' = request_ c -> wp alive (fun '(_, s') => keeps c s c' s') (send_buf p s).
Proof.
  intros Hb Hr. unfold send_buf. case_match; [done|]. destruct (sys_write _ s) as [r s'] eqn:W.
  pose proof (sys_write_prefix _ _ _ _ W) as [HP Hq]. split; try done. destruct r as [n|e].
  - destruct HP as [_ ->]. eauto.
  - exists []. by rewrite HP, app_nil_r.
Qed.

Lemma prepare_header_keeps c s : wp alive (flush_keeps c s) (prepare_header c s).
Proof.
  unfold prepare_header. case_match; [|by apply keeps_sock]. eapply alive_bind; [apply SerializeHeader_wp|].
  intros [p|] _; [|by apply keeps_sock]. case_match; by apply keeps_sock.
Qed.

Lemma send_header_keeps c s : wp alive (flush_keeps c s) (send_header c s).
Proof.
  unfold send_header. case_match; [|by apply keeps_sock]. eapply alive_bind; [by apply (send_buf_wp c c)|].
  intros [r s'] []. destruct r as [n|[]]; repeat case_match; by split.
Qed.

Lemma send_body_keeps c s : wp alive (flush_keeps c s) (send_body c s).
Proof.
  unfold send_body. case_match; [|by apply keeps_sock]. case_match; [by apply keeps_sock|].
  eapply (alive_bind (fun c' => http_base c' = http_base c /\ request_ c' = request_ c)).
  - unfold fill_body. by repeat case_match.
  - intros c' [E1 E2]. case_match; [by apply keeps_sock|].
    eapply alive_bind; [by apply (send_buf_wp c c')|].
    intros [r s'] []. destruct r as [n|[]]; repeat case_match; by split.
Qed.

Lemma then_keeps c s r (f : HTTPConn U -> sock -> outcome (flush (U:=U))) :
  (forall c s, wp alive (flush_keeps c s) (f c s)) -> flush_keeps c s r -> wp alive (flush_keeps c s) (then_flush r f).
Proof.
  intros Hf Hr. destruct r as [ok c1 s1|c1 s1]; simpl in *; [done|].
  eapply wp_mono; [|apply Hf]. intros [ok c2 s2|c2 s2] H2; by eapply keeps_trans.
Qed.

Lemma SendReply_keeps c s : wp alive (fun '(_, c', s') => keeps c s c' s') (SendReply c s).
Proof.
  unfold SendReply, Flush. eapply (alive_bind (fun '(_, c', s') => keeps c s c' s')).
  - eapply alive_bind; [apply prepare_header_keeps|]. intros r Hr.
    eapply alive_bind; [apply then_keeps; [apply send_header_keeps|exact Hr]|]. clear r Hr. intros r Hr.
    eapply alive_bind; [apply then_keeps; [apply send_body_keeps|exact Hr]|]. by intros [ok c1 s1|c1 s1].
  - by intros [[ok c1] s1] E.
Qed.

#[export] Instance http_laws : ConnLaws (HTTPConn U).
Proof.
  split; try done.
  - intros c s. pose proof (http_GetRequest_id c s) as W. simpl in *.
    by destruct (GetRequest StringToLower c s) as [[[? ?] ?]|].
  - intros c s. pose proof (SendReply_keeps c s) as W. simpl in *. destruct (SendReply c s) as [[[? c'] ?]|]; [|done].
    unfold conn_id. by rewrite (kp_base _ _ _ _ W).
Qed.
End conn.

(** * A user's object for the witnesses *)

(** It keeps a log of the calls. The response is a status line and a body of two bytes. *)
Inductive call : Type := Asked (m path : bytes) | Body (d : bytes) | Prepares | Writes | Closes.

#[export] Instance logger : HTTPHandles (list call) := {
  HandleRequest r u := (false, u ++ [Asked (method_ r) (path_ r)]);
  HandleBodyData d u := u ++ [Body d];
  PrepareResponse u := ([OpStatus 200; OpLength 2], u ++ [Prepares]);
  WriteResponseBody n u := (Filled (ztake n (bs "ok")), u ++ [Writes]);
  HandleConnClosed u := u ++ [Closes]
}.

Definition lower (b : bytes) : bytes := map tolower b.
Definition post_head : head :=
  mkHead (bs "POST") (bs "/a") [(bs "k", bs "v")] (bs "HTTP/1.1") [(bs "Content-Length", bs "3")].
Definition get_head : head := mkHead (bs "GET") (bs "/") [] (bs "HTTP/1.1") [(bs "Host", bs "x")].

Lemma free_dec cs l : forallb (fun c => bool_decide (c ∉ cs)) l = true -> free cs l.
Proof. intros Hf. apply Forall_forall. intros c Hc. rewrite forallb_forall in Hf. apply list_elem_of_In, Hf in Hc. by apply bool_decide_eq_true in Hc. Qed.

Ltac solve_head_ok :=
  split; try (apply free_dec; by vm_compute);
  repeat (apply Forall_cons; split; [split; apply free_dec; by vm_compute|]); constructor.

Lemma post_head_ok : head_ok post_head.
Proof. solve_head_ok. Qed.
Lemma get_head_ok : head_ok get_head.
Proof. solve_head_ok. Qed.

Lemma post_plain : plain_request lower post_head (bs "1.2.3.4:5") (bs "abc").
Proof.
  split; try done.
  - apply post_head_ok.
  - intros u p. eexists. vm_compute. reflexivity.
Qed.

(** * Requests *)

(** C28: reading ends. Whatever arrives and whatever the user's handles do, a call
    of [GetRequest] on a connection whose buffer is in order returns, with the
    connection the same one, the buffer in order and nothing written; or it stops
    the program in one of four ways: [std::stoul] of a content length that is not
    a number ([InvalidArgument]) or does not fit ([OutOfRange]), the zero byte that
    [ParseHeader] stores behind a full buffer ([OutOfBounds]), and a status code
    that [SetStatusCode] does not know ([AssertFailed]). *)
Theorem http_GetRequest_ends {U} {H : HTTPHandles U} StringToLower (c : HTTPConn U) s :
  rbuf_pos_ (request_ c) <= kHTTPMaxMessage ->
  match GetRequest StringToLower c s with
  | Ret (st, c', s') =>
      conn_id (http_base c') = conn_id (http_base c) /\ rbuf_pos_ (request_ c') <= kHTTPMaxMessage /\
      wrq s' = wrq s /\ sent s' = sent s /\
      (st = kReadAll \/ st = kReadHalf \/ st = kReadClose \/ st = kReadError)
  | Fault e => e = InvalidArgument \/ e = OutOfRange \/ e = OutOfBounds \/ e = AssertFailed
  end.
Proof.
  intros Hb. pose proof (GetRequest_ok StringToLower c s {| rd_fits := Hb |}) as W.
  destruct (GetRequest StringToLower c s) as [[[st c'] s']|e]; [|exact W].
  destruct W as (? & [?] & ? & ? & ?). by split_and!.
Qed.

Definition new_logger : HTTPConn (list call) := new_HTTPConn 7 (bs "1.2.3.4:5") 0 [].

Lemma http_GetRequest_ends_witness :
  match GetRequest lower new_logger (mkSock [Arrive (bs "GET / HTTP")] [] []) with
  | Ret (st, c', s') =>
      conn_id (http_base c') = (7, bs "1.2.3.4:5") /\ rbuf_pos_ (request_ c') <= kHTTPMaxMessage /\
      wrq s' = [] /\ sent s' = [] /\ (st = kReadAll \/ st = kReadHalf \/ st = kReadClose \/ st = kReadError)
  | Fault e => e = InvalidArgument \/ e = OutOfRange \/ e = OutOfBounds \/ e = AssertFailed
  end.
Proof. apply (http_GetRequest_ends lower new_logger (mkSock [Arrive (bs "GET / HTTP")] [] [])). done. Defined.

(** C26: a request of at most 1 MiB is served whole. The request is one of
    [plain_request]: head and body have together at most [kHTTPMaxHeader] bytes (what has
    been read when the head is complete is held against that limit, body included, so
    that a larger body that comes with its head is refused), the content length is that
    of the body, there is no [Expect: 100-continue], the url does not name the host, and
    [HandleRequest] wants the body. Its text, arriving on an idle connection in any
    pieces and with any number of moments at which nothing has come yet, makes
    [HandleRequest] see the method, path, query,
    version and headers that were written, [HandleBodyData] the body in one
    piece, and [PrepareResponse] prepare the answer; and [HandleConnClosed] is
    called at every one of those moments, although the connection stays open. *)
Theorem http_request_served {U} {H : HTTPHandles U} StringToLower h body (c : HTTPConn U) s n :
  plain_request StringToLower h (ip_port_ (http_base c)) body ->
  req_status_ (request_ c) = kNewRequest -> finished_ (response_ c) = true ->
  trickle (rdq s) -> data_in (rdq s) = head_text h ++ body -> (waits (rdq s) < n)%nat ->
  exists k1 k2 buf p c' s',
    let seen := HandleRequest (parsed StringToLower h (ip_port_ (http_base c)) (zlen body) false kBodyReceiving buf)
                  (Nat.iter k1 HandleConnClosed (handles_ c)) in
    let prepared := PrepareResponse (HandleBodyData body (Nat.iter k2 HandleConnClosed seen.2)) in
    http_serve StringToLower n c s = Ret (kReadAll, c', s') /\
    http_base c' = PinkConn.set_is_reply true (http_base c) /\ req_status_ (request_ c') = kNewRequest /\
    handles_ c' = prepared.2 /\ apply_ops prepared.1 (response_Reset (response_ c)) = Ret p /\ response_ c' = p /\
    (k1 + k2 + waits (rdq s') = waits (rdq s))%nat /\ data_in (rdq s') = [] /\ wrq s' = wrq s /\ sent s' = sent s.
Proof.
  intros PR Hst Hfin Ht Hd Hn. destruct n as [|n]; [lia|].
  rewrite (serve_new StringToLower (ip_port_ (http_base c)) (handles_ c) n c s Hst Hfin eq_refl eq_refl).
  destruct (serve_on_way StringToLower h (ip_port_ (http_base c)) body (handles_ c) (S n) (http_base c)
    (response_Reset (response_ c)) s 0 _ Ht
    (InHead _ _ _ _ _ _ _ _ 0 [] Hd ltac:(pose proof (head_text_length h); unfold zlen; simpl; lia)) Hn)
    as (k & c' & s' & HS & Hh & Hk & ? & ? & ?).
  revert HS. destruct Hh as [k1 k2 buf pre p' -> Hp]. intros HS.
  exists k1, k2, buf, p'. eexists _, s'. cbv zeta. split; [exact HS|]. by split_and!.
Qed.

Lemma http_request_served_witness :
  exists k1 k2 buf p c' s',
    let seen := HandleRequest (parsed lower post_head (bs "1.2.3.4:5") 3 false kBodyReceiving buf)
                  (Nat.iter k1 HandleConnClosed []) in
    let prepared := PrepareResponse (HandleBodyData (bs "abc") (Nat.iter k2 HandleConnClosed seen.2)) in
    http_serve lower 3 new_logger
      (mkSock [Arrive (bs "POST /a?k"); RdFails EAGAIN;
               Arrive (bs "=v HTTP/1.1" ++ CRLF ++ bs "Content-Length: 3" ++ CRLF ++ CRLF ++ bs "a");
               RdFails EAGAIN; Arrive (bs "bc")] [] []) = Ret (kReadAll, c', s') /\
    http_base c' = PinkConn.set_is_reply true (http_base new_logger) /\ req_status_ (request_ c') = kNewRequest /\
    handles_ c' = prepared.2 /\ apply_ops prepared.1 (response_Reset (response_ new_logger)) = Ret p /\ response_ c' = p /\
    (k1 + k2 + waits (rdq s') = 2)%nat /\ data_in (rdq s') = [] /\ wrq s' = [] /\ sent s' = [].
Proof.
  apply (http_request_served lower post_head (bs "abc") new_logger
    (mkSock [Arrive (bs "POST /a?k"); RdFails EAGAIN;
             Arrive (bs "=v HTTP/1.1" ++ CRLF ++ bs "Content-Length: 3" ++ CRLF ++ CRLF ++ bs "a");
             RdFails EAGAIN; Arrive (bs "bc")] [] []) 3); try done.
  - apply post_plain.
  - repeat (apply Forall_cons; split; [first [by right|left; by eexists]|]); constructor.
  - simpl. lia.
Defined.
