(* ===== verification/HttpPipeline.v ===== *)
(** The bytes that follow a request, and content lengths that are no numbers. *)
From S2P Require Import Pink Prelude Sys StdMap PinkConn HttpConn HttpFacts HttpParse HttpServe HttpTheorems.

(** * Bytes behind the request *)

Lemma sys_read_bytes count s n d s' :
  0 <= count -> sys_read count s = (IoLen n, d, s') ->
  n = zlen d /\ Z.of_nat (rd_bytes (rdq s)) = n + Z.of_nat (rd_bytes (rdq s')).
Proof.
  intros Hc. unfold sys_read, rd_bytes. destruct (SSIZE_MAX <? count); [done|]. destruct (Z.eqb_spec count 0) as [E|E]; [by intros [= <- <- <-]|].
  destruct (rdq s) as [|[a| |e] q] eqn:Eq; intros R; simplify_eq.
  - destruct (Z.leb_spec (zlen a) count); simplify_eq; simpl.
    + split; [done|]. unfold zlen. lia.
    + rewrite zlen_ztake by lia. split; [done|]. unfold zdrop, zlen in *. rewrite length_drop. lia.
  - rewrite Eq. done.
Qed.

Section pipeline.
Context {U : Type} {H : HTTPHandles U}.
Context (StringToLower : bytes -> bytes).
Implicit Types c : HTTPConn U.

(** The connection waits for more of a body than will ever come. *)
Record stuck (p : HTTPResponse) c (s : sock) : Prop := {
  st_status : req_status_ (request_ c) = kBodyReceiving;
  st_remain : Z.of_nat (rd_bytes (rdq s)) < remain_recv_len_ (request_ c) < 2 ^ 64;
  st_fits : reading c;
  st_response : response_ c = p
}.

Lemma stuck_data p c s c' s' :
  stuck p c s -> DoRead c s = (kOk, c', s') -> stuck p c' s' /\ 0 < remain_recv_len_ (request_ c').
Proof.
  intros [Hst Hr Hf Hp] D. destruct (DoRead_spec c s kOk c' s' Hf D) as (Hf' & _ & Hp' & _ & Hst' & _).
  assert (Hc : 0 <= kHTTPMaxMessage - rbuf_pos_ (request_ c)) by (destruct Hf; lia).
  unfold DoRead in D. destruct (sys_read _ s) as [[[n|[]] d] s1] eqn:R; simplify_eq.
  destruct (Z.ltb_spec 0 n) as [Hn|Hn]; simplify_eq.
  destruct (sys_read_bytes _ s n d s' Hc R) as [-> Hb].
  assert (Hrem : remain_recv_len_ (request_ (put_request (put_rbuf (rbuf_ (request_ c) ++ d)
    (if bool_decide (req_status_ (request_ c) = kBodyReceiving) then to_u64 (remain_recv_len_ (request_ c) - zlen d)
     else remain_recv_len_ (request_ c)) (request_ c)) c)) = remain_recv_len_ (request_ c) - zlen d).
  { rewrite bool_decide_eq_true_2 by done. cbn [request_ put_request put_rbuf remain_recv_len_]. apply to_u64_id. lia. }
  split; [|rewrite Hrem; lia]. split; [congruence| |done|congruence]. rewrite Hrem. lia.
Qed.

Lemma stuck_rounds fuel p c s :
  stuck p c s -> (rd_work (rdq s) < fuel)%nat ->
  exists st c' s', read_rounds StringToLower fuel c s = Ret (st, c', s') /\ st <> kReadAll /\ response_ c' = p /\
    (st = kReadHalf -> stuck p c' s').
Proof.
  revert c s. induction fuel as [|fuel IH]; intros c s Hs Hf; [lia|]. cbn [read_rounds].
  unfold read_round. rewrite (st_status p c s Hs). unfold receive_body.
  destruct (DoRead c s) as [[st c1] s1] eqn:D.
  destruct (DoRead_spec c s st c1 s1 (st_fits p c s Hs) D) as (Hf1 & _ & Hp1 & _ & Hst1 & _ & _ & Hst & Hlt).
  destruct (decide (st = kOk)) as [->|Hne].
  - destruct (stuck_data p c s c1 s1 Hs D) as [[Ha Hb Hc Hd] Hpos]. change (negb (bool_decide (kOk = kOk))) with false.
    rewrite (proj2 (Z.eqb_neq (remain_recv_len_ (request_ c1)) 0)) by lia. rewrite orb_false_r.
    destruct (rbuf_pos_ (request_ c1) =? kHTTPMaxMessage); cbn [remain_recv_len_ put_rbuf];
      rewrite (proj2 (Z.eqb_neq (remain_recv_len_ (request_ c1)) 0)) by lia; cbn [obind];
      (apply IH; [split; [done|simpl; lia| |done]|specialize (Hlt eq_refl); lia]).
    + by split.
    + by destruct Hc.
  - rewrite bool_decide_eq_false_2 by done. cbn [negb obind]. exists st, (closed c1), s1.
    assert (Hres : response_ c1 = p) by (rewrite Hp1; apply Hs).
    split_and!; [done| |done|].
    + by destruct Hst as [->|[->| ->]].
    + intros ->. destruct Hs as [Ha Hb [Hc] Hd]. destruct Hf1 as [Hf1].
      assert (c1 = c /\ Z.of_nat (rd_bytes (rdq s1)) <= Z.of_nat (rd_bytes (rdq s))) as [-> Hle].
      { unfold DoRead in D. destruct (sys_read _ s) as [[[n|[]] d] s2] eqn:R; simplify_eq.
        - by destruct (0 <? n).
        - split; [done|]. unfold sys_read in R. destruct (SSIZE_MAX <? _); [by simplify_eq|]. destruct (_ =? 0); [done|]. destruct (rdq s) as [|[a| |e] q] eqn:Eq; simplify_eq.
          + by rewrite Eq.
          + by destruct (zlen a <=? _).
          + unfold rd_bytes. simpl. lia. }
      split; simpl; [done|lia|by split|done].
Qed.

(** A call that leads there. *)
Definition leads_stuck (p : HTTPResponse) (m : outcome (ReadStatus * HTTPConn U * sock)) : Prop :=
  exists st c' s', m = Ret (st, c', s') /\ st <> kReadAll /\ response_ c' = p /\ (st = kReadHalf -> stuck p c' s').

Lemma serve_stuck n p c s :
  (forall c s, stuck p c s -> exists st c' s',
     http_serve StringToLower n c s = Ret (st, c', s') /\ st <> kReadAll /\ response_ c' = p) ->
  req_status_ (request_ c) <> kNewRequest -> leads_stuck p (read_rounds StringToLower (rd_work (rdq s) + 3) c s) ->
  exists st c' s', http_serve StringToLower (S n) c s = Ret (st, c', s') /\ st <> kReadAll /\ response_ c' = p.
Proof.
  intros Hn Hst (st & c' & s' & HR & Hne & Hp & Hh). cbn [http_serve]. unfold GetRequest, ReadData.
  rewrite (bool_decide_eq_false_2 _ Hst), HR. cbn [obind]. rewrite (bool_decide_eq_false_2 (st = kReadAll)) by done.
  destruct (decide (st = kReadHalf)) as [->|Hn2].
  - rewrite bool_decide_eq_true_2 by done. by apply Hn, Hh.
  - rewrite bool_decide_eq_false_2 by done. by exists st, c', s'.
Qed.

Lemma stuck_serve n p c s :
  stuck p c s -> exists st c' s', http_serve StringToLower n c s = Ret (st, c', s') /\ st <> kReadAll /\ response_ c' = p.
Proof.
  revert c s. induction n as [|n IH]; intros c s Hs; [by eexists _, _, _; split_and!; [done| |apply Hs]|].
  apply serve_stuck; [done| |by apply stuck_rounds; [|lia]]. by rewrite (st_status p c s Hs).
Qed.

(** A read that brings everything. *)
Lemma DoRead_whole b ip p (u : U) d q w o :
  0 < zlen d <= kHTTPMaxHeader ->
  DoRead (mkHTTPConn b (blank ip kHeaderReceiving []) p u) (mkSock (Arrive d :: q) w o) =
  (kOk, mkHTTPConn b (blank ip kHeaderReceiving d) p u, mkSock q w o).
Proof.
  intros Hd. assert (Hmax : kHTTPMaxHeader < kHTTPMaxMessage) by done.
  unfold DoRead, sys_read, rbuf_pos_. cbn [request_ rbuf_ blank rdq]. rewrite zlen_nil.
  change (SSIZE_MAX <? kHTTPMaxMessage - 0) with false. change (kHTTPMaxMessage - 0 =? 0) with false. cbv iota. rewrite (proj2 (Z.leb_le _ _)) by lia.
  by rewrite (proj2 (Z.ltb_lt 0 _)) by lia.
Qed.

Lemma stoul_bad v :
  digits_of v = [] /\ (forall x l, v = x :: l -> isspace x = false /\ x <> "-"%char /\ x <> "+"%char) \/
    Forall (fun x => isdigit x = true) v /\ SIZE_MAX < dec_value v ->
  exists e, stoul v = Fault e /\ (e = InvalidArgument \/ e = OutOfRange).
Proof.
  intros [[Hd Hc]|[Hd Hv]]; unfold stoul.
  - destruct v as [|c v]; [exists InvalidArgument; auto|]. destruct (Hc c v eq_refl) as (Hs & Hm & Hp).
    cbn [skip_space]. rewrite Hs, !ceq_neq, Hd by done. exists InvalidArgument. auto.
  - destruct v as [|c v]; [done|]. pose proof (Forall_inv Hd) as Hc. simpl in Hc.
    assert (Hdig : digits_of (c :: v) = c :: v).
    { clear Hv Hc. induction Hd as [|x l Hx _ IH]; [done|]. cbn [digits_of]. by rewrite Hx, IH. }
    assert (isspace c = false) as Hs by (unfold isspace, isdigit in *; lia).
    cbn [skip_space]. rewrite Hs, !ceq_neq, Hdig by (intros ->; discriminate).
    rewrite (proj2 (Z.ltb_lt _ _)) by done. exists OutOfRange. auto.
Qed.

(** The round that reads more than the request. *)
Lemma head_overrun h ip n rest q w o b p u :
  head_ok h -> host_free StringToLower h -> content_length StringToLower h = Ret n -> expects_100 StringToLower h = false ->
  0 <= n < zlen rest -> zlen (head_text h ++ rest) <= kHTTPMaxHeader ->
  (forall r u, (HandleRequest r u).1 = false) ->
  let r := parsed StringToLower h ip n false kBodyReceiving (head_text h ++ rest) in
  receive_header StringToLower (mkHTTPConn b (blank ip kHeaderReceiving []) p u)
    (mkSock (Arrive (head_text h ++ rest) :: q) w o) =
  Ret (Again (mkHTTPConn b (put_rbuf rest (to_u64 (n - zlen rest)) r) p (HandleRequest r u).2) (mkSock q w o)).
Proof.
  intros Ho Hh Hc Hx Hn Hz Hno r. pose proof (head_text_length h) as Hsix. rewrite zlen_app in Hz.
  assert (Hmax : kHTTPMaxHeader < kHTTPMaxMessage) by done. assert (Hsix' : 6 <= zlen (head_text h)) by (unfold zlen; lia).
  unfold receive_header.
  rewrite DoRead_whole by (rewrite zlen_app; lia).
  change (negb (bool_decide (kOk = kOk))) with false. cbn [request_].
  rewrite (ParseHeader_read StringToLower h ip _ rest n Ho Hh Hc) by (rewrite zlen_app; lia).
  cbn [obind]. rewrite Hx. unfold rbuf_pos_.
  change (rbuf_ (parsed StringToLower h ip n false kHeaderReceiving (head_text h ++ rest))) with (head_text h ++ rest).
  rewrite (proj2 (Z.ltb_ge (zlen (head_text h)) 0)), (proj2 (Z.ltb_ge kHTTPMaxHeader _)),
    (proj2 (Z.ltb_lt 0 (zlen (head_text h)))) by (rewrite ?zlen_app; lia).
  cbn [orb]. unfold put_request, put_handles. cbn [http_base request_ response_ handles_].
  change (put_req_status kBodyReceiving (parsed StringToLower h ip n false kHeaderReceiving (head_text h ++ rest))) with r.
  specialize (Hno r u). destruct (HandleRequest r u) as [need u']. simpl in Hno. subst need.
  change (rbuf_ r) with (head_text h ++ rest). change (remain_recv_len_ r) with n. rewrite zdrop_app, zlen_app by done.
  replace (n - (zlen (head_text h) + zlen rest - zlen (head_text h))) with (n - zlen rest) by lia.
  change (reply_100continue_ (put_rbuf rest (to_u64 (n - zlen rest)) r)) with false. cbn [andb snd].
  rewrite (proj2 (Z.eqb_neq _ 0)); [done|].
  unfold to_u64. rewrite <- (Z.mod_add _ 1), Z.mod_small by (unfold kHTTPMaxHeader in *; lia).
  unfold kHTTPMaxHeader in *. lia.
Qed.
End pipeline.

(** A request with more bytes behind it is never answered. When one read
    brings a request's head and more bytes than the body it announces - a second
    request, for a client that pipelines - then the bytes still to come are
    computed as a number just under 2^64, and the connection waits for them: for
    as many calls as the event loop makes and whatever else arrives, no call
    says that a request is there, and no response is prepared. *)
Theorem http_pipelined_stuck {U} {H : HTTPHandles U} StringToLower h n rest q (c : HTTPConn U) w o m :
  head_ok h -> host_free StringToLower h -> content_length StringToLower h = Ret n -> expects_100 StringToLower h = false ->
  0 <= n < zlen rest -> zlen (head_text h ++ rest) <= kHTTPMaxHeader ->
  (forall r u, (HandleRequest r u).1 = false) ->
  req_status_ (request_ c) = kNewRequest -> finished_ (response_ c) = true ->
  Z.of_nat (rd_bytes q) < 2 ^ 64 - kHTTPMaxHeader ->
  exists st c' s', http_serve StringToLower (S m) c (mkSock (Arrive (head_text h ++ rest) :: q) w o) = Ret (st, c', s') /\
    st <> kReadAll /\ response_ c' = response_Reset (response_ c).
Proof.
  intros Ho Hh Hc Hx Hn Hz Hno Hst Hfin Hq.
  rewrite (serve_new StringToLower (ip_port_ (http_base c)) (handles_ c) m c _ Hst Hfin eq_refl eq_refl).
  apply serve_stuck; [by intros; apply stuck_serve|done|]. rewrite Nat.add_succ_r. cbn [read_rounds].
  change (read_round StringToLower ?c ?s) with (receive_header StringToLower c s).
  rewrite (head_overrun StringToLower h (ip_port_ (http_base c)) n rest q w o _ _ _ Ho Hh Hc Hx Hn Hz Hno).
  cbn [obind]. apply stuck_rounds; [|cbn [rdq]; unfold rd_work; simpl; lia].
  assert (Hrem : to_u64 (n - zlen rest) = 2 ^ 64 + n - zlen rest).
  { rewrite zlen_app in Hz. pose proof (zlen_nonneg (head_text h)). unfold to_u64.
    rewrite <- (Z.mod_add _ 1), Z.mod_small by (unfold kHTTPMaxHeader in *; lia). lia. }
  rewrite zlen_app in Hz. pose proof (zlen_nonneg (head_text h)).
  split; try done; cbn [request_ remain_recv_len_ put_rbuf rdq].
  - rewrite Hrem. lia.
  - split. unfold rbuf_pos_. cbn. unfold kHTTPMaxMessage, kHTTPMaxHeader in *. lia.
Qed.

Lemma http_pipelined_stuck_witness :
  exists st c' s', http_serve lower 3 new_logger
      (mkSock [Arrive (head_text get_head ++ head_text get_head); RdFails EAGAIN; Arrive (bs "more")] [] []) = Ret (st, c', s') /\
    st <> kReadAll /\ response_ c' = response_Reset (response_ new_logger).
Proof.
  apply (http_pipelined_stuck lower get_head 0 (head_text get_head) [RdFails EAGAIN; Arrive (bs "more")] new_logger); try done.
  - apply get_head_ok.
  - intros host Hh. vm_compute in Hh. injection Hh as <-. by vm_compute.
Defined.

(** A content length that is no number ends the server. When the value of
    the header does not start like a number, or is 2^64 or more, the exception of
    [std::stoul] leaves [GetRequest], for whatever connection sent it. *)
Theorem http_bad_length_throws {U} {H : HTTPHandles U} StringToLower h v rest q (c : HTTPConn U) w o :
  head_ok h -> host_free StringToLower h -> sm_find (bs "content-length") (head_headers StringToLower h) = Some v ->
  zlen (head_text h ++ rest) <= kHTTPMaxHeader ->
  digits_of v = [] /\ (forall x l, v = x :: l -> isspace x = false /\ x <> "-"%char /\ x <> "+"%char) \/
    Forall (fun x => isdigit x = true) v /\ SIZE_MAX < dec_value v ->
  req_status_ (request_ c) = kNewRequest -> finished_ (response_ c) = true ->
  exists e, GetRequest StringToLower c (mkSock (Arrive (head_text h ++ rest) :: q) w o) = Fault e /\
    (e = InvalidArgument \/ e = OutOfRange).
Proof.
  intros Ho Hh Hv Hz Hbad Hst Hfin. assert (Hmax : kHTTPMaxHeader < kHTTPMaxMessage) by done.
  assert (Hc : exists e, content_length StringToLower h = Fault e /\ (e = InvalidArgument \/ e = OutOfRange)).
  { unfold content_length. rewrite Hv. by apply stoul_bad. }
  destruct Hc as (e & Hc & He). exists e. split; [|done]. unfold GetRequest, ReadData.
  rewrite bool_decide_eq_true_2 by done. cbn [response_ put_request]. rewrite Hfin, Nat.add_succ_r. cbn [read_rounds].
  change (read_round StringToLower ?c ?s) with (receive_header StringToLower c s).
  change (put_request _ _) with (mkHTTPConn (http_base c) (blank (ip_port_ (http_base c)) kHeaderReceiving [])
    (response_Reset (response_ c)) (handles_ c)).
  pose proof (head_text_length h) as Hsix. pose proof (zlen_nonneg rest).
  unfold receive_header. rewrite DoRead_whole by (split; [rewrite zlen_app; unfold zlen in *; lia|done]).
  change (negb (bool_decide (kOk = kOk))) with false. cbn [request_]. rewrite ParseHeader_spec by (done || lia).
  by rewrite Hc.
Qed.

Definition bad_head : head := mkHead (bs "POST") (bs "/") [] (bs "HTTP/1.1") [(bs "Content-Length", bs "many")].

Lemma bad_head_ok : head_ok bad_head.
Proof. solve_head_ok. Qed.

Lemma http_bad_length_throws_witness :
  exists e, GetRequest lower new_logger (mkSock [Arrive (head_text bad_head)] [] []) = Fault e /\
    (e = InvalidArgument \/ e = OutOfRange).
Proof.
  rewrite <- (app_nil_r (head_text bad_head)).
  apply (http_bad_length_throws lower bad_head (bs "many") [] [] new_logger); try done.
  - apply bad_head_ok.
  - left. split; [done|]. intros x l [= <- <-]. by vm_compute.
Defined.
