(* ===== verification/HttpSend.v ===== *)
(** Sending the response of an HTTP connection: what reaches the socket. *)
From S2P Require Import Pink Prelude Sys StdMap PinkConn HttpConn HttpFacts HttpTheorems.

(** * The header's text *)

Definition header_text (p : HTTPResponse) : bytes :=
  status_line (status_code_ p) (match sm_find (status_code_ p) http_status_map with Some r => r | None => [] end) ++
  concat (map (fun kv => header_line kv.1 kv.2) (resp_headers_ p)) ++ CRLF.
#[global] Arguments header_text : simpl never.

Lemma put_text_fits text n :
  0 <= n -> n + zlen text < kHTTPMaxHeader -> put_text text n = Ret (n + zlen text).
Proof.
  intros Hn Hs. unfold put_text. pose proof (zlen_nonneg text).
  rewrite to_u32_id by (unfold kHTTPMaxHeader in *; lia).
  rewrite (proj2 (Z.ltb_ge _ _)); [done|]. unfold kHTTPMaxHeader, kHTTPMaxMessage in *. lia.
Qed.

Lemma put_header_lines_fit l buf :
  zlen (buf ++ concat (map (fun kv => header_line kv.1 kv.2) l)) < kHTTPMaxHeader ->
  put_header_lines l buf (zlen buf) =
  Ret (Some (buf ++ concat (map (fun kv => header_line kv.1 kv.2) l),
             zlen (buf ++ concat (map (fun kv => header_line kv.1 kv.2) l)))).
Proof.
  revert buf. induction l as [|[k v] l IH]; intros buf Hs; cbn [put_header_lines map concat fst snd] in *.
  - by rewrite app_nil_r.
  - pose proof (zlen_nonneg buf). rewrite app_assoc in Hs |- *.
    assert (Hl : zlen (buf ++ header_line k v) < kHTTPMaxHeader).
    { rewrite zlen_app in Hs. pose proof (zlen_nonneg (concat (map (fun kv => header_line kv.1 kv.2) l))). lia. }
    rewrite put_text_fits by (rewrite zlen_app in Hl; lia). cbn [obind]. rewrite <- zlen_app.
    rewrite (proj2 (Z.eqb_neq _ _)) by lia. by rewrite IH.
Qed.

Lemma SerializeHeader_fits p :
  is_Some (sm_find (status_code_ p) http_status_map) -> zlen (header_text p) < kHTTPMaxHeader ->
  SerializeHeader p =
  Ret (Some (put_wbuf (header_text p ++ zdrop (zlen (header_text p)) (wbuf_ p)) (zlen (header_text p)) p)).
Proof.
  intros [reason Hr] Hs. unfold SerializeHeader. unfold header_text in *. rewrite Hr in *.
  set (line := status_line (status_code_ p) reason) in *. set (l := concat _) in *.
  rewrite !zlen_app in Hs. pose proof (zlen_nonneg l). pose proof (zlen_nonneg line). change (zlen CRLF) with 2 in Hs.
  rewrite put_text_fits by lia. cbn [obind]. rewrite (proj2 (Z.eqb_neq _ _)), Z.add_0_l by lia.
  rewrite put_header_lines_fit by (fold l; rewrite zlen_app; lia). fold l. cbn [obind].
  rewrite put_text_fits by (rewrite ?zlen_app; change (zlen CRLF) with 2; lia). cbn [obind].
  rewrite (proj2 (Z.eqb_neq _ _)) by (rewrite zlen_app; change (zlen CRLF) with 2; lia).
  rewrite <- zlen_app, <- !app_assoc. done.
Qed.

(** * The bytes in the buffer *)

(** [left] stands in the buffer at [pos]. *)
Record held (buf : bytes) (pos : Z) (left : bytes) : Prop := {
  hl_pos : 0 <= pos < kHTTPMaxMessage;
  hl_end : pos + zlen left <= zlen buf <= kHTTPMaxMessage;
  hl_left : ztake (zlen left) (zdrop pos buf) = left
}.

Lemma held_nil buf : zlen buf <= kHTTPMaxMessage -> held buf 0 [].
Proof.
  intros Hb. split; [by unfold kHTTPMaxMessage| |done]. change (zlen (@nil ascii)) with 0.
  pose proof (zlen_nonneg buf). lia.
Qed.

Lemma held_send buf pos left n :
  held buf pos left -> 0 < n <= zlen left ->
  held buf (if pos + n =? kHTTPMaxMessage then 0 else pos + n) (zdrop n left).
Proof.
  intros [Hp He Hl] Hn. assert (Hz : zlen (zdrop n left) = zlen left - n) by (apply zlen_zdrop; lia).
  destruct (Z.eqb_spec (pos + n) kHTTPMaxMessage) as [E|E].
  - assert (zdrop n left = []) as -> by (apply zlen_zero; lia).
    apply held_nil. lia.
  - split; [lia|lia|]. rewrite Hz. rewrite <- (zdrop_zdrop pos n) by lia.
    rewrite <- Hl at 2. unfold ztake, zdrop, zlen in *. rewrite skipn_firstn_comm. f_equal. lia.
Qed.

Lemma held_fill buf pos d :
  held buf pos [] -> pos + zlen d <= kHTTPMaxMessage -> held (ztake pos buf ++ d ++ zdrop (pos + zlen d) buf) pos d.
Proof.
  intros [Hp He _] Hd. rewrite zlen_nil in He.
  assert (Ht : zlen (ztake pos buf) = pos) by (apply zlen_ztake; lia).
  assert (Hr : zlen (zdrop (pos + zlen d) buf) = Z.max 0 (zlen buf - (pos + zlen d))).
  { unfold zlen, zdrop. rewrite length_drop. unfold zlen in *. lia. }
  split; [done| |].
  - rewrite !zlen_app, Ht, Hr. lia.
  - rewrite zdrop_app by done. by apply ztake_app.
Qed.

(** * The user's body *)

(** What [WriteResponseBody] has still to store, and what it does while that is
    enough: it stores the next bytes, at least one and not more than asked for, or
    returns -1. *)
Class BodySource (U : Type) {H : HTTPHandles U} : Type := {
  coming : U -> bytes;
  coming_more n (u : U) : 0 < n <= zlen (coming u) ->
    match WriteResponseBody n u with
    | (Filled d, u') => 0 < zlen d <= n /\ coming u = d ++ coming u'
    | (Negative k, u') => k = -1 /\ coming u' = coming u
    end
}.

(** It does not fail. *)
Definition willing (U : Type) {H : HTTPHandles U} {B : BodySource U} : Prop :=
  forall n (u : U), 0 < n <= zlen (coming u) -> exists d, (WriteResponseBody n u).1 = Filled d.

Section send.
Context {U : Type} {H : HTTPHandles U} {B : BodySource U}.
Context (p0 : HTTPResponse) (u0 : U) (out0 : bytes).
Implicit Types c : HTTPConn U.

Abbreviation hdr := (header_text p0).
Abbreviation len := (remain_send_len_ p0).

(** A prepared response. *)
Record prepared : Prop := {
  pp_status : resp_status_ p0 = kPrepareHeader;
  pp_code : is_Some (sm_find (status_code_ p0) http_status_map);
  pp_final : status_code_ p0 <> 100;
  pp_header : zlen hdr < kHTTPMaxHeader;
  pp_length : 0 <= len < 2 ^ 64;
  pp_pos : wbuf_pos_ p0 = 0;
  pp_buf : zlen (wbuf_ p0) <= kHTTPMaxMessage;
  pp_open : finished_ p0 = false
}.
Context (PP : prepared) (PE : len <= zlen (coming u0)).

Definition sending (st : ResponseStatus) (buf : bytes) (pos : Z) (left : bytes) (remain : Z) (finished : bool) : HTTPResponse :=
  mkResponse st buf (zlen left) pos remain finished (status_code_ p0) (resp_headers_ p0).

(** How far the response has come. *)
Inductive track c (s : sock) : Prop :=
  | TPrepared : response_ c = p0 -> handles_ c = u0 -> sent s = out0 -> track c s
  | THeader buf pos left :
      response_ c = sending kSendingHeader buf pos left len false -> held buf pos left -> left <> [] ->
      pos + zlen left < kHTTPMaxHeader -> handles_ c = u0 -> sent s ++ left = out0 ++ hdr -> track c s
  | TBody buf pos left remain new :
      response_ c = sending kSendingBody buf pos left remain false -> held buf pos left ->
      coming u0 = new ++ coming (handles_ c) -> sent s ++ left = out0 ++ hdr ++ new ->
      zlen new + remain = len + zlen left -> zlen left <= remain <= len -> track c s.

(** All of it is out. *)
Definition all_out c (s : sock) : Prop :=
  exists new, coming u0 = new ++ coming (handles_ c) /\ sent s = out0 ++ hdr ++ new /\ zlen new = len /\
    finished_ (response_ c) = true /\ resp_status_ (response_ c) = kPrepareHeader /\
    zlen (wbuf_ (response_ c)) <= kHTTPMaxMessage.

(** Nothing but a part of it is out. *)
Definition partial c (s : sock) : Prop :=
  exists new rest, coming u0 = new ++ coming (handles_ c) /\ sent s ++ rest = out0 ++ hdr ++ new.

Lemma track_partial c s : track c s -> partial c s.
Proof.
  intros [Hr Hu Hs|buf pos left Hr Hh Hn Hm Hu Hs|buf pos left remain new Hr Hh Hg Hs Hz Hl].
  - exists [], hdr. rewrite Hu, Hs, !app_nil_r. done.
  - exists [], left. by rewrite Hu, !app_nil_r.
  - by exists new, left.
Qed.

Lemma track_total c s : track c s -> exists rest, sent s ++ rest = out0 ++ hdr ++ ztake len (coming u0).
Proof.
  intros [Hr Hu Hs|buf pos left Hr Hh Hn Hm Hu Hs|buf pos left remain new Hr Hh Hg Hs Hz Hl].
  - eexists. by rewrite Hs.
  - exists (left ++ ztake len (coming u0)). by rewrite app_assoc, Hs, <- app_assoc.
  - exists (left ++ ztake (len - zlen new) (coming (handles_ c))). rewrite app_assoc, Hs, <- !app_assoc. do 2 f_equal.
    rewrite Hg. unfold ztake, zlen in *. rewrite take_app, (take_ge new) by lia. do 2 f_equal. lia.
Qed.

(** The bytes to be written; a socket that takes them or asks to wait; and what is
    left of both. *)
Definition todo c : Z :=
  match resp_status_ (response_ c) with
  | kPrepareHeader => zlen hdr + len
  | kSendingHeader => buf_len_ (response_ c) + len
  | kSendingBody => remain_send_len_ (response_ c)
  end.
Definition lively c (s : sock) : Prop := patient (wrq s) /\ todo c <= accepting (wrq s) /\ willing U.
Definition effort c (s : sock) : Z := todo c + Z.of_nat (holdups (wrq s)).
Definition onward c (s : sock) c' (s' : sock) : Prop := lively c' s' /\ effort c' s' < effort c s.

(** A part of [Flush] does the work of one state. *)
Definition moved (st : ResponseStatus) c (s : sock) c' (s' : sock) : Prop :=
  if bool_decide (resp_status_ (response_ c) = st) then
    match st with
    | kPrepareHeader => resp_status_ (response_ c') = kSendingHeader
    | _ => lively c s -> effort c' s' < effort c s
    end
  else c' = c /\ s' = s.
Definition part_ok (st : ResponseStatus) c (s : sock) (r : flush (U:=U)) : Prop :=
  match r with
  | Done true c' s' => (track c' s' \/ all_out c' s') /\ (lively c s -> all_out c' s' \/ onward c s c' s')
  | Done false c' s' => partial c' s' /\ ~ lively c s
  | Goes c' s' => track c' s' /\ (lively c s -> lively c' s' /\ effort c' s' <= effort c s) /\ moved st c s c' s'
  end.

Lemma send_buf_held st buf pos left remain f s :
  held buf pos left -> send_buf (sending st buf pos left remain f) s = Ret (sys_write left s).
Proof.
  intros [Hp He Hl]. unfold send_buf, sending. cbn [buf_len_ wbuf_ wbuf_pos_]. pose proof (zlen_nonneg left).
  rewrite (proj2 (Z.ltb_ge (zlen left) 0)), (proj2 (Z.ltb_ge (zlen buf) _)) by lia. cbn [orb]. by rewrite Hl.
Qed.

(** What one write does. *)
Definition taken (s : sock) (r : ioret) (s' : sock) : Prop :=
  patient (wrq s') /\
  ((exists n, r = IoLen n /\ 0 < n /\ accepting (wrq s) <= accepting (wrq s') + 1 /\ holdups (wrq s') = holdups (wrq s)) \/
   (r = IoErr EAGAIN /\ accepting (wrq s') = accepting (wrq s) /\ holdups (wrq s) = S (holdups (wrq s')))).

Lemma write_left left s r s' :
  sys_write left s = (r, s') ->
  match r with
  | IoLen n => 0 <= n <= zlen left /\ sent s ++ left = sent s' ++ zdrop n left
  | IoErr _ => sent s' = sent s
  end.
Proof.
  intros HW. pose proof (sys_write_prefix left s r s' HW) as [HP _]. destruct r as [n|e]; [|done]. destruct HP as [Hn ->].
  split; [done|]. by rewrite <- app_assoc, ztake_zdrop.
Qed.

Lemma write_taken c left s r s' :
  sys_write left s = (r, s') -> left <> [] -> zlen left <= todo c -> lively c s -> taken s r s'.
Proof.
  intros HW Hne Hle (Hp & Ha & _). destruct (sys_write_patient left s r s' Hp Hne ltac:(lia) HW) as (? & _ & [(n & -> & ? & _ & ? & ?)|(-> & _ & ? & ?)]).
  - split; [done|]. left. exists n. split_and!; done || lia.
  - split; [done|]. by right.
Qed.

(** After a write of [n] bytes, or none. *)
Lemma taken_some c c' s n s' :
  taken s (IoLen n) s' -> lively c s -> todo c' = todo c - n -> onward c s c' s'.
Proof.
  intros [Hp [(m & [= <-] & Hm & Ha & Hh)|(? & _)]] (_ & Ht & Hw) E; [|done]. unfold onward, lively, effort.
  split_and!; done || lia.
Qed.
Lemma taken_none c c' s e s' :
  taken s (IoErr e) s' -> lively c s -> todo c' = todo c -> e = EAGAIN /\ onward c s c' s'.
Proof.
  intros [Hp [(m & ? & _)|([= ->] & Ha & Hh)]] (_ & Ht & Hw) E; [done|]. unfold onward, lively, effort.
  split_and!; done || lia.
Qed.
Lemma onward_goes c s c' s' : onward c s c' s' -> lively c' s' /\ effort c' s' <= effort c s.
Proof. intros [? ?]. split; [done|lia]. Qed.

Lemma prepare_header_ok c s : track c s -> wp (fun _ => False) (part_ok kPrepareHeader c s) (prepare_header c s).
Proof.
  intros Ht. unfold prepare_header. case_bool_decide as E.
  2:{ cbn. split_and!; try done. unfold moved. by rewrite bool_decide_eq_false_2. }
  destruct Ht as [Hr Hu Hs|buf pos left Hr|buf pos left remain new Hr]; [|by rewrite Hr in E..].
  destruct PP as [_ Hc Hf Hh Hl Hp Hb Ho]. rewrite Hr, SerializeHeader_fits by done. cbn [obind].
  pose proof (zlen_nonneg hdr) as Hn. cbn [put_wbuf buf_len_]. rewrite (proj2 (Z.ltb_ge _ _)) by lia. cbn.
  assert (Hhd : held (hdr ++ zdrop (zlen hdr) (wbuf_ p0)) 0 hdr).
  { pose proof (held_fill (wbuf_ p0) 0 hdr) as HF. change (ztake 0 (wbuf_ p0)) with (@nil ascii) in HF.
    rewrite Z.add_0_l in HF. pose proof (zlen_nonneg (wbuf_ p0)).
    apply HF; [by apply held_nil|unfold kHTTPMaxHeader, kHTTPMaxMessage in *; lia]. }
  assert (Hne : hdr <> []) by (unfold header_text, status_line; done).
  assert (Htodo : todo c = zlen hdr + len).
  { unfold todo. rewrite Hr. by destruct PP as [-> _ _ _ _ _ _ _]. }
  split_and!.
  - apply (THeader _ _ (hdr ++ zdrop (zlen hdr) (wbuf_ p0)) 0 hdr); try done; [|by rewrite Hs].
    unfold put_resp, put_wbuf, sending. simpl. by rewrite Hp, Ho.
  - unfold lively, effort. rewrite Htodo. done.
  - unfold moved. by rewrite bool_decide_eq_true_2 by (rewrite Hr; by destruct PP).
Qed.

Lemma send_header_ok c s : track c s -> wp (fun _ => False) (part_ok kSendingHeader c s) (send_header c s).
Proof.
  intros Ht. unfold send_header. case_bool_decide as E.
  2:{ cbn. split_and!; try done. unfold moved. by rewrite bool_decide_eq_false_2. }
  pose proof (track_partial c s Ht) as Hpart.
  destruct Ht as [Hr Hu Hs|buf pos left Hr Hh Hn Hm Hu Hs|buf pos left remain new Hr];
    [rewrite Hr in E; destruct PP; congruence| |by rewrite Hr in E].
  rewrite Hr, (send_buf_held _ _ _ _ _ _ _ Hh). cbn [obind].
  assert (Hpos : 0 < zlen left) by (destruct left; [done|unfold zlen; simpl; lia]).
  assert (Htodo : todo c = zlen left + len) by (unfold todo; by rewrite Hr).
  destruct PP as [_ _ Hf _ Hlen _ _ _].
  destruct (sys_write left s) as [r s'] eqn:W. pose proof (write_left left s r s' W) as HW.
  pose proof (write_taken c left s r s' W Hn ltac:(lia)) as HL.
  destruct r as [n|e].
  2:{ assert (Hag : lively c s -> e = EAGAIN /\ onward c s c s') by (intros Hlv; by apply (taken_none c c s e s'); [apply HL|..]).
      destruct e; cbn; (split; [try left; unfold partial in *; rewrite ?HW; try done; by apply (THeader _ _ buf pos left); rewrite ?HW|]);
        intros Hlv; destruct (Hag Hlv) as [? ?]; first [done|by right]. }
  destruct HW as [Hn0 HW]. cbn [sending buf_len_ status_code_].
  destruct (Z.leb_spec n 0) as [Hz|Hz].
  { cbn. split; [|intros Hlv; destruct (HL Hlv) as (_ & [(? & [= <-] & ? & _)|(? & _)]); [lia|done]].
    assert (n = 0) as -> by lia. rewrite zdrop_0 in HW. apply app_inv_tail in HW. unfold partial. by rewrite <- HW. }
  pose proof (held_send buf pos left n Hh ltac:(lia)) as Hh'.
  assert (Hon : forall c', todo c' = todo c - n -> lively c s -> onward c s c' s') by (intros c' E' Hlv; by apply (taken_some c c' s n); [apply HL|..]).
  destruct (Z.eqb_spec n (zlen left)) as [En|En].
  - rewrite (proj2 (Z.eqb_neq _ _)) by done. cbn.
    rewrite En, zdrop_all, app_nil_r in HW by done.
    match goal with |- track ?x _ /\ _ => assert (Hgo : lively c s -> onward c s x s') by (apply Hon; rewrite Htodo; unfold todo; cbn; lia) end.
    split_and!.
    + apply (TBody _ _ buf 0 [] len []); cbn; rewrite ?app_nil_r; try done; try lia; [|by rewrite Hu|congruence|rewrite zlen_nil; lia].
      destruct Hh. apply held_nil. lia.
    + intros Hlv. by apply onward_goes, Hgo.
    + unfold moved. rewrite bool_decide_eq_true_2 by by rewrite Hr. apply Hgo.
  - cbn. rewrite (proj2 (Z.eqb_neq (pos + n) _)) in Hh' by (unfold kHTTPMaxHeader, kHTTPMaxMessage in *; lia).
    assert (Hzd : zlen (zdrop n left) = zlen left - n) by (apply zlen_zdrop; lia).
    match goal with |- track ?x _ /\ _ => assert (Hgo : lively c s -> onward c s x s') by (apply Hon; rewrite Htodo; unfold todo; cbn; lia) end.
    split_and!.
    + apply (THeader _ _ buf (pos + n) (zdrop n left)); try done; [|intros E0; rewrite E0, zlen_nil in Hzd; lia|lia|congruence].
      unfold put_resp, sending. simpl. by rewrite Hzd.
    + intros Hlv. by apply onward_goes, Hgo.
    + unfold moved. rewrite bool_decide_eq_true_2 by by rewrite Hr. apply Hgo.
Qed.

(** The state of the body, as a record to pass on. *)
Definition in_body c (s : sock) buf pos left remain new : Prop :=
  response_ c = sending kSendingBody buf pos left remain false /\ held buf pos left /\
  coming u0 = new ++ coming (handles_ c) /\ sent s ++ left = out0 ++ hdr ++ new /\
  zlen new + remain = len + zlen left /\ zlen left <= remain <= len.

Lemma in_body_track c s buf pos left remain new : in_body c s buf pos left remain new -> track c s.
Proof. intros (? & ? & ? & ? & ? & ?). by apply (TBody c s buf pos left remain new). Qed.

Lemma fill_body_ok c s buf pos left remain new :
  in_body c s buf pos left remain new -> remain <> 0 ->
  exists c', fill_body c = Ret c' /\
    ((buf_len_ (response_ c') = -1 /\ partial c' s /\ ~ willing U) \/
     (exists buf' left' new', in_body c' s buf' pos left' remain new' /\ left' <> [])).
Proof.
  intros (Hr & Hh & Hg & Hs & Hz & Hl) Hrem. unfold fill_body. rewrite Hr. cbn [sending buf_len_ wbuf_pos_ remain_send_len_].
  pose proof (zlen_nonneg left) as Hln.
  destruct (Z.eqb_spec (zlen left) 0) as [E|E].
  2:{ exists c. split; [done|]. right. exists buf, left, new. split; [done|]. intros ->. by rewrite zlen_nil in E. }
  apply zlen_zero in E. subst left. rewrite zlen_nil in *. rewrite app_nil_r in Hs.
  set (n := Z.min (kHTTPMaxMessage - pos) remain).
  assert (Hn : 0 < n <= zlen (coming (handles_ c))).
  { pose proof (zlen_app new (coming (handles_ c))) as Ha. rewrite <- Hg in Ha. destruct Hh. lia. }
  pose proof (coming_more n (handles_ c) Hn) as HG.
  assert (Hwill : willing U -> exists d, (WriteResponseBody n (handles_ c)).1 = Filled d) by (intros Hw; by apply Hw).
  destruct (WriteResponseBody n (handles_ c)) as [[d|k] u'].
  - destruct HG as [Hd Hgu]. assert (Hfit : pos + zlen d <= kHTTPMaxMessage) by (unfold n in *; lia).
    cbn [sending wbuf_]. rewrite (proj2 (Z.ltb_ge _ _)) by done. eexists. split; [done|]. right.
    exists (ztake pos buf ++ d ++ zdrop (pos + zlen d) buf), d, (new ++ d). split.
    + split_and!; try done; try (rewrite ?zlen_app; unfold n in *; lia).
      * by apply held_fill.
      * cbn. by rewrite Hg, Hgu, app_assoc.
      * by rewrite Hs, <- !app_assoc.
    + intros ->. change (zlen (@nil ascii)) with 0 in Hd. lia.
  - destruct HG as [-> Hgu]. eexists. split; [done|]. left. split; [done|]. split.
    + exists new, []. cbn. by rewrite Hg, Hgu, app_nil_r.
    + intros Hw. by destruct (Hwill Hw).
Qed.

Lemma send_body_ok c s : track c s -> wp (fun _ => False) (part_ok kSendingBody c s) (send_body c s).
Proof.
  intros Ht. unfold send_body. case_bool_decide as E.
  2:{ cbn. split_and!; try done. unfold moved. by rewrite bool_decide_eq_false_2. }
  destruct Ht as [Hr Hu Hs|buf pos left Hr|buf pos left remain new Hr Hh Hg Hs Hz Hl];
    [rewrite Hr in E; destruct PP; congruence|by rewrite Hr in E|].
  assert (Hb : in_body c s buf pos left remain new) by (split_and!; done || lia).
  assert (Htodo : todo c = remain) by (unfold todo; by rewrite Hr).
  pose proof (zlen_nonneg left) as Hln. pose proof (zlen_nonneg new) as Hnn.
  rewrite Hr. cbn [sending remain_send_len_].
  destruct (Z.eqb_spec remain 0) as [E0|E0].
  { cbn. assert (left = []) as -> by (apply zlen_zero; lia). rewrite app_nil_r in Hs. rewrite zlen_nil in Hz.
    assert (Hc : all_out (put_response (put_resp kPrepareHeader (zlen (@nil ascii)) pos 0 true (sending kSendingBody buf pos [] remain false)) c) s).
    { exists new. cbn. split_and!; try done; [lia|]. destruct Hh. lia. }
    split; [by right|by left]. }
  destruct (fill_body_ok c s buf pos left remain new Hb E0) as (c1 & -> & [(H1 & Hp & Hw)|(buf' & left' & new' & Hb' & Hne)]);
    cbn [obind].
  { rewrite H1. cbn. split; [done|]. by intros (_ & _ & ?). }
  pose proof (in_body_track _ _ _ _ _ _ _ Hb') as Ht'. pose proof (track_partial _ _ Ht') as Hpart.
  destruct Hb' as (Hr' & Hh' & Hg' & Hs' & Hz' & Hl'). rewrite Hr'. cbn [sending buf_len_].
  assert (Hpos : 0 < zlen left') by (destruct left'; [done|unfold zlen; simpl; lia]).
  rewrite (proj2 (Z.eqb_neq _ (-1))) by lia. rewrite (send_buf_held _ _ _ _ _ _ _ Hh'). cbn [obind].
  assert (Htodo1 : todo c1 = todo c) by (rewrite Htodo; unfold todo; by rewrite Hr').
  destruct (sys_write left' s) as [r s'] eqn:W. pose proof (write_left left' s r s' W) as HW.
  pose proof (write_taken c left' s r s' W Hne ltac:(lia)) as HL.
  destruct r as [n|e].
  2:{ assert (Hag : lively c s -> e = EAGAIN /\ onward c s c1 s') by (intros Hlv; by apply (taken_none c c1 s e s'); [apply HL|..]).
      destruct e; cbn; (split; [try left; unfold partial in *; rewrite ?HW; try done; by apply (TBody _ _ buf' pos left' remain new'); rewrite ?HW|]);
        intros Hlv; destruct (Hag Hlv) as [? ?]; first [done|by right]. }
  destruct HW as [Hn0 HW].
  destruct (Z.leb_spec n 0) as [Hn|Hn].
  { cbn. split; [|intros Hlv; destruct (HL Hlv) as (_ & [(? & [= <-] & ? & _)|(? & _)]); [lia|done]].
    assert (n = 0) as -> by lia. rewrite zdrop_0 in HW. apply app_inv_tail in HW. unfold partial. by rewrite <- HW. }
  pose proof (held_send buf' pos left' n Hh' ltac:(lia)) as Hh2.
  assert (Hzd : zlen (zdrop n left') = zlen left' - n) by (apply zlen_zdrop; lia).
  assert (Hrem : to_u64 (remain - n) = remain - n).
  { apply to_u64_id. destruct PP as [_ _ _ _ Hlen _ _ _]. pose proof (zlen_nonneg new'). lia. }
  assert (Hon : forall c', todo c' = todo c - n -> lively c s -> onward c s c' s') by (intros c' E' Hlv; by apply (taken_some c c' s n); [apply HL|..]).
  cbn. rewrite Hrem.
  match goal with |- track ?x _ /\ _ => assert (Hgo : lively c s -> onward c s x s') by (apply Hon; rewrite Htodo; unfold todo; cbn; lia) end.
  split_and!.
  - apply (TBody _ _ buf' (if pos + n =? kHTTPMaxMessage then 0 else pos + n) (zdrop n left') (remain - n) new'); try done; try lia.
    + unfold put_resp, sending. simpl. by rewrite Hzd.
    + congruence.
  - intros Hlv. by apply onward_goes, Hgo.
  - unfold moved. rewrite bool_decide_eq_true_2 by by rewrite Hr. apply Hgo.
Qed.

(** * Whole calls *)

(** How [Flush] ends. *)
Definition flushed c (s : sock) (f : flush (U:=U)) : Prop :=
  match f with
  | Done true c' s' => (track c' s' \/ all_out c' s') /\ (lively c s -> all_out c' s' \/ onward c s c' s')
  | Done false c' s' => partial c' s' /\ ~ lively c s
  | Goes c' s' => track c' s' /\ (lively c s -> onward c s c' s')
  end.

Lemma part_then st c s (k : HTTPConn U -> sock -> outcome (flush (U:=U))) r :
  wp (fun _ => False) (part_ok st c s) r ->
  (forall c' s', track c' s' -> (lively c s -> lively c' s' /\ effort c' s' <= effort c s) -> moved st c s c' s' ->
     wp (fun _ => False) (flushed c s) (k c' s')) ->
  wp (fun _ => False) (flushed c s) (let! r := r in then_flush r k).
Proof.
  intros Hr Hk. destruct r as [[[] c' s'|c' s']|]; try done; cbn in *; try done.
  destruct Hr as (? & ? & ?). by apply Hk.
Qed.

Lemma flushed_mono c s c1 s1 f :
  (lively c s -> lively c1 s1 /\ effort c1 s1 <= effort c s) -> flushed c1 s1 f -> flushed c s f.
Proof.
  unfold onward. intros Hl. destruct f as [[] c' s'|c' s']; cbn; intros [? Hf]; (split; [done|]); intros Hlv; destruct (Hl Hlv) as [H1 ?].
  - destruct (Hf H1) as [?|[? ?]]; [by left|right]. split; [done|lia].
  - by apply Hf.
  - destruct (Hf H1). split; [done|lia].
Qed.

Lemma body_flushed c s :
  track c s -> resp_status_ (response_ c) = kSendingBody -> wp (fun _ => False) (flushed c s) (send_body c s).
Proof.
  intros Ht E. eapply wp_mono; [|by apply send_body_ok]. intros [[] c' s'|c' s']; cbn; try done.
  intros (Ht' & Hl & Hm). unfold moved in Hm. rewrite bool_decide_eq_true_2 in Hm by done.
  split; [done|]. intros Hlv. split; [by apply Hl|auto].
Qed.

(** Behind a part that has made progress the rest may find nothing to do. *)
Lemma after_header c s c1 s1 :
  track c1 s1 -> (lively c s -> lively c1 s1) -> (lively c s -> effort c1 s1 < effort c s) -> wp (fun _ => False) (flushed c s) (send_body c1 s1).
Proof.
  intros Ht Hl Hlt. eapply wp_mono; [|by apply send_body_ok]. unfold onward. intros [[] c' s'|c' s']; cbn.
  - intros [? Hf]. split; [done|]. intros Hlv. destruct (Hf (Hl Hlv)) as [?|[? ?]]; [by left|right].
    split; [done|]. specialize (Hlt Hlv). lia.
  - intros [? Hf]. split; [done|]. auto.
  - intros (Ht' & Hl' & _). split; [done|]. intros Hlv. destruct (Hl' (Hl Hlv)). specialize (Hlt Hlv). split; [done|lia].
Qed.

Lemma header_flushed c s :
  track c s -> resp_status_ (response_ c) <> kPrepareHeader ->
  wp (fun _ => False) (flushed c s) (let! r := send_header c s in then_flush r send_body).
Proof.
  intros Ht Hst. apply (part_then kSendingHeader); [by apply send_header_ok|].
  intros c1 s1 Ht1 Hl Hm. unfold moved in Hm. case_bool_decide as E.
  - apply after_header; [done| |exact Hm]. intros Hlv. by apply Hl.
  - destruct Hm as [-> ->]. apply body_flushed; [done|]. by destruct (resp_status_ (response_ c)).
Qed.

Lemma flush_spec c s :
  track c s -> wp (fun _ => False) (flushed c s)
    (let! r := prepare_header c s in then_flush r (fun c s => let! r := send_header c s in then_flush r send_body)).
Proof.
  intros Ht. apply (part_then kPrepareHeader); [by apply prepare_header_ok|].
  intros c1 s1 Ht1 Hl Hm. eapply wp_mono; [intros f; by apply flushed_mono|]. apply header_flushed; [done|].
  unfold moved in Hm. case_bool_decide as E; [by rewrite Hm|by destruct Hm as [-> _]].
Qed.

Lemma track_open c s : track c s -> finished_ (response_ c) = false.
Proof. intros [-> _ _|? ? ? -> |? ? ? ? ? ->]; try done. by destruct PP. Qed.

Lemma SendReply_ok c s :
  track c s -> exists st c' s', SendReply c s = Ret (st, c', s') /\
    ((st = kWriteAll /\ all_out c' s') \/
     (st = kWriteHalf /\ track c' s' /\ (lively c s -> onward c s c' s')) \/
     (st = kWriteError /\ partial c' s' /\ ~ lively c s)).
Proof.
  intros Ht. pose proof (flush_spec c s Ht) as HF.
  assert (HE : SendReply c s = (let! f := (let! r := prepare_header c s in
      then_flush r (fun c s => let! r := send_header c s in then_flush r send_body)) in
    match f with
    | Done ok c s => Ret (if negb ok then kWriteError else if finished_ (response_ c) then kWriteAll else kWriteHalf, c, s)
    | Goes c s => Ret (if finished_ (response_ c) then kWriteAll else kWriteHalf, c, s)
    end)).
  { unfold SendReply, Flush. destruct (prepare_header c s) as [[ok c1 s1|c1 s1]|]; [done| |done]. cbn [obind then_flush].
    destruct (send_header c1 s1) as [[ok c2 s2|c2 s2]|]; [done| |done]. cbn [obind then_flush].
    by destruct (send_body c2 s2) as [[ok c3 s3|c3 s3]|]. }
  rewrite HE. clear HE.
  destruct (let! r := prepare_header c s in _) as [f|]; [|done]. destruct f as [[] c' s'|c' s']; cbn in *;
    eexists _, c', s'; (split; [done|]).
  - destruct HF as [[Ht'|Hc] Hl].
    + right. left. rewrite (track_open _ _ Ht'). split_and!; [done|done|]. intros Hlv.
      destruct (Hl Hlv) as [(? & _ & _ & _ & Hfin & _)|?]; [|done]. by rewrite (track_open _ _ Ht') in Hfin.
    + left. split; [|done]. by destruct Hc as (? & _ & _ & _ & -> & _).
  - right. right. by destruct HF.
  - right. left. destruct HF as [Ht' Hl]. by rewrite (track_open _ _ Ht').
Qed.

Lemma todo_nonneg c s : track c s -> 0 <= todo c.
Proof.
  destruct PP as [Hp _ _ _ ? _ _ _]. intros [Hr|? ? left Hr|? ? left ? ? Hr ? ? ? ? Hle]; unfold todo; rewrite Hr; cbn.
  - rewrite Hp. pose proof (zlen_nonneg hdr). lia.
  - pose proof (zlen_nonneg left). lia.
  - pose proof (zlen_nonneg left). lia.
Qed.

(** The event loop's calls, while there is more to send. *)
Fixpoint send_replies (n : nat) c (s : sock) : outcome (WriteStatus * HTTPConn U * sock) :=
  match n with
  | O => Ret (kWriteHalf, c, s)
  | S n =>
      let! (st, c, s) := SendReply c s in
      if bool_decide (st = kWriteHalf) then send_replies n c s else Ret (st, c, s)
  end.

Lemma send_replies_ok n c s :
  track c s -> exists st c' s', send_replies n c s = Ret (st, c', s') /\
    ((st = kWriteAll /\ all_out c' s') \/ (st <> kWriteAll /\ partial c' s')) /\
    (lively c s -> effort c s < Z.of_nat n -> st = kWriteAll).
Proof.
  revert c s. induction n as [|n IH]; intros c s Ht.
  { eexists _, _, _. split; [done|]. split; [right; split; [done|by apply track_partial]|].
    pose proof (todo_nonneg c s Ht). unfold effort. lia. }
  cbn [send_replies]. destruct (SendReply_ok c s Ht) as (st & c1 & s1 & -> & [(-> & Hc)|[(-> & Ht1 & Hl)|(-> & Hp & Hl)]]); cbn.
  - eexists _, _, _. split; [done|]. split; [by left|done].
  - destruct (IH c1 s1 Ht1) as (st & c' & s' & HS & Hd & Hlv). exists st, c', s'. split_and!; [done|done|].
    intros Hlive Hn. destruct (Hl Hlive) as [Hl1 Hlt]. apply Hlv; [done|lia].
  - eexists _, _, _. split; [done|]. split; [by right|]. intros Hlive. by destruct Hl.
Qed.
End send.
