(* ===== verification/HttpReply.v ===== *)
(** The theorems on the responses of the HTTP connection. *)
From S2P Require Import Pink Prelude Sys StdMap PinkConn HttpConn HttpFacts HttpTheorems HttpSend.


(** A body that is stored three bytes at a time; the object is what is left of it. *)
Record source : Type := mkSource { left_over : bytes }.

#[export] Instance source_handles : HTTPHandles source := {
  HandleRequest _ u := (false, u);
  HandleBodyData _ u := u;
  PrepareResponse u := ([OpStatus 200; OpLength 5], u);
  WriteResponseBody n u := (Filled (ztake (Z.min n 3) (left_over u)), mkSource (zdrop (Z.min n 3) (left_over u)));
  HandleConnClosed u := u
}.

Lemma source_more n (u : source) : 0 < n <= zlen (left_over u) ->
  match WriteResponseBody n u with
  | (Filled d, u') => 0 < zlen d <= n /\ left_over u = d ++ left_over u'
  | (Negative k, u') => k = -1 /\ left_over u' = left_over u
  end.
Proof. intros Hn. simpl. split; [rewrite zlen_ztake; lia|]. by rewrite ztake_zdrop. Qed.

#[export] Instance source_body : BodySource source := { coming := left_over; coming_more := source_more }.

Lemma source_willing : willing source.
Proof. intros n u _. by eexists. Qed.

Definition abc_response : HTTPResponse := mkResponse kPrepareHeader [] 0 0 5 false 200 [(bs "Content-Length", bs "5")].
Definition abc_conn : HTTPConn source :=
  mkHTTPConn (new_PinkConn 7 (bs "1.2.3.4:5") 0) new_HTTPRequest abc_response (mkSource (bs "abcde")).

Lemma abc_prepared : prepared abc_response.
Proof. split; done. Qed.


(** * After [100 Continue] *)
Section continue.
Context {U : Type} {H : HTTPHandles U}.
Implicit Types c : HTTPConn U.

Lemma apply_ops_finished l p p' : apply_ops l p = Ret p' ->
  finished_ p' = finished_ p /\ resp_status_ p' = resp_status_ p /\ wbuf_pos_ p' = wbuf_pos_ p /\ wbuf_ p' = wbuf_ p.
Proof.
  revert p. induction l as [|o l IH]; intros p; cbn [apply_ops]; [by intros [= <-]|].
  destruct o as [code|k v|k v|n].
  - unfold SetStatusCode. destruct (valid_status code); [|done]. intros E. by apply IH in E.
  - intros E. by apply IH in E.
  - intros E. by apply IH in E.
  - intros E. apply IH in E as (-> & -> & -> & ->). unfold SetContentLength. by destruct (_ || _)%bool.
Qed.

(** A call of [SendReply] that has a header to send. *)
Lemma SendReply_header c p s r :
  response_ c = p -> resp_status_ p = kPrepareHeader -> is_Some (sm_find (status_code_ p) http_status_map) ->
  zlen (header_text p) < kHTTPMaxHeader -> wbuf_pos_ p = 0 -> sys_write (header_text p) s = r ->
  let buf := header_text p ++ zdrop (zlen (header_text p)) (wbuf_ p) in
  let sending st len pos := mkResponse st buf len pos (remain_send_len_ p) (finished_ p) (status_code_ p) (resp_headers_ p) in
  SendReply c s =
  match r.1 with
  | IoErr EAGAIN => Ret (if finished_ p then kWriteAll else kWriteHalf,
      put_response (sending kSendingHeader (zlen (header_text p)) 0) c, r.2)
  | IoErr _ => Ret (kWriteError, put_response (sending kSendingHeader (zlen (header_text p)) 0) c, r.2)
  | IoLen n =>
      if n <=? 0 then Ret (kWriteError, put_response (sending kSendingHeader (zlen (header_text p)) 0) c, r.2)
      else if n =? zlen (header_text p) then
        if status_code_ p =? 100
        then Ret (kWriteAll, put_response (mkResponse kPrepareHeader buf 0 0 (remain_send_len_ p) true (status_code_ p) (resp_headers_ p)) c, r.2)
        else (let! f := send_body (put_response (sending kSendingBody 0 0) c) r.2 in
              match f with
              | Done ok c s => Ret (if negb ok then kWriteError else if finished_ (response_ c) then kWriteAll else kWriteHalf, c, s)
              | Goes c s => Ret (if finished_ (response_ c) then kWriteAll else kWriteHalf, c, s)
              end)
      else Ret (if finished_ p then kWriteAll else kWriteHalf,
             put_response (sending kSendingHeader (zlen (header_text p) - n) n) c, r.2)
  end.
Proof.
  intros Hr Hst Hc Hz Hpos Hw buf sending. pose proof (zlen_nonneg (header_text p)) as Hn.
  unfold SendReply, Flush, prepare_header. rewrite Hr, bool_decide_eq_true_2 by done.
  rewrite SerializeHeader_fits by done. cbn [obind]. cbn [put_wbuf buf_len_].
  rewrite (proj2 (Z.ltb_ge _ _)) by lia. cbn [obind then_flush].
  fold buf. change (put_wbuf buf (zlen (header_text p)) p) with (mkResponse (resp_status_ p) buf (zlen (header_text p)) (wbuf_pos_ p)
    (remain_send_len_ p) (finished_ p) (status_code_ p) (resp_headers_ p)). rewrite Hpos.
  match goal with |- context [put_response (put_resp ?st ?l ?q ?m ?f ?x) c] =>
    change (put_resp st l q m f x) with (sending kSendingHeader (zlen (header_text p)) 0) end.
  assert (Hbuf : send_buf (sending kSendingHeader (zlen (header_text p)) 0) s = Ret r).
  { unfold send_buf, sending. cbn [buf_len_ wbuf_ wbuf_pos_]. rewrite (proj2 (Z.ltb_ge _ 0)), (proj2 (Z.ltb_ge _ _))
      by (unfold buf; rewrite ?zlen_app; pose proof (zlen_nonneg (zdrop (zlen (header_text p)) (wbuf_ p))); lia).
    cbn [orb]. unfold buf. by rewrite zdrop_0, ztake_app, Hw. }
  unfold send_header. cbn [put_response response_]. rewrite Hbuf.
  change (bool_decide (resp_status_ (sending kSendingHeader (zlen (header_text p)) 0) = kSendingHeader)) with true.
  cbv iota. cbn [obind]. destruct r as [[n|e] s']; cbn [fst snd].
  - unfold sending. cbn [buf_len_ wbuf_pos_ status_code_]. rewrite Z.add_0_l. destruct (n <=? 0); [done|].
    destruct (n =? zlen (header_text p)); [|done]. destruct (status_code_ p =? 100); [done|]. cbn [obind then_flush].
    unfold put_resp, put_response. cbn [http_base request_ response_ handles_ wbuf_ status_code_ resp_headers_ remain_send_len_ finished_].
    match goal with |- context [send_body ?x s'] => by destruct (send_body x s') as [[ok c3 s3|c3 s3]|] end.
  - by destruct e.
Qed.
End continue.

(** After a [100 Continue] the end of the response is lost. The interim
    response leaves [finished_] set, and nothing resets it before the final
    one. So the first call of [SendReply] for the final response, after which only
    a part of its header is out, reports [kWriteAll]: the event loop stops
    sending. *)
Theorem http_continue_truncates {U} {H : HTTPHandles U} (c : HTTPConn U) ops p q n k w w2 o o2 :
  let interim := bs "HTTP/1.1 100 Continue" ++ CRLF ++ CRLF in
  let c1 := put_response (mkResponse kPrepareHeader (interim ++ zdrop 25 q) 0 0 0 true 100 []) c in
  response_ c = mkResponse kPrepareHeader q 0 0 0 false 100 [] -> (25 <= n)%nat ->
  apply_ops ops (response_ c1) = Ret p -> is_Some (sm_find (status_code_ p) http_status_map) ->
  zlen (header_text p) < kHTTPMaxHeader -> Z.of_nat (S k) < zlen (header_text p) ->
  SendReply c (mkSock [] (Accepts n :: w) o) = Ret (kWriteAll, c1, mkSock [] w (o ++ interim)) /\
  exists c2, SendReply (put_response p c1) (mkSock [] (Accepts (S k) :: w2) o2) =
    Ret (kWriteAll, c2, mkSock [] w2 (o2 ++ take (S k) (header_text p))).
Proof.
  intros interim c1 Hr Hn Hops Hcode Hsize Hk. set (p0 := mkResponse kPrepareHeader q 0 0 0 false 100 []) in *.
  assert (Ht : header_text p0 = interim) by done. split.
  - rewrite (SendReply_header c p0 _ (IoLen 25, mkSock [] w (o ++ interim))); [done|done|done|by eexists|done|done|].
    rewrite Ht. rewrite (sys_write_all interim _ n w) by (done || (change (zlen interim) with 25; lia)). done.
  - destruct (apply_ops_finished _ _ _ Hops) as (Hf & Hst & Hpos & Hbuf). simpl in Hf, Hst, Hpos.
    eexists. rewrite (SendReply_header _ p _ (IoLen (Z.of_nat (S k)), mkSock [] w2 (o2 ++ take (S k) (header_text p))));
      [|done|done|done|done|done|].
    + cbn [fst snd]. rewrite (proj2 (Z.leb_gt _ 0)), (proj2 (Z.eqb_neq _ _)) by lia. cbv iota. by rewrite Hf.
    + unfold sys_write. cbn [wrq rdq sent]. rewrite Z.min_l by lia. unfold ztake. by rewrite Nat2Z.id.
Qed.

Definition interim_conn : HTTPConn source :=
  mkHTTPConn (new_PinkConn 7 (bs "1.2.3.4:5") 0) new_HTTPRequest (mkResponse kPrepareHeader [] 0 0 0 false 100 []) (mkSource []).

Lemma http_continue_truncates_witness :
  let interim := bs "HTTP/1.1 100 Continue" ++ CRLF ++ CRLF in
  let c1 := put_response (mkResponse kPrepareHeader interim 0 0 0 true 100 []) interim_conn in
  SendReply interim_conn (mkSock [] [Accepts 100] []) = Ret (kWriteAll, c1, mkSock [] [] interim) /\
  exists c2, SendReply (put_response (mkResponse kPrepareHeader interim 0 0 5 true 200 [(bs "Content-Length", bs "5")]) c1)
      (mkSock [] [Accepts 9] []) = Ret (kWriteAll, c2, mkSock [] [] (bs "HTTP/1.1 ")).
Proof.
  apply (http_continue_truncates interim_conn [OpStatus 200; OpLength 5]
    (mkResponse kPrepareHeader (bs "HTTP/1.1 100 Continue" ++ CRLF ++ CRLF) 0 0 5 true 200 [(bs "Content-Length", bs "5")])
    [] 100 8 [] [] [] []); try done.
  lia.
Defined.
