(* ===== verification/SimpleHttp.v ===== *)
(** [pink/include/simple_http_conn.h] and [pink/src/simple_http_conn.cc]: the HTTP
    connection that keeps a whole request and a whole response in memory. The file
    repeats the tables and the string functions of http_conn.cc; those are taken from
    [HttpConn]. *)
From S2P Require Import Pink Prelude Sys Slash StdMap PinkConn HttpConn.

Definition kHTTPMaxMessage : Z := 1024 * 1024 * 8.
Definition kHTTPMaxHeader : Z := 1024 * 64.

(** * The request *)

Inductive ParseStatus : Type :=
  | kHeaderMethod | kHeaderPath | kHeaderVersion | kHeaderParamKey | kHeaderParamValue | kBody.

Record Request : Type := mkReq {
  method : bytes;
  path : bytes;
  version : bytes;
  headers : params;
  query_params : params;
  post_params : params;
  content : bytes
}.

Definition new_Request : Request := mkReq (bs "GET") (bs "/index") [] [] [] [] [].

(** [Request::Clear] *)
Definition Request_Clear (r : Request) : Request := mkReq [] [] [] [] [] [] [].

Definition put_head (m p v : bytes) (h : params) (r : Request) : Request :=
  mkReq m p v h (query_params r) (post_params r) (content r).
Definition put_headers (h : params) (r : Request) : Request := put_head (method r) (path r) (version r) h r.
Definition put_path (p : bytes) (r : Request) : Request := put_head (method r) p (version r) (headers r) r.
Definition put_query (q : params) (r : Request) : Request :=
  mkReq (method r) (path r) (version r) (headers r) q (post_params r) (content r).
Definition put_post (q : params) (r : Request) : Request :=
  mkReq (method r) (path r) (version r) (headers r) (query_params r) q (content r).
Definition append_content (d : bytes) (r : Request) : Request :=
  mkReq (method r) (path r) (version r) (headers r) (query_params r) (post_params r) (content r ++ d).

(** [operator[]] of a map of strings: the value, and the map, which has the key. *)
Definition at_key (k : bytes) (m : params) : bytes * params :=
  match sm_find k m with Some v => (v, m) | None => ([], sm_set k [] m) end.

Section parser.
(** [slash::StringToLower] *)
Context (StringToLower : bytes -> bytes).

(** One byte of a line of the head; [key] and [value] are the locals. [None] is the
    [default] branch. *)
Definition head_byte (c : ascii) (key value : bytes) (st : ParseStatus) (r : Request)
    : option (bytes * bytes * ParseStatus * Request) :=
  match st with
  | kHeaderMethod =>
      Some (if negb (c =?c SP) then (key, value, st, put_head (method r ++ [c]) (path r) (version r) (headers r) r)
            else (key, value, kHeaderPath, r))
  | kHeaderPath =>
      Some (if negb (c =?c SP) then (key, value, st, put_head (method r) (path r ++ [c]) (version r) (headers r) r)
            else (key, value, kHeaderVersion, r))
  | kHeaderVersion =>
      Some (if negb (c =?c CR) && negb (c =?c LF)
            then (key, value, st, put_head (method r) (path r) (version r ++ [c]) (headers r) r)
            else if c =?c LF then (key, value, kHeaderParamKey, r) else (key, value, st, r))
  | kHeaderParamKey =>
      Some (if negb (c =?c ":"%char) && negb (c =?c SP) then (key ++ [c], value, st, r)
            else if c =?c SP then (key, value, kHeaderParamValue, r) else (key, value, st, r))
  | kHeaderParamValue =>
      Some (if negb (c =?c CR) && negb (c =?c LF) then (key, value ++ [c], st, r)
            else if c =?c CR
            then (key, value, kHeaderParamKey, put_headers (sm_set (StringToLower key) value (headers r)) r)
            else (key, value, st, r))
  | kBody => None
  end.

Fixpoint head_bytes (line key value : bytes) (st : ParseStatus) (r : Request) : bool * ParseStatus * Request :=
  match line with
  | [] => (true, st, r)
  | c :: line =>
      match head_byte c key value st r with
      | None => (false, st, r)
      | Some (key, value, st, r) => head_bytes line key value st r
      end
  end.

(** [ParseHeadLine] of the bytes between its positions. *)
Definition ParseHeadLine (line : bytes) (st : ParseStatus) (r : Request) : bool * ParseStatus * Request :=
  head_bytes line [] [] st r.

(** [ParseParameters] from a position on, into one of the two maps. *)
Definition ParseParameters (data : bytes) (line_start : nat) (from_url : bool) (r : Request) : outcome Request :=
  let rest := drop line_start data in
  if from_url then let! q := HttpConn.ParseParameters (S (length rest)) rest (query_params r) in Ret (put_query q r)
  else let! q := HttpConn.ParseParameters (S (length rest)) rest (post_params r) in Ret (put_post q r).

Definition ParseGetUrl (r : Request) : outcome Request :=
  let '(host, h) := at_key (bs "host") (headers r) in
  let r := put_headers h r in
  let r :=
    match find_sub host (path r) with
    | Some _ => if 7 + zlen host <? zlen (path r) then put_path (zdrop (7 + zlen host) (path r)) r else r
    | None => r
    end in
  match index_of "?"%char (path r) with
  | None => Ret r
  | Some n =>
      let! r := ParseParameters (path r) (S n) true r in
      Ret (put_path (take n (path r)) r)
  end.

(** The loop over the lines, from [data] on. A line takes at least one byte of the
    [remain_size] left. *)
Fixpoint head_lines (fuel : nat) (data : bytes) (remain_size : Z) (st : ParseStatus) (r : Request)
    : outcome (bool * ParseStatus * Request) :=
  match fuel with
  | O => Fault Diverges
  | S fuel =>
      if 4 <? remain_size then
        let n := find_lf data (Z.to_nat remain_size) in
        let '(ok, st, r) := ParseHeadLine (take (S n) data) st r in
        if negb ok then Ret (false, st, r)
        else head_lines fuel (drop (S n) data) (remain_size - (Z.of_nat n + 1)) st r
      else Ret (true, st, r)
  end.

Definition ParseHeadFromArray (data : bytes) (size : Z) (r : Request) : outcome (bool * Request) :=
  if size <=? 5 then Ret (false, r)
  else
    let! (ok, _, r) := head_lines (S (Z.to_nat size)) data size kHeaderMethod r in
    if negb ok then Ret (false, r) else let! r := ParseGetUrl r in Ret (true, r).

(** [ParseBodyFromArray]; it always returns true. *)
Definition ParseBodyFromArray (data : bytes) (r : Request) : outcome Request :=
  let r := append_content data r in
  if bool_decide (method r = bs "POST") then
    let '(type, h) := at_key (bs "content-type") (headers r) in
    let r := put_headers h r in
    if bool_decide (type = bs "application/x-www-form-urlencoded") then ParseParameters (content r) 0 false r else Ret r
  else Ret r.
End parser.

(** * The response *)

Record Response : Type := mkResp {
  status_code_ : Z;
  reason_phrase_ : bytes;
  headers_ : params;
  body_ : bytes
}.

Definition new_Response : Response := mkResp 0 [] [] [].
Definition Response_Clear (p : Response) : Response := mkResp 0 [] [] [].

Definition SetStatusCode (code : Z) (p : Response) : outcome Response :=
  if valid_status code then
    match sm_find code http_status_map with
    | Some reason => Ret (mkResp code reason (headers_ p) (body_ p))
    | None => Fault OutOfRange
    end
  else Fault AssertFailed.
Definition SetHeaders (key value : bytes) (p : Response) : Response :=
  mkResp (status_code_ p) (reason_phrase_ p) (sm_set key value (headers_ p)) (body_ p).
Definition SetHeaders_num (key : bytes) (value : Z) (p : Response) : Response := SetHeaders key (to_string (to_i32 value)) p.
Definition SetBody (body : bytes) (p : Response) : Response := mkResp (status_code_ p) (reason_phrase_ p) (headers_ p) body.
Definition HasMoreBody (pos : Z) (p : Response) : bool := to_u64 pos <? zlen (body_ p).

(** [snprintf] of a text behind [out] in an array of [size] bytes: what is in the
    array, and whether that is all of it. After a text that would be longer than the
    array the next one is written behind its end. *)
Definition put_text (text out : bytes) (size : Z) : outcome (bytes * bool) :=
  let room := size - zlen out in
  if zlen text <? room then Ret (out ++ text, false)
  else if zlen text =? room then Ret (out ++ ztake (room - 1) text ++ [NUL], true)
  else Fault OutOfBounds.

Fixpoint put_lines (l : params) (out : bytes) (size : Z) : outcome (bytes * bool) :=
  match l with
  | [] => Ret (out, false)
  | (k, v) :: l =>
      let! (out, full) := put_text (header_line k v) out size in
      if full : bool then Ret (out, true) else put_lines l out size
  end.

Definition SerializeHeaderToArray (size : Z) (p : Response) : outcome (bytes * Response) :=
  let! (out, full) := put_text (status_line (status_code_ p) (reason_phrase_ p)) [] size in
  if full : bool then Ret (out, p)
  else
    let p := match sm_find (bs "Content-Length") (headers_ p) with
             | Some _ => p
             | None => SetHeaders_num (bs "Content-Length") (zlen (body_ p)) p
             end in
    let! (out, full) := put_lines (headers_ p) out size in
    if full : bool then Ret (out, p) else let! (out, _) := put_text CRLF out size in Ret (out, p).

(** [SerializeBodyToArray]: the bytes and the new position. *)
Definition SerializeBodyToArray (size pos : Z) (p : Response) : outcome (bytes * Z) :=
  let actual := if zlen (body_ p) - pos <? size then zlen (body_ p) - pos else size in
  if INT_MAX <? pos + actual then Fault Overflow
  else Ret (ztake actual (zdrop pos (body_ p)), pos + actual).

(** What [DealMessage] of the user does to the response it is given. *)
Inductive resp_op : Type :=
  | OpStatus (code : Z)
  | OpHeader (key value : bytes)
  | OpHeaderNum (key : bytes) (value : Z)
  | OpBody (body : bytes).

Fixpoint apply_ops (l : list resp_op) (p : Response) : outcome Response :=
  match l with
  | [] => Ret p
  | OpStatus code :: l => let! p := SetStatusCode code p in apply_ops l p
  | OpHeader k v :: l => apply_ops l (SetHeaders k v p)
  | OpHeaderNum k v :: l => apply_ops l (SetHeaders_num k v p)
  | OpBody b :: l => apply_ops l (SetBody b p)
  end.

(** * The connection *)

(** The arrays up to [rbuf_pos_] and [wbuf_len_] are the lists [rbuf_] and [wbuf_];
    [user_] is the state of the user's subclass. *)
Record SimpleHTTPConn (U : Type) : Type := mkSimple {
  simple_base : PinkConn;
  conn_status_ : ConnStatus;
  rbuf_ : bytes;
  wbuf_ : bytes;
  wbuf_pos_ : Z;
  header_len_ : Z;
  remain_packet_len_ : Z;
  request_ : Request;
  response_pos_ : Z;
  response_ : Response;
  user_ : U
}.
Arguments mkSimple {U}. Arguments simple_base {U}. Arguments conn_status_ {U}. Arguments rbuf_ {U}. Arguments wbuf_ {U}.
Arguments wbuf_pos_ {U}. Arguments header_len_ {U}. Arguments remain_packet_len_ {U}. Arguments request_ {U}.
Arguments response_pos_ {U}. Arguments response_ {U}. Arguments user_ {U}.

Section conn.
Context {U : Type} {SL : Slash}.
Context (StringToLower : bytes -> bytes).
(** [DealMessage] *)
Context (DealMessage : Request -> U -> list resp_op * U).
Implicit Types c : SimpleHTTPConn U.

Definition new_SimpleHTTPConn (fd : Z) (ip_port : bytes) (now : Z) (u : U) : SimpleHTTPConn U :=
  mkSimple (new_PinkConn fd ip_port now) kHeader [] [] 0 0 0 new_Request (-1) new_Response u.

Definition rbuf_pos_ c : Z := zlen (rbuf_ c).
Definition wbuf_len_ c : Z := zlen (wbuf_ c).

Definition put_base (b : PinkConn) c : SimpleHTTPConn U :=
  mkSimple b (conn_status_ c) (rbuf_ c) (wbuf_ c) (wbuf_pos_ c) (header_len_ c) (remain_packet_len_ c) (request_ c)
    (response_pos_ c) (response_ c) (user_ c).
(** What reading changes. *)
Definition put_in (st : ConnStatus) (buf : bytes) (hlen remain : Z) (r : Request) c : SimpleHTTPConn U :=
  mkSimple (simple_base c) st buf (wbuf_ c) (wbuf_pos_ c) hlen remain r (response_pos_ c) (response_ c) (user_ c).
(** What answering changes. *)
Definition put_answer (p : Response) (u : U) c : SimpleHTTPConn U :=
  mkSimple (simple_base c) (conn_status_ c) (rbuf_ c) (wbuf_ c) (wbuf_pos_ c) (header_len_ c) (remain_packet_len_ c)
    (request_ c) (response_pos_ c) p u.
(** What sending changes. *)
Definition put_out (buf : bytes) (pos rpos : Z) (p : Response) c : SimpleHTTPConn U :=
  mkSimple (simple_base c) (conn_status_ c) (rbuf_ c) buf pos (header_len_ c) (remain_packet_len_ c) (request_ c) rpos p (user_ c).

Definition set_is_reply (b : bool) c : SimpleHTTPConn U := put_base (PinkConn.set_is_reply b (simple_base c)) c.

(** The length that the head announces. *)
Definition announced (h : params) : Z :=
  match sm_find (bs "content-length") h with
  | None => 0
  | Some v => match string2l v (zlen v) with Some n => to_u64 n | None => 0 end
  end.

Definition BuildRequestHeader c : outcome (bool * SimpleHTTPConn U) :=
  let! (ok, r) := ParseHeadFromArray StringToLower (rbuf_ c) (header_len_ c) (Request_Clear (request_ c)) in
  if negb ok then Ret (false, put_in (conn_status_ c) (rbuf_ c) (header_len_ c) (remain_packet_len_ c) r c)
  else
    let remain := announced (headers r) in
    let remain := if header_len_ c <? rbuf_pos_ c then to_u64 (remain - (rbuf_pos_ c - header_len_ c)) else remain in
    Ret (true, put_in (conn_status_ c) (rbuf_ c) (header_len_ c) remain r c).

Definition AppendRequestBody c : outcome (SimpleHTTPConn U) :=
  if rbuf_pos_ c <? header_len_ c then Fault OutOfBounds
  else
    let! r := ParseBodyFromArray (zdrop (header_len_ c) (rbuf_ c)) (request_ c) in
    Ret (put_in (conn_status_ c) (rbuf_ c) (header_len_ c) (remain_packet_len_ c) r c).

Definition HandleMessage c : outcome (SimpleHTTPConn U) :=
  let '(ops, u) := DealMessage (request_ c) (user_ c) in
  let! p := apply_ops ops (Response_Clear (response_ c)) in
  Ret (set_is_reply true (put_answer p u c)).

(** How a round of the loop of [GetRequest] ends. *)
Inductive round : Type :=
  | Returns (r : ReadStatus) (c : SimpleHTTPConn U) (s : sock)
  | Again (c : SimpleHTTPConn U) (s : sock).

(** [request_->headers] has the header with one of the two values. *)
Definition expects_continue (r : Request) : bool :=
  header_is (bs "expect") (bs "100-continue") (headers r) || header_is (bs "expect") (bs "100-Continue") (headers r).

(** The state [kHeader]. *)
Definition receive_header c (s : sock) : outcome round :=
  let '(n, d, s) := sys_read (kHTTPMaxHeader - rbuf_pos_ c) s in
  match n with
  | IoErr EAGAIN => Ret (Returns kReadHalf c s)
  | IoErr _ => Ret (Returns kReadClose c s)
  | IoLen n =>
      if n <=? 0 then Ret (Returns kReadClose c s)
      else
        let c := put_in (conn_status_ c) (rbuf_ c ++ d) (header_len_ c) (remain_packet_len_ c) (request_ c) c in
        match find_sub (CRLF ++ CRLF) (cstr (rbuf_ c)) with
        | None => Ret (Again c s)
        | Some sep =>
            let c := put_in (conn_status_ c) (rbuf_ c) (Z.of_nat sep + 4) (remain_packet_len_ c) (request_ c) c in
            let! (ok, c) := BuildRequestHeader c in
            if negb ok then Ret (Returns kReadError c s)
            else
              let packet c := put_in kPacket (rbuf_ c) (header_len_ c) (remain_packet_len_ c) (request_ c) c in
              if expects_continue (request_ c) then
                let! p := SetStatusCode 100 (Response_Clear (response_ c)) in
                let c := packet (set_is_reply true (put_answer p (user_ c) c)) in
                Ret (if 0 <? remain_packet_len_ c then Returns kReadHalf c s else Again c s)
              else Ret (Again (packet c) s)
        end
  end.

(** The state [kPacket] after its read. *)
Definition packet_read c (s : sock) : outcome round :=
  if (remain_packet_len_ c =? 0) || (rbuf_pos_ c =? kHTTPMaxMessage) then
    let! c := AppendRequestBody c in
    if remain_packet_len_ c =? 0
    then Ret (Again (put_in kComplete (rbuf_ c) (header_len_ c) (remain_packet_len_ c) (request_ c) c) s)
    else Ret (Again (put_in (conn_status_ c) [] 0 (remain_packet_len_ c) (request_ c) c) s)
  else Ret (Again c s).

Definition receive_packet c (s : sock) : outcome round :=
  if 0 <? remain_packet_len_ c then
    let room := kHTTPMaxMessage - rbuf_pos_ c in
    let '(n, d, s) := sys_read (if remain_packet_len_ c <? room then remain_packet_len_ c else room) s in
    match n with
    | IoErr EAGAIN => Ret (Returns kReadHalf c s)
    | IoErr _ => Ret (Returns kReadClose c s)
    | IoLen n =>
        if n <=? 0 then Ret (Returns kReadClose c s)
        else packet_read (put_in (conn_status_ c) (rbuf_ c ++ d) (header_len_ c) (to_u64 (remain_packet_len_ c - n)) (request_ c) c) s
    end
  else packet_read c s.

(** The state [kComplete]. *)
Definition complete c (s : sock) : outcome round :=
  let! c := HandleMessage c in
  Ret (Returns kReadAll (put_in kHeader [] (header_len_ c) (remain_packet_len_ c) (request_ c) c) s).

Definition read_round c (s : sock) : outcome round :=
  match conn_status_ c with
  | kHeader => receive_header c s
  | kPacket => receive_packet c s
  | kComplete => complete c s
  | _ => Ret (Returns kReadError c s)
  end.

Fixpoint read_rounds (fuel : nat) c (s : sock) : outcome (ReadStatus * SimpleHTTPConn U * sock) :=
  match fuel with
  | O => Fault Diverges
  | S fuel =>
      let! r := read_round c s in
      match r with
      | Returns st c s => Ret (st, c, s)
      | Again c s => read_rounds fuel c s
      end
  end.

(** The bound on the rounds is what the socket may still give, and the rounds that
    do not read. *)
Definition GetRequest c (s : sock) : outcome (ReadStatus * SimpleHTTPConn U * sock) :=
  read_rounds (rd_work (rdq s) + 3) c s.

(** * Sending *)

(** The loop of [FillResponseBuf]. *)
Fixpoint fill_body (fuel : nat) c : outcome (SimpleHTTPConn U) :=
  if HasMoreBody (response_pos_ c) (response_ c) && (wbuf_len_ c <? kHTTPMaxMessage) then
    match fuel with
    | O => Fault Diverges
    | S fuel =>
        let! (d, pos) := SerializeBodyToArray (kHTTPMaxMessage - wbuf_len_ c) (response_pos_ c) (response_ c) in
        fill_body fuel (put_out (wbuf_ c ++ d) (wbuf_pos_ c) pos (response_ c) c)
    end
  else Ret c.

(** [FillResponseBuf]; [snprintf] does not fail, so it returns true. *)
Definition FillResponseBuf c : outcome (SimpleHTTPConn U) :=
  let! c :=
    if response_pos_ c <? 0 then
      let! (d, p) := SerializeHeaderToArray (kHTTPMaxMessage - wbuf_len_ c) (response_ c) in
      Ret (put_out (wbuf_ c ++ d) (wbuf_pos_ c) 0 p c)
    else Ret c in
  fill_body 1 c.

(** The loop of [SendReply]: each round uses a grant of the socket. *)
Fixpoint send_rounds (fuel : nat) c (s : sock) : outcome (WriteStatus * SimpleHTTPConn U * sock) :=
  if 0 <? wbuf_len_ c then
    match fuel with
    | O => Fault Diverges
    | S fuel =>
        let '(n, s) := sys_write (zdrop (wbuf_pos_ c) (wbuf_ c)) s in
        match n with
        | IoErr EAGAIN => Ret (kWriteHalf, c, s)
        | IoErr _ => Ret (kWriteError, c, s)
        | IoLen n =>
            if n <=? 0 then Ret (kWriteError, c, s)
            else
              let pos := wbuf_pos_ c + n in
              if pos =? wbuf_len_ c then
                let! c := FillResponseBuf (put_out [] 0 (response_pos_ c) (response_ c) c) in
                send_rounds fuel c s
              else send_rounds fuel (put_out (wbuf_ c) pos (response_pos_ c) (response_ c) c) s
        end
    end
  else Ret (kWriteAll, put_out (wbuf_ c) (wbuf_pos_ c) (-1) (response_ c) c, s).

Definition SendReply c (s : sock) : outcome (WriteStatus * SimpleHTTPConn U * sock) :=
  let! c := FillResponseBuf c in
  send_rounds (S (length (wrq s))) c s.
End conn.
