(* ===== verification/SimpleHttpFacts.v ===== *)
(** Facts about the simple HTTP connection: its head parser runs in step with the one
    of [HttpConn], and reading ends. *)
From S2P Require Import Pink Prelude Sys Slash StdMap PinkConn HttpConn HttpFacts HttpParse SimpleHttp.

(** * The head parser *)
Section parser.
Context (StringToLower : bytes -> bytes).
Implicit Types r : Request.

Definition status_of (st : ParseStatus) : RequestParserStatus :=
  match st with
  | kHeaderMethod | kBody => HttpConn.kHeaderMethod
  | kHeaderPath => HttpConn.kHeaderPath
  | kHeaderVersion => HttpConn.kHeaderVersion
  | kHeaderParamKey => HttpConn.kHeaderParamKey
  | kHeaderParamValue => HttpConn.kHeaderParamValue
  end.

(** A request under construction as the other class has it. *)
Definition as_http (buf : bytes) (st : ParseStatus) r : HTTPRequest :=
  HttpConn.mkRequest (method r) (path r) [] (version r) [] false (post_params r) (query_params r) (headers r) []
    kNewRequest (status_of st) buf 0.

(** What the line parser leaves alone. *)
Definition kept r r' : Prop :=
  query_params r' = query_params r /\ post_params r' = post_params r /\ content r' = content r.

Lemma kept_head_trans a b d : kept a b -> kept b d -> kept a d.
Proof. intros (? & ? & ?) (? & ? & ?). split_and!; congruence. Qed.

Lemma head_byte_step buf c k v st r : st <> kBody ->
  exists k' v' st' r', SimpleHttp.head_byte StringToLower c k v st r = Some (k', v', st', r') /\ st' <> kBody /\ kept r r' /\
    HttpConn.head_byte StringToLower c k v (as_http buf st r) = (k', v', as_http buf st' r').
Proof.
  intros Hst. destruct st; try done; unfold SimpleHttp.head_byte, HttpConn.head_byte, as_http; cbn [parse_status_ status_of];
    repeat case_match; simplify_eq; by repeat eexists.
Qed.

Lemma head_bytes_step buf line k v st r : st <> kBody ->
  exists st' r', SimpleHttp.head_bytes StringToLower line k v st r = (true, st', r') /\ st' <> kBody /\ kept r r' /\
    HttpConn.head_bytes StringToLower line k v (as_http buf st r) = as_http buf st' r'.
Proof.
  revert k v st r. induction line as [|c line IH]; intros k v st r Hst; [by exists st, r|].
  cbn [SimpleHttp.head_bytes HttpConn.head_bytes].
  destruct (head_byte_step buf c k v st r Hst) as (k1 & v1 & st1 & r1 & -> & H1 & K1 & ->).
  destruct (IH k1 v1 st1 r1 H1) as (st2 & r2 & -> & H2 & K2 & ->). exists st2, r2. split_and!; try done. by eapply kept_head_trans.
Qed.

(** The two loops over the lines. *)
Lemma head_lines_step buf fuel data remain st r h : st <> kBody ->
  HttpConn.header_lines StringToLower fuel data remain (as_http buf st r) = Ret h ->
  exists st' r', SimpleHttp.head_lines StringToLower fuel data remain st r = Ret (true, st', r') /\ kept r r' /\
    h = as_http buf st' r'.
Proof.
  revert data remain st r. induction fuel as [|fuel IH]; intros data remain st r Hst; [done|].
  cbn [header_lines SimpleHttp.head_lines]. destruct (4 <? remain); [|intros [= <-]; by exists st, r].
  unfold SimpleHttp.ParseHeadLine, HttpConn.ParseHeadLine.
  destruct (head_bytes_step buf (take (S (find_lf data (Z.to_nat remain))) data) [] [] st r Hst) as (st1 & r1 & -> & H1 & K1 & ->).
  intros E. destruct (IH _ _ _ _ H1 E) as (st2 & r2 & HE & K2 & ->). exists st2, r2. split_and!; try done. by eapply kept_head_trans.
Qed.

Lemma head_lines_end fuel data remain r :
  (Z.to_nat remain < fuel)%nat ->
  exists st' r', SimpleHttp.head_lines StringToLower fuel data remain kHeaderMethod r = Ret (true, st', r') /\ kept r r'.
Proof.
  intros Hf. destruct (header_lines_ends StringToLower fuel data remain (as_http [] kHeaderMethod r) Hf) as (h & E & _).
  destruct (head_lines_step [] _ _ _ kHeaderMethod _ _ ltac:(done) E) as (st & r' & ? & ? & _). by exists st, r'.
Qed.

(** Fuel that is enough makes no difference. *)
Lemma ParseParameters_fuel f1 f2 data m :
  (length data < f1)%nat -> (length data < f2)%nat -> HttpConn.ParseParameters f1 data m = HttpConn.ParseParameters f2 data m.
Proof.
  revert f2 data m. induction f1 as [|f1 IH]; intros [|f2] data m H1 H2; try lia. destruct data as [|c data]; [done|].
  cbn [HttpConn.ParseParameters]. apply IH; rewrite length_drop; simpl in *; lia.
Qed.

Lemma SimpleParameters_end data n b r :
  exists q, SimpleHttp.ParseParameters data n b r = Ret (if b : bool then put_query q r else put_post q r).
Proof.
  unfold SimpleHttp.ParseParameters. cbv zeta.
  destruct b; match goal with |- context [HttpConn.ParseParameters ?f ?d ?m] =>
    destruct (ParseParameters_ends f d m) as [q ->]; [lia|] end; by exists q.
Qed.

Lemma SimpleGetUrl_end r : exists r', SimpleHttp.ParseGetUrl r = Ret r' /\ content r' = content r.
Proof.
  unfold SimpleHttp.ParseGetUrl. destruct (at_key _ _) as [host h].
  match goal with |- context [index_of _ (path ?x)] => set (r1 := x) end.
  assert (Hc : content r1 = content r) by (unfold r1; by repeat case_match). clearbody r1.
  destruct (index_of _ _) as [n|]; [|by exists r1].
  destruct (SimpleParameters_end (path r1) (S n) true r1) as [q ->]. by eexists.
Qed.

Lemma ParseHead_end data n r :
  exists ok r', ParseHeadFromArray StringToLower data n r = Ret (ok, r').
Proof.
  unfold ParseHeadFromArray. destruct (Z.leb_spec n 5); [by eexists _, _|].
  destruct (head_lines_end (S (Z.to_nat n)) data n r) as (st & r1 & -> & _); [lia|]. cbn [obind negb].
  destruct (SimpleGetUrl_end r1) as (r2 & -> & _). by eexists _, _.
Qed.

Lemma ParseBody_end data r : exists r', ParseBodyFromArray data r = Ret r'.
Proof.
  unfold ParseBodyFromArray. case_bool_decide; [|by eexists]. destruct (at_key _ _) as [type h]. case_bool_decide; [|by eexists].
  match goal with |- context [SimpleHttp.ParseParameters ?d ?n ?b ?x] => destruct (SimpleParameters_end d n b x) as [q ->] end.
  by eexists.
Qed.

(** * A whole head *)

Abbreviation lines_read h := (mkReq (h_method h) (url_text h) (h_version h) (head_headers StringToLower h) [] [] []).

Lemma head_lines_read h rest r :
  head_ok h ->
  ParseHeadFromArray StringToLower (head_text h ++ rest) (zlen (head_text h)) (Request_Clear r) =
  (let! r := SimpleHttp.ParseGetUrl (lines_read h) in Ret (true, r)).
Proof.
  intros Ho. unfold ParseHeadFromArray. pose proof (head_text_length h) as Hlen.
  rewrite (proj2 (Z.leb_gt _ _)) by (unfold zlen; lia).
  pose proof (header_lines_read StringToLower h [] kNewRequest rest Ho) as E.
  destruct (head_lines_step (head_text h ++ rest) _ _ _ kHeaderMethod (Request_Clear r) _ ltac:(done) E) as (st & r1 & -> & K & Er).
  cbn [obind negb]. destruct K as (Kq & Kp & Kc). unfold as_http, put_line, blank in Er.
  cbn in Er. injection Er as Em Ep Ev _ _ Ehd _. do 2 f_equal.
  destruct r1. simpl in *. by subst.
Qed.

(** The request that the text of a head becomes: the header Host is there, and the
    path does not name it. *)
Lemma ParseHead_read h rest r :
  head_ok h -> is_Some (sm_find (bs "host") (head_headers StringToLower h)) -> host_free StringToLower h ->
  ParseHeadFromArray StringToLower (head_text h ++ rest) (zlen (head_text h)) (Request_Clear r) =
  Ret (true, mkReq (h_method h) (h_path h) (h_version h) (head_headers StringToLower h) (set_all (h_query h) []) [] []).
Proof.
  intros Ho [host Hh] Hfree. rewrite head_lines_read by done.
  pose proof (ParseGetUrl_read StringToLower h (HttpConn.mkRequest [] (url_text h) [] [] [] false [] [] (head_headers StringToLower h)
    [] kNewRequest HttpConn.kHeaderMethod [] 0) Ho Hfree eq_refl eq_refl eq_refl) as Hu.
  unfold HttpConn.ParseGetUrl in Hu. cbn [HttpConn.headers_ HttpConn.url_ HttpConn.query_params_] in Hu.
  unfold SimpleHttp.ParseGetUrl, at_key. cbn [headers]. rewrite Hh in Hu |- *.
  unfold SimpleHttp.put_headers, SimpleHttp.put_path, put_head. cbn [path version headers method query_params post_params content].
  assert (Hns : find_sub host (url_text h) = None) by by apply Hfree. rewrite Hns in Hu |- *. cbn [path].
  destruct (index_of "?"%char (url_text h)) as [n|].
  - unfold SimpleHttp.ParseParameters. cbv zeta. cbn [path query_params Request_Clear].
    rewrite (ParseParameters_fuel (S (length (drop (S n) (url_text h)))) (S (length (url_text h))))
      by (rewrite ?length_drop; lia).
    revert Hu. destruct (HttpConn.ParseParameters _ _ _) as [q|]; [|done]. cbn. intros Hu.
    injection Hu as Hpath Hq. by rewrite Hpath, Hq.
  - cbn in Hu. injection Hu as Hpath Hq. cbn. by rewrite Hpath, <- Hq.
Qed.

(** Without the header Host an empty one is made, and found in every path. *)
Lemma ParseHead_no_host h rest r :
  head_ok h -> sm_find (bs "host") (head_headers StringToLower h) = None -> h_query h = [] ->
  ParseHeadFromArray StringToLower (head_text h ++ rest) (zlen (head_text h)) (Request_Clear r) =
  Ret (true, mkReq (h_method h) (if 7 <? zlen (h_path h) then zdrop 7 (h_path h) else h_path h) (h_version h)
               (sm_set (bs "host") [] (head_headers StringToLower h)) [] [] []).
Proof.
  intros Ho Hh Hq. rewrite head_lines_read by done. unfold SimpleHttp.ParseGetUrl, at_key. cbn [headers]. rewrite Hh.
  assert (Hu : url_text h = h_path h) by (unfold url_text; rewrite Hq; apply app_nil_r).
  assert (Hp : "?"%char ∉ h_path h) by (eapply free_not_in; [apply Ho|set_solver]).
  unfold SimpleHttp.put_headers, SimpleHttp.put_path, put_head. cbn [path version headers method query_params post_params content].
  rewrite Hu. assert (find_sub [] (h_path h) = Some 0%nat) as -> by by destruct (h_path h).
  change (7 + zlen (@nil ascii)) with 7. destruct (7 <? zlen (h_path h)); cbn [path].
  - rewrite (proj2 (index_of_None _ _)); [done|]. intros Hin. apply Hp. 
    rewrite <- (take_drop (Z.to_nat 7) (h_path h)). apply elem_of_app. by right.
  - by rewrite (proj2 (index_of_None _ _)).
Qed.
End parser.

(** * Reading ends *)
Section conn.
Context {U : Type} {SL : Slash}.
Context (StringToLower : bytes -> bytes) (DealMessage : Request -> U -> list resp_op * U).
Implicit Types c : SimpleHTTPConn U.

(** The arrays are in order. *)
Record in_order c : Prop := {
  io_size : zlen (rbuf_ c) <= kHTTPMaxMessage;
  io_header : conn_status_ c = kHeader -> zlen (rbuf_ c) <= kHTTPMaxHeader;
  io_packet : conn_status_ c <> kHeader -> 0 <= header_len_ c <= zlen (rbuf_ c);
  io_remain : 0 <= remain_packet_len_ c;
  io_status : conn_status_ c = kHeader \/ conn_status_ c = kPacket \/ conn_status_ c = kComplete
}.

(** The rounds that are left, besides those that read. *)
Definition rank (st : ConnStatus) : nat := match st with kHeader => 3 | kPacket => 2 | _ => 1 end.
Definition measure c (s : sock) : nat := rd_work (rdq s) + rank (conn_status_ c).

(** The program only stops at a status code that [SetStatusCode] does not know. *)
Definition bad_code (e : fault) : Prop := e = AssertFailed.

Definition same_id c c' : Prop := conn_id (simple_base c') = conn_id (simple_base c).

Definition simple_round_ok c (s : sock) (r : SimpleHttp.round (U:=U)) : Prop :=
  match r with
  | SimpleHttp.Returns st c' s' => same_id c c' /\ in_order c' /\ wrq s' = wrq s /\ sent s' = sent s /\
      (st = kReadAll \/ st = kReadHalf \/ st = kReadClose \/ st = kReadError)
  | SimpleHttp.Again c' s' => same_id c c' /\ in_order c' /\ wrq s' = wrq s /\ sent s' = sent s /\
      (measure c' s' < measure c s)%nat
  end.

(** A C string is not longer than its array. *)
Lemma cstr_length l : (length (cstr l) <= length l)%nat.
Proof. induction l as [|c l IH]; [done|]. simpl. destruct (_ =?c _); simpl; lia. Qed.

Lemma valid_known code : valid_status code = true -> is_Some (sm_find code http_status_map).
Proof.
  intros Hv. assert (Hin : code ∈ seqZ 100 3 ++ seqZ 200 8 ++ seqZ 400 10 ++ [416] ++ seqZ 500 10).
  { rewrite !elem_of_app, !elem_of_seqZ, list_elem_of_singleton. unfold valid_status in Hv. b2p. lia. }
  assert (Hall : Forall (fun code => is_Some (sm_find code http_status_map)) (seqZ 100 3 ++ seqZ 200 8 ++ seqZ 400 10 ++ [416] ++ seqZ 500 10)).
  { vm_compute. repeat (apply Forall_cons; split; [by eexists|]). by apply Forall_nil. }
  rewrite Forall_forall in Hall. by apply Hall.
Qed.

Lemma SimpleStatus_wp code p : wp bad_code (fun _ => True) (SimpleHttp.SetStatusCode code p).
Proof.
  unfold SimpleHttp.SetStatusCode. destruct (valid_status code) eqn:E; [|done]. by destruct (valid_known code E) as [v ->].
Qed.

Lemma simple_ops_wp l p : wp bad_code (fun _ => True) (SimpleHttp.apply_ops l p).
Proof.
  revert p. induction l as [|o l IH]; intros p; [done|]. destruct o; cbn [SimpleHttp.apply_ops]; auto.
  apply wp_bind. eapply wp_mono; [|apply SimpleStatus_wp]. auto.
Qed.

Lemma Build_ok c :
  exists ok c', BuildRequestHeader StringToLower c = Ret (ok, c') /\ simple_base c' = simple_base c /\
    rbuf_ c' = rbuf_ c /\ header_len_ c' = header_len_ c /\ conn_status_ c' = conn_status_ c /\
    (0 <= remain_packet_len_ c -> 0 <= remain_packet_len_ c').
Proof.
  unfold BuildRequestHeader. destruct (ParseHead_end StringToLower (rbuf_ c) (header_len_ c) (Request_Clear (request_ c))) as (ok & r & ->).
  cbn [obind]. destruct ok; cbn [negb]; eexists _, _; split; try done; split_and!; try done.
  intros _. cbn. destruct (_ <? _); [apply to_u64_range|]. unfold announced. repeat case_match; try lia; apply to_u64_range.
Qed.

(** A read in a state: it fails, or brings bytes. *)
Lemma simple_read count s :
  0 <= count ->
  let '(n, d, s') := sys_read count s in
  wrq s' = wrq s /\ sent s' = sent s /\
  match n with
  | IoLen n => n = zlen d /\ n <= count /\ (0 < n -> (rd_work (rdq s') < rd_work (rdq s))%nat)
  | IoErr _ => True
  end.
Proof.
  intros Hc. destruct (sys_read count s) as [[n d] s'] eqn:R.
  pose proof (sys_read_work _ _ _ _ _ Hc R) as Hw. pose proof (sys_read_incoming _ _ _ _ _ Hc R) as (Hn & ? & ? & _).
  split_and!; try done. destruct n as [n|]; [|done]. destruct Hn as [-> Hn]. split_and!; try done.
  intros Hz. destruct (zlen d); try lia; exact Hw.
Qed.

Lemma receive_header_ends c s :
  in_order c -> conn_status_ c = kHeader ->
  wp bad_code (simple_round_ok c s) (SimpleHttp.receive_header StringToLower c s).
Proof.
  intros [Hsz Hhd Hpk Hrm Hst] E. specialize (Hhd E). unfold SimpleHttp.receive_header, rbuf_pos_.
  pose proof (simple_read (kHTTPMaxHeader - zlen (rbuf_ c)) s ltac:(lia)) as HR.
  destruct (sys_read _ s) as [[n d] s1]. destruct HR as (Hw & Hs & HR). destruct n as [n|e].
  2:{ destruct e; simpl; (split_and!; try done; auto). }
  destruct HR as (-> & Hle & Hwork). destruct (Z.leb_spec (zlen d) 0) as [Hz|Hz]; [simpl; split_and!; try done; auto|].
  specialize (Hwork Hz). cbn [rbuf_ put_in].
  assert (Hnew : zlen (rbuf_ c ++ d) <= kHTTPMaxHeader) by (rewrite zlen_app; lia).
  assert (Hmax : kHTTPMaxHeader <= kHTTPMaxMessage) by done.
  destruct (find_sub _ _) as [sep|] eqn:Hsep.
  2:{ simpl. split_and!; try done; [split; simpl; try done; try lia; auto|]. unfold measure. simpl. rewrite E. simpl. lia. }
  assert (Hsl : Z.of_nat sep + 4 <= zlen (rbuf_ c ++ d)).
  { apply find_sub_bound in Hsep. change (length (CRLF ++ CRLF)) with 4%nat in Hsep. pose proof (cstr_length (rbuf_ c ++ d)).
    unfold zlen. lia. }
  match goal with |- context [BuildRequestHeader _ ?x] => destruct (Build_ok x) as (ok & c1 & -> & Hb & Hrb & Hh & Hcs & Hr) end.
  cbn [obind]. simpl in Hb, Hrb, Hh, Hcs, Hr. specialize (Hr Hrm). rewrite E in Hcs.
  assert (Hpacket : forall c2, simple_base c2 = simple_base c1 \/ simple_base c2 = PinkConn.set_is_reply true (simple_base c1) ->
    rbuf_ c2 = rbuf_ c1 -> header_len_ c2 = header_len_ c1 -> remain_packet_len_ c2 = remain_packet_len_ c1 ->
    conn_status_ c2 = kPacket -> same_id c c2 /\ in_order c2).
  { intros c2 Hb2 Hr2 Hh2 Hm2 Hs2. split; [unfold same_id; destruct Hb2 as [-> | ->]; unfold conn_id; simpl; by rewrite Hb|].
    split; rewrite ?Hr2, ?Hh2, ?Hm2, ?Hrb, ?Hh, ?Hs2; try done; try lia. by right; left. }
  destruct ok; cbn [negb].
  2:{ simpl. split_and!; try done; auto; [unfold same_id; by rewrite Hb|]. split; rewrite ?Hrb, ?Hcs; try done; try lia. by left. }
  assert (Hm : forall c2 : SimpleHTTPConn U, conn_status_ c2 = kPacket -> (measure c2 s1 < measure c s)%nat).
  { intros c2 Hs2. unfold measure. rewrite Hs2, E. simpl. lia. }
  destruct (expects_continue _).
  - eapply wp_bind, wp_mono; [|apply SimpleStatus_wp]. intros p _.
    match goal with |- context [kPacket] => idtac end.
    match goal with |- context [SimpleHttp.Returns kReadHalf ?c2 s1] =>
      destruct (Hpacket c2 ltac:(by right) eq_refl eq_refl eq_refl eq_refl) as [Hid Hio]; specialize (Hm c2 eq_refl) end.
    destruct (0 <? _); simpl; split_and!; try done; auto.
  - match goal with |- context [SimpleHttp.Again ?c2 s1] =>
      destruct (Hpacket c2 ltac:(by left) eq_refl eq_refl eq_refl eq_refl) as [Hid Hio]; specialize (Hm c2 eq_refl) end.
    simpl. by split_and!.
Qed.

Lemma Append_ok c : in_order c -> conn_status_ c = kPacket ->
  exists r, AppendRequestBody c = Ret (put_in kPacket (rbuf_ c) (header_len_ c) (remain_packet_len_ c) r c).
Proof.
  intros [_ _ Hpk _ _] E. rewrite E in Hpk. specialize (Hpk ltac:(done)). unfold AppendRequestBody, rbuf_pos_.
  rewrite (proj2 (Z.ltb_ge _ _)) by lia. destruct (ParseBody_end (zdrop (header_len_ c) (rbuf_ c)) (request_ c)) as [r ->].
  rewrite E. by exists r.
Qed.

(** The rest of a round in [kPacket], after a read that has brought [k] bytes. *)
Lemma packet_read_ok c0 s0 c s :
  same_id c0 c -> in_order c -> conn_status_ c = kPacket -> wrq s = wrq s0 -> sent s = sent s0 -> conn_status_ c0 = kPacket ->
  (rd_work (rdq s) <= rd_work (rdq s0))%nat -> (remain_packet_len_ c <> 0 -> (rd_work (rdq s) < rd_work (rdq s0))%nat) ->
  wp bad_code (simple_round_ok c0 s0) (packet_read c s).
Proof.
  intros Hid Ho E Hw Hs E0 Hle Hlt. unfold packet_read. destruct (_ || _)%bool eqn:Eb.
  - destruct (Append_ok c Ho E) as [r ->]. cbn [obind]. destruct Ho as [Hsz _ Hpk Hrm _]. rewrite E in Hpk. specialize (Hpk ltac:(done)).
    cbn [remain_packet_len_ put_in]. destruct (Z.eqb_spec (remain_packet_len_ c) 0) as [E1|E1]; simpl; split_and!; try done.
    + split; simpl; try done; try lia. by right; right.
    + unfold measure. simpl. rewrite E0. simpl. lia.
    + split; simpl; change (zlen (@nil ascii)) with 0; try done; try lia. by right; left.
    + specialize (Hlt E1). unfold measure. simpl. rewrite E0. simpl. lia.
  - b2p. simpl. split_and!; try done. specialize (Hlt ltac:(tauto)). unfold measure. rewrite E, E0. lia.
Qed.

Lemma receive_packet_ends c s :
  in_order c -> conn_status_ c = kPacket -> wp bad_code (simple_round_ok c s) (receive_packet c s).
Proof.
  intros Ho E. unfold receive_packet. destruct (Z.ltb_spec 0 (remain_packet_len_ c)) as [Hr|Hr].
  2:{ apply packet_read_ok; try done. destruct Ho. lia. }
  unfold rbuf_pos_. set (count := if _ <? _ then _ else _).
  assert (Hc : 0 <= count <= kHTTPMaxMessage - zlen (rbuf_ c)) by (destruct Ho; unfold count; destruct (Z.ltb_spec (remain_packet_len_ c) (kHTTPMaxMessage - zlen (rbuf_ c))); lia).
  pose proof (simple_read count s (proj1 Hc)) as HR. destruct (sys_read count s) as [[n d] s1]. destruct HR as (Hw & Hs & HR).
  destruct n as [n|e]; [|destruct e; simpl; split_and!; try done; auto].
  destruct HR as (-> & Hle & Hwork). destruct (Z.leb_spec (zlen d) 0) as [Hz|Hz]; [simpl; split_and!; try done; auto|].
  specialize (Hwork Hz). apply packet_read_ok; try done; [|lia..].
  destruct Ho as [Hsz _ Hpk Hrm Hst]. rewrite E in Hpk. specialize (Hpk ltac:(done)).
  split; simpl; rewrite ?zlen_app; try done; try lia; [by rewrite E|apply to_u64_range].
Qed.

Lemma read_round_ends c s :
  in_order c -> wp bad_code (simple_round_ok c s) (SimpleHttp.read_round StringToLower DealMessage c s).
Proof.
  intros Ho. unfold SimpleHttp.read_round. destruct (io_status _ Ho) as [E|[E|E]]; rewrite E.
  - by apply receive_header_ends.
  - by apply receive_packet_ends.
  - unfold complete, HandleMessage. destruct (DealMessage _ _) as [ops u].
    destruct Ho as [Hsz _ Hpk Hrm _]. apply wp_bind, wp_bind. eapply wp_mono; [|apply simple_ops_wp]. intros p _. simpl.
    split_and!; try done; [|by left]. split; simpl; change (zlen (@nil ascii)) with 0; try done; try lia. by left.
Qed.

Lemma SimpleGetRequest_ok c s :
  in_order c ->
  wp bad_code (fun '(st, c', s') => simple_round_ok c s (SimpleHttp.Returns st c' s')) (SimpleHttp.GetRequest StringToLower DealMessage c s).
Proof.
  intros Ho. unfold SimpleHttp.GetRequest.
  assert (Hf : (measure c s <= rd_work (rdq s) + 3)%nat) by (unfold measure; destruct (conn_status_ c); simpl; lia).
  revert Hf. generalize (rd_work (rdq s) + 3)%nat. intros fuel. revert c s Ho.
  induction fuel as [|fuel IH]; intros c s Ho Hf; cbn [SimpleHttp.read_rounds].
  { unfold measure in Hf. destruct (conn_status_ c); simpl in Hf; lia. }
  apply wp_bind. eapply wp_mono; [|by apply read_round_ends]. intros [st c1 s1|c1 s1]; [done|].
  intros (Hid & Ho1 & Hw & Hs & Hm). eapply wp_mono; [|apply IH; [done|lia]]. intros [[st c2] s2] (? & ? & ? & ? & ?).
  simpl. split_and!; try done; unfold same_id in *; congruence.
Qed.
End conn.
