(* ===== verification/SimpleHttpServe.v ===== *)
(** How a request that arrives in pieces goes through the states of the simple HTTP
    connection. *)
From S2P Require Import Pink Prelude Sys Slash StdMap PinkConn HttpConn HttpFacts HttpParse HttpServe SimpleHttp SimpleHttpFacts.

Section serve.
Context {U : Type} {SL : Slash}.
Context (StringToLower : bytes -> bytes) (DealMessage : Request -> U -> list resp_op * U).
(** The request: its head and body, and what the parser makes of the head and of
    the whole. *)
Context (h : head) (body : bytes) (R R' : Request).
(** What reading leaves alone. *)
Context (b : PinkConn) (wb : bytes) (wp : Z) (rp : Z) (p : Response) (u0 : U).

Class plain_simple : Prop := {
  ps_head : head_ok h;
  ps_parse rest r : ParseHeadFromArray StringToLower (head_text h ++ rest) (zlen (head_text h)) (Request_Clear r) = Ret (true, R);
  ps_length : announced (headers R) = zlen body;
  ps_expect : expects_continue R = false;
  ps_fits : zlen (head_text h) <= kHTTPMaxHeader;
  ps_body_fits : zlen (head_text h ++ body) <= kHTTPMaxMessage;
  ps_body : ParseBodyFromArray body R = Ret R';
  ps_deal : exists q, SimpleHttp.apply_ops (DealMessage R' u0).1 new_Response = Ret q
}.
Context {PS : plain_simple}.

Definition conn_at (st : ConnStatus) (buf : bytes) (hlen remain : Z) (r : Request) : SimpleHTTPConn U :=
  mkSimple b st buf wb wp hlen remain r rp p u0.

(** How far the request has come. *)
Inductive phase (s : sock) : SimpleHTTPConn U -> Prop :=
  | InHeader pre hlen remain r :
      pre ++ data_in (rdq s) = head_text h ++ body -> zlen pre < zlen (head_text h) ->
      phase s (conn_at kHeader pre hlen remain r)
  | InPacket pre :
      pre ++ data_in (rdq s) = body ->
      phase s (conn_at kPacket (head_text h ++ pre) (zlen (head_text h)) (zlen body - zlen pre) R)
  | IsComplete :
      data_in (rdq s) = [] -> phase s (conn_at kComplete (head_text h ++ body) (zlen (head_text h)) 0 R').

(** The request has been dealt with. *)
Inductive dealt : SimpleHTTPConn U -> Prop :=
  | Dealt q :
      SimpleHttp.apply_ops (DealMessage R' u0).1 new_Response = Ret q ->
      dealt (mkSimple (PinkConn.set_is_reply true b) kHeader [] wb wp (zlen (head_text h)) 0 R' rp q (DealMessage R' u0).2).

(** Nothing is sent, and what is left still comes in pieces. *)
Definition only_reads (s s' : sock) : Prop := trickle (rdq s') /\ wrq s' = wrq s /\ sent s' = sent s.

Lemma only_reads_trans s1 s2 s3 : only_reads s1 s2 -> only_reads s2 s3 -> only_reads s1 s3.
Proof. intros (? & ? & ?) (? & ? & ?). split_and!; congruence. Qed.

Lemma rest_only_reads s s' : rest_of s s' -> only_reads s s'.
Proof. by intros []. Qed.

(** What a round leads to. *)
Inductive round_leads (s : sock) (c : SimpleHTTPConn U) : outcome (SimpleHttp.round (U:=U)) -> Prop :=
  | LeadsOn c' s' :
      phase s' c' -> only_reads s s' -> waits (rdq s') = waits (rdq s) -> (measure c' s' < measure c s)%nat ->
      round_leads s c (Ret (SimpleHttp.Again c' s'))
  | LeadsWait c' s' :
      phase s' c' -> only_reads s s' -> waits (rdq s) = S (waits (rdq s')) ->
      round_leads s c (Ret (SimpleHttp.Returns kReadHalf c' s'))
  | LeadsEnd c' : dealt c' -> data_in (rdq s) = [] -> round_leads s c (Ret (SimpleHttp.Returns kReadAll c' s)).

(** The head is there, with the first bytes of the body. *)
Lemma header_complete c s pre hlen remain r d s' first :
  c = conn_at kHeader pre hlen remain r ->
  sys_read (kHTTPMaxHeader - zlen pre) s = (IoLen (zlen d), d, s') -> 0 < zlen d ->
  pre ++ d = head_text h ++ first -> body = first ++ data_in (rdq s') -> rest_of s s' -> waits (rdq s') = waits (rdq s) ->
  round_leads s c (SimpleHttp.receive_header StringToLower c s).
Proof.
  intros -> HR Hz Hf Hb Hro Hw. pose proof (head_text_length h) as Hsix.
  assert (Hbl : zlen body = zlen first + zlen (data_in (rdq s'))) by (rewrite Hb; apply zlen_app).
  unfold SimpleHttp.receive_header, rbuf_pos_. cbn [rbuf_ conn_at]. rewrite HR.
  rewrite (proj2 (Z.leb_gt _ 0)) by lia. cbn [put_in rbuf_ conn_at]. rewrite Hf.
  change (CRLF ++ CRLF) with SEP. rewrite (find_head h first ps_head).
  replace (Z.of_nat (length (head_text h) - 4) + 4) with (zlen (head_text h)) by (unfold zlen; lia).
  unfold BuildRequestHeader. cbn [put_in rbuf_ header_len_ request_]. rewrite ps_parse. cbn [obind negb].
  unfold rbuf_pos_. cbn [put_in rbuf_ header_len_ request_ conn_status_]. rewrite ps_length, zlen_app.
  pose proof (zlen_nonneg first). pose proof (zlen_nonneg (data_in (rdq s'))).
  assert (Hrem : (if zlen (head_text h) <? zlen (head_text h) + zlen first
    then to_u64 (zlen body - (zlen (head_text h) + zlen first - zlen (head_text h))) else zlen body) = zlen body - zlen first).
  { pose proof ps_body_fits as Hfit. rewrite zlen_app in Hfit. unfold kHTTPMaxMessage in Hfit.
    destruct (Z.ltb_spec (zlen (head_text h)) (zlen (head_text h) + zlen first)); [|lia].
    rewrite to_u64_id by (pose proof (zlen_nonneg (head_text h)); lia). lia. }
  rewrite Hrem. rewrite ps_expect. apply LeadsOn; [by apply InPacket|by apply rest_only_reads|done|].
  unfold measure. simpl. destruct Hro. lia.
Qed.

Lemma header_leads c s pre hlen remain r :
  c = conn_at kHeader pre hlen remain r -> trickle (rdq s) ->
  pre ++ data_in (rdq s) = head_text h ++ body -> zlen pre < zlen (head_text h) ->
  round_leads s c (SimpleHttp.receive_header StringToLower c s).
Proof.
  intros Ec Ht Hpre Hlt. pose proof ps_fits as Hfit.
  assert (Hcount : 0 < kHTTPMaxHeader - zlen pre) by lia.
  destruct (sys_read_trickle _ s Hcount ltac:(unfold SSIZE_MAX, kHTTPMaxMessage, kHTTPMaxHeader, zlen in *; lia) Ht) as [E|[(s' & E & Hro & Hd & Hw)|(d & s' & E & Hro & Hz & Hd & Hw)]].
  - rewrite E in Hpre. cbn [data_in] in Hpre. rewrite app_nil_r in Hpre. subst pre. rewrite zlen_app in Hlt.
    pose proof (zlen_nonneg body). lia.
  - subst c. unfold SimpleHttp.receive_header, rbuf_pos_. cbn [rbuf_ conn_at]. rewrite E.
    apply LeadsWait; [apply InHeader; [by rewrite Hd|done]|by apply rest_only_reads|done].
  - rewrite Hd, app_assoc in Hpre. destruct (app_split _ _ _ _ Hpre) as [(first & H1 & H2)|(post & Hne & H1 & H2)].
    + apply (header_complete c s pre hlen remain r d s' first); try done; lia.
    + subst c. unfold SimpleHttp.receive_header, rbuf_pos_. cbn [rbuf_ conn_at]. rewrite E.
      rewrite (proj2 (Z.leb_gt _ 0)) by lia. cbn [put_in rbuf_ conn_at]. change (CRLF ++ CRLF) with SEP.
      rewrite (find_part_of_head h (pre ++ d) post) by (done || apply ps_head).
      apply LeadsOn; [|by apply rest_only_reads|done|unfold measure; simpl; destruct Hro; lia].
      apply InHeader; [done|]. rewrite H1, (zlen_app (pre ++ d)). destruct post; [done|]. unfold zlen. simpl. lia.
Qed.

(** The end of a round in the body. *)
Lemma packet_read_leads c0 s0 s pre :
  pre ++ data_in (rdq s) = body -> only_reads s0 s -> waits (rdq s) = waits (rdq s0) -> conn_status_ c0 = kPacket ->
  (rd_work (rdq s) <= rd_work (rdq s0))%nat -> (zlen pre <> zlen body -> (rd_work (rdq s) < rd_work (rdq s0))%nat) ->
  round_leads s0 c0 (packet_read (conn_at kPacket (head_text h ++ pre) (zlen (head_text h)) (zlen body - zlen pre) R) s).
Proof.
  intros Hpre Hro Hw E0 Hle Hlt. pose proof ps_body_fits as Hfit. rewrite zlen_app in Hfit.
  assert (Hbl : zlen body = zlen pre + zlen (data_in (rdq s))) by (rewrite <- Hpre; apply zlen_app).
  unfold packet_read, rbuf_pos_. cbn [conn_at rbuf_ remain_packet_len_ header_len_ request_]. rewrite zlen_app.
  destruct (Z.eqb_spec (zlen body - zlen pre) 0) as [E1|E1].
  - assert (Hd0 : data_in (rdq s) = []) by (apply zlen_zero; lia). rewrite Hd0, app_nil_r in Hpre. subst pre.
    cbn [orb]. unfold AppendRequestBody, rbuf_pos_. cbn [conn_at rbuf_ remain_packet_len_ header_len_ request_].
    pose proof (zlen_nonneg body). rewrite (proj2 (Z.ltb_ge _ _)) by (rewrite zlen_app; lia).
    rewrite zdrop_app by done. rewrite ps_body. cbn [obind put_in remain_packet_len_ conn_at].
    rewrite (proj2 (Z.eqb_eq _ _)) by lia. rewrite E1. apply LeadsOn; [by apply IsComplete|done|done|].
    unfold measure. rewrite E0. simpl. lia.
  - rewrite (proj2 (Z.eqb_neq _ kHTTPMaxMessage)) by (pose proof (zlen_nonneg (data_in (rdq s))); lia). cbn [orb].
    apply LeadsOn; [by apply InPacket|done|done|]. specialize (Hlt ltac:(lia)). unfold measure. rewrite E0. simpl. lia.
Qed.

Lemma packet_leads s pre :
  trickle (rdq s) -> pre ++ data_in (rdq s) = body ->
  let c := conn_at kPacket (head_text h ++ pre) (zlen (head_text h)) (zlen body - zlen pre) R in
  round_leads s c (receive_packet c s).
Proof.
  intros Ht Hpre c. subst c. pose proof ps_body_fits as Hfit. rewrite zlen_app in Hfit.
  assert (Hbl : zlen body = zlen pre + zlen (data_in (rdq s))) by (rewrite <- Hpre; apply zlen_app).
  pose proof (zlen_nonneg (data_in (rdq s))) as Hdn. pose proof (zlen_nonneg pre) as Hpn.
  unfold receive_packet. cbn [conn_at remain_packet_len_]. destruct (Z.ltb_spec 0 (zlen body - zlen pre)) as [Hr|Hr].
  2:{ apply packet_read_leads; try done; lia. }
  unfold rbuf_pos_. cbn [conn_at rbuf_]. rewrite zlen_app. set (count := if _ <? _ then _ else _).
  assert (Hc : 0 < count <= zlen body - zlen pre).
  { unfold count. destruct (Z.ltb_spec (zlen body - zlen pre) (kHTTPMaxMessage - (zlen (head_text h) + zlen pre))); lia. }
  destruct (sys_read_trickle _ s (proj1 Hc) ltac:(unfold SSIZE_MAX, kHTTPMaxMessage, kHTTPMaxHeader, zlen in *; lia) Ht) as [E|[(s' & -> & Hro & Hd & Hw)|(d & s' & -> & Hro & Hz & Hd & Hw)]].
  - rewrite E in Hbl. change (zlen (data_in [])) with 0 in Hbl. lia.
  - apply LeadsWait; [apply InPacket; by rewrite Hd|by apply rest_only_reads|done].
  - rewrite (proj2 (Z.leb_gt _ 0)) by lia. unfold put_in. cbn [conn_at rbuf_ conn_status_ header_len_ request_ simple_base wbuf_ wbuf_pos_
      response_pos_ response_ user_]. rewrite <- app_assoc.
    rewrite to_u64_id by (unfold kHTTPMaxMessage in *; pose proof (zlen_nonneg (head_text h)); lia).
    replace (zlen body - zlen pre - zlen d) with (zlen body - zlen (pre ++ d)) by (rewrite zlen_app; lia).
    rewrite Hd, app_assoc in Hpre. apply packet_read_leads; try done; [by apply rest_only_reads|destruct Hro; lia..].
Qed.

Lemma round_leads_on s c :
  trickle (rdq s) -> phase s c -> round_leads s c (SimpleHttp.read_round StringToLower DealMessage c s).
Proof.
  intros Ht [pre hlen remain r Hpre Hlt|pre Hpre|Hd]; unfold SimpleHttp.read_round; cbn [conn_at conn_status_].
  - by eapply header_leads.
  - by apply packet_leads.
  - unfold complete, HandleMessage. cbn [conn_at request_ user_]. destruct ps_deal as [q Hq].
    destruct (DealMessage R' u0) as [ops u] eqn:E. cbn [fst] in Hq.
    change (Response_Clear (response_ (conn_at kComplete (head_text h ++ body) (zlen (head_text h)) 0 R'))) with new_Response.
    rewrite Hq. cbn [obind]. apply LeadsEnd; [|done]. pose proof (Dealt q) as HD. rewrite E in HD. by apply HD.
Qed.

(** A call of [GetRequest]. *)
Inductive get_leads (s : sock) : outcome (ReadStatus * SimpleHTTPConn U * sock) -> Prop :=
  | GetWaits c' s' : phase s' c' -> only_reads s s' -> waits (rdq s) = S (waits (rdq s')) -> get_leads s (Ret (kReadHalf, c', s'))
  | GetEnds c' s' : dealt c' -> data_in (rdq s') = [] -> only_reads s s' -> get_leads s (Ret (kReadAll, c', s')).

Lemma GetRequest_leads s c :
  trickle (rdq s) -> phase s c -> get_leads s (SimpleHttp.GetRequest StringToLower DealMessage c s).
Proof.
  intros Ht Hp. unfold SimpleHttp.GetRequest.
  assert (Hf : (measure c s <= rd_work (rdq s) + 3)%nat) by (unfold measure; destruct (conn_status_ c); simpl; lia).
  revert Hf. generalize (rd_work (rdq s) + 3)%nat. intros fuel. revert c s Ht Hp.
  induction fuel as [|fuel IH]; intros c s Ht Hp Hf; cbn [SimpleHttp.read_rounds].
  { unfold measure in Hf. destruct (conn_status_ c); simpl in Hf; lia. }
  destruct (round_leads_on s c Ht Hp) as [c' s' Hp' Hro Hw Hm|c' s' Hp' Hro Hw|c' Hh Hd]; cbn [obind].
  - pose proof Hro as (Ht' & Hq1 & Hq2).
    destruct (IH c' s' Ht' Hp' ltac:(lia)) as [c2 s2 Hp2 Hro2 Hw2|c2 s2 Hd2 Hdi2 Hro2].
    + apply GetWaits; [done|by eapply only_reads_trans|congruence].
    + apply GetEnds; [done|done|by eapply only_reads_trans].
  - by apply GetWaits.
  - by apply GetEnds.
Qed.

(** The event loop's calls, while they say that more has to come. *)
Fixpoint simple_serve (n : nat) (c : SimpleHTTPConn U) (s : sock) : outcome (ReadStatus * SimpleHTTPConn U * sock) :=
  match n with
  | O => Ret (kReadHalf, c, s)
  | S n =>
      let! (st, c, s) := SimpleHttp.GetRequest StringToLower DealMessage c s in
      if bool_decide (st = kReadHalf) then simple_serve n c s else Ret (st, c, s)
  end.

Lemma simple_serve_leads n s c :
  trickle (rdq s) -> phase s c -> (waits (rdq s) < n)%nat ->
  exists c' s', simple_serve n c s = Ret (kReadAll, c', s') /\ dealt c' /\ data_in (rdq s') = [] /\ only_reads s s'.
Proof.
  revert s c. induction n as [|n IH]; intros s c Ht Hp Hn; [lia|]. cbn [simple_serve].
  destruct (GetRequest_leads s c Ht Hp) as [c' s' Hp' Hro Hw|c' s' Hd Hdi Hro]; cbn [obind].
  - pose proof Hro as (Ht' & _). destruct (IH s' c' Ht' Hp' ltac:(lia)) as (c2 & s2 & HE & Hd & Hdi & Hro2).
    exists c2, s2. split_and!; try done; by eapply only_reads_trans.
  - by exists c', s'.
Qed.
End serve.
