(* ===== verification/SimpleHttpTheorems.v ===== *)
(** The theorems on the requests of the simple HTTP connection. *)
From S2P Require Import Pink Prelude Sys Slash StdMap PinkConn HttpConn HttpFacts HttpParse HttpServe HttpTheorems.
From S2P Require Import SimpleHttp SimpleHttpFacts SimpleHttpServe.

(** * The body *)

Definition form_type : bytes := bs "application/x-www-form-urlencoded".
Definition form_request (r : Request) : Prop :=
  method r = bs "POST" /\ sm_find (bs "content-type") (headers r) = Some form_type.
Definition query_ok (q : list (bytes * bytes)) : Prop :=
  Forall (fun kv => free [NUL; SP; LF; "&"%char; "="%char] kv.1 /\ free [NUL; SP; LF; "&"%char] kv.2) q.

(** [r'] is [r] with a body. *)
Record with_body (body : bytes) (r r' : Request) : Prop := {
  wb_method : method r' = method r;
  wb_path : path r' = path r;
  wb_version : version r' = version r;
  wb_query : query_params r' = query_params r;
  wb_headers k v : sm_find k (headers r) = Some v -> sm_find k (headers r') = Some v;
  wb_content : content r' = body;
  wb_form q : form_request r -> query_ok q -> body = query_text q -> post_params r' = set_all q []
}.

Lemma at_key_keeps k m k' v : sm_find k' m = Some v -> sm_find k' (at_key k m).2 = Some v.
Proof.
  unfold at_key. intros Hf. destruct (sm_find k m) eqn:E; [done|]. simpl. rewrite sm_find_set_ne; [done|]. intros ->. congruence.
Qed.

Lemma query_text_length q : (length q <= length (query_text q))%nat.
Proof.
  induction q as [|[k v] [|kv2 q] IH]; [done| |].
  - simpl. rewrite length_app. simpl. lia.
  - change (query_text ((k, v) :: kv2 :: q)) with (k ++ "="%char :: v ++ "&"%char :: query_text (kv2 :: q)).
    rewrite length_app. cbn [length] in *. rewrite length_app. cbn [length]. lia.
Qed.

Lemma ParseBody_with body r : content r = [] -> post_params r = [] ->
  exists r', ParseBodyFromArray body r = Ret r' /\ with_body body r r'.
Proof.
  intros Hc Hp. unfold ParseBodyFromArray. cbn [method append_content headers]. case_bool_decide as Hm.
  2:{ eexists. split; [done|]. split; try done; [by cbn; rewrite Hc|]. by intros q [? _]. }
  destruct (at_key (bs "content-type") (headers r)) as [type h] eqn:Ea.
  assert (Hh : forall k v, sm_find k (headers r) = Some v -> sm_find k h = Some v).
  { intros k v Hk. pose proof (at_key_keeps (bs "content-type") _ _ _ Hk) as H. by rewrite Ea in H. }
  case_bool_decide as Ht.
  - unfold SimpleHttp.ParseParameters. cbv zeta. cbn [content SimpleHttp.put_headers put_head append_content post_params].
    rewrite Hc, Hp, drop_0. change ([] ++ body) with body.
    destruct (ParseParameters_ends (S (length body)) body []) as [q Hq]; [lia|]. rewrite Hq. cbn [obind].
    eexists. split; [done|]. split; try done; [by cbn; rewrite Hc|]. intros q' _ Hok Hb. cbn.
    rewrite (ParseParameters_fuel _ (S (length (query_text q')))) in Hq by (subst body; lia). subst body.
    rewrite ParseParameters_read in Hq; [by injection Hq as <-|done|]. pose proof (query_text_length q'). lia.
  - eexists. split; [done|]. split; try done; [by cbn; rewrite Hc|]. intros q [_ Hf] _ _.
    unfold at_key in Ea. rewrite Hf in Ea. by injection Ea as <- <-.
Qed.

(** * Requests that arrive whole *)

(** What is asked of a request, besides its header Host. *)
Record complete_request (StringToLower : bytes -> bytes) {SL : Slash} (h : head) (body : bytes) : Prop := {
  cr_head : head_ok h;
  cr_length : announced (head_headers StringToLower h) = zlen body;
  cr_expect v : sm_find (bs "expect") (head_headers StringToLower h) = Some v -> v <> bs "100-continue" /\ v <> bs "100-Continue";
  cr_fits : zlen (head_text h) <= kHTTPMaxHeader;
  cr_body_fits : zlen (head_text h ++ body) <= kHTTPMaxMessage
}.

Lemma no_continue r :
  (forall v, sm_find (bs "expect") (headers r) = Some v -> v <> bs "100-continue" /\ v <> bs "100-Continue") ->
  expects_continue r = false.
Proof.
  intros Hv. unfold expects_continue, header_is.
  rewrite !bool_decide_eq_false_2; [done|..]; intros E; by destruct (Hv _ E).
Qed.

Section whole.
Context {U : Type} {SL : Slash}.
Context (StringToLower : bytes -> bytes) (DealMessage : Request -> U -> list resp_op * U).
Implicit Types c : SimpleHTTPConn U.

(** A connection between two requests. *)
Definition idle c : Prop := conn_status_ c = kHeader /\ rbuf_ c = [].

(** The connection [c'] after [c] has dealt with the request [r]. *)
Record answered c (r : Request) c' : Prop := {
  an_request : request_ c' = r;
  an_user : user_ c' = (DealMessage r (user_ c)).2;
  an_response : SimpleHttp.apply_ops (DealMessage r (user_ c)).1 new_Response = Ret (response_ c');
  an_base : simple_base c' = PinkConn.set_is_reply true (simple_base c);
  an_idle : idle c';
  an_out : wbuf_ c' = wbuf_ c /\ wbuf_pos_ c' = wbuf_pos_ c /\ response_pos_ c' = response_pos_ c
}.

Lemma serve_whole h body R R' c s n :
  complete_request StringToLower h body ->
  (forall rest r, ParseHeadFromArray StringToLower (head_text h ++ rest) (zlen (head_text h)) (Request_Clear r) = Ret (true, R)) ->
  announced (headers R) = announced (head_headers StringToLower h) ->
  sm_find (bs "expect") (headers R) = sm_find (bs "expect") (head_headers StringToLower h) ->
  ParseBodyFromArray body R = Ret R' ->
  (exists q, SimpleHttp.apply_ops (DealMessage R' (user_ c)).1 new_Response = Ret q) ->
  idle c -> trickle (rdq s) -> data_in (rdq s) = head_text h ++ body -> (waits (rdq s) < n)%nat ->
  exists c' s', simple_serve StringToLower DealMessage n c s = Ret (kReadAll, c', s') /\ answered c R' c' /\
    data_in (rdq s') = [] /\ wrq s' = wrq s /\ sent s' = sent s.
Proof.
  intros [Ho Hl He Hf Hbf] HP Hlen Hexp HB HD [Hst Hbuf] Ht Hd Hn.
  destruct c as [b st buf wb wp hl rem r rp p u]. simpl in Hst, Hbuf, HD. subst st buf.
  assert (PS : plain_simple StringToLower DealMessage h body R R' u).
  { split; try done; [by rewrite Hlen|]. apply no_continue. by rewrite Hexp. }
  destruct (simple_serve_leads StringToLower DealMessage h body R R' b wb wp rp p u n s _ Ht
    (InHeader h body R R' b wb wp rp p u s [] hl rem r Hd ltac:(pose proof (head_text_length h); unfold zlen; simpl; lia)) Hn)
    as (c' & s' & HE & Hdealt & Hdi & (_ & Hw & Hs)).
  exists c', s'. unfold conn_at in HE. destruct Hdealt as [q Hq]. by split_and!.
Qed.
End whole.

(** C33: a request is dealt with whole. The text of a request with its body, arriving
    on an idle connection in any pieces and with any number of moments at which
    nothing has come yet, makes [DealMessage] see the method, path, query, version
    and headers that were written and the body as the content, with the parameters
    of a form in [post_params]; what it does to the response is the response, and
    the connection is ready to answer and to read the next request. The head has a
    header Host whose value is not in the path. *)
Theorem simple_http_request_served {U} {SL : Slash} StringToLower (DealMessage : Request -> U -> list resp_op * U)
    h body (c : SimpleHTTPConn U) s n :
  complete_request StringToLower h body ->
  is_Some (sm_find (bs "host") (head_headers StringToLower h)) -> host_free StringToLower h ->
  idle c -> trickle (rdq s) -> data_in (rdq s) = head_text h ++ body -> (waits (rdq s) < n)%nat ->
  exists r, with_body body (mkReq (h_method h) (h_path h) (h_version h) (head_headers StringToLower h) (set_all (h_query h) []) [] []) r /\
    ((exists q, SimpleHttp.apply_ops (DealMessage r (user_ c)).1 new_Response = Ret q) ->
     exists c' s', simple_serve StringToLower DealMessage n c s = Ret (kReadAll, c', s') /\ answered DealMessage c r c' /\
       data_in (rdq s') = [] /\ wrq s' = wrq s /\ sent s' = sent s).
Proof.
  intros HC Hhost Hfree Hi Ht Hd Hn. set (R := mkReq _ _ _ _ _ _ _).
  destruct (ParseBody_with body R eq_refl eq_refl) as (r & HB & Hwb). exists r. split; [done|]. intros HD.
  eapply (serve_whole StringToLower DealMessage h body R r); try done.
  intros rest r0. apply ParseHead_read; [apply HC|done..].
Qed.

(** Without a header Host the path is cut. [ParseGetUrl] reads the header through
    [operator[]], which makes an empty one; the empty string is found in every path,
    and the path loses seven bytes, as if the url began with a scheme. So
    [DealMessage] sees the path without its first seven bytes, whenever the path is
    longer, and an empty header Host. *)
Theorem simple_http_no_host_cuts_path {U} {SL : Slash} StringToLower (DealMessage : Request -> U -> list resp_op * U)
    h body (c : SimpleHTTPConn U) s n :
  complete_request StringToLower h body ->
  sm_find (bs "host") (head_headers StringToLower h) = None -> h_query h = [] -> 7 < zlen (h_path h) ->
  idle c -> trickle (rdq s) -> data_in (rdq s) = head_text h ++ body -> (waits (rdq s) < n)%nat ->
  exists r, path r = zdrop 7 (h_path h) /\ sm_find (bs "host") (headers r) = Some [] /\ content r = body /\
    ((exists q, SimpleHttp.apply_ops (DealMessage r (user_ c)).1 new_Response = Ret q) ->
     exists c' s', simple_serve StringToLower DealMessage n c s = Ret (kReadAll, c', s') /\ answered DealMessage c r c').
Proof.
  intros HC Hhost Hq Hlong Hi Ht Hd Hn.
  set (R := mkReq (h_method h) (zdrop 7 (h_path h)) (h_version h) (sm_set (bs "host") [] (head_headers StringToLower h)) [] [] []).
  destruct (ParseBody_with body R eq_refl eq_refl) as (r & HB & Hwb). exists r. split_and!.
  - apply Hwb.
  - apply (wb_headers _ _ _ Hwb). apply sm_find_set_eq.
  - apply Hwb.
  - intros HD. destruct (serve_whole StringToLower DealMessage h body R r c s n) as (c' & s' & HE & Ha & _); try done.
    + intros rest r0. rewrite ParseHead_no_host; [|apply HC|done..]. by rewrite (proj2 (Z.ltb_lt _ _)).
    + unfold announced. cbn [R headers]. by rewrite sm_find_set_ne.
    + cbn [R headers]. by rewrite sm_find_set_ne.
    + by exists c', s'.
Qed.

(** Reading ends. Whatever arrives, a call of [GetRequest] on a connection whose
    arrays are in order returns, with the connection the same one, the arrays in
    order and nothing written; the one way in which it stops the program is a
    status code that [SetStatusCode] of the user's [DealMessage] does not know. *)
Theorem simple_http_GetRequest_ends {U} {SL : Slash} StringToLower (DealMessage : Request -> U -> list resp_op * U)
    (c : SimpleHTTPConn U) s :
  in_order c ->
  match SimpleHttp.GetRequest StringToLower DealMessage c s with
  | Ret (st, c', s') =>
      conn_id (simple_base c') = conn_id (simple_base c) /\ in_order c' /\ wrq s' = wrq s /\ sent s' = sent s /\
      (st = kReadAll \/ st = kReadHalf \/ st = kReadClose \/ st = kReadError)
  | Fault e => e = AssertFailed
  end.
Proof.
  intros Hc. pose proof (SimpleGetRequest_ok StringToLower DealMessage c s Hc) as W.
  by destruct (SimpleHttp.GetRequest StringToLower DealMessage c s) as [[[st c'] s']|e].
Qed.

(** * Bytes behind a request *)
Section stuck.
Context {U : Type} {SL : Slash}.
Context (StringToLower : bytes -> bytes) (DealMessage : Request -> U -> list resp_op * U).
Implicit Types c : SimpleHTTPConn U.

Lemma sys_read_left count s : 0 <= count ->
  let '(n, d, s') := sys_read count s in
  Z.of_nat (rd_bytes (rdq s)) = Z.of_nat (rd_bytes (rdq s')) + match n with IoLen n => n | IoErr _ => 0 end.
Proof.
  intros Hc. unfold sys_read. destruct (SSIZE_MAX <? count); [lia|]. destruct (count =? 0); [lia|]. destruct (rdq s) as [|[a| |e] q] eqn:E; try (rewrite ?E; unfold rd_bytes; simpl; lia).
  destruct (zlen a <=? count) eqn:El; b2p; unfold rd_bytes, zlen in *; simpl; [lia|]. unfold zdrop. rewrite length_drop. lia.
Qed.

(** The connection waits for more bytes than will come. *)
Definition waits_for_more (u : U) c (s : sock) : Prop :=
  in_order c /\ conn_status_ c = kPacket /\ user_ c = u /\ Z.of_nat (rd_bytes (rdq s)) < remain_packet_len_ c < 2 ^ 64.

Lemma stuck_round u c s :
  waits_for_more u c s ->
  match receive_packet c s with
  | Ret (SimpleHttp.Returns st c' s') => waits_for_more u c' s' /\ st <> kReadAll
  | Ret (SimpleHttp.Again c' s') => waits_for_more u c' s' /\ (measure c' s' < measure c s)%nat
  | Fault _ => False
  end.
Proof.
  intros (Ho & E & Hu & Hr & Hm). unfold receive_packet. rewrite (proj2 (Z.ltb_lt _ _)) by lia.
  unfold rbuf_pos_. set (count := if _ <? _ then _ else _).
  assert (Hc : 0 <= count <= kHTTPMaxMessage - zlen (rbuf_ c)).
  { destruct Ho. unfold count. destruct (Z.ltb_spec (remain_packet_len_ c) (kHTTPMaxMessage - zlen (rbuf_ c))); lia. }
  pose proof (simple_read count s (proj1 Hc)) as HR. pose proof (sys_read_left count s (proj1 Hc)) as HB.
  destruct (sys_read count s) as [[n d] s1]. destruct HR as (_ & _ & HR).
  destruct n as [n|e]; [|destruct e; (split; [split_and!; try done; lia|done])].
  destruct HR as (-> & Hle & Hwork).
  destruct (Z.leb_spec (zlen d) 0) as [Hz|Hz]; [split; [split_and!; try done; pose proof (zlen_nonneg d); lia|done]|].
  specialize (Hwork Hz). unfold packet_read, rbuf_pos_. cbn [put_in remain_packet_len_ rbuf_].
  rewrite (to_u64_id (remain_packet_len_ c - zlen d)) by lia. rewrite (proj2 (Z.eqb_neq _ 0)) by lia. cbn [orb].
  assert (Hs : 0 <= header_len_ c <= zlen (rbuf_ c)) by (apply Ho; by rewrite E).
  assert (Ho1 : in_order (put_in (conn_status_ c) (rbuf_ c ++ d) (header_len_ c) (remain_packet_len_ c - zlen d) (request_ c) c)).
  { destruct Ho. split; cbn; rewrite ?zlen_app; try done; try lia. by rewrite E. }
  assert (Hms : forall c2, conn_status_ c2 = kPacket -> (measure c2 s1 < measure c s)%nat).
  { intros c2 E2. unfold measure. rewrite E, E2. lia. }
  destruct (zlen (rbuf_ c ++ d) =? kHTTPMaxMessage).
  - match goal with |- context [AppendRequestBody ?x] => destruct (Append_ok x Ho1 E) as [r ->] end. cbn [obind put_in remain_packet_len_].
    rewrite (proj2 (Z.eqb_neq _ 0)) by lia. cbn [obind]. split; [|by apply Hms]. split_and!; cbn; try done; try lia.
    destruct Ho. split; cbn; change (zlen (@nil ascii)) with 0; try done; try lia. by right; left.
  - split; [|by apply Hms]. split_and!; cbn; try done; lia.
Qed.

Lemma stuck_request u c s :
  waits_for_more u c s ->
  match SimpleHttp.GetRequest StringToLower DealMessage c s with
  | Ret (st, c', s') => waits_for_more u c' s' /\ st <> kReadAll
  | Fault _ => False
  end.
Proof.
  intros Hw. unfold SimpleHttp.GetRequest.
  assert (Hf : (measure c s <= rd_work (rdq s) + 3)%nat) by (unfold measure; destruct (conn_status_ c); simpl; lia).
  revert Hf. generalize (rd_work (rdq s) + 3)%nat. intros fuel. revert c s Hw.
  induction fuel as [|fuel IH]; intros c s Hw Hf; cbn [SimpleHttp.read_rounds].
  { unfold measure in Hf. destruct (conn_status_ c); simpl in Hf; lia. }
  pose proof (stuck_round u c s Hw) as HR. unfold SimpleHttp.read_round. rewrite (proj1 (proj2 Hw)).
  destruct (receive_packet c s) as [[st c1 s1|c1 s1]|]; [done| |done]. destruct HR as [H1 H2]. apply IH; [done|lia].
Qed.

(** A first round that goes on and a second one that returns. *)
Lemma two_rounds c s c1 s1 st c2 s2 :
  SimpleHttp.read_round StringToLower DealMessage c s = Ret (SimpleHttp.Again c1 s1) ->
  SimpleHttp.read_round StringToLower DealMessage c1 s1 = Ret (SimpleHttp.Returns st c2 s2) ->
  SimpleHttp.GetRequest StringToLower DealMessage c s = Ret (st, c2, s2).
Proof.
  intros H1 H2. unfold SimpleHttp.GetRequest. replace (rd_work (rdq s) + 3)%nat with (S (S (rd_work (rdq s) + 1))) by lia.
  cbn [SimpleHttp.read_rounds]. rewrite H1. cbn [obind]. by rewrite H2.
Qed.

(** A head with more bytes behind it than it announces. *)
Lemma header_overfull h extra n R b wb wp hl rem r rp p (u : U) w o :
  head_ok h ->
  (forall rest r, ParseHeadFromArray StringToLower (head_text h ++ rest) (zlen (head_text h)) (Request_Clear r) = Ret (true, R)) ->
  announced (headers R) = n -> expects_continue R = false -> 0 <= n < zlen extra -> zlen (head_text h ++ extra) <= kHTTPMaxHeader ->
  SimpleHttp.read_round StringToLower DealMessage (mkSimple b kHeader [] wb wp hl rem r rp p u) (mkSock [Arrive (head_text h ++ extra)] w o) =
  Ret (SimpleHttp.Again (mkSimple b kPacket (head_text h ++ extra) wb wp (zlen (head_text h)) (2 ^ 64 - (zlen extra - n)) R rp p u) (mkSock [] w o)).
Proof.
  intros Ho HP Hn He Hlt Hfit. pose proof (head_text_length h) as Hsix.
  assert (Hrem : to_u64 (n - zlen extra) = 2 ^ 64 - (zlen extra - n)).
  { unfold to_u64. symmetry. rewrite zlen_app in Hfit. unfold kHTTPMaxHeader in Hfit. apply (Z.mod_unique _ _ (-1)); [|lia].
    pose proof (zlen_nonneg (head_text h)). lia. }
  unfold SimpleHttp.read_round, SimpleHttp.receive_header, rbuf_pos_. cbn [conn_status_ rbuf_]. change (zlen (@nil ascii)) with 0.
  rewrite Z.sub_0_r. unfold sys_read. cbn [rdq]. rewrite (proj2 (Z.leb_le _ _)) by done. change (SSIZE_MAX <? kHTTPMaxHeader) with false. change (kHTTPMaxHeader =? 0) with false.
  cbv iota. rewrite (proj2 (Z.leb_gt (zlen (head_text h ++ extra)) 0)) by (rewrite zlen_app; unfold zlen in *; lia).
  cbn [put_in rbuf_ app]. change (CRLF ++ CRLF) with SEP. rewrite find_head by done.
  replace (Z.of_nat (length (head_text h) - 4) + 4) with (zlen (head_text h)) by (unfold zlen; lia).
  unfold BuildRequestHeader. cbn [put_in rbuf_ header_len_ request_]. rewrite HP. cbn [obind negb].
  unfold rbuf_pos_. cbn [put_in rbuf_ header_len_ request_ conn_status_]. rewrite Hn, zlen_app.
  rewrite (proj2 (Z.ltb_lt _ _)) by lia.
  replace (n - (zlen (head_text h) + zlen extra - zlen (head_text h))) with (n - zlen extra) by lia. by rewrite Hrem, He.
Qed.

Lemma simple_stuck_serve m u c s :
  waits_for_more u c s ->
  exists st c' s', simple_serve StringToLower DealMessage m c s = Ret (st, c', s') /\ st <> kReadAll /\ user_ c' = u.
Proof.
  revert c s. induction m as [|m IH]; intros c s Hw; cbn [simple_serve].
  { exists kReadHalf, c, s. split_and!; try done. apply Hw. }
  pose proof (stuck_request u c s Hw) as HR. destruct (SimpleHttp.GetRequest _ _ c s) as [[[st c1] s1]|]; [|done].
  destruct HR as [Hw1 Hne]. cbn [obind]. case_bool_decide; [by apply IH|]. exists st, c1, s1. split_and!; try done. apply Hw1.
Qed.
End stuck.

(** Bytes behind a request leave the connection stuck. When more bytes arrive
    with the head than it announces (the next request of a client that pipelines, or
    a body that is not announced), [remain_packet_len_] wraps to just under 2^64:
    [GetRequest] says that more has to come, and whatever arrives later, as long as
    it is less than 2^63 bytes, no call of it reports a request and [DealMessage] is
    not called. *)
Theorem simple_http_pipelined_stuck {U} {SL : Slash} StringToLower (DealMessage : Request -> U -> list resp_op * U)
    h extra n (c : SimpleHTTPConn U) w o :
  head_ok h -> is_Some (sm_find (bs "host") (head_headers StringToLower h)) -> host_free StringToLower h ->
  announced (head_headers StringToLower h) = n -> n < zlen extra -> zlen (head_text h ++ extra) <= kHTTPMaxHeader ->
  (forall v, sm_find (bs "expect") (head_headers StringToLower h) = Some v -> v <> bs "100-continue" /\ v <> bs "100-Continue") ->
  idle c ->
  exists c1, SimpleHttp.GetRequest StringToLower DealMessage c (mkSock [Arrive (head_text h ++ extra)] w o) =
      Ret (kReadHalf, c1, mkSock [] w o) /\
    remain_packet_len_ c1 = 2 ^ 64 - (zlen extra - n) /\
    forall m s, Z.of_nat (rd_bytes (rdq s)) < 2 ^ 63 ->
      exists st c2 s', simple_serve StringToLower DealMessage m c1 s = Ret (st, c2, s') /\ st <> kReadAll /\ user_ c2 = user_ c.
Proof.
  intros Ho Hhost Hfree Hn Hlt Hfit Hexp [Hst Hbuf].
  destruct c as [b st buf wb wp hl rem r rp p u]. simpl in Hst, Hbuf. subst st buf.
  assert (Hann : 0 <= n) by (rewrite <- Hn; unfold announced; repeat case_match; try lia; apply to_u64_range).
  pose proof (zlen_nonneg (head_text h)) as Hh0. pose proof (head_text_length h) as Hsix.
  set (R := mkReq (h_method h) (h_path h) (h_version h) (head_headers StringToLower h) (set_all (h_query h) []) [] []).
  set (c1 := mkSimple b kPacket (head_text h ++ extra) wb wp (zlen (head_text h)) (2 ^ 64 - (zlen extra - n)) R rp p u).
  assert (HG : SimpleHttp.GetRequest StringToLower DealMessage (mkSimple b kHeader [] wb wp hl rem r rp p u)
    (mkSock [Arrive (head_text h ++ extra)] w o) = Ret (kReadHalf, c1, mkSock [] w o)).
  { apply two_rounds with c1 (mkSock [] w o).
    - apply (header_overfull StringToLower DealMessage h extra n R); try done; [|by apply no_continue].
      intros rest r0. by apply ParseHead_read.
    - unfold SimpleHttp.read_round, receive_packet. cbn [c1 conn_status_ remain_packet_len_].
      rewrite (proj2 (Z.ltb_lt 0 _)) by (rewrite zlen_app in Hfit; unfold kHTTPMaxHeader in Hfit; lia).
      unfold rbuf_pos_. cbn [c1 rbuf_ remain_packet_len_]. set (count := if _ <? _ then _ else _).
      assert (Hc : count <> 0 /\ count <= SSIZE_MAX).
      { unfold count. rewrite zlen_app in Hfit |- *. unfold kHTTPMaxHeader, kHTTPMaxMessage, SSIZE_MAX in *.
        pose proof (zlen_nonneg (head_text h)). pose proof (zlen_nonneg extra).
        clear -Hfit Hh0 Hann Hlt H H0. destruct (_ <? _) eqn:E; b2p; lia. }
      unfold sys_read. by rewrite (proj2 (Z.ltb_ge _ _)), (proj2 (Z.eqb_neq _ _)) by apply Hc. }
  exists c1. split_and!; [done|done|]. intros m s Hs. apply simple_stuck_serve.
  rewrite zlen_app in Hfit. unfold kHTTPMaxHeader in Hfit. split_and!; try done; cbn; try lia.
  split; cbn [c1 rbuf_ conn_status_ header_len_ remain_packet_len_]; rewrite ?(zlen_app (head_text h) extra); unfold kHTTPMaxMessage, kHTTPMaxHeader; try done; try lia; try (intros _; zlen_pos; lia); try (by right; left).
Qed.

(** * Witnesses *)

(** A user who keeps the paths of the requests and answers with the content. *)
Definition deal (r : Request) (u : list bytes) : list resp_op * list bytes :=
  ([OpStatus 200; OpBody (content r)], u ++ [path r]).
Definition new_simple : SimpleHTTPConn (list bytes) := new_SimpleHTTPConn 7 (bs "1.2.3.4:5") 0 [].

Definition form_head : head :=
  mkHead (bs "POST") (bs "/form") [] (bs "HTTP/1.1")
    [(bs "Host", bs "srv"); (bs "Content-Length", bs "7"); (bs "Content-Type", form_type)].
Definition bare_head : head := mkHead (bs "GET") (bs "/index.html") [] (bs "HTTP/1.0") [].

(** A text that comes in two pieces. *)
Definition two_pieces (d : bytes) : sock := mkSock [Arrive (take 20 d); RdFails EAGAIN; Arrive (drop 20 d)] [] [].

Lemma form_head_ok : head_ok form_head.
Proof. solve_head_ok. Qed.
Lemma bare_head_ok : head_ok bare_head.
Proof. solve_head_ok. Qed.

Ltac compute_head := let E := fresh in intros ? E; vm_compute in E; (discriminate E || (injection E as <-; by vm_compute)).

Lemma form_complete : complete_request lower form_head (bs "a=1&b=2").
Proof. split; [apply form_head_ok|by vm_compute|compute_head|by vm_compute..]. Qed.
Lemma bare_complete : complete_request lower bare_head [].
Proof. split; [apply bare_head_ok|by vm_compute|compute_head|by vm_compute..]. Qed.

Lemma two_pieces_trickle d : take 20 d <> [] -> drop 20 d <> [] -> trickle (rdq (two_pieces d)).
Proof. intros H1 H2. repeat (apply Forall_cons; split; [first [by right|left; by eexists]|]). by apply Forall_nil. Qed.

Lemma simple_http_request_served_witness :
  let s := two_pieces (head_text form_head ++ bs "a=1&b=2") in
  exists r, with_body (bs "a=1&b=2") (mkReq (bs "POST") (bs "/form") (bs "HTTP/1.1") (head_headers lower form_head) [] [] []) r /\
    ((exists q, SimpleHttp.apply_ops (deal r []).1 new_Response = Ret q) ->
     exists c' s', simple_serve lower deal 2 new_simple s = Ret (kReadAll, c', s') /\ answered deal new_simple r c' /\
       data_in (rdq s') = [] /\ wrq s' = wrq s /\ sent s' = sent s).
Proof.
  intros s. apply (simple_http_request_served lower deal form_head (bs "a=1&b=2") new_simple s 2).
  - apply form_complete.
  - by eexists.
  - compute_head.
  - done.
  - by apply two_pieces_trickle.
  - by vm_compute.
  - simpl. lia.
Defined.

Lemma simple_http_no_host_cuts_path_witness :
  exists r, path r = bs "html" /\ sm_find (bs "host") (headers r) = Some [] /\ content r = [] /\
    ((exists q, SimpleHttp.apply_ops (deal r []).1 new_Response = Ret q) ->
     exists c' s', simple_serve lower deal 2 new_simple (two_pieces (head_text bare_head)) = Ret (kReadAll, c', s') /\
       answered deal new_simple r c').
Proof.
  apply (simple_http_no_host_cuts_path lower deal bare_head [] new_simple (two_pieces (head_text bare_head)) 2);
    [apply bare_complete|by vm_compute|done|by vm_compute|done|by apply two_pieces_trickle|by vm_compute|simpl; lia].
Defined.

Lemma simple_http_GetRequest_ends_witness :
  match SimpleHttp.GetRequest lower deal new_simple (mkSock [Arrive (bs "GET / HTTP")] [] []) with
  | Ret (st, c', s') =>
      conn_id (simple_base c') = (7, bs "1.2.3.4:5") /\ in_order c' /\ wrq s' = [] /\ sent s' = [] /\
      (st = kReadAll \/ st = kReadHalf \/ st = kReadClose \/ st = kReadError)
  | Fault e => e = AssertFailed
  end.
Proof.
  apply (simple_http_GetRequest_ends lower deal new_simple (mkSock [Arrive (bs "GET / HTTP")] [] [])).
  split; cbn; try done. by left.
Defined.

Lemma simple_http_pipelined_stuck_witness :
  exists c1, SimpleHttp.GetRequest lower deal new_simple (mkSock [Arrive (head_text get_head ++ head_text get_head)] [] []) =
      Ret (kReadHalf, c1, mkSock [] [] []) /\
    remain_packet_len_ c1 = 2 ^ 64 - (zlen (head_text get_head) - 0) /\
    forall m s, Z.of_nat (rd_bytes (rdq s)) < 2 ^ 63 ->
      exists st c2 s', simple_serve lower deal m c1 s = Ret (st, c2, s') /\ st <> kReadAll /\ user_ c2 = user_ new_simple.
Proof.
  apply (simple_http_pipelined_stuck lower deal get_head (head_text get_head) 0 new_simple [] []);
    [apply get_head_ok|by eexists|compute_head|by vm_compute|by vm_compute|by vm_compute|compute_head|done].
Defined.
