(* ===== verification/SimpleHttpReply.v ===== *)
(** The theorem on the responses of the simple HTTP connection. *)
From S2P Require Import Pink Prelude Sys Slash StdMap PinkConn HttpConn HttpFacts HttpSend SimpleHttp SimpleHttpFacts SimpleHttpTheorems.

(** * The text of a response *)

Definition full_headers (p : Response) : Response :=
  match sm_find (bs "Content-Length") (headers_ p) with
  | Some _ => p
  | None => SimpleHttp.SetHeaders_num (bs "Content-Length") (zlen (body_ p)) p
  end.
Definition lines_of (l : params) : bytes := concat (map (fun kv => header_line kv.1 kv.2) l).
Definition head_of (p : Response) : bytes :=
  status_line (status_code_ p) (reason_phrase_ p) ++ lines_of (headers_ (full_headers p)) ++ CRLF.
Definition reply_text (p : Response) : bytes := head_of p ++ body_ p.
#[global] Arguments head_of : simpl never.

(** The head fits the array, and the body its position. *)
Record sendable (p : Response) : Prop := {
  sd_head : zlen (head_of p) < kHTTPMaxMessage;
  sd_body : zlen (body_ p) <= INT_MAX
}.

Lemma put_text_spec text out size : zlen (out ++ text) < size -> SimpleHttp.put_text text out size = Ret (out ++ text, false).
Proof. rewrite zlen_app. intros Hs. unfold SimpleHttp.put_text. by rewrite (proj2 (Z.ltb_lt _ _)) by lia. Qed.

Lemma put_lines_spec l out size : zlen (out ++ lines_of l) < size -> put_lines l out size = Ret (out ++ lines_of l, false).
Proof.
  revert out. induction l as [|[k v] l IH]; intros out Hs; cbn [put_lines]; [by rewrite app_nil_r|].
  change (lines_of ((k, v) :: l)) with (header_line k v ++ lines_of l) in *. rewrite app_assoc in Hs |- *.
  rewrite put_text_spec by (rewrite zlen_app in Hs; pose proof (zlen_nonneg (lines_of l)); lia). by apply IH.
Qed.

Lemma Serialize_spec size p :
  zlen (head_of p) < size -> SerializeHeaderToArray size p = Ret (head_of p, full_headers p).
Proof.
  intros Hs. unfold SerializeHeaderToArray. fold (full_headers p). unfold head_of in *.
  set (line := status_line _ _) in *. set (ls := lines_of _) in *.
  rewrite app_assoc in Hs |- *. pose proof (zlen_nonneg ls). rewrite !zlen_app in Hs. change (zlen CRLF) with 2 in Hs.
  rewrite put_text_spec by (change ([] ++ line) with line; lia). cbn [obind app].
  rewrite put_lines_spec by (fold ls; rewrite zlen_app; lia). fold ls. cbn [obind].
  rewrite put_text_spec by (rewrite !zlen_app; change (zlen CRLF) with 2; lia). done.
Qed.

Lemma full_headers_body p : body_ (full_headers p) = body_ p.
Proof. unfold full_headers. by case_match. Qed.

Lemma head_of_pos p : 0 < zlen (head_of p).
Proof. unfold head_of. rewrite !zlen_app. change (zlen CRLF) with 2. zlen_pos. lia. Qed.

(** * Sending *)
Section send.
Context {U : Type}.
Implicit Types c : SimpleHTTPConn U.

(** Nothing of the response has been sent. *)
Definition unsent c : Prop := wbuf_ c = [] /\ wbuf_pos_ c = 0 /\ response_pos_ c = -1.

(** The head of the response is in the array or out, the body up to its position. *)
Record on_way c : Prop := {
  ow_pos : 0 <= wbuf_pos_ c < zlen (wbuf_ c) \/ (wbuf_ c = [] /\ wbuf_pos_ c = 0);
  ow_size : zlen (wbuf_ c) <= kHTTPMaxMessage;
  ow_resp : 0 <= response_pos_ c <= zlen (body_ (response_ c));
  ow_body : zlen (body_ (response_ c)) <= INT_MAX
}.

(** The bytes that are not out. *)
Definition pending c : bytes := zdrop (wbuf_pos_ c) (wbuf_ c) ++ zdrop (response_pos_ c) (body_ (response_ c)).

(** The array is empty only when nothing is left. *)
Definition filled c : Prop := wbuf_ c = [] -> zdrop (response_pos_ c) (body_ (response_ c)) = [].

Lemma fill_spec c : on_way c ->
  exists c', fill_body 1 c = Ret c' /\ on_way c' /\ filled c' /\ pending c' = pending c /\ simple_base c' = simple_base c.
Proof.
  intros [Hp Hs Hr Hb]. unfold fill_body. unfold HasMoreBody.
  rewrite to_u64_id by (unfold INT_MAX in Hb; lia). unfold wbuf_len_.
  destruct (Z.ltb_spec (response_pos_ c) (zlen (body_ (response_ c)))) as [H1|H1]; cbn [andb].
  2:{ exists c. split_and!; try done. intros _. apply zlen_zero. rewrite zlen_zdrop; lia. }
  destruct (Z.ltb_spec (zlen (wbuf_ c)) kHTTPMaxMessage) as [H2|H2].
  2:{ exists c. split_and!; try done. intros E. rewrite E in H2. by apply (Z.lt_le_trans 0) in H2. }
  set (size := kHTTPMaxMessage - zlen (wbuf_ c)). set (pos := response_pos_ c) in *. set (body := body_ (response_ c)) in *.
  unfold SerializeBodyToArray. fold body. set (actual := if _ <? size then _ else size).
  assert (Ha : 0 < actual <= zlen body - pos /\ actual <= size /\ (actual = zlen body - pos \/ actual = size)).
  { unfold actual, size. destruct (Z.ltb_spec (zlen body - pos) (kHTTPMaxMessage - zlen (wbuf_ c))); lia. }
  rewrite (proj2 (Z.ltb_ge INT_MAX _)) by lia. cbn [obind put_out response_pos_ response_ wbuf_]. fold body.
  assert (Hz : zlen (ztake actual (zdrop pos body)) = actual) by (apply zlen_ztake; rewrite zlen_zdrop; lia).
  rewrite to_u64_id by (unfold INT_MAX in Hb; lia). rewrite zlen_app, Hz.
  set (c1 := put_out _ _ _ _ c).
  assert (Hstop : (pos + actual <? zlen body) && (zlen (wbuf_ c) + actual <? kHTTPMaxMessage) = false).
  { unfold size in *. apply andb_false_iff. destruct Ha as (_ & _ & [-> | ->]); [left|right]; apply Z.ltb_ge; lia. }
  rewrite Hstop. exists c1. split; [done|]. split_and!.
  - assert (Hw : zlen (wbuf_ c1) = zlen (wbuf_ c) + actual) by (cbn; by rewrite zlen_app, Hz).
    split; cbn [c1 put_out wbuf_pos_ response_pos_ response_]; try (fold body; lia).
    rewrite Hw. destruct Hp as [Hp|[Hp1 Hp2]]; [left; lia|]. left. rewrite Hp1, Hp2 in *. change (zlen (@nil ascii)) with 0. lia.
  - intros E. cbn in E. apply (f_equal zlen) in E. rewrite zlen_app, Hz in E. pose proof (zlen_nonneg (wbuf_ c)).
    change (zlen (@nil ascii)) with 0 in E. lia.
  - unfold pending. cbn [c1 put_out wbuf_pos_ response_pos_ response_ wbuf_]. fold body pos.
    assert (Hd : zdrop (wbuf_pos_ c) (wbuf_ c ++ ztake actual (zdrop pos body)) = zdrop (wbuf_pos_ c) (wbuf_ c) ++ ztake actual (zdrop pos body)).
    { unfold zdrop at 1 3. rewrite drop_app_le; [done|]. destruct Hp as [Hp|[Hp1 Hp2]]; [unfold zlen in Hp; lia|rewrite Hp2; simpl; lia]. }
    rewrite Hd, <- app_assoc. f_equal. rewrite <- (zdrop_zdrop pos actual) by lia. apply ztake_zdrop.
  - done.
Qed.

Lemma Fill_spec c : on_way c ->
  exists c', FillResponseBuf c = Ret c' /\ on_way c' /\ filled c' /\ pending c' = pending c /\ simple_base c' = simple_base c.
Proof.
  intros Ho. unfold FillResponseBuf. rewrite (proj2 (Z.ltb_ge _ 0)) by (destruct Ho; lia). by apply fill_spec.
Qed.

Lemma Fill_first c : unsent c -> sendable (response_ c) ->
  exists c', FillResponseBuf c = Ret c' /\ on_way c' /\ filled c' /\ pending c' = reply_text (response_ c) /\
    simple_base c' = simple_base c.
Proof.
  intros (Hb & Hp & Hr) [Hh Hbd]. unfold FillResponseBuf, wbuf_len_. rewrite Hr, Hb. change (-1 <? 0) with true. cbv iota.
  change (zlen (@nil ascii)) with 0. rewrite Z.sub_0_r, Serialize_spec by done. cbn [obind]. rewrite Hp.
  set (c1 := put_out _ _ _ _ c).
  assert (H1 : on_way c1).
  { pose proof (head_of_pos (response_ c)). pose proof (zlen_nonneg (body_ (response_ c))).
    split; cbn [c1 put_out wbuf_ wbuf_pos_ response_pos_ response_ app]; rewrite ?full_headers_body; try done; lia. }
  destruct (fill_spec c1 H1) as (c' & -> & Ho & Hf & Hpe & Hba). exists c'. split_and!; try done. rewrite Hpe.
  unfold pending. cbn [c1 put_out wbuf_ wbuf_pos_ response_pos_ response_ app]. by rewrite !zdrop_0, full_headers_body.
Qed.

Definition lively c (s : sock) : Prop := patient (wrq s) /\ zlen (pending c) <= accepting (wrq s).

(** How sending what is pending ends. *)
Inductive sent_or_not c (s : sock) : outcome (WriteStatus * SimpleHTTPConn U * sock) -> Prop :=
  | AllSent c' s' :
      unsent c' -> sent s' = sent s ++ pending c -> simple_base c' = simple_base c ->
      sent_or_not c s (Ret (kWriteAll, c', s'))
  | HalfSent c' s' :
      on_way c' -> sent s' ++ pending c' = sent s ++ pending c -> simple_base c' = simple_base c ->
      (lively c s -> lively c' s' /\ holdups (wrq s) = S (holdups (wrq s'))) ->
      sent_or_not c s (Ret (kWriteHalf, c', s'))
  | SendFails c' s' :
      sent s' ++ pending c' = sent s ++ pending c -> simple_base c' = simple_base c -> ~ lively c s ->
      sent_or_not c s (Ret (kWriteError, c', s')).

Lemma sent_or_not_trans c s c1 s1 r :
  sent s1 ++ pending c1 = sent s ++ pending c -> simple_base c1 = simple_base c ->
  (lively c s -> lively c1 s1 /\ holdups (wrq s1) = holdups (wrq s)) ->
  sent_or_not c1 s1 r -> sent_or_not c s r.
Proof.
  intros Hp Hb Hl [c' s' Hu Hs Hb'|c' s' Ho Hs Hb' Hl'|c' s' Hs Hb' Hl'].
  - apply AllSent; congruence.
  - apply HalfSent; try congruence. intros Hc. destruct (Hl Hc) as [H1 <-]. by apply Hl'.
  - apply SendFails; try congruence. intros Hc. by destruct (Hl Hc).
Qed.

Lemma on_way_left c : on_way c -> wbuf_ c <> [] -> 0 < zlen (zdrop (wbuf_pos_ c) (wbuf_ c)).
Proof.
  intros [Hp _ _ _] Hne. destruct Hp as [Hp|[? _]]; [|done]. rewrite zlen_zdrop; lia.
Qed.

Lemma send_rounds_spec fuel c s :
  on_way c -> filled c -> (length (wrq s) < fuel)%nat -> sent_or_not c s (send_rounds fuel c s).
Proof.
  revert c s. induction fuel as [|fuel IH]; intros c s Ho Hfl Hf; [lia|]. cbn [send_rounds]. unfold wbuf_len_ at 1.
  destruct (Z.ltb_spec 0 (zlen (wbuf_ c))) as [Hz|Hz].
  2:{ assert (E : wbuf_ c = []) by (apply zlen_zero; pose proof (zlen_nonneg (wbuf_ c)); lia).
      assert (E2 : wbuf_pos_ c = 0) by (destruct Ho as [[Hp|[_ Hp]] _ _ _]; [rewrite E in Hp; change (zlen (@nil ascii)) with 0 in Hp; lia|done]).
      apply AllSent; [by split_and!|simpl|done]. unfold pending. rewrite (Hfl E), E, app_nil_r. unfold zdrop. by rewrite drop_nil, app_nil_r. }
  assert (Hne : wbuf_ c <> []) by (intros E; rewrite E in Hz; done).
  pose proof (on_way_left c Ho Hne) as Hlp. set (rest := zdrop (wbuf_pos_ c) (wbuf_ c)) in *.
  assert (Hpend : pending c = rest ++ zdrop (response_pos_ c) (body_ (response_ c))) by done.
  assert (Hpl : zlen rest <= zlen (pending c)) by (rewrite Hpend, zlen_app; pose proof (zlen_nonneg (zdrop (response_pos_ c) (body_ (response_ c)))); lia).
  unfold sys_write. destruct (wrq s) as [|[k|e] q] eqn:Eq; cbn [accepting holdups].
  - apply HalfSent; try done. intros [_ Hl]. rewrite Eq in Hl. simpl in Hl. lia.
  - set (n := Z.min (Z.of_nat k) (zlen rest)). assert (Hn : 0 <= n <= zlen rest) by lia.
    destruct (Z.leb_spec n 0) as [Hn0|Hn0].
    { assert (n = 0) as En by lia. apply SendFails; [|done|].
      - cbn [sent]. rewrite En. change (ztake 0 rest) with (@nil ascii). by rewrite app_nil_r.
      - intros [Hpat _]. rewrite Eq in Hpat. apply Forall_cons in Hpat as [[[j [= ->]]|?] _]; [lia|done]. }
    assert (Hsplit : forall out, (out ++ ztake n rest) ++ zdrop n rest ++ zdrop (response_pos_ c) (body_ (response_ c)) = out ++ pending c).
    { intros out. rewrite Hpend, <- app_assoc, (app_assoc (ztake n rest)), ztake_zdrop. done. }
    assert (Hlive : forall c1, pending c1 = zdrop n rest ++ zdrop (response_pos_ c) (body_ (response_ c)) -> lively c s ->
      lively c1 (mkSock (rdq s) q (sent s ++ ztake n rest)) /\ holdups q = holdups (wrq s)).
    { intros c1 Hp1 [Hpat Hle]. rewrite Eq in *. apply Forall_cons in Hpat as [_ Hpat]. split; [|done]. split; [done|]. cbn [wrq].
      cbn [accepting] in Hle. rewrite Hp1. rewrite Hpend in Hle. rewrite !zlen_app in *. rewrite zlen_zdrop by lia. lia. }
    cbn [length] in Hf. unfold wbuf_len_. destruct (Z.eqb_spec (wbuf_pos_ c + n) (zlen (wbuf_ c))) as [E|E].
    + set (c1 := put_out [] 0 _ _ c).
      assert (H1 : on_way c1) by (destruct Ho; split; cbn [c1 put_out wbuf_ wbuf_pos_ response_pos_ response_]; try done; by right).
      destruct (Fill_spec c1 H1) as (c2 & -> & Ho2 & Hf2 & Hp2 & Hb2). cbn [obind].
      assert (Hrl : zlen rest = zlen (wbuf_ c) - wbuf_pos_ c) by (destruct Ho as [[?|[? _]] _ _ _]; [apply zlen_zdrop; lia|done]).
      assert (Hp1 : pending c2 = zdrop n rest ++ zdrop (response_pos_ c) (body_ (response_ c))).
      { rewrite Hp2. unfold pending. cbn [c1 put_out wbuf_ wbuf_pos_ response_pos_ response_]. rewrite zdrop_0.
        rewrite (zdrop_all n rest) by lia. done. }
      eapply (sent_or_not_trans _ _ c2 (mkSock (rdq s) q (sent s ++ ztake n rest)));
        [cbn [sent]; by rewrite Hp1|done|by apply Hlive|]. apply IH; [done|done|cbn [wrq]; lia].
    + set (c1 := put_out _ _ _ _ c).
      assert (Hrl : zlen rest = zlen (wbuf_ c) - wbuf_pos_ c) by (destruct Ho as [[?|[? _]] _ _ _]; [apply zlen_zdrop; lia|done]).
      assert (H1 : on_way c1).
      { destruct Ho as [[?|[? _]] ? ? ?]; [|done]. split; cbn [c1 put_out wbuf_ wbuf_pos_ response_pos_ response_]; try done. left. lia. }
      assert (Hp1 : pending c1 = zdrop n rest ++ zdrop (response_pos_ c) (body_ (response_ c))).
      { unfold pending. cbn [c1 put_out wbuf_ wbuf_pos_ response_pos_ response_]. unfold rest. rewrite zdrop_zdrop by (destruct Ho as [[?|[? _]] _ _ _]; lia || done). by rewrite Z.add_comm. }
      eapply (sent_or_not_trans _ _ c1 (mkSock (rdq s) q (sent s ++ ztake n rest)));
        [cbn [sent]; by rewrite Hp1|done|by apply Hlive|]. apply IH; [done| |cbn [wrq]; lia].
      intros Hw. done.
  - destruct e; try (apply SendFails; [done|done|]; intros [Hpat _]; rewrite Eq in Hpat; by apply Forall_cons in Hpat as [[[? ?]|?] _]).
    apply HalfSent; try done. intros [Hpat Hle]. rewrite Eq in *. apply Forall_cons in Hpat as [_ Hpat]. done.
Qed.
End send.

Section replies.
Context {U : Type}.
Implicit Types c : SimpleHTTPConn U.

(** What a call of [SendReply] has to send. *)
Definition carries c (out : bytes) : Prop :=
  (unsent c /\ sendable (response_ c) /\ out = reply_text (response_ c)) \/ (on_way c /\ out = pending c).

Lemma SimpleSendReply_spec c s out :
  carries c out -> exists c0, pending c0 = out /\ simple_base c0 = simple_base c /\ sent_or_not c0 s (SimpleHttp.SendReply c s).
Proof.
  intros Hc. assert (exists c0, FillResponseBuf c = Ret c0 /\ on_way c0 /\ filled c0 /\ pending c0 = out /\ simple_base c0 = simple_base c)
    as (c0 & HF & Ho & Hfl & Hp & Hb).
  { destruct Hc as [(Hu & Hs & ->)|[Ho ->]]; [by apply Fill_first|by apply Fill_spec]. }
  exists c0. unfold SimpleHttp.SendReply. rewrite HF. cbn [obind]. split_and!; try done. apply send_rounds_spec; [done|done|lia].
Qed.

(** The event loop's calls, while there is more to send. *)
Fixpoint simple_replies (n : nat) c (s : sock) : outcome (WriteStatus * SimpleHTTPConn U * sock) :=
  match n with
  | O => Ret (kWriteHalf, c, s)
  | S n =>
      let! (st, c, s) := SimpleHttp.SendReply c s in
      if bool_decide (st = kWriteHalf) then simple_replies n c s else Ret (st, c, s)
  end.

Lemma simple_replies_spec n c s out :
  carries c out ->
  exists st c' s' rest, simple_replies n c s = Ret (st, c', s') /\ sent s' ++ rest = sent s ++ out /\
    simple_base c' = simple_base c /\ (st = kWriteAll -> rest = [] /\ unsent c') /\
    (patient (wrq s) -> zlen out <= accepting (wrq s) -> (holdups (wrq s) < n)%nat -> st = kWriteAll).
Proof.
  revert c s out. induction n as [|n IH]; intros c s out Hc; cbn [simple_replies].
  { exists kWriteHalf, c, s, out. split_and!; try done. lia. }
  destruct (SimpleSendReply_spec c s out Hc) as (c0 & Hp & Hb & HS). destruct HS as [c' s' Hu Hs Hb'|c' s' Ho Hs Hb' Hl|c' s' Hs Hb' Hl];
    cbn [obind]; rewrite Hp in Hs.
  - change (bool_decide (kWriteAll = kWriteHalf)) with false. cbv iota. exists kWriteAll, c', s', []. rewrite app_nil_r.
    split_and!; try done. congruence.
  - change (bool_decide (kWriteHalf = kWriteHalf)) with true. cbv iota.
    destruct (IH c' s' (pending c')) as (st & c2 & s2 & rest & HE & Hs2 & Hb2 & Hall & Hlive); [by right|].
    exists st, c2, s2, rest. split_and!; try done; [congruence|congruence|]. intros Hpat Hle Hn.
    destruct Hl as [[Hp1 Hp2] Hh]; [split; [done|by rewrite Hp]|]. apply Hlive; [done|done|lia].
  - change (bool_decide (kWriteError = kWriteHalf)) with false. cbv iota. exists kWriteError, c', s', (pending c').
    split_and!; try done; [congruence|]. intros Hpat Hle _. exfalso. apply Hl. split; [done|by rewrite Hp].
Qed.
End replies.

(** A response is sent whole and once. While the event loop calls [SendReply],
    whatever the socket takes at a time, what has been written is a beginning of the
    status line, the headers (with the length of the body, unless the user has given
    one) and the body. [kWriteAll] is reported only when all of it is out, and leaves
    the connection ready for the next response; and it is reported, after no more
    calls than the socket has asked to wait, when the socket takes at least a byte
    at every other time and is asked often enough. *)
Theorem simple_http_reply_exact {U} (c : SimpleHTTPConn U) s n :
  unsent c -> sendable (response_ c) ->
  exists st c' s' rest, simple_replies n c s = Ret (st, c', s') /\ sent s' ++ rest = sent s ++ reply_text (response_ c) /\
    simple_base c' = simple_base c /\ (st = kWriteAll -> rest = [] /\ unsent c') /\
    (patient (wrq s) -> zlen (reply_text (response_ c)) <= accepting (wrq s) -> (holdups (wrq s) < n)%nat -> st = kWriteAll).
Proof. intros Hu Hs. apply simple_replies_spec. by left. Qed.

Definition ok_response : Response := mkResp 200 (bs "OK") [] (bs "abc").
Definition ok_conn : SimpleHTTPConn unit := put_answer ok_response tt (new_SimpleHTTPConn 7 (bs "1.2.3.4:5") 0 tt).
(** A byte at a time, and twice nothing. *)
Definition slow_socket : sock := mkSock [] (WrFails EAGAIN :: replicate 20 (Accepts 1) ++ WrFails EAGAIN :: replicate 30 (Accepts 1)) [].

Lemma simple_http_reply_exact_witness :
  exists c' s', simple_replies 3 ok_conn slow_socket = Ret (kWriteAll, c', s') /\
    sent s' = bs "HTTP/1.1 200 OK" ++ CRLF ++ bs "Content-Length: 3" ++ CRLF ++ CRLF ++ bs "abc".
Proof.
  destruct (simple_http_reply_exact ok_conn slow_socket 3) as (st & c' & s' & rest & HE & Hs & _ & Hall & Hlive);
    [done|split; by vm_compute|].
  assert (st = kWriteAll) as ->.
  { apply Hlive; [|by vm_compute|simpl; lia]. unfold patient, slow_socket. cbn [wrq].
    apply Forall_cons; split; [by right|]. apply Forall_app; split; [apply Forall_replicate; left; by exists 0%nat|].
    apply Forall_cons; split; [by right|]. apply Forall_replicate. left. by exists 0%nat. }
  destruct (Hall eq_refl) as [-> _]. exists c', s'. rewrite app_nil_r in Hs. split; [done|]. rewrite Hs. by vm_compute.
Defined.
