(* ===== verification/ServeFacts.v ===== *)
(** What one event does to a connection whose call is known: the steps of the
    worker and of the thread that serves its own connections, exactly. *)
From S2P Require Import Pink Prelude Sys StdMap PinkConn PinkEpoll ServerConns ServerFacts HolyThread WorkerThread.

Section steps.
Context {C : Type} {Ops : ConnOps C} {CL : ConnLaws C}.
Implicit Types t : server C.

(** The connection [c] of [fd] at [p], with its stream, and what the poller waits
    for. *)
Record At (fd : Z) (p : ptr) (d : epoll_data) (c : C) (s : sock) (mask : Z) t : Prop := {
  at_table : sm_find fd (conns_ t) = Some p;
  at_heap : heap (mem t) !! p = Some c;
  at_id : fd_ (conn_base c) = fd;
  at_sock : d_sock <$> fds (mem t) !! fd = Some s;
  at_watch : interest (pink_epoll_ t) !! fd = Some (mask, d);
  at_waiting : is_waiting_del_ (conn_base c) = false
}.

Lemma at_deref fd p d c s m t : At fd p d c s m t -> deref p (mem t) = Ret c.
Proof. intros []. unfold deref. by rewrite at_heap0. Qed.

Lemma at_on fd p d c s m t f :
  At fd p d c s m t -> fd_ (conn_base (f c)) = fd -> is_waiting_del_ (conn_base (f c)) = false ->
  exists t', on_conn f p t = Ret t' /\ At fd p d (f c) s m t' /\ in_conn_ t' = in_conn_ t.
Proof.
  intros HA Hf Hw. unfold on_conn. rewrite (at_deref _ _ _ _ _ _ _ HA). eexists. split; [done|]. split; [|done].
  destruct HA. split; try done. simpl. by rewrite lookup_insert_eq.
Qed.

Lemma at_call {R} fd p d c s m t (f : C -> sock -> outcome (R * C * sock)) r c' s' :
  At fd p d c s m t -> f c s = Ret (r, c', s') -> fd_ (conn_base c') = fd -> is_waiting_del_ (conn_base c') = false ->
  exists t', conn_call f p t = Ret (r, t') /\ At fd p d c' s' m t' /\ in_conn_ t' = in_conn_ t.
Proof.
  intros HA Hf Hid Hw. unfold conn_call, call. rewrite (at_deref _ _ _ _ _ _ _ HA). cbn [obind]. destruct HA as [Ht Hh Hc Hs Hi _].
  rewrite Hc. destruct (fds (mem t) !! fd) as [de|] eqn:Ed; [|done]. injection Hs as Hs.
  unfold sock_of. rewrite Ed, Hs, Hf. cbn [obind]. eexists. split; [done|]. split; [|done].
  unfold put_sock. simpl. rewrite Ed. split; simpl; try done; by rewrite lookup_insert_eq.
Qed.

Lemma at_mod fd p d c s m t m' d' :
  At fd p d c s m t -> At fd p d' c s m' (put_epoll (epoll_ctl_mod fd m' d' (pink_epoll_ t)).2 t).
Proof.
  intros []. split; try done. unfold epoll_ctl_mod. rewrite at_watch0. simpl. by rewrite lookup_insert_eq.
Qed.

(** The local reference changes nothing while the table has one. *)
Lemma at_local fd p d c s m t o : At fd p d c s m t -> At fd p d c s m (assign_in_conn o t).
Proof.
  intros []. unfold assign_in_conn. destruct (in_conn_ t) as [old|]; [|by split].
  split; simpl; try done.
  - unfold release. case_bool_decide as Hin; [done|]. simpl. rewrite lookup_delete_ne; [done|]. intros ->. apply Hin.
    apply elem_of_app. left. by eapply refs_conns.
  - by rewrite release_fds.
Qed.

(** * The thread that serves its own connections, in the synchronous mode *)

Definition at_time (now : Z) (c : C) : C := with_base (set_last_interaction now) c.

Lemma at_touch fd p d c s m t now :
  At fd p d c s m t -> exists t', modify_conn p (set_last_interaction now) t = Ret t' /\
    At fd p d (at_time now c) s m t' /\ in_conn_ t' = in_conn_ t.
Proof.
  intros HA. unfold modify_conn, at_time. apply (at_on _ _ _ _ _ _ _ (with_base (set_last_interaction now)) HA).
  - rewrite base_with_base. apply HA.
  - rewrite base_with_base. apply HA.
Qed.

(** An event that leaves the connection in its place, around its body. *)
Lemma holy_event fd p c c' s s' m m' now mask t :
  At fd p (DFd fd) c s m t ->
  (forall t1, At fd p (DFd fd) c s m t1 ->
     exists t2, conn_event_body false now fd mask p t1 = Ret t2 /\ At fd p (DFd fd) c' s' m' t2) ->
  exists t', HandleConnEvent false now fd mask t = Ret t' /\ At fd p (DFd fd) c' s' m' t'.
Proof.
  intros HA HB. pose proof (at_table _ _ _ _ _ _ _ HA) as Hp. rewrite (HandleConnEvent_found _ _ _ _ _ _ Hp), (serve_event_found _ _ _ _ _ _ Hp).
  destruct (HB _ (at_local _ _ _ _ _ _ _ (Some p) HA)) as (t2 & -> & H2). cbn [obind].
  eexists. split; [done|]. by apply at_local.
Qed.

(** A read that leaves the connection alive: the loop writes next if there is
    something to reply. *)
Lemma holy_read fd p c s r c' s' now t :
  At fd p (DFd fd) c s EPOLLIN t -> conn_GetRequest c s = Ret (r, c', s') -> r = kReadHalf \/ r = kReadAll ->
  fd_ (conn_base c') = fd -> is_waiting_del_ (conn_base c') = false ->
  exists t', HandleConnEvent false now fd EPOLLIN t = Ret t' /\
    At fd p (DFd fd) (at_time now c') s' (if conn_is_reply (at_time now c') then EPOLLOUT else EPOLLIN) t'.
Proof.
  intros HA HG Hr Hf Hw. apply (holy_event fd p c _ s _ EPOLLIN _ now EPOLLIN t HA). intros t1 H1.
  destruct (at_call _ _ _ _ _ _ _ _ _ _ _ H1 HG Hf Hw) as (t2 & E2 & H2 & _).
  destruct (at_touch _ _ _ _ _ _ _ now H2) as (t3 & E3 & H3 & _).
  unfold conn_event_body, sync_read. change (has EPOLLIN EPOLLIN) with true. cbv iota. rewrite E2. cbn [obind]. rewrite E3. cbn [obind].
  replace (negb (bool_decide (r = kReadAll)) && negb (bool_decide (r = kReadHalf))) with false by (by destruct Hr as [-> | ->]).
  rewrite (at_deref _ _ _ _ _ _ _ H3). cbn [obind]. destruct (conn_is_reply (at_time now c')); cbn [obind]; [|by exists t3].
  unfold sync_write, close_event. change (has EPOLLOUT EPOLLIN) with false. change (has EPOLLERR EPOLLIN) with false.
  change (has EPOLLHUP EPOLLIN) with false. cbn [obind orb]. eexists. split; [done|]. by eapply at_mod.
Qed.

Lemma holy_read_half fd p c s c' s' now t :
  At fd p (DFd fd) c s EPOLLIN t -> conn_GetRequest c s = Ret (kReadHalf, c', s') -> conn_base c' = conn_base c ->
  conn_is_reply (at_time now c') = false ->
  exists t', HandleConnEvent false now fd EPOLLIN t = Ret t' /\ At fd p (DFd fd) (at_time now c') s' EPOLLIN t'.
Proof.
  intros HA HG Hb Hr. destruct (holy_read fd p c s kReadHalf c' s' now t HA HG) as (t' & E & H); [by left|rewrite Hb; apply HA..|].
  rewrite Hr in H. by exists t'.
Qed.

Lemma holy_read_all fd p c s c' s' now t :
  At fd p (DFd fd) c s EPOLLIN t -> conn_GetRequest c s = Ret (kReadAll, c', s') ->
  fd_ (conn_base c') = fd -> is_waiting_del_ (conn_base c') = false -> conn_is_reply (at_time now c') = true ->
  exists t', HandleConnEvent false now fd EPOLLIN t = Ret t' /\ At fd p (DFd fd) (at_time now c') s' EPOLLOUT t'.
Proof.
  intros HA HG Hf Hw Hr. destruct (holy_read fd p c s kReadAll c' s' now t HA HG (or_intror eq_refl) Hf Hw) as (t' & E & H).
  rewrite Hr in H. by exists t'.
Qed.

Lemma holy_write_half fd p c s c' s' now t :
  At fd p (DFd fd) c s EPOLLOUT t -> conn_SendReply c s = Ret (kWriteHalf, c', s') -> conn_base c' = conn_base c ->
  exists t', HandleConnEvent false now fd EPOLLOUT t = Ret t' /\ At fd p (DFd fd) c' s' EPOLLOUT t'.
Proof.
  intros HA HG Hb. apply (holy_event fd p c _ s _ EPOLLOUT _ now EPOLLOUT t HA). intros t1 H1.
  destruct (at_call _ _ _ _ _ _ _ _ _ _ _ H1 HG) as (t2 & E2 & H2 & _); [rewrite Hb; apply HA..|].
  unfold conn_event_body, sync_read, sync_write. change (has EPOLLIN EPOLLOUT) with false. change (has EPOLLOUT EPOLLOUT) with true.
  cbn [obind]. rewrite E2. cbn [obind sent_reply]. by exists t2.
Qed.

Lemma holy_write_all fd p c s c' s' now t :
  At fd p (DFd fd) c s EPOLLOUT t -> conn_SendReply c s = Ret (kWriteAll, c', s') -> conn_base c' = conn_base c ->
  conn_base (conn_set_is_reply false c') = set_is_reply false (conn_base c') \/ conn_base (conn_set_is_reply false c') = conn_base c' ->
  exists t', HandleConnEvent false now fd EPOLLOUT t = Ret t' /\ At fd p (DFd fd) (conn_set_is_reply false c') s' EPOLLIN t'.
Proof.
  intros HA HG Hb Hset. apply (holy_event fd p c _ s _ EPOLLOUT _ now EPOLLOUT t HA). intros t1 H1.
  destruct (at_call _ _ _ _ _ _ _ _ _ _ _ H1 HG) as (t2 & E2 & H2 & _); [rewrite Hb; apply HA..|].
  destruct (at_on _ _ _ _ _ _ _ (conn_set_is_reply false) H2) as (t3 & E3 & H3 & _);
    [destruct Hset as [-> | ->]; rewrite Hb; apply HA..|].
  unfold conn_event_body, sync_read, sync_write, close_event. change (has EPOLLIN EPOLLOUT) with false. change (has EPOLLOUT EPOLLOUT) with true.
  cbn [obind]. rewrite E2. cbn [obind sent_reply]. rewrite E3. cbn [obind].
  change (has EPOLLERR EPOLLOUT) with false. change (has EPOLLHUP EPOLLOUT) with false. cbn [orb]. eexists. split; [done|]. by eapply at_mod.
Qed.

(** ** A connection that answers what it reads *)

(** At each of the times the poller reports of [fd] what it waits for; [async] is the
    mode the thread was made with. *)
Fixpoint polled (async : bool) (fd : Z) (times : list Z) (t : server C) : outcome (server C) :=
  match times with
  | [] => Ret t
  | now :: times =>
      match interest (pink_epoll_ t) !! fd with
      | Some (mask, _) => let! t := HandleConnEvent async now fd mask t in polled async fd times t
      | None => Ret t
      end
  end.

(** What a kind of connection promises the loop. [Waiting n out c s]: it waits for
    input, and what is still to arrive on [s] will be answered with [out]; [Writing]:
    it has something to send. [n] bounds the calls that are left. *)
Record answers_all (Waiting Writing : nat -> bytes -> C -> sock -> Prop) : Prop := {
  aa_read n out c s : Waiting n out c s -> (rdq s = [] /\ out = []) \/
    exists n' r c' s', (n' < n)%nat /\ conn_GetRequest c s = Ret (r, c', s') /\ (r = kReadHalf \/ r = kReadAll) /\
      conn_id (conn_base c') = conn_id (conn_base c) /\ is_waiting_del_ (conn_base c') = is_waiting_del_ (conn_base c) /\
      sent s' = sent s /\
      forall now, if conn_is_reply (at_time now c') then Writing n' out (at_time now c') s' else Waiting n' out (at_time now c') s';
  aa_write n out c s : Writing n out c s ->
    exists n' c' s' out1 out2, (n' < n)%nat /\ conn_base c' = conn_base c /\ out = out1 ++ out2 /\ sent s' = sent s ++ out1 /\
      (conn_SendReply c s = Ret (kWriteHalf, c', s') /\ Writing n' out2 c' s' \/
       conn_SendReply c s = Ret (kWriteAll, c', s') /\ Waiting n' out2 (conn_set_is_reply false c') s');
  aa_flag c : conn_base (conn_set_is_reply false c) = set_is_reply false (conn_base c) \/
    conn_base (conn_set_is_reply false c) = conn_base c
}.

(** The loop answers everything, and ends waiting for input. *)
Lemma holy_answers Waiting Writing fd p times n out (b : bool) c s t :
  answers_all Waiting Writing -> (if b then Writing n out c s else Waiting n out c s) ->
  At fd p (DFd fd) c s (if b then EPOLLOUT else EPOLLIN) t -> (n <= length times)%nat ->
  exists k n' t' c' s', (k <= n)%nat /\ polled false fd (take k times) t = Ret t' /\ At fd p (DFd fd) c' s' EPOLLIN t' /\
    Waiting n' [] c' s' /\ sent s' = sent s ++ out /\ rdq s' = [].
Proof.
  intros HAA. revert b n out c s t. induction times as [|now times IH]; intros b n out c s t HW HA Hn; cbn [length] in Hn.
  - destruct b.
    + destruct (aa_write _ _ HAA _ _ _ _ HW) as (? & ? & ? & ? & ? & ? & _). lia.
    + destruct (aa_read _ _ HAA _ _ _ _ HW) as [[H0 ->]|(? & ? & ? & ? & ? & _)]; [|lia].
      exists 0%nat, n, t, c, s. rewrite app_nil_r. split_and!; done || lia.
  - destruct b.
    + destruct (aa_write _ _ HAA _ _ _ _ HW) as (n' & c' & s' & o1 & o2 & Hlt & Hb & -> & Hs & [[E HW']|[E HW']]).
      * destruct (holy_write_half fd p c s c' s' now t HA E Hb) as (t1 & E1 & H1).
        destruct (IH true n' o2 c' s' t1 HW' H1 ltac:(lia)) as (k & n2 & t2 & c2 & s2 & Hk & HP & HA2 & HW2 & Hs2 & H0).
        exists (S k), n2, t2, c2, s2. rewrite Hs2, Hs, app_assoc. split_and!; try done; [lia|].
        cbn [take polled]. by rewrite (at_watch _ _ _ _ _ _ _ HA), E1.
      * destruct (holy_write_all fd p c s c' s' now t HA E Hb (aa_flag _ _ HAA c')) as (t1 & E1 & H1).
        destruct (IH false n' o2 _ s' t1 HW' H1 ltac:(lia)) as (k & n2 & t2 & c2 & s2 & Hk & HP & HA2 & HW2 & Hs2 & H0).
        exists (S k), n2, t2, c2, s2. rewrite Hs2, Hs, app_assoc. split_and!; try done; [lia|].
        cbn [take polled]. by rewrite (at_watch _ _ _ _ _ _ _ HA), E1.
    + destruct (aa_read _ _ HAA _ _ _ _ HW) as [[H0 ->]|(n' & r & c' & s' & Hlt & E & Hr & Hid & Hwd & Hs & HW')].
      { exists 0%nat, n, t, c, s. rewrite app_nil_r. split_and!; done || lia. }
      destruct (holy_read fd p c s r c' s' now t HA E Hr) as (t1 & E1 & H1);
        [injection Hid as -> _; apply HA|rewrite Hwd; apply HA|].
      destruct (IH _ n' out _ s' t1 (HW' now) H1 ltac:(lia)) as (k & n2 & t2 & c2 & s2 & Hk & HP & HA2 & HW2 & Hs2 & H0).
      exists (S k), n2, t2, c2, s2. rewrite Hs2, Hs. split_and!; try done; [lia|].
      cbn [take polled]. by rewrite (at_watch _ _ _ _ _ _ _ HA), E1.
Qed.

(** ** The asynchronous mode *)

(** The default of the constructors: a request that is complete changes nothing in what
    the loop waits for, whether there is a reply or not. *)
Lemma holy_async_read fd p c s r c' s' now t :
  At fd p (DFd fd) c s EPOLLIN t -> conn_GetRequest c s = Ret (r, c', s') -> r = kReadHalf \/ r = kReadAll ->
  fd_ (conn_base c') = fd -> is_waiting_del_ (conn_base c') = false ->
  exists t', HandleConnEvent true now fd EPOLLIN t = Ret t' /\ At fd p (DFd fd) (at_time now c') s' EPOLLIN t'.
Proof.
  intros HA HG Hr Hf Hw. pose proof (at_table _ _ _ _ _ _ _ HA) as Hp.
  rewrite (HandleConnEvent_found _ _ _ _ _ _ Hp), (serve_event_found _ _ _ _ _ _ Hp).
  pose proof (at_local _ _ _ _ _ _ _ (Some p) HA) as H1.
  destruct (at_call _ _ _ _ _ _ _ _ _ _ _ H1 HG Hf Hw) as (t2 & E2 & H2 & _).
  destruct (at_touch _ _ _ _ _ _ _ now H2) as (t3 & E3 & H3 & _).
  unfold conn_event_body, async_read. change (has EPOLLIN EPOLLIN) with true. cbv iota. rewrite E2. cbn [obind]. rewrite E3. cbn [obind].
  exists (assign_in_conn None t3). split; [|by apply at_local]. destruct Hr as [-> | ->]; [done|]. cbn [obind].
  unfold async_write. rewrite (at_deref _ _ _ _ _ _ _ H3). cbn [obind].
  change (has EPOLLOUT EPOLLIN) with false. cbn [andb obind]. unfold close_event. done.
Qed.

(** Only a notification makes it wait for the socket to take the reply. *)
Lemma holy_async_notified fd p c s m ip co t :
  At fd p (DFd fd) c s m t ->
  exists t', process_item (mkItem fd ip kNotiWrite co) t = Ret t' /\ At fd p (DFd fd) c s (Z.lor EPOLLOUT EPOLLIN) t'.
Proof. intros HA. eexists. split; [done|]. by eapply at_mod. Qed.

(** * The worker *)

Lemma worker_read_all fd p c s c' s' now t :
  let begun := with_base (set_is_partial_request true) c in
  let dealt := with_base (set_is_partial_request false) (at_time now c') in
  At fd p (DPtr p) c s EPOLLIN t -> conn_GetRequest begun s = Ret (kReadAll, c', s') ->
  fd_ (conn_base c') = fd -> is_waiting_del_ (conn_base c') = false ->
  exists t', conn_event now EPOLLIN p t = Ret t' /\ At fd p (DPtr p) dealt s' 0 t'.
Proof.
  intros begun dealt HA HG Hf Hw. unfold conn_event.
  pose proof (at_local _ _ _ _ _ _ _ None HA) as H1. set (t1 := assign_in_conn None t) in *.
  rewrite (at_deref _ _ _ _ _ _ _ H1). cbn [obind]. rewrite (at_waiting _ _ _ _ _ _ _ H1).
  pose proof (at_local _ _ _ _ _ _ _ (Some p) H1) as H2. set (t2 := assign_in_conn (Some p) t1) in *.
  unfold write_part. rewrite (at_deref _ _ _ _ _ _ _ H2). cbn [obind]. change (has EPOLLOUT EPOLLIN) with false. cbn [andb obind].
  unfold read_part. change (has EPOLLIN EPOLLIN) with true. cbn [negb andb].
  destruct (at_on _ _ _ _ _ _ _ (with_base (set_is_partial_request true)) H2) as (t3 & E3 & H3 & _);
    [rewrite base_with_base; apply HA..|]. unfold modify_conn at 1. rewrite E3. cbn [obind].
  destruct (at_call _ _ _ _ _ _ _ _ _ _ _ H3 HG Hf Hw) as (t4 & E4 & H4 & _). rewrite E4. cbn [obind].
  destruct (at_touch _ _ _ _ _ _ _ now H4) as (t5 & E5 & H5 & _). rewrite E5. cbn [obind].
  destruct (at_on _ _ _ _ _ _ _ (with_base (set_is_partial_request false)) H5) as (t6 & E6 & H6 & _);
    [unfold at_time; rewrite !base_with_base; done..|]. unfold modify_conn. rewrite E6. cbn [obind].
  unfold mod_event, conn_fd. rewrite (at_deref _ _ _ _ _ _ _ H6). cbn [obind].
  rewrite (at_id _ _ _ _ _ _ _ H6). unfold close_part. change (has EPOLLERR EPOLLIN) with false. change (has EPOLLHUP EPOLLIN) with false.
  cbn [orb]. eexists. split; [done|]. by eapply at_mod.
Qed.

(** Neither readable nor writable. *)
Lemma worker_other fd p c s m now mask t :
  At fd p (DPtr p) c s m t -> has EPOLLIN mask = false -> has EPOLLOUT mask = false ->
  exists t', conn_event now mask p t = Ret t' /\
    (At fd p (DPtr p) c s m t' \/ (interest (pink_epoll_ t') !! fd = None /\ fds (mem t') !! fd = None)).
Proof.
  intros HA Hi Ho. unfold conn_event.
  pose proof (at_local _ _ _ _ _ _ _ None HA) as H1. set (t1 := assign_in_conn None t) in *.
  rewrite (at_deref _ _ _ _ _ _ _ H1). cbn [obind]. rewrite (at_waiting _ _ _ _ _ _ _ H1).
  pose proof (at_local _ _ _ _ _ _ _ (Some p) H1) as H2. set (t2 := assign_in_conn (Some p) t1) in *.
  unfold write_part. rewrite (at_deref _ _ _ _ _ _ _ H2). cbn [obind]. rewrite Ho. cbn [andb obind].
  unfold read_part. rewrite Hi. cbn [negb andb obind]. unfold close_part. destruct (_ || _ || _); [|eauto].
  unfold conn_fd. rewrite (at_deref _ _ _ _ _ _ _ H2). cbn [obind]. unfold CloseFd.
  assert (Hd : deref p (mem t2) = Ret c) by by eapply at_deref.
  cbn [put_epoll mem put_mem]. rewrite Hd. cbn [obind]. eexists. split; [done|]. right.
  set (t3 := put_mem _ _). assert (H3 : interest (pink_epoll_ t3) !! fd = None /\ fds (mem t3) !! fd = None).
  { cbn. rewrite (at_id _ _ _ _ _ _ _ H2), epoll_ctl_del_twice, epoll_ctl_del_eq. cbn. by rewrite !lookup_delete_eq. }
  clearbody t3. destruct H3 as [H3 H4]. rewrite (at_id _ _ _ _ _ _ _ H2).
  assert (H5 : forall o, interest (pink_epoll_ (assign_in_conn o t3)) !! fd = None /\ fds (mem (assign_in_conn o t3)) !! fd = None).
  { intros o. unfold assign_in_conn. destruct (in_conn_ t3); cbn; by rewrite ?release_fds. }
  specialize (H5 None). unfold erase_conn. destruct (sm_find _ _); [|done]. cbn. by rewrite release_fds.
Qed.
End steps.

(** The events of a connection of the worker: of what is reported only what it waits
    for, or an error. *)
Fixpoint reported {C} {Ops : ConnOps C} (fd : Z) (p : ptr) (l : list (Z * Z)) (t : server C) : outcome (server C) :=
  match l with
  | [] => Ret t
  | (now, mask) :: l =>
      match interest (pink_epoll_ t) !! fd with
      | Some (m, _) =>
          let! t := conn_event now (Z.land mask (Z.lor m (Z.lor EPOLLERR EPOLLHUP))) p t in reported fd p l t
      | None => Ret t
      end
  end.

Lemma reported_busy {C} {Ops : ConnOps C} {CL : ConnLaws C} fd p c s l (t : server C) :
  At fd p (DPtr p) c s 0 t ->
  exists t', reported fd p l t = Ret t' /\
    (At fd p (DPtr p) c s 0 t' \/ (interest (pink_epoll_ t') !! fd = None /\ fds (mem t') !! fd = None)).
Proof.
  revert t. induction l as [|[now mask] l IH]; intros t HA; cbn [reported]; [eauto|].
  rewrite (at_watch _ _ _ _ _ _ _ HA).
  assert (Hno : forall bit, Z.land (Z.lor EPOLLERR EPOLLHUP) bit = 0 -> has bit (Z.land mask (Z.lor 0 (Z.lor EPOLLERR EPOLLHUP))) = false).
  { intros bit Hb. unfold has. rewrite <- Z.land_assoc, Z.lor_0_l, Hb. by rewrite Z.land_0_r. }
  destruct (worker_other fd p c s 0 now _ t HA (Hno EPOLLIN eq_refl) (Hno EPOLLOUT eq_refl)) as (t1 & -> & [H1|[H1 H2]]); cbn [obind].
  - by apply IH.
  - exists t1. split; [|by right]. destruct l as [|[now' mask'] l]; [done|]. cbn [reported]. by rewrite H1.
Qed.
