(* ===== verification/HttpServer.v ===== *)
(** The HTTP connection in the thread that serves its own connections, and the
    handles of [pink/examples/http_server.cc]. *)
From S2P Require Import Pink Prelude Sys StdMap PinkConn PinkEpoll HttpConn HttpFacts HttpParse HttpServe HttpTheorems HttpSend.
From S2P Require Import ServerConns HolyThread WorkerThread ServeFacts.

(** A response as [Reset] leaves it. *)
Definition fresh (wb : bytes) : HTTPResponse := mkResponse kPrepareHeader wb 0 0 0 false 200 [].

(** * The user's side *)

(** What the user's object prepares for a request is [answer], whatever the buffer
    holds and however many moments without data there have been. *)
Class answering {U} {H : HTTPHandles U} {B : BodySource U} (StringToLower : bytes -> bytes)
    (h : head) (ip body : bytes) (u0 : U) (answer : bytes) : Prop := {
  an_request :: plain_request StringToLower h ip body;
  an_response k1 k2 buf wb p : zlen wb <= kHTTPMaxMessage ->
    let prep := PrepareResponse (HandleBodyData body (seen StringToLower h ip body u0 k1 k2 buf)) in
    apply_ops prep.1 (fresh wb) = Ret p ->
    prepared p /\ remain_send_len_ p <= zlen (coming prep.2) /\
    header_text p ++ ztake (remain_send_len_ p) (coming prep.2) = answer
}.

Lemma answer_nonempty {U} {H : HTTPHandles U} {B : BodySource U} StringToLower h ip body (u0 : U) answer
    {AN : answering StringToLower h ip body u0 answer} : answer <> [].
Proof.
  set (u := HandleBodyData body (seen StringToLower h ip body u0 0 0 [])).
  destruct AN as [[_ _ _ _ _ _ Hprep] Hresp]. destruct (Hprep u (fresh [])) as [p Hp].
  destruct (Hresp 0%nat 0%nat [] [] p ltac:(done) Hp) as (_ & _ & <-). unfold header_text, status_line. done.
Qed.

(** A connection between two requests: it has not looked for one yet, or has seen
    nothing of it. *)
Inductive idle {U} (ip : bytes) (c : HTTPConn U) : Prop :=
  | IdleNew :
      req_status_ (request_ c) = kNewRequest -> finished_ (response_ c) = true -> ip_port_ (http_base c) = ip ->
      zlen (wbuf_ (response_ c)) <= kHTTPMaxMessage -> idle ip c
  | IdleBegun wb :
      request_ c = blank ip kHeaderReceiving [] -> response_ c = fresh wb -> ip_port_ (http_base c) = ip ->
      zlen wb <= kHTTPMaxMessage -> idle ip c.

(** * Under the event loop *)
Section answers.
Context {U : Type} {H : HTTPHandles U} {B : BodySource U}.
Context (StringToLower : bytes -> bytes) (h : head) (ip body : bytes) (u0 : U) (answer : bytes).
Context {AN : answering StringToLower h ip body u0 answer} (HW : willing U).
Implicit Types c : HTTPConn U.
#[local] Instance loop_ops : ConnOps (HTTPConn U) := http_ops StringToLower.

#[local] Abbreviation on b wb s k := (phase StringToLower h ip body u0 b (fresh wb) s k).

(** An idle connection reads as one that has begun. *)
Definition begun wb c : HTTPConn U := mkHTTPConn (http_base c) (blank ip kHeaderReceiving []) (fresh wb) (handles_ c).

Lemma idle_begun c : idle ip c -> exists wb, zlen wb <= kHTTPMaxMessage /\
  forall s, GetRequest StringToLower c s = GetRequest StringToLower (begun wb c) s.
Proof.
  intros [Hq Hf Hi Hw|wb Hq Hp Hi Hw].
  - exists (wbuf_ (response_ c)). split; [done|]. intros s. unfold GetRequest, ReadData.
    rewrite bool_decide_eq_true_2 by done. cbn [response_ put_request]. rewrite Hf, Hi. done.
  - exists wb. split; [done|]. intros s. f_equal. destruct c as [b r p u]. simpl in *. unfold begun. simpl. by rewrite Hq, Hp.
Qed.

Lemma phase_at b b' wb s k c : on b wb s k c -> on b' wb s k (put_base b' c).
Proof. intros [pre Hp Hl|pre k1 k2 buf Hk Hp Hn|k1 k2 buf pre Hk Hd]; [by apply InHead|by apply (InBody _ _ _ _ _ _ _ _ _ pre k1 k2 buf)|by apply Whole]. Qed.

Lemma phase_of b wb s k c : on b wb s k c -> http_base c = b.
Proof. by intros []. Qed.

Lemma phase_begun wb c s :
  handles_ c = u0 -> data_in (rdq s) = head_text h ++ body -> on (http_base c) wb s 0 (begun wb c).
Proof.
  intros Hu Hd. unfold begun. rewrite Hu. apply (InHead StringToLower h ip body u0 (http_base c) (fresh wb) s 0 []); [done|].
  pose proof (head_text_length h). unfold zlen. simpl. lia.
Qed.

(** The steps of the loop that are left. *)
Definition cost (s : sock) : nat := (waits (rdq s) + Z.to_nat (zlen answer) + holdups (wrq s) + 2)%nat.

Record coming_in (n : nat) (out : bytes) c (s : sock) : Prop := {
  ci_answer : out = answer;
  ci_patient : patient (wrq s);
  ci_accepts : zlen answer <= accepting (wrq s);
  ci_cost : (cost s <= n)%nat;
  ci_on : (idle ip c /\ handles_ c = u0 /\ data_in (rdq s) = head_text h ++ body) \/
          (exists wb k, zlen wb <= kHTTPMaxMessage /\ on (http_base c) wb s k c)
}.
Definition waiting (n : nat) (out : bytes) c (s : sock) : Prop :=
  trickle (rdq s) /\ PinkConn.is_reply_ (http_base c) = false /\ ip_port_ (http_base c) = ip /\
  (coming_in n out c s \/ (out = [] /\ idle ip c /\ data_in (rdq s) = [] /\ (waits (rdq s) <= n)%nat)).

Inductive writing (n : nat) (out : bytes) c (s : sock) : Prop :=
  | Writing p u o :
      trickle (rdq s) -> data_in (rdq s) = [] -> req_status_ (request_ c) = kNewRequest -> ip_port_ (http_base c) = ip ->
      prepared p -> remain_send_len_ p <= zlen (coming u) -> track p u o c s -> lively p c s ->
      sent s ++ out = o ++ header_text p ++ ztake (remain_send_len_ p) (coming u) ->
      (waits (rdq s) + Z.to_nat (effort p c s) < n)%nat -> writing n out c s.

(** ** Reading *)

(** A read while the request is on its way. *)
Lemma read_on n wb k c s : zlen wb <= kHTTPMaxMessage -> trickle (rdq s) -> PinkConn.is_reply_ (http_base c) = false ->
  ip_port_ (http_base c) = ip -> on (http_base c) wb s k c -> patient (wrq s) -> zlen answer <= accepting (wrq s) -> (cost s <= n)%nat ->
  exists n' r c' s', (n' < n)%nat /\ GetRequest StringToLower c s = Ret (r, c', s') /\ (r = kReadHalf \/ r = kReadAll) /\
    conn_id (http_base c') = conn_id (http_base c) /\ is_waiting_del_ (http_base c') = is_waiting_del_ (http_base c) /\
    sent s' = sent s /\
    forall now, if conn_is_reply (at_time now c') then writing n' answer (at_time now c') s' else waiting n' answer (at_time now c') s'.
Proof.
  intros Hwb Ht Hr Hi Hp Hpa Ha Hn. rewrite (call_on_way StringToLower h ip body u0 (http_base c) (fresh wb) s k c Ht Hp).
  destruct (rounds_go StringToLower h ip body u0 (rd_work (rdq s) + 3) (http_base c) (fresh wb) s k c Ht Hp ltac:(lia))
    as [c' s' Hp' [Ht' _ Hq' Hs'] Hw'|c' s' Hh Hd Hw' Ht' Hq' Hs']; cbn [obind]; unfold cost in *.
  - pose proof (phase_of _ _ _ _ _ Hp') as Hb. exists (n - 1)%nat, kReadHalf, c', s'. rewrite bool_decide_eq_false_2 by done.
    split_and!; try done; [lia|by left|by rewrite Hb..|]. intros now.
    assert (Hf : conn_is_reply (at_time now c') = false) by (unfold conn_is_reply; simpl; unfold default_is_reply; simpl; by rewrite Hb).
    rewrite Hf. split; [done|]. split; [exact Hf|]. split; [simpl; by rewrite Hb|]. left. split; rewrite ?Hq'; try done; [unfold cost; rewrite Hq'; lia|].
    right. exists wb, (S k). split; [done|]. by eapply phase_at.
  - destruct Hh as [k1 k2 buf pre p -> Hops]. destruct (an_response k1 k2 buf wb p Hwb Hops) as (PP & PE & HA).
    exists (n - 1)%nat, kReadAll. eexists _, s'. rewrite bool_decide_eq_true_2 by done.
    split_and!; try done; [lia|by right|]. intros now.
    assert (Hlen : zlen (header_text p) + remain_send_len_ p = zlen answer).
    { rewrite <- HA, zlen_app, zlen_ztake; [done|]. pose proof (pp_length p PP). lia. }
    match goal with |- if ?b then _ else _ => change b with true end. cbv iota.
    set (u := (PrepareResponse _).2) in *.
    assert (Htodo : forall q : HTTPConn U, response_ q = p -> todo p q = zlen answer).
    { intros q Hq. unfold todo. rewrite Hq. destruct PP as [-> _ _ _ _ _ _ _]. lia. }
    apply (Writing _ _ _ _ p u (sent s')); try done.
    + by apply TPrepared.
    + unfold lively. rewrite Htodo, Hq' by done. by split_and!.
    + by rewrite HA.
    + unfold effort. rewrite Htodo, Hq' by done. pose proof (zlen_nonneg answer). lia.
Qed.

(** A read of a request that is there. *)
Lemma read_whole wb k c s : zlen wb <= kHTTPMaxMessage -> trickle (rdq s) -> on (http_base c) wb s k c -> waits (rdq s) = 0%nat ->
  exists c' s', GetRequest StringToLower c s = Ret (kReadAll, c', s') /\ http_base c' = PinkConn.set_is_reply true (http_base c) /\
    prepared (response_ c') /\ sent s' = sent s.
Proof.
  intros Hwb Ht Hp Hw. rewrite (call_on_way StringToLower h ip body u0 (http_base c) (fresh wb) s k c Ht Hp).
  destruct (rounds_go StringToLower h ip body u0 (rd_work (rdq s) + 3) (http_base c) (fresh wb) s k c Ht Hp ltac:(lia))
    as [c' s' _ _ Hw'|c' s' Hh Hd _ _ _ Hs']; cbn [obind]; [lia|].
  destruct Hh as [k1 k2 buf pre p -> Hops]. destruct (an_response k1 k2 buf wb p Hwb Hops) as (PP & _).
  eexists _, s'. rewrite bool_decide_eq_true_2 by done. by split_and!.
Qed.

(** A read when there is nothing. *)
Lemma read_nothing n c s : trickle (rdq s) -> PinkConn.is_reply_ (http_base c) = false -> ip_port_ (http_base c) = ip ->
  idle ip c -> data_in (rdq s) = [] -> (waits (rdq s) <= n)%nat -> rdq s <> [] ->
  exists n' c' s', (n' < n)%nat /\ GetRequest StringToLower c s = Ret (kReadHalf, c', s') /\ http_base c' = http_base c /\
    sent s' = sent s /\ forall now, waiting n' [] (at_time now c') s'.
Proof.
  intros Ht Hr Hi Hid Hd Hn Hne. destruct (idle_begun c Hid) as (wb & Hwb & E).
  destruct (sys_read_trickle (kHTTPMaxMessage - 0) s ltac:(done) ltac:(done) Ht) as [E0|[(s' & ER & [Ht' _ Hq' Hs'] & Hd' & Hw')|(d & s' & _ & _ & Hz & Hd' & _)]];
    [done| |rewrite Hd in Hd'; symmetry in Hd'; apply app_eq_nil in Hd' as [-> _]; change (zlen (@nil ascii)) with 0 in Hz; lia].
  exists (n - 1)%nat, (put_handles (HandleConnClosed (handles_ c)) (begun wb c)), s'. split; [lia|].
  split; [|split; [done|split; [done|]]].
  - rewrite E. unfold GetRequest, ReadData. rewrite bool_decide_eq_false_2 by done.
    replace (rd_work (rdq s) + 3)%nat with (S (rd_work (rdq s) + 2)) by lia. cbn [read_rounds].
    unfold read_round, receive_header, DoRead, begun, rbuf_pos_. cbn [request_ req_status_ rbuf_ blank].
    change (zlen (@nil ascii)) with 0. rewrite ER. done.
  - intros now. split; [exact Ht'|]. split; [exact Hr|]. split; [exact Hi|]. right. split; [done|].
    split; [by apply (IdleBegun _ _ wb)|]. split; [congruence|lia].
Qed.

Lemma http_read n out c s : waiting n out c s -> (rdq s = [] /\ out = []) \/
  exists n' r c' s', (n' < n)%nat /\ conn_GetRequest c s = Ret (r, c', s') /\ (r = kReadHalf \/ r = kReadAll) /\
    conn_id (conn_base c') = conn_id (conn_base c) /\ is_waiting_del_ (conn_base c') = is_waiting_del_ (conn_base c) /\
    sent s' = sent s /\
    forall now, if conn_is_reply (at_time now c') then writing n' out (at_time now c') s' else waiting n' out (at_time now c') s'.
Proof.
  intros (Ht & Hr & Hi & [[-> Hpa Ha Hn Hon]|(-> & Hid & Hd & Hn)]).
  - right. destruct Hon as [(Hid & Hu & Hd)|(wb & k & Hwb & Hp)].
    + destruct (idle_begun c Hid) as (wb & Hwb & E). pose proof (phase_begun wb c s Hu Hd) as Hp. cbn [conn_GetRequest loop_ops http_ops].
      rewrite E. exact (read_on n wb 0 (begun wb c) s Hwb Ht Hr Hi Hp Hpa Ha Hn).
    + exact (read_on n wb k c s Hwb Ht Hr Hi Hp Hpa Ha Hn).
  - destruct (decide (rdq s = [])) as [E0|Hne]; [by left|right].
    destruct (read_nothing n c s Ht Hr Hi Hid Hd Hn Hne) as (n' & c' & s' & Hlt & HG & Hb & Hs & Hw).
    exists n', kReadHalf, c', s'. split_and!; try done; [by left|simpl; by rewrite Hb..|]. intros now.
    assert (Hf : conn_is_reply (at_time now c') = false) by (unfold conn_is_reply; simpl; unfold default_is_reply; simpl; by rewrite Hb).
    rewrite Hf. apply Hw.
Qed.

(** ** Writing *)

Lemma http_write n out c s : writing n out c s ->
  exists n' c' s' out1 out2, (n' < n)%nat /\ conn_base c' = conn_base c /\ out = out1 ++ out2 /\ sent s' = sent s ++ out1 /\
    (conn_SendReply c s = Ret (kWriteHalf, c', s') /\ writing n' out2 c' s' \/
     conn_SendReply c s = Ret (kWriteAll, c', s') /\ waiting n' out2 (conn_set_is_reply false c') s').
Proof.
  intros [p u o Ht Hd Hq Hi PP PE Htr Hlv Hout Hn]. pose proof (SendReply_keeps c s) as HK.
  destruct (SendReply_ok p u o PP PE c s Htr) as (st & c' & s' & E & Hres). rewrite E in HK. destruct HK as [Hb Hrq Hrd [x Hx]].
  destruct Hres as [(-> & new & Hg & Hs & Hz & Hf & _ & Hwb)|[(-> & Htr' & Hon)|(_ & _ & Hno)]]; [| |by destruct Hno].
  - assert (Hnew : ztake (remain_send_len_ p) (coming u) = new) by (rewrite Hg; by apply ztake_app).
    rewrite Hnew, <- Hs, Hx in Hout. apply app_inv_head in Hout as <-.
    exists (n - 1)%nat, c', s', out, []. rewrite app_nil_r. split_and!; try done; [lia|]. right. split; [exact E|].
    split; [by rewrite Hrd|]. split; [done|]. split; [simpl; by rewrite Hb|]. right. rewrite Hrd. split; [done|].
    split; [apply IdleNew; simpl; by rewrite ?Hrq, ?Hb|]. split; [done|lia].
  - destruct (Hon Hlv) as [Hlv' Hlt]. destruct (track_total p u o c' s' Htr') as [rest Hrest].
    rewrite <- Hrest, Hx, <- app_assoc in Hout. apply app_inv_head in Hout as ->.
    exists (n - 1)%nat, c', s', x, rest. split_and!; try done; [lia|]. left. split; [exact E|].
    apply (Writing _ _ _ _ p u o); try done; rewrite ?Hrd, ?Hrq, ?Hb; try done.
    assert (0 <= effort p c' s') by (pose proof (todo_nonneg p u o PP c' s' Htr'); unfold effort; lia). lia.
Qed.

Lemma http_answers_all : answers_all waiting writing.
Proof. split; [apply http_read|apply http_write|]. intros c. by left. Qed.
End answers.

(** * The example's handles *)

(** [slash::md5]: the digest in hexadecimal. *)
Class Md5 : Type := { md5 : bytes -> bytes }.
Class Md5Laws (M : Md5) : Prop := { md5_length b : zlen (md5 b) = 32 }.

(** [MyHTTPHandles]; its clocks are only printed, and [zero_space] is never used. *)
Record MyHTTPHandles : Type := mkMyHTTPHandles { body_data : bytes; body_md5 : bytes; write_pos : Z }.

Section http_server.
Context {M : Md5}.
Implicit Types u : MyHTTPHandles.

Definition My_HandleRequest (req : HTTPRequest) u : bool * MyHTTPHandles :=
  (false, mkMyHTTPHandles [] (body_md5 u) (write_pos u)).
Definition My_HandleBodyData (data : bytes) u : MyHTTPHandles :=
  mkMyHTTPHandles (body_data u ++ data) (body_md5 u) (write_pos u).
Definition My_PrepareResponse u : list resp_op * MyHTTPHandles :=
  let digest := md5 (body_data u) in
  ([OpStatus 200; OpLength (zlen digest)], mkMyHTTPHandles (body_data u) digest 0).
(** [std::min(max_size, body_md5.size() - write_pos)], an unsigned difference. *)
Definition My_WriteResponseBody (max_size : Z) u : body_result * MyHTTPHandles :=
  let size := Z.min max_size (to_u64 (zlen (body_md5 u) - write_pos u)) in
  (Filled (ztake size (zdrop (write_pos u) (body_md5 u))), mkMyHTTPHandles (body_data u) (body_md5 u) (to_u64 (write_pos u + size))).

#[export] Instance my_handles : HTTPHandles MyHTTPHandles := {
  HandleRequest := My_HandleRequest;
  HandleBodyData := My_HandleBodyData;
  PrepareResponse := My_PrepareResponse;
  WriteResponseBody := My_WriteResponseBody;
  HandleConnClosed u := u
}.

(** What is left of the digest, while the position is inside it. *)
Definition my_coming u : bytes :=
  if (0 <=? write_pos u) && (zlen (body_md5 u) <? 2 ^ 64) then zdrop (write_pos u) (body_md5 u) else [].

Lemma my_coming_more n u : 0 < n <= zlen (my_coming u) ->
  match WriteResponseBody n u with
  | (Filled d, u') => 0 < zlen d <= n /\ my_coming u = d ++ my_coming u'
  | (Negative k, u') => k = -1 /\ my_coming u' = my_coming u
  end.
Proof.
  destruct u as [data digest pos]. unfold my_coming. cbn [body_md5 write_pos].
  destruct ((0 <=? pos) && (zlen digest <? 2 ^ 64)) eqn:E; [|change (zlen (@nil ascii)) with 0; lia]. b2p. intros Hn.
  assert (Hp : pos <= zlen digest).
  { destruct (Z.le_gt_cases pos (zlen digest)); [done|]. rewrite zdrop_all in Hn by lia. change (zlen (@nil ascii)) with 0 in Hn. lia. }
  rewrite zlen_zdrop in Hn by lia. cbn [WriteResponseBody my_handles]. unfold My_WriteResponseBody. cbn [body_md5 write_pos].
  rewrite (to_u64_id (zlen digest - pos)), Z.min_l by lia. rewrite to_u64_id by lia.
  rewrite zlen_ztake by (rewrite zlen_zdrop; lia). split; [lia|]. rewrite (proj2 (Z.leb_le 0 _)), (proj2 (Z.ltb_lt _ _)) by lia.
  cbn [andb]. rewrite <- zdrop_zdrop by lia. by rewrite ztake_zdrop.
Qed.

#[export] Instance my_body : BodySource MyHTTPHandles := { coming := my_coming; coming_more := my_coming_more }.

Lemma my_willing : willing MyHTTPHandles.
Proof. intros n u _. by eexists. Qed.

(** The answer of the example. *)
Definition ok_answer (digest : bytes) : bytes :=
  bs "HTTP/1.1 200 OK" ++ CRLF ++ bs "Content-Length: 32" ++ CRLF ++ CRLF ++ digest.

(** It answers every request with the digest of the body, whatever its object holds. *)
Lemma http_server_answering {ML : Md5Laws M} StringToLower h ip body u :
  head_ok h -> host_free StringToLower h -> content_length StringToLower h = Ret (zlen body) ->
  expects_100 StringToLower h = false -> zlen (head_text h ++ body) <= kHTTPMaxHeader ->
  answering StringToLower h ip body u (ok_answer (md5 body)).
Proof.
  intros Hh Hho Hcl He Hf. split.
  - split; try done. intros v p. eexists. cbn [PrepareResponse my_handles My_PrepareResponse fst apply_ops]. done.
  - intros k1 k2 buf wb p Hwb. unfold seen.
    assert (Hid : forall k (v : MyHTTPHandles), Nat.iter k HandleConnClosed v = v) by (intros k v; induction k as [|k IH]; [done|exact IH]).
    rewrite !Hid. cbn [PrepareResponse HandleBodyData HandleRequest my_handles]. unfold My_PrepareResponse, My_HandleBodyData, My_HandleRequest.
    cbn [fst snd body_data app]. rewrite md5_length. intros [= <-]. split; [by split|].
    unfold coming, my_body, my_coming. cbn [body_md5 write_pos]. rewrite md5_length. change ((0 <=? 0) && (32 <? 2 ^ 64)) with true. cbv iota.
    rewrite zdrop_0, md5_length. split; [done|]. cbn [remain_send_len_]. rewrite ztake_all by (rewrite md5_length; done). done.
Qed.
End http_server.

(** * The theorem *)

(** C4: in a [HolyThread] made with [async = false] an HTTP request is answered. (In the
    default mode, [async = true], nothing is sent before a notification:
    [holy_async_read].) The request is one of [plain_request]: head and body have
    together at most 1 MiB, the content length is that of the body, there is no
    [Expect: 100-continue], the url does not name the host, and [HandleRequest] wants the
    body. Its text arrives, in any pieces and with any number of moments at which nothing
    has come yet, at a connection that is between two requests, whose socket takes
    something whenever it does not ask to wait: after no more events than those
    moments, the waits of the socket, the bytes of the answer and two, exactly the
    answer that the user's object prepares is out, the connection is in the table, open
    and watched for input, and is again between two requests, so that the next request
    is answered in the same way. *)
Theorem http_holy_answers {U} {H : HTTPHandles U} {B : BodySource U} StringToLower h ip body answer
    fd p (c : HTTPConn U) q w o times (t : server (HTTPConn U)) (Ops := http_ops StringToLower) :
  answering StringToLower h ip body (handles_ c) answer -> willing U ->
  idle ip c -> PinkConn.is_reply_ (http_base c) = false ->
  trickle q -> data_in q = head_text h ++ body -> patient w -> zlen answer <= accepting w ->
  At fd p (DFd fd) c (mkSock q w o) EPOLLIN t ->
  (waits q + holdups w + Z.to_nat (zlen answer) + 2 <= length times)%nat ->
  exists k t' c' s', (k <= waits q + holdups w + Z.to_nat (zlen answer) + 2)%nat /\ polled false fd (take k times) t = Ret t' /\
    At fd p (DFd fd) c' s' EPOLLIN t' /\ sent s' = o ++ answer /\ rdq s' = [] /\
    idle ip c' /\ PinkConn.is_reply_ (http_base c') = false.
Proof.
  intros AN HW Hid Hr Ht Hd Hp Ha HA Hn. pose proof (http_laws StringToLower (U:=U)) as CL.
  assert (Hip : ip_port_ (http_base c) = ip) by by destruct Hid.
  assert (HS : waiting StringToLower h ip body (handles_ c) answer (waits q + holdups w + Z.to_nat (zlen answer) + 2) answer c (mkSock q w o)).
  { split_and!; try done. left. split; try done; [unfold cost; simpl; lia|by left]. }
  destruct (holy_answers _ _ fd p times _ _ false _ _ t (http_answers_all StringToLower h ip body (handles_ c) answer HW) HS HA Hn) as
    (k & n' & t' & c' & s' & Hk & HP & HA' & (_ & Hr' & _ & Hend) & Hs & H0).
  exists k, t', c', s'. split_and!; try done. destruct Hend as [[E _ _ _ _]|(_ & ? & _)]; [|done].
  by destruct (answer_nonempty StringToLower h ip body (handles_ c) answer).
Qed.

(** In a [WorkerThread], which the example uses, the answer is never sent. When the
    request of a connection is complete the worker stops waiting for it and leaves it to
    the connection to say that the reply is ready, which [HTTPConn] never does: the
    response is prepared, [is_reply] is true, but whatever the poller reports afterwards,
    the connection stays as it is, with nothing sent, or is closed. *)
Theorem http_worker_never_replies {U} {H : HTTPHandles U} {B : BodySource U} StringToLower h ip body answer
    fd p (c : HTTPConn U) s now (t : server (HTTPConn U)) (Ops := http_ops StringToLower) :
  answering StringToLower h ip body (handles_ c) answer -> idle ip c ->
  trickle (rdq s) -> data_in (rdq s) = head_text h ++ body -> waits (rdq s) = 0%nat ->
  At fd p (DPtr p) c s EPOLLIN t ->
  exists t1 c' s', conn_event now EPOLLIN p t = Ret t1 /\ At fd p (DPtr p) c' s' 0 t1 /\
    prepared (response_ c') /\ PinkConn.is_reply_ (http_base c') = true /\ sent s' = sent s /\
    forall l, exists t2, reported fd p l t1 = Ret t2 /\
      (At fd p (DPtr p) c' s' 0 t2 \/ (interest (pink_epoll_ t2) !! fd = None /\ fds (mem t2) !! fd = None)).
Proof.
  intros AN Hid Ht Hd Hw HA. pose proof (http_laws StringToLower (U:=U)) as CL.
  set (c0 := put_base (PinkConn.set_is_partial_request true (http_base c)) c).
  assert (Hid0 : idle ip c0) by (destruct Hid as [? ? ? ?|wb ? ? ? ?]; [by apply IdleNew|by apply (IdleBegun _ _ wb)]).
  destruct (idle_begun StringToLower ip c0 Hid0) as (wb & Hwb & E).
  pose proof (phase_begun StringToLower h ip body (handles_ c) wb c0 s eq_refl Hd) as Hp.
  destruct (read_whole StringToLower h ip body (handles_ c) answer wb 0 (begun ip wb c0) s Hwb Ht Hp Hw) as (c1 & s1 & HG & Hb & PP & Hs).
  rewrite <- E in HG.
  destruct (worker_read_all fd p c s c1 s1 now t HA HG) as (t1 & E1 & H1); [change (conn_base c1) with (http_base c1); rewrite Hb; apply HA..|].
  exists t1. eexists _, s1. split; [exact E1|]. split; [exact H1|]. split; [exact PP|]. split; [simpl; by rewrite Hb|]. split; [exact Hs|].
  intros l. by apply reported_busy.
Qed.

(** The example as the server, with a stand-in for the digest; a request in three
    pieces on a socket that takes 40 bytes, then asks to wait, then takes 5 at a time. *)
#[export] Instance padded : Md5 := {| md5 b := ztake 32 (b ++ replicate 32 "0"%char) |}.
#[export] Instance padded_laws : Md5Laws padded.
Proof.
  split. intros b. cbn [md5 padded]. pose proof (zlen_nonneg b). apply zlen_ztake. rewrite zlen_app.
  change (zlen (replicate 32 "0"%char)) with 32. lia.
Qed.

Definition post_pieces : list arrival :=
  [Arrive (bs "POST /a?k"); RdFails EAGAIN; Arrive (bs "=v HTTP/1.1" ++ CRLF ++ bs "Content-Length: 3" ++ CRLF ++ CRLF ++ bs "a");
   RdFails EAGAIN; Arrive (bs "bc")].
Definition http_grants : list grant := Accepts 40 :: WrFails EAGAIN :: replicate 80 (Accepts 5).
Definition example_conn : HTTPConn MyHTTPHandles :=
  new_HTTPConn 7 (bs "1.2.3.4:5") 0 (mkMyHTTPHandles [] [] 0).
Definition one_http : server (HTTPConn MyHTTPHandles) :=
  mkServer [(7, 1)] ∅ 60 (mkEpoll {[7 := (EPOLLIN, DFd 7)]} 3 []) None
    (mkWorld {[1 := example_conn]} 2 [] {[7 := mkDesc 2 (mkSock post_pieces http_grants [])]} []).
Definition abc_answer : bytes := ok_answer (bs "abc" ++ replicate 29 "0"%char).

Lemma http_holy_answers_witness (Ops := http_ops (U:=MyHTTPHandles) lower) :
  exists k t' c' s', (k <= 76)%nat /\ polled false 7 (take k (replicate 76 5)) one_http = Ret t' /\
    At 7 1 (DFd 7) c' s' EPOLLIN t' /\ sent s' = abc_answer /\ rdq s' = [] /\ idle (bs "1.2.3.4:5") c'.
Proof.
  destruct (http_holy_answers lower post_head (bs "1.2.3.4:5") (bs "abc") abc_answer 7 1 example_conn post_pieces http_grants []
    (replicate 76 5) one_http) as (k & t' & c' & s' & Hk & HP & HA & Hs & H0 & Hid & _).
  - change abc_answer with (ok_answer (md5 (bs "abc"))). apply http_server_answering; [apply post_head_ok|by vm_compute..].
  - apply my_willing.
  - by apply IdleNew.
  - done.
  - repeat (apply Forall_cons; split; [first [by right|left; by eexists]|]). by apply Forall_nil.
  - done.
  - apply Forall_cons. split; [left; by exists 39%nat|]. apply Forall_cons. split; [by right|].
    apply Forall_replicate. left. by exists 4%nat.
  - by vm_compute.
  - by split.
  - by vm_compute; lia.
  - exists k, t', c', s'. split; [exact Hk|]. by split_and!.
Defined.

(** The same request at once, in a worker. *)
Definition one_http_worker : server (HTTPConn MyHTTPHandles) :=
  mkServer [(7, 1)] ∅ 60 (mkEpoll {[7 := (EPOLLIN, DPtr 1)]} 3 []) None
    (mkWorld {[1 := example_conn]} 2 [] {[7 := mkDesc 2 (mkSock [Arrive (head_text post_head ++ bs "abc")] http_grants [])]} []).

Lemma http_worker_never_replies_witness (Ops := http_ops (U:=MyHTTPHandles) lower) :
  exists t1 c' s', conn_event 5 EPOLLIN 1 one_http_worker = Ret t1 /\ At 7 1 (DPtr 1) c' s' 0 t1 /\
    PinkConn.is_reply_ (http_base c') = true /\ sent s' = [].
Proof.
  destruct (http_worker_never_replies lower post_head (bs "1.2.3.4:5") (bs "abc") abc_answer 7 1 example_conn
    (mkSock [Arrive (head_text post_head ++ bs "abc")] http_grants []) 5 one_http_worker) as (t1 & c' & s' & E & HA & _ & Hr & Hs & _).
  - change abc_answer with (ok_answer (md5 (bs "abc"))). apply http_server_answering; [apply post_head_ok|by vm_compute..].
  - by apply IdleNew.
  - apply Forall_cons; split; [left; by eexists|]. by apply Forall_nil.
  - by vm_compute.
  - done.
  - by split.
  - exists t1, c', s'. by split_and!.
Defined.
