(* ===== verification/SimpleHttpServer.v ===== *)
(** The simple HTTP connection under the event loops: the thread that serves its own
    connections answers it, the worker does not. *)
From S2P Require Import Pink Prelude Sys Slash StdMap PinkConn PinkEpoll HttpConn HttpFacts HttpParse HttpServe HttpTheorems.
From S2P Require Import ServerConns HolyThread WorkerThread ServeFacts SimpleHttp SimpleHttpFacts SimpleHttpServe SimpleHttpTheorems SimpleHttpReply.

(** * The connection as the event loops see it *)
Section conn.
Context {U : Type} {SL : Slash}.
Context (StringToLower : bytes -> bytes) (DealMessage : Request -> U -> list resp_op * U).
Implicit Types c : SimpleHTTPConn U.

#[export] Instance simple_ops : ConnOps (SimpleHTTPConn U) := {|
  conn_base := simple_base;
  with_base f c := SimpleHttp.put_base (f (simple_base c)) c;
  conn_GetRequest := SimpleHttp.GetRequest StringToLower DealMessage;
  conn_SendReply := SimpleHttp.SendReply;
  conn_WriteResp := default_WriteResp;
  conn_TryResizeBuffer := default_TryResizeBuffer;
  conn_is_reply := default_is_reply simple_base;
  conn_set_is_reply := default_set_is_reply (fun f c => SimpleHttp.put_base (f (simple_base c)) c)
|}.

(** ** Sending leaves reading alone *)

(** What reading works on. *)
Definition in_part c : PinkConn * ConnStatus * bytes * Request * U * Z * Z :=
  (simple_base c, conn_status_ c, rbuf_ c, request_ c, user_ c, header_len_ c, remain_packet_len_ c).
Definition keeps_in c c' : Prop := in_part c' = in_part c.

Lemma fill_in fuel c : wp alive (keeps_in c) (fill_body fuel c).
Proof.
  revert c. induction fuel as [|fuel IH]; intros c; cbn [fill_body]; destruct (_ && _); try done.
  eapply alive_bind; [instantiate (1 := fun _ => True); unfold SerializeBodyToArray; by case_match|].
  intros [d pos] _. eapply wp_mono; [|apply IH]. done.
Qed.

Lemma put_text_alive text out size : wp alive (fun _ => True) (SimpleHttp.put_text text out size).
Proof. unfold SimpleHttp.put_text. by repeat case_match. Qed.

Lemma put_lines_alive l out size : wp alive (fun _ => True) (put_lines l out size).
Proof.
  revert out. induction l as [|[k v] l IH]; intros out; [done|]. cbn [put_lines].
  eapply alive_bind; [apply put_text_alive|]. intros [o []] _; [done|apply IH].
Qed.

Lemma Serialize_alive size p : wp alive (fun _ => True) (SerializeHeaderToArray size p).
Proof.
  unfold SerializeHeaderToArray. eapply alive_bind; [apply put_text_alive|]. intros [o []] _; [done|].
  eapply alive_bind; [apply put_lines_alive|]. intros [o2 []] _; [done|].
  eapply alive_bind; [apply put_text_alive|]. by intros [? ?].
Qed.

Lemma Fill_in c : wp alive (keeps_in c) (FillResponseBuf c).
Proof.
  unfold FillResponseBuf. eapply (alive_bind (keeps_in c)).
  - case_match; [|done]. eapply alive_bind; [apply Serialize_alive|]. by intros [d p].
  - intros c1 H1. eapply wp_mono; [|apply fill_in]. unfold keeps_in in *. congruence.
Qed.

Lemma send_rounds_in fuel c s :
  wp alive (fun '(_, c', s') => keeps_in c c' /\ rdq s' = rdq s) (send_rounds fuel c s).
Proof.
  revert c s. induction fuel as [|fuel IH]; intros c s; cbn [send_rounds]; destruct (0 <? _); try done.
  assert (Hq : rdq (sys_write (zdrop (wbuf_pos_ c) (wbuf_ c)) s).2 = rdq s).
  { unfold sys_write. by destruct (wrq s) as [|[]]. }
  destruct (sys_write _ s) as [[n|e] s1]; simpl in Hq; [|by destruct e]. destruct (n <=? 0); [done|]. destruct (_ =? _).
  - eapply alive_bind; [apply Fill_in|]. intros c1 H1. eapply wp_mono; [|apply IH]. intros [[? c2] s2] [H2 H3].
    split; [|congruence]. unfold keeps_in in *. by rewrite H2, H1.
  - eapply wp_mono; [|apply IH]. intros [[? c2] s2] [H2 H3]. split; [done|congruence].
Qed.

Lemma SendReply_in c s : wp alive (fun '(_, c', s') => keeps_in c c' /\ rdq s' = rdq s) (SimpleHttp.SendReply c s).
Proof.
  unfold SimpleHttp.SendReply. eapply alive_bind; [apply Fill_in|]. intros c1 H1.
  eapply wp_mono; [|apply send_rounds_in]. intros [[? c2] s2] [H2 H3]. split; [|done]. unfold keeps_in in *. congruence.
Qed.

(** ** The laws *)

Lemma bad_code_alive {A} (P : A -> Prop) m : wp bad_code P m -> wp alive P m.
Proof. destruct m; [done|]. simpl. by intros ->. Qed.

Definition round_keeps c (r : SimpleHttp.round (U:=U)) : Prop :=
  match r with SimpleHttp.Returns _ c' _ => same_id c c' | SimpleHttp.Again c' _ => same_id c c' end.

Lemma receive_header_id c s : wp alive (round_keeps c) (SimpleHttp.receive_header StringToLower c s).
Proof.
  unfold SimpleHttp.receive_header. destruct (sys_read _ s) as [[[n|[]] d] s1]; try done.
  destruct (n <=? 0); [done|]. destruct (find_sub _ _) as [sep|]; [|done].
  match goal with |- context [BuildRequestHeader _ ?x] => destruct (Build_ok StringToLower x) as (ok & c1 & -> & Hb & _) end.
  cbn [obind]. assert (Hid : same_id c c1) by (unfold same_id; by rewrite Hb). destruct ok; cbn [negb]; [|done].
  destruct (expects_continue _); [|done]. eapply alive_bind; [apply bad_code_alive, SimpleStatus_wp|].
  intros p _. by destruct (0 <? _).
Qed.

Lemma packet_read_id c s : wp alive (round_keeps c) (packet_read c s).
Proof.
  unfold packet_read. destruct (_ || _); [|done]. eapply (alive_bind (same_id c)).
  - unfold AppendRequestBody. destruct (_ <? _); [done|].
    destruct (ParseBody_end (zdrop (header_len_ c) (rbuf_ c)) (request_ c)) as [r ->]. done.
  - intros c1 H1. by destruct (_ =? 0).
Qed.

Lemma read_round_id c s : wp alive (round_keeps c) (SimpleHttp.read_round StringToLower DealMessage c s).
Proof.
  unfold SimpleHttp.read_round. destruct (conn_status_ c); try done; [apply receive_header_id| |].
  - unfold receive_packet. destruct (0 <? _); [|apply packet_read_id].
    destruct (sys_read _ s) as [[[n|[]] d] s1]; try done. destruct (n <=? 0); [done|].
    eapply wp_mono; [|apply packet_read_id]. by intros [].
  - unfold complete, HandleMessage. destruct (DealMessage _ _) as [ops u]. eapply (alive_bind (same_id c)).
    + eapply alive_bind; [apply bad_code_alive, simple_ops_wp|]. done.
    + done.
Qed.

Lemma read_rounds_id fuel c s :
  wp alive (fun '(_, c', _) => same_id c c') (SimpleHttp.read_rounds StringToLower DealMessage fuel c s).
Proof.
  revert c s. induction fuel as [|fuel IH]; intros c s; [done|]. cbn [SimpleHttp.read_rounds].
  eapply alive_bind; [apply read_round_id|]. intros [st c1 s1|c1 s1] E; [done|].
  eapply wp_mono; [|apply IH]. intros [[? c2] ?] H2. unfold same_id in *. simpl in E. congruence.
Qed.

#[export] Instance simple_laws : ConnLaws (SimpleHTTPConn U).
Proof.
  split; try done.
  - intros c s. pose proof (read_rounds_id (rd_work (rdq s) + 3) c s) as W. simpl in *. unfold SimpleHttp.GetRequest.
    by destruct (SimpleHttp.read_rounds _ _ _ c s) as [[[? ?] ?]|].
  - intros c s. pose proof (SendReply_in c s) as W. simpl in *. destruct (SimpleHttp.SendReply c s) as [[[? c'] ?]|]; [|done].
    destruct W as [W _]. unfold keeps_in, in_part in W. by injection W as -> _ _ _ _ _ _.
Qed.
End conn.

(** * Under the event loop *)

Lemma polled_app {C} {Ops : ConnOps C} async fd l1 l2 (t t1 : server C) :
  polled async fd l1 t = Ret t1 -> interest (pink_epoll_ t1) !! fd <> None -> polled async fd (l1 ++ l2) t = polled async fd l2 t1.
Proof.
  revert t. induction l1 as [|now l1 IH]; intros t HP Hi; [by injection HP as ->|]. cbn [polled app] in *.
  destruct (interest (pink_epoll_ t) !! fd) as [[mask d]|] eqn:E.
  - destruct (HandleConnEvent async now fd mask t) as [t2|]; [|done]. cbn [obind] in *. by apply IH.
  - injection HP as ->. congruence.
Qed.

Section loop.
Context {U : Type} {SL : Slash}.
Context (StringToLower : bytes -> bytes) (DealMessage : Request -> U -> list resp_op * U).
Implicit Types (c : SimpleHTTPConn U) (t : server (SimpleHTTPConn U)).
#[local] Instance loop_ops : ConnOps (SimpleHTTPConn U) := simple_ops StringToLower DealMessage.
#[local] Instance loop_laws : ConnLaws (SimpleHTTPConn U) := simple_laws StringToLower DealMessage.

(** ** Reading *)
Section reading.
Context (h : head) (body : bytes) (R R' : Request) (wb : bytes) (wp rp : Z) (p0 : Response) (u0 : U).
Context {PS : plain_simple StringToLower DealMessage h body R R' u0}.
#[local] Abbreviation on b := (phase h body R R' b wb wp rp p0 u0).

Lemma phase_base b b' s c : on b s c -> on b' s (SimpleHttp.put_base b' c).
Proof. intros []; by constructor. Qed.

Lemma phase_has b s c : on b s c -> simple_base c = b.
Proof. by intros []. Qed.

Lemma holy_reads fd p b times s c t :
  trickle (rdq s) -> on b s c -> is_reply_ b = false -> (waits (rdq s) < length times)%nat -> At fd p (DFd fd) c s EPOLLIN t ->
  exists n t' b' c' s', (n <= S (waits (rdq s)))%nat /\ polled false fd (take n times) t = Ret t' /\
    At fd p (DFd fd) c' s' EPOLLOUT t' /\ dealt DealMessage h R' b' wb wp rp u0 c' /\
    only_reads s s' /\ data_in (rdq s') = [].
Proof.
  revert b s c t. induction times as [|now times IH]; intros b s c t Ht Hp Hr Hn HA; cbn [length] in Hn; [lia|].
  pose proof (GetRequest_leads StringToLower DealMessage h body R R' b wb wp rp p0 u0 s c Ht Hp) as HG.
  remember (SimpleHttp.GetRequest StringToLower DealMessage c s) as m eqn:E. symmetry in E.
  destruct HG as [c1 s1 Hp1 Hro Hw|c1 s1 Hd Hdi Hro].
  - pose proof (phase_has _ _ _ Hp) as Hb. pose proof (phase_has _ _ _ Hp1) as Hb1.
    destruct (holy_read_half fd p c s c1 s1 now t HA E) as (t1 & E1 & H1); [simpl; congruence|simpl; by rewrite Hb1|].
    destruct (IH (set_last_interaction now b) s1 (at_time now c1) t1) as (n & t2 & b' & c2 & s2 & Hle & HP & HA2 & Hd2 & Hro2 & Hdi2);
      [apply Hro|simpl; rewrite Hb1; by eapply phase_base|done|lia|done|].
    exists (S n), t2, b', c2, s2. split_and!; try done; [lia| |by eapply only_reads_trans].
    cbn [take polled]. rewrite (at_watch _ _ _ _ _ _ _ HA), E1. done.
  - assert (Hb : simple_base c1 = PinkConn.set_is_reply true b) by by destruct Hd.
    destruct (holy_read_all fd p c s c1 s1 now t HA E) as (t1 & E1 & H1).
    + simpl. rewrite Hb. simpl. rewrite <- (phase_has _ _ _ Hp). apply HA.
    + simpl. rewrite Hb. simpl. rewrite <- (phase_has _ _ _ Hp). apply HA.
    + simpl. by rewrite Hb.
    + exists 1%nat, t1, (set_last_interaction now b), (at_time now c1), s1. split_and!; try done; [lia| |by destruct Hd; constructor].
      cbn [take polled]. by rewrite (at_watch _ _ _ _ _ _ _ HA), E1.
Qed.
End reading.

(** ** Sending *)
Lemma holy_writes fd p times s c out t :
  carries c out -> patient (wrq s) -> zlen out <= accepting (wrq s) -> (holdups (wrq s) < length times)%nat ->
  At fd p (DFd fd) c s EPOLLOUT t ->
  exists n t' c' s', (n <= S (holdups (wrq s)))%nat /\ polled false fd (take n times) t = Ret t' /\
    At fd p (DFd fd) (SimpleHttp.set_is_reply false c') s' EPOLLIN t' /\ keeps_in c c' /\ unsent c' /\
    sent s' = sent s ++ out /\ rdq s' = rdq s.
Proof.
  revert s c out t. induction times as [|now times IH]; intros s c out t Hc Hpat Hle Hn HA; cbn [length] in Hn; [lia|].
  destruct (SimpleSendReply_spec c s out Hc) as (c0 & Hp & Hb & HS).
  remember (SimpleHttp.SendReply c s) as m eqn:E. symmetry in E. pose proof (SendReply_in c s) as HK. rewrite E in HK.
  destruct HS as [c' s' Hu Hs Hb'|c' s' Ho Hs Hb' Hl|c' s' Hs Hb' Hl]; rewrite Hp in Hs; destruct HK as [HK Hq].
  - destruct (holy_write_all fd p c s c' s' now t HA E) as (t1 & E1 & H1); [simpl; congruence|by left|].
    exists 1%nat, t1, c', s'. split_and!; try done; [lia|]. cbn [take polled]. by rewrite (at_watch _ _ _ _ _ _ _ HA), E1.
  - destruct Hl as [[Hp1 Hp2] Hh]; [split; [done|by rewrite Hp]|].
    destruct (holy_write_half fd p c s c' s' now t HA E) as (t1 & E1 & H1); [simpl; congruence|].
    destruct (IH s' c' (pending c') t1) as (n & t2 & c2 & s2 & Hn2 & HP & HA2 & HK2 & Hu2 & Hs2 & Hq2); try done; [by right|lia|].
    exists (S n), t2, c2, s2. split_and!; try done; [lia| |unfold keeps_in in *; congruence..].
    cbn [take polled]. by rewrite (at_watch _ _ _ _ _ _ _ HA), E1.
  - exfalso. apply Hl. split; [done|by rewrite Hp].
Qed.
End loop.


(** * Under the worker *)

(** C36: under the worker the answer stays in the connection. When the request of an
    idle connection is complete the worker stops waiting for it and leaves it to the
    connection to say that the reply is ready, which [SimpleHTTPConn] never does: the
    response is there, [is_reply] is true, but whatever the poller reports afterwards,
    the connection stays as it is, with nothing sent, or is closed. *)
Theorem simple_http_worker_never_replies {U} {SL : Slash} StringToLower (DealMessage : Request -> U -> list resp_op * U)
    fd p c s h body now (t : server (SimpleHTTPConn U)) (Ops := simple_ops StringToLower DealMessage) :
  complete_request StringToLower h body ->
  is_Some (sm_find (bs "host") (head_headers StringToLower h)) -> host_free StringToLower h ->
  idle c -> At fd p (DPtr p) c s EPOLLIN t ->
  trickle (rdq s) -> data_in (rdq s) = head_text h ++ body -> waits (rdq s) = 0%nat ->
  exists r, with_body body (mkReq (h_method h) (h_path h) (h_version h) (head_headers StringToLower h) (set_all (h_query h) []) [] []) r /\
    forall q, SimpleHttp.apply_ops (DealMessage r (user_ c)).1 new_Response = Ret q ->
      exists t1 c' s', conn_event now EPOLLIN p t = Ret t1 /\ At fd p (DPtr p) c' s' 0 t1 /\
        response_ c' = q /\ is_reply_ (simple_base c') = true /\ sent s' = sent s /\
        forall l, exists t2, reported fd p l t1 = Ret t2 /\
          (At fd p (DPtr p) c' s' 0 t2 \/ (interest (pink_epoll_ t2) !! fd = None /\ fds (mem t2) !! fd = None)).
Proof.
  intros HC Hhost Hfree [Hst Hbuf] HA Ht Hd Hw. set (R := mkReq _ _ _ _ _ _ _).
  destruct (ParseBody_with body R eq_refl eq_refl) as (r & HB & Hwb). exists r. split; [done|]. intros q Hq.
  destruct c as [b st buf wb wp hl rem r0 rp p0 u]. simpl in Hst, Hbuf, Hq. subst st buf.
  pose proof HC as [Ho Hl He Hf Hbf].
  assert (PS : plain_simple StringToLower DealMessage h body R r u).
  { split; try done; [|by apply no_continue|by eexists]. intros rest r1. by apply ParseHead_read. }
  set (b1 := PinkConn.set_is_partial_request true b).
  pose proof (GetRequest_leads StringToLower DealMessage h body R r b1 wb wp rp p0 u s _ Ht
    (InHeader h body R r b1 wb wp rp p0 u s [] hl rem r0 Hd ltac:(pose proof (head_text_length h); unfold zlen; simpl; lia))) as HG.
  remember (SimpleHttp.GetRequest _ _ _ s) as m eqn:E in HG. symmetry in E. destruct HG as [? ? _ _ Hw2|c1 s1 Hdl Hdi (_ & _ & Hse)]; [lia|].
  destruct Hdl as [q' Hq']. rewrite Hq in Hq'. injection Hq' as <-.
  set (c1 := mkSimple _ _ _ _ _ _ _ _ _ _ _) in E.
  pose proof (simple_laws StringToLower DealMessage) as CL.
  destruct (worker_read_all fd p _ s c1 s1 now t HA E) as (t1 & E1 & H1); [apply HA|apply HA|].
  exists t1. eexists _, s1. split; [exact E1|]. split; [exact H1|]. split_and!; try done. intros l. by apply reported_busy.
Qed.

(** * Witnesses *)

(** A thread with one connection, watched with [d]. *)
Definition one_simple (d : epoll_data) (s : sock) : server (SimpleHTTPConn (list bytes)) :=
  mkServer [(7, 1)] ∅ 60 (mkEpoll {[7 := (EPOLLIN, d)]} 3 []) None (mkWorld {[1 := new_simple]} 2 [] {[7 := mkDesc 2 s]} []).

Lemma one_simple_at d s (Ops := simple_ops lower deal) : At 7 1 d new_simple s EPOLLIN (one_simple d s).
Proof. by split. Qed.

(** The form in two pieces, and a socket that first takes nothing. *)
Definition form_socket : sock :=
  mkSock (rdq (two_pieces (head_text form_head ++ bs "a=1&b=2"))) (WrFails EAGAIN :: replicate 50 (Accepts 3)) [].


Definition form_at_once : sock := mkSock [Arrive (head_text form_head ++ bs "a=1&b=2")] (replicate 50 (Accepts 3)) [].

Lemma simple_http_worker_never_replies_witness (Ops := simple_ops lower deal) :
  exists t1 c' s', conn_event 5 EPOLLIN 1 (one_simple (DPtr 1) form_at_once) = Ret t1 /\ At 7 1 (DPtr 1) c' s' 0 t1 /\
    body_ (response_ c') = bs "a=1&b=2" /\ sent s' = [].
Proof.
  destruct (simple_http_worker_never_replies lower deal 7 1 new_simple form_at_once form_head (bs "a=1&b=2") 5
    (one_simple (DPtr 1) form_at_once)) as (r & Hwb & HF).
  - apply form_complete.
  - by eexists.
  - compute_head.
  - done.
  - apply one_simple_at.
  - apply Forall_cons; split; [left; by eexists|]. by apply Forall_nil.
  - by vm_compute.
  - done.
  - destruct Hwb as [_ _ _ _ _ Hc _]. unfold deal at 1 in HF. rewrite Hc in HF.
    destruct (HF (mkResp 200 (bs "OK") [] (bs "a=1&b=2")) eq_refl) as (t1 & c' & s' & E & HA & Hq & _ & Hs & _).
    exists t1, c', s'. split; [exact E|]. split; [exact HA|]. split; [by rewrite Hq|exact Hs].
Defined.
