(* ===== verification/SimpleHttpTyped.v ===== *)
(** The members of the simple HTTP connection stay within their types: the integers of
    the model are those of the program. *)
From S2P Require Import Pink Prelude Sys Slash StdMap PinkConn HttpConn HttpFacts HttpParse HttpTheorems.
From S2P Require Import SimpleHttp SimpleHttpFacts SimpleHttpTheorems SimpleHttpReply SimpleHttpServer.

Section typed.
Context {U : Type} {SL : Slash}.
Context (StringToLower : bytes -> bytes) (DealMessage : Request -> U -> list resp_op * U).
Implicit Types c : SimpleHTTPConn U.

(** A status and its reason, or none yet. *)
Definition status_ok (p : Response) : Prop :=
  (status_code_ p = 0 /\ reason_phrase_ p = []) \/ sm_find (status_code_ p) http_status_map = Some (reason_phrase_ p).

(** What [in_order] leaves open: [uint64_t], [uint32_t], the output array and [int]. *)
Record members_ok c : Prop := {
  ty_remain : 0 <= remain_packet_len_ c < 2 ^ 64;
  ty_header : 0 <= header_len_ c < 2 ^ 32;
  ty_out : 0 <= wbuf_pos_ c <= wbuf_len_ c /\ wbuf_len_ c <= kHTTPMaxMessage;
  ty_pos : -1 <= response_pos_ c <= INT_MAX;
  ty_status : status_ok (response_ c)
}.
Definition well_typed c : Prop := in_order c /\ members_ok c.

(** ** Reading *)

Definition any (e : fault) : Prop := True.

Lemma SetStatusCode_ok code p : wp any status_ok (SimpleHttp.SetStatusCode code p).
Proof.
  unfold SimpleHttp.SetStatusCode. destruct (valid_status code); [|done]. destruct (sm_find code _) eqn:E; [|done]. by right.
Qed.

Lemma apply_ops_ok l p : status_ok p -> wp any status_ok (SimpleHttp.apply_ops l p).
Proof.
  revert p. induction l as [|o l IH]; intros p Hp; [done|]. destruct o; cbn [SimpleHttp.apply_ops]; auto.
  apply wp_bind. eapply wp_mono; [|apply SetStatusCode_ok]. auto.
Qed.

(** What reading changes, and answering. *)
Lemma members_in st buf hlen remain r c :
  members_ok c -> 0 <= hlen < 2 ^ 32 -> 0 <= remain < 2 ^ 64 -> members_ok (put_in st buf hlen remain r c).
Proof. by intros [] ? ?. Qed.

Lemma members_reply p u c : members_ok c -> status_ok p -> members_ok (SimpleHttp.set_is_reply true (put_answer p u c)).
Proof. by intros [] ?. Qed.

Definition round_members (r : SimpleHttp.round (U:=U)) : Prop :=
  match r with SimpleHttp.Returns _ c _ => members_ok c | SimpleHttp.Again c _ => members_ok c end.

Lemma announced_u64 h : 0 <= announced h < 2 ^ 64.
Proof. unfold announced. repeat case_match; try lia; apply to_u64_range. Qed.

Lemma Build_members c : members_ok c -> wp any (fun '(_, c') => members_ok c') (BuildRequestHeader StringToLower c).
Proof.
  intros Hm. pose proof Hm as [Hr Hh _ _ _]. unfold BuildRequestHeader.
  destruct (ParseHead_end StringToLower (rbuf_ c) (header_len_ c) (Request_Clear (request_ c))) as (ok & r & ->).
  cbn [obind]. destruct ok; cbn [negb]; apply members_in; try done. destruct (_ <? _); [apply to_u64_range|apply announced_u64].
Qed.

Lemma header_members c s :
  zlen (rbuf_ c) <= kHTTPMaxHeader -> members_ok c -> wp any round_members (SimpleHttp.receive_header StringToLower c s).
Proof.
  intros Hsz Hm. pose proof Hm as [Hr Hh _ _ _]. unfold SimpleHttp.receive_header, rbuf_pos_.
  pose proof (simple_read (kHTTPMaxHeader - zlen (rbuf_ c)) s ltac:(lia)) as HR.
  destruct (sys_read _ s) as [[[n|[]] d] s1]; try done. destruct HR as (_ & _ & -> & Hle & _).
  destruct (_ <=? 0); [done|]. cbn [rbuf_ put_in]. destruct (find_sub _ _) as [sep|] eqn:Hsep; [|by apply members_in].
  apply find_sub_bound in Hsep. change (length (CRLF ++ CRLF)) with 4%nat in Hsep. pose proof (cstr_length (rbuf_ c ++ d)) as Hcl.
  rewrite length_app in Hcl. unfold zlen, kHTTPMaxHeader in *.
  apply wp_bind. eapply wp_mono; [|apply Build_members; apply members_in; [apply members_in; [done|done|done]|simpl; lia|done]].
  intros [ok c1] H1. destruct ok; cbn [negb]; [|done]. pose proof H1 as [Hr1 Hh1 _ _ _]. destruct (expects_continue _).
  - apply wp_bind. eapply wp_mono; [|apply SetStatusCode_ok]. intros p Hp.
    destruct (0 <? _); simpl; apply members_in; try done; by apply members_reply.
  - simpl. by apply members_in.
Qed.

Lemma packet_members c s : members_ok c -> wp any round_members (packet_read c s).
Proof.
  intros Hm. pose proof Hm as [Hr Hh _ _ _]. unfold packet_read. destruct (_ || _); [|done].
  apply wp_bind. unfold AppendRequestBody. destruct (_ <? _); [done|].
  destruct (ParseBody_end (zdrop (header_len_ c) (rbuf_ c)) (request_ c)) as [r ->]. cbn [obind wp].
  destruct (_ =? 0); simpl; (apply members_in; [by apply members_in|done|done]).
Qed.

Lemma round_well_typed c s :
  in_order c -> members_ok c -> wp any round_members (SimpleHttp.read_round StringToLower DealMessage c s).
Proof.
  intros Ho Hm. pose proof Hm as [Hr Hh _ _ _]. unfold SimpleHttp.read_round. destruct (conn_status_ c) eqn:E; try done.
  - apply header_members; [|done]. by apply Ho.
  - unfold receive_packet. destruct (0 <? _); [|by apply packet_members].
    destruct (sys_read _ s) as [[[n|[]] d] s1]; try done. destruct (n <=? 0); [done|].
    apply packet_members. apply members_in; [done|done|apply to_u64_range].
  - unfold complete, HandleMessage. destruct (DealMessage _ _) as [ops u]. apply wp_bind, wp_bind.
    eapply wp_mono; [|apply apply_ops_ok; by left]. intros p Hp. simpl. apply members_in; [by apply members_reply|done|done].
Qed.

Lemma rounds_well_typed fuel c s :
  in_order c -> members_ok c -> wp any (fun '(_, c', _) => members_ok c') (SimpleHttp.read_rounds StringToLower DealMessage fuel c s).
Proof.
  revert c s. induction fuel as [|fuel IH]; intros c s Ho Hm; [done|]. cbn [SimpleHttp.read_rounds]. apply wp_bind.
  pose proof (round_well_typed c s Ho Hm) as H1. pose proof (read_round_ends StringToLower DealMessage c s Ho) as H2.
  destruct (SimpleHttp.read_round _ _ c s) as [[st c1 s1|c1 s1]|]; [done| |done]. apply IH; [|done]. apply H2.
Qed.

(** ** Sending *)

(** The ways in which sending stops the program: a head that the array cannot hold,
    and a body that an [int] cannot count. *)
Definition too_long (e : fault) : Prop := e = OutOfBounds \/ e = Overflow.

Definition same_in_order c c' : Prop := in_order c -> in_order c'.

Lemma put_text_size text out size :
  0 < zlen text -> wp too_long (fun '(o, _) => zlen o <= size) (SimpleHttp.put_text text out size).
Proof.
  intros Hz. unfold SimpleHttp.put_text. destruct (Z.ltb_spec (zlen text) (size - zlen out)); [simpl; rewrite zlen_app; lia|].
  destruct (Z.eqb_spec (zlen text) (size - zlen out)) as [E|E]; [|by left]. simpl.
  rewrite !zlen_app, zlen_ztake by lia. change (zlen [NUL]) with 1. lia.
Qed.

Lemma put_lines_size l out size : zlen out <= size -> wp too_long (fun '(o, _) => zlen o <= size) (put_lines l out size).
Proof.
  revert out. induction l as [|[k v] l IH]; intros out Ho; [done|]. cbn [put_lines]. apply wp_bind.
  eapply wp_mono; [|apply put_text_size; unfold header_line; rewrite !zlen_app; change (zlen CRLF) with 2; zlen_pos; lia].
  intros [o []] H1; [done|by apply IH].
Qed.

Lemma Serialize_size size p :
  status_ok p -> wp too_long (fun '(o, p') => zlen o <= size /\ status_ok p' /\ body_ p' = body_ p) (SerializeHeaderToArray size p).
Proof.
  intros Hp. unfold SerializeHeaderToArray. apply wp_bind.
  eapply wp_mono; [|apply put_text_size; unfold status_line; rewrite !zlen_app; change (zlen CRLF) with 2; zlen_pos; lia].
  intros [o []] H1; [done|]. set (p1 := match sm_find _ _ with Some _ => p | None => _ end).
  assert (Hp1 : status_ok p1 /\ body_ p1 = body_ p) by (unfold p1; by case_match). apply wp_bind.
  eapply wp_mono; [|by apply put_lines_size]. intros [o2 []] H2; [done|]. apply wp_bind.
  eapply wp_mono; [|by apply put_text_size]. intros [o3 f] H3. done.
Qed.

(** What sending changes. *)
Lemma members_out buf pos rpos p c :
  members_ok c -> 0 <= pos <= zlen buf -> zlen buf <= kHTTPMaxMessage -> -1 <= rpos <= INT_MAX -> status_ok p ->
  members_ok (put_out buf pos rpos p c).
Proof. by intros [] ? ? ? ?. Qed.

Lemma fill_members c : members_ok c -> 0 <= response_pos_ c -> wp too_long members_ok (fill_body 1 c).
Proof.
  intros Hm Hpos. pose proof Hm as [_ _ [Hw Hs] Hp Hst]. unfold fill_body, HasMoreBody, wbuf_len_ in *.
  rewrite to_u64_id by (unfold INT_MAX in Hp; lia).
  destruct (Z.ltb_spec (response_pos_ c) (zlen (body_ (response_ c)))) as [H1|H1]; cbn [andb]; [|done].
  destruct (Z.ltb_spec (zlen (wbuf_ c)) kHTTPMaxMessage) as [H2|H2]; [|done].
  set (size := kHTTPMaxMessage - zlen (wbuf_ c)). set (pos := response_pos_ c) in *. set (body := body_ (response_ c)) in *.
  unfold SerializeBodyToArray. fold body. set (actual := if _ <? size then _ else size).
  assert (Ha : 0 < actual <= zlen body - pos /\ actual <= size /\ (actual = zlen body - pos \/ actual = size)).
  { unfold actual, size. destruct (Z.ltb_spec (zlen body - pos) (kHTTPMaxMessage - zlen (wbuf_ c))); lia. }
  destruct (Z.ltb_spec INT_MAX (pos + actual)) as [H3|H3]; [by right|]. cbn [obind put_out response_pos_ response_ wbuf_]. fold body.
  assert (Hz : zlen (ztake actual (zdrop pos body)) = actual) by (apply zlen_ztake; rewrite zlen_zdrop; lia).
  rewrite to_u64_id by (unfold INT_MAX in H3; lia). rewrite zlen_app, Hz.
  assert (Hstop : (pos + actual <? zlen body) && (zlen (wbuf_ c) + actual <? kHTTPMaxMessage) = false).
  { unfold size in *. apply andb_false_iff. destruct Ha as (_ & _ & [-> | ->]); [left|right]; apply Z.ltb_ge; lia. }
  rewrite Hstop. apply members_out; try done; rewrite ?zlen_app, ?Hz; unfold size in *; lia.
Qed.

Lemma Fill_members c : members_ok c -> wp too_long members_ok (FillResponseBuf c).
Proof.
  intros Hm. pose proof Hm as [_ _ [Hw Hs] Hp Hst]. unfold FillResponseBuf, wbuf_len_ in *. apply wp_bind.
  destruct (Z.ltb_spec (response_pos_ c) 0) as [H|H]; [|by apply fill_members]. apply wp_bind.
  eapply wp_mono; [|by apply Serialize_size]. intros [d p] (Hd & Hp1 & _). cbn [wp]. apply fill_members; [|done].
  pose proof (zlen_nonneg d). apply members_out; rewrite ?zlen_app; try done; lia.
Qed.

Lemma send_members fuel c s :
  members_ok c -> (length (wrq s) < fuel)%nat -> wp too_long (fun '(_, c', _) => members_ok c') (send_rounds fuel c s).
Proof.
  revert c s. induction fuel as [|fuel IH]; intros c s Hm Hf; [lia|]. pose proof Hm as [_ _ [Hw Hs] Hp Hst]. unfold wbuf_len_ in *.
  cbn [send_rounds]. unfold wbuf_len_ in *. destruct (Z.ltb_spec 0 (zlen (wbuf_ c))) as [Hz|Hz]; [|apply members_out; try done; lia].
  pose proof (sys_write_grants (zdrop (wbuf_pos_ c) (wbuf_ c)) s) as HG. pose proof (sys_write_prefix (zdrop (wbuf_pos_ c) (wbuf_ c)) s) as HP.
  destruct (sys_write _ s) as [[n|e] s1]; [|by destruct e]. specialize (HG _ _ eq_refl). destruct (HP _ _ eq_refl) as [[Hn _] _].
  destruct HG as [(_ & _ & ?)|[g Hg]]; [done|]. rewrite Hg in Hf. cbn [length] in Hf.
  destruct (Z.leb_spec n 0) as [Hn0|Hn0]; [done|]. rewrite zlen_zdrop in Hn by lia. destruct (_ =? _).
  - apply wp_bind. eapply wp_mono; [|apply Fill_members, members_out; done]. intros c1 H1. apply IH; [done|lia].
  - apply IH; [|lia]. apply members_out; try done; lia.
Qed.

Lemma keeps_in_order c c' : keeps_in c c' -> in_order c -> in_order c'.
Proof. unfold keeps_in, in_part. intros [= E1 E2 E3 E4 E5 E6 E7] []. by split; rewrite ?E2, ?E3, ?E6, ?E7. Qed.
End typed.

(** C35: the members keep their types, and both calls end. From a connection whose
    integers are within the types of the program ([uint32_t] positions inside the two
    arrays, the [uint64_t] length that is left, the [int] position in the body, a
    status code of the table), whatever arrives and whatever the socket takes,
    [GetRequest] and [SendReply] return with the same connection, its members within
    their types. The only ways in which they stop the program are a status code of
    the user that [SetStatusCode] does not know and, in sending, a head longer than
    the array or a body longer than an [int] counts. *)
Theorem simple_http_well_typed {U} {SL : Slash} StringToLower (DealMessage : Request -> U -> list resp_op * U)
    (c : SimpleHTTPConn U) s :
  well_typed c ->
  match SimpleHttp.GetRequest StringToLower DealMessage c s with
  | Ret (st, c', s') => well_typed c' /\ same_id c c' /\ wrq s' = wrq s /\ sent s' = sent s
  | Fault e => e = AssertFailed
  end /\
  match SimpleHttp.SendReply c s with
  | Ret (st, c', s') => well_typed c' /\ in_part c' = in_part c /\ rdq s' = rdq s
  | Fault e => e = OutOfBounds \/ e = Overflow
  end.
Proof.
  intros [Ho Hm]. split.
  - pose proof (SimpleGetRequest_ok StringToLower DealMessage c s Ho) as W.
    pose proof (rounds_well_typed StringToLower DealMessage (rd_work (rdq s) + 3) c s Ho Hm) as V. unfold SimpleHttp.GetRequest in *.
    destruct (SimpleHttp.read_rounds _ _ _ c s) as [[[st c'] s']|]; [|done]. by destruct W as (? & ? & ? & ? & _).
  - assert (W : wp too_long (fun '(_, c', _) => members_ok c') (SimpleHttp.SendReply c s)).
    { unfold SimpleHttp.SendReply. apply wp_bind. eapply wp_mono; [|by apply Fill_members]. intros c1 H1. apply send_members; [done|lia]. }
    pose proof (SendReply_in c s) as V. destruct (SimpleHttp.SendReply c s) as [[[st c'] s']|]; [|done].
    destruct V as [V1 V2]. split; [|done]. split; [by eapply keeps_in_order|done].
Qed.

Lemma simple_http_well_typed_witness :
  match SimpleHttp.GetRequest lower deal new_simple (two_pieces (head_text form_head)) with
  | Ret (st, c', s') => well_typed c'
  | Fault e => e = AssertFailed
  end /\
  match SimpleHttp.SendReply ok_conn slow_socket with
  | Ret (st, c', s') => well_typed c'
  | Fault e => e = OutOfBounds \/ e = Overflow
  end.
Proof.
  split.
  - destruct (simple_http_well_typed lower deal new_simple (two_pieces (head_text form_head))) as [W _].
    + split; split; try done; by left.
    + destruct (SimpleHttp.GetRequest _ _ _ _) as [[[st c'] s']|e]; [apply W|exact W].
  - destruct (simple_http_well_typed lower (fun r u => ([], u)) ok_conn slow_socket) as [_ W].
    + split; split; try done; [by left|by right].
    + destruct (SimpleHttp.SendReply _ _) as [[[st c'] s']|e]; [apply W|exact W].
Defined.
