(* ===== verification/PeerConns.v ===== *)
(** What [ClientThread] and [BackendThread] (pink/src/client_thread.cc,
    pink/src/backend_thread.cc) have in common: the poller, the descriptors whose
    connection is being established, how a connection is dialled, and the parts of
    an event of a connection. The two classes repeat this code. *)
From S2P Require Import Pink Prelude Sys StdMap PinkConn PinkEpoll.

(** [kConnWriteBuf] *)
Definition kConnWriteBuf : Z := 1024 * 1024 * 100.

(** [ip + ":" + std::to_string(port)] *)
Definition addr_text (ip : bytes) (port : Z) : bytes := ip ++ ":"%char :: to_string port.

(** * Dialling *)

(** What the kernel answers for one address of the host: whether there is a
    descriptor, the outcome of [connect], the local address of [getsockname], and
    the stream behind the descriptor. *)
Inductive dial_result : Type :=
  | DConnected
  | DUnreachable   (** [EHOSTUNREACH] *)
  | DInProgress    (** [EINPROGRESS], [EAGAIN], [EWOULDBLOCK] *)
  | DRefused.      (** any other [errno] *)

Record dial : Type := mkDial {
  dial_socket : bool;
  dial_connect : dial_result;
  dial_local : bytes * Z;
  dial_stream : sock
}.

(** * The state *)

(** [net] is what the next calls of [getaddrinfo] bring: it fails, or gives the
    addresses of the host. *)
Record peers (C : Type) : Type := mkPeers {
  pink_epoll_ : PinkEpoll;
  connecting_fds_ : gset Z;
  keepalive_timeout_ : Z;
  net : list (option (list dial));
  mem : world C
}.
Arguments mkPeers {C}. Arguments pink_epoll_ {C}. Arguments connecting_fds_ {C}.
Arguments keepalive_timeout_ {C}. Arguments net {C}. Arguments mem {C}.

(** How a part of the code of an event ends. *)
Inductive part : Type :=
  | Goes (should_close : bool)    (** on to the next part *)
  | Continues.                    (** [continue] *)

Section peers.
Context {C : Type} {Ops : ConnOps C}.
(** [ConnFactory::NewPinkConn] of the user: it may return no connection. *)
Context (NewPinkConn : Z -> bytes -> option C).
Implicit Types t : peers C.

Definition put_epoll (e : PinkEpoll) (t : peers C) : peers C :=
  mkPeers e (connecting_fds_ t) (keepalive_timeout_ t) (net t) (mem t).
Definition put_connecting (s : gset Z) (t : peers C) : peers C :=
  mkPeers (pink_epoll_ t) s (keepalive_timeout_ t) (net t) (mem t).
Definition put_net (n : list (option (list dial))) (t : peers C) : peers C :=
  mkPeers (pink_epoll_ t) (connecting_fds_ t) (keepalive_timeout_ t) n (mem t).
Definition put_mem (w : world C) (t : peers C) : peers C :=
  mkPeers (pink_epoll_ t) (connecting_fds_ t) (keepalive_timeout_ t) (net t) w.

Definition conn_call {R} (f : C -> sock -> outcome (R * C * sock)) (p : ptr) t : outcome (R * peers C) :=
  let! (r, w) := call f p (mem t) in
  Ret (r, put_mem w t).
Definition on_conn (f : C -> C) (p : ptr) t : outcome (peers C) :=
  let! c := deref p (mem t) in
  Ret (put_mem (set_heap (<[p := f c]> (heap (mem t))) (mem t)) t).

(** [close(fd)]: the kernel takes the descriptor out of the poller. *)
Definition close_peer (fd : Z) t : peers C :=
  put_epoll (epoll_ctl_del fd (pink_epoll_ t)).2 (put_mem (close_fd fd (mem t)) t).
Definition tell (e : handle_event) t : peers C := put_mem (log e (mem t)) t.
Definition watch (fd : Z) t : peers C :=
  put_epoll (PinkAddEvent (is_open fd (mem t)) fd (Z.lor EPOLLIN EPOLLOUT) (pink_epoll_ t)).2 t.
Definition unwatch (fd : Z) t : peers C := put_epoll (PinkDelEvent fd (pink_epoll_ t)).2 t.
Definition watch_for (fd mask : Z) t : peers C := put_epoll (PinkModEvent fd 0 mask (pink_epoll_ t)).2 t.
Definition not_connecting (fd : Z) t : peers C := put_connecting (connecting_fds_ t ∖ {[fd]}) t.

(** [SetWaitConnectOnEpoll] *)
Definition SetWaitConnectOnEpoll (fd : Z) t : peers C :=
  let t := watch fd t in put_connecting ({[fd]} ∪ connecting_fds_ t) t.

(** The head of [AddConnection] and [NewConnection]: the connection of the factory
    is made non-blocking, whatever comes of it; there has to be one. *)
Definition make_conn (ip_port : bytes) (fd : Z) t : outcome (ptr * peers C) :=
  match NewPinkConn fd ip_port with
  | None => Fault UseAfterFree
  | Some c =>
      let '(p, w) := alloc c (mem t) in
      let! (_, w) := conn_SetNonblock p w in
      Ret (p, put_mem w t)
  end.

(** [socket]: a descriptor that is not in use; it is made non-blocking. *)
Definition free_fd t : Z := fresh ({[notify_receive_fd (pink_epoll_ t)]} ∪ dom (fds (mem t)) : gset Z).
Definition open_socket (s : sock) t : Z * peers C :=
  let fd := free_fd t in
  (fd, put_mem (set_fds (<[fd := mkDesc O_NONBLOCK s]> (fds (mem t))) (mem t)) t).

(** [ProcessConnectStatus]: [so_error] is what [getsockopt] gives, [None] for -1. *)
Definition ProcessConnectStatus (mask : Z) (so_error : option Z) : Status * bool :=
  if has EPOLLERR mask || has EPOLLHUP mask then (Corruption, true)
  else match so_error with
  | None => (Corruption, true)
  | Some val => if val =? 0 then (OK, false) else (Corruption, true)
  end.

(** * The parts of an event *)

Definition connect_part (mask : Z) (so_error : option Z) (fd : Z) (p : ptr) t : outcome (bool * peers C) :=
  if bool_decide (fd ∈ connecting_fds_ t) then
    let '(s, should_close) := ProcessConnectStatus mask so_error in
    let! c := deref p (mem t) in
    let t := if bool_decide (s = OK) then t else tell (ConnectFailed (ip_port_ (conn_base c))) t in
    Ret (should_close, not_connecting fd t)
  else Ret (false, t).

Definition reply_part (now mask : Z) (should_close : bool) (fd : Z) (p : ptr) t : outcome (part * peers C) :=
  let! c := deref p (mem t) in
  if negb should_close && has EPOLLOUT mask && conn_is_reply c then
    let! (write_status, t) := conn_call conn_SendReply p t in
    let! t := on_conn (with_base (set_last_interaction now)) p t in
    match write_status with
    | kWriteAll =>
        let! t := on_conn (conn_set_is_reply false) p (watch_for fd EPOLLIN t) in
        Ret (Goes should_close, t)
    | kWriteHalf => Ret (Continues, t)
    | _ => Ret (Goes true, t)
    end
  else Ret (Goes should_close, t).

Definition request_part (now mask : Z) (should_close : bool) (p : ptr) t : outcome (part * peers C) :=
  if negb should_close && has EPOLLIN mask then
    let! (read_status, t) := conn_call conn_GetRequest p t in
    let! t := on_conn (with_base (set_last_interaction now)) p t in
    match read_status with
    | kReadAll => Ret (Goes should_close, t)
    | kReadHalf => Ret (Continues, t)
    | _ => Ret (Goes true, t)
    end
  else Ret (Goes should_close, t).

(** The parts in their order: whether the connection is to be closed. *)
Definition conn_parts (now mask : Z) (so_error : option Z) (fd : Z) (p : ptr) t : outcome (bool * peers C) :=
  let! (should_close, t) := connect_part mask so_error fd p t in
  let! (s, t) := reply_part now mask should_close fd p t in
  match s with
  | Continues => Ret (false, t)
  | Goes should_close =>
      let! (s, t) := request_part now mask should_close p t in
      match s with
      | Continues => Ret (false, t)
      | Goes should_close => Ret (has EPOLLERR mask || has EPOLLHUP mask || should_close, t)
      end
  end.

(** Messages for a connection, in order. The [WriteResp] of the library's
    connections returns 0. *)
Definition posted (msgs : list bytes) (c : C) : C := fold_left (fun c m => conn_WriteResp m c) msgs c.
Definition post (msgs : list bytes) (p : ptr) t : outcome (peers C) := on_conn (posted msgs) p t.
End peers.

(** The loop over the addresses of a host, on any state: [add] records a new
    connection, [close] is the class's [CloseFd]. The second part of the result is
    what is stored for the caller: only a connection in progress has its
    descriptor stored. *)
Section dial.
Context {C T : Type} (part_of : T -> peers C) (put_part : peers C -> T -> T).
Context (add : Z -> T -> outcome T) (close : Z -> T -> T).

Definition on_part (f : peers C -> peers C) (t : T) : T := put_part (f (part_of t)) t.

Fixpoint dial_loop (ip : bytes) (port : Z) (l : list dial) (t : T) : outcome (Status * option Z * T) :=
  match l with
  | [] => Ret (IOError, None, t)
  | d :: l =>
      if negb (dial_socket d) then dial_loop ip port l t
      else
        let '(fd, w) := open_socket (dial_stream d) (part_of t) in
        let t := put_part w t in
        match dial_connect d with
        | DUnreachable => dial_loop ip port l (close fd t)
        | DInProgress =>
            let! t := add fd t in
            Ret (OK, Some fd, on_part (SetWaitConnectOnEpoll fd) t)
        | DRefused => Ret (IOError, None, close fd t)
        | DConnected =>
            let! t := add fd t in
            let t := on_part (watch fd) t in
            if bool_decide (dial_local d = (ip, port)) then Ret (IOError, None, t) else Ret (OK, None, t)
        end
  end.

(** [getaddrinfo] and the loop. *)
Definition dial_host (ip : bytes) (port : Z) (t : T) : outcome (Status * option Z * T) :=
  match net (part_of t) with
  | [] => Ret (IOError, None, t)
  | answer :: n =>
      let t := on_part (put_net n) t in
      match answer with
      | None => Ret (IOError, None, t)
      | Some l => dial_loop ip port l t
      end
  end.
End dial.
