(* ===== verification/PeerFacts.v ===== *)
(** Facts about the part that [ClientThread] and [BackendThread] share: what an
    event leaves as it was. *)
From S2P Require Import Pink Prelude Sys StdMap PinkConn PinkEpoll PeerConns.

Section facts.
Context {C : Type} {Ops : ConnOps C} {CL : ConnLaws C}.
Implicit Types t : peers C.

Definition id_at t (p : ptr) : option (Z * bytes) := conn_id ∘ conn_base <$> heap (mem t) !! p.

(** The connections are the same, the same descriptors are open, and the same
    items wait in the pipe. *)
Record quiet t t' : Prop := {
  q_ids p : id_at t' p = id_at t p;
  q_next : next_ptr (mem t') = next_ptr (mem t);
  q_fds fd : is_Some (fds (mem t') !! fd) <-> is_Some (fds (mem t) !! fd);
  q_queue : notify_queue (pink_epoll_ t') = notify_queue (pink_epoll_ t);
  q_receive : notify_receive_fd (pink_epoll_ t') = notify_receive_fd (pink_epoll_ t);
  q_keepalive : keepalive_timeout_ t' = keepalive_timeout_ t;
  q_connecting : connecting_fds_ t' ⊆ connecting_fds_ t
}.

#[export] Instance quiet_preorder : PreOrder quiet.
Proof.
  split.
  - by split.
  - intros a b d [] []. split; [by etrans; eauto|congruence| |congruence..|set_solver].
    intros fd. by etrans; eauto.
Qed.

Lemma id_at_Some t p c : heap (mem t) !! p = Some c -> id_at t p = Some (fd_ (conn_base c), ip_port_ (conn_base c)).
Proof. unfold id_at. intros E. by rewrite E. Qed.

Lemma id_at_inv t p i : id_at t p = Some i ->
  exists c, heap (mem t) !! p = Some c /\ fd_ (conn_base c) = i.1 /\ ip_port_ (conn_base c) = i.2.
Proof. unfold id_at. intros (c & E & ->)%fmap_Some. by exists c. Qed.

Lemma deref_id t p i : id_at t p = Some i ->
  wp alive (fun c => heap (mem t) !! p = Some c /\ conn_id (conn_base c) = i) (deref p (mem t)).
Proof. unfold id_at, deref. intros (c & E & ->)%fmap_Some. by rewrite E. Qed.

(** Changes of the poller. *)
Lemma epoll_same t e :
  notify_queue e = notify_queue (pink_epoll_ t) -> notify_receive_fd e = notify_receive_fd (pink_epoll_ t) ->
  quiet t (put_epoll e t).
Proof. by split. Qed.

Lemma watch_quiet fd t : quiet t (watch fd t).
Proof. apply epoll_same; unfold PinkAddEvent, epoll_ctl_add; by repeat case_match. Qed.
Lemma watch_for_quiet fd m t : quiet t (watch_for fd m t).
Proof. apply epoll_same; unfold PinkModEvent, epoll_ctl_mod; by repeat case_match. Qed.
Lemma unwatch_quiet fd t : quiet t (unwatch fd t).
Proof. apply epoll_same; unfold PinkDelEvent, epoll_ctl_del; by repeat case_match. Qed.
Lemma not_connecting_quiet fd t : quiet t (not_connecting fd t).
Proof. split; try done. simpl. set_solver. Qed.
Lemma tell_quiet e t : quiet t (tell e t).
Proof. by split. Qed.

(** A connection that stays the same one. *)
Lemma heap_quiet p c c' t :
  heap (mem t) !! p = Some c -> conn_id (conn_base c') = conn_id (conn_base c) ->
  quiet t (put_mem (set_heap (<[p := c']> (heap (mem t))) (mem t)) t).
Proof.
  intros Hp Hid. split; try done. intros q. unfold id_at. simpl.
  destruct (decide (q = p)) as [->|Hne].
  - by rewrite lookup_insert_eq, Hp; simpl; f_equal.
  - by rewrite lookup_insert_ne by done.
Qed.

Lemma on_conn_quiet f p t :
  (forall c, conn_id (conn_base (f c)) = conn_id (conn_base c)) -> is_Some (id_at t p) ->
  wp alive (quiet t) (on_conn f p t).
Proof.
  intros Hf [i Hp]. unfold on_conn. eapply alive_bind; [by apply deref_id|]. intros c [Hc _]. simpl.
  by apply (heap_quiet p c).
Qed.

Lemma put_sock_fds fd s (w : world C) x : is_Some (fds (put_sock fd s w) !! x) <-> is_Some (fds w !! x).
Proof.
  unfold put_sock. destruct (fds w !! fd) as [d|] eqn:E; [|done]. simpl.
  destruct (decide (x = fd)) as [->|]; [rewrite lookup_insert_eq, E; by split|by rewrite lookup_insert_ne].
Qed.

Lemma conn_call_quiet {R} (f : C -> sock -> outcome (R * C * sock)) p t :
  keeps_id (fun c => conn_id (conn_base c)) f -> is_Some (id_at t p) ->
  wp alive (fun '(_, t') => quiet t t') (conn_call f p t).
Proof.
  intros Hf [i Hp]. unfold conn_call, call.
  eapply (alive_bind (fun '(_, w) => quiet t (put_mem w t))); [|by intros [r w]].
  eapply alive_bind; [by apply deref_id|]. intros c [Hc _].
  eapply alive_bind; [by apply keeps_id_wp|]. intros [[r c'] s'] Hid. simpl.
  etrans; [by apply (heap_quiet p c c')|]. set (w := set_heap _ _).
  assert (Hs : heap (put_sock (fd_ (conn_base c)) s' w) = heap w /\ next_ptr (put_sock (fd_ (conn_base c)) s' w) = next_ptr w)
    by (unfold put_sock; by case_match). destruct Hs as [H1 H2].
  split; try done; unfold id_at; simpl.
  - intros q. by rewrite H1.
  - intros x. apply (put_sock_fds _ _ w).
Qed.

Lemma quiet_id t t' p : quiet t t' -> is_Some (id_at t p) -> is_Some (id_at t' p).
Proof. intros Hq. by rewrite (q_ids _ _ Hq). Qed.

(** The parts of an event. *)
Lemma set_last_id now c : conn_id (conn_base (with_base (set_last_interaction now) c)) = conn_id (conn_base c).
Proof. by rewrite base_with_base. Qed.

Lemma connect_part_quiet mask e fd p t :
  is_Some (id_at t p) -> wp alive (fun '(_, t') => quiet t t') (connect_part mask e fd p t).
Proof.
  intros [i Hp]. unfold connect_part. case_bool_decide; [|done]. destruct (ProcessConnectStatus mask e) as [s b].
  eapply alive_bind; [by apply deref_id|]. intros c [Hc _]. simpl.
  etrans; [|apply not_connecting_quiet]. case_bool_decide; [done|apply tell_quiet].
Qed.

Lemma reply_part_quiet now mask b fd p t :
  is_Some (id_at t p) -> wp alive (fun '(_, t') => quiet t t') (reply_part now mask b fd p t).
Proof.
  intros Hp. unfold reply_part. destruct Hp as [i Hp]. eapply alive_bind; [by apply deref_id|]. intros c [Hc _].
  destruct (_ && _)%bool; [|done].
  eapply alive_bind; [by apply conn_call_quiet; [apply SendReply_id|eexists]|]. intros [st t1] H1.
  assert (Hp1 : is_Some (id_at t1 p)) by (eapply quiet_id; [exact H1|by eexists]).
  eapply alive_bind; [apply on_conn_quiet; [apply set_last_id|done]|]. intros t2 H2.
  assert (H12 : quiet t t2) by (by etrans).
  destruct st; try (exact H12).
  eapply alive_bind; [apply on_conn_quiet; [intros; apply set_is_reply_id|]|].
  - eapply quiet_id; [apply watch_for_quiet|]. by eapply quiet_id.
  - intros t3 H3. simpl. etrans; [exact H12|]. etrans; [apply watch_for_quiet|exact H3].
Qed.

Lemma request_part_quiet now mask b p t :
  is_Some (id_at t p) -> wp alive (fun '(_, t') => quiet t t') (request_part now mask b p t).
Proof.
  intros Hp. unfold request_part. destruct (_ && _)%bool; [|done].
  eapply alive_bind; [by apply conn_call_quiet; [apply GetRequest_id|]|]. intros [st t1] H1.
  eapply alive_bind; [apply on_conn_quiet; [apply set_last_id|by eapply quiet_id]|]. intros t2 H2.
  assert (H12 : quiet t t2) by (by etrans). by destruct st.
Qed.

Lemma conn_parts_quiet now mask e fd p t :
  is_Some (id_at t p) -> wp alive (fun '(_, t') => quiet t t') (conn_parts now mask e fd p t).
Proof.
  intros Hp. unfold conn_parts. eapply alive_bind; [by apply connect_part_quiet|]. intros [b t1] H1.
  eapply alive_bind; [by apply reply_part_quiet; eapply quiet_id|]. intros [[b2|] t2] H2; [|by simpl; etrans].
  assert (H12 : quiet t t2) by (by etrans).
  eapply alive_bind; [by apply request_part_quiet; eapply quiet_id|]. intros [[b3|] t3] H3; simpl; by etrans.
Qed.

Lemma post_quiet msgs p t : is_Some (id_at t p) -> wp alive (quiet t) (post msgs p t).
Proof.
  apply on_conn_quiet. intros c. unfold posted. revert c. induction msgs as [|m msgs IH]; intros c; [done|]. simpl.
  by rewrite IH, WriteResp_id.
Qed.
End facts.
