(* ===== verification/BackendThread.v ===== *)
(** [pink/include/backend_thread.h] and [pink/src/backend_thread.cc]: the thread
    that keeps outgoing connections named by their descriptors. *)
From S2P Require Import Pink Prelude Sys StdMap PinkConn PinkEpoll Cron PeerConns.

Record backend (C : Type) : Type := mkBackend {
  conns_ : stdmap Z ptr;
  to_send_ : stdmap Z (list bytes);
  peers_ : peers C
}.
Arguments mkBackend {C}. Arguments conns_ {C}. Arguments to_send_ {C}. Arguments peers_ {C}.

Section backend.
Context {C : Type} {Ops : ConnOps C}.
Context (NewPinkConn : Z -> bytes -> option C).
(** [BackendHandle::AccessHandle] of the user. *)
Context (AccessHandle : bytes -> bool).
(** Whether a [slash::Mutex] can be locked again by the thread that holds it. *)
Context (recursive : bool).
Implicit Types t : backend C.

Definition put_conns (m : stdmap Z ptr) t : backend C := mkBackend m (to_send_ t) (peers_ t).
Definition put_to_send (m : stdmap Z (list bytes)) t : backend C := mkBackend (conns_ t) m (peers_ t).
Definition put_peers (w : peers C) t : backend C := mkBackend (conns_ t) (to_send_ t) w.
Definition on_peers (f : peers C -> peers C) t : backend C := put_peers (f (peers_ t)) t.

Definition new_BackendThread (receive_fd keepalive_timeout : Z) (n : list (option (list dial))) (w : world C) : backend C :=
  mkBackend [] [] (mkPeers (new_PinkEpoll receive_fd) ∅ keepalive_timeout n w).

(** Locking [mu_], which the thread may [hold]. *)
Definition lock_mu (hold : bool) t : outcome (backend C) :=
  if hold && negb recursive then Fault Diverges else Ret t.

(** * Calls of other threads *)

Definition notify (fd : Z) (type : NotifyType) t : outcome (backend C) :=
  let! ti := new_PinkItem fd [] type in
  Ret (on_peers (fun w => PeerConns.put_epoll (Register ti true (pink_epoll_ w)).2 w) t).
Definition NotifyWrite (fd : Z) t : outcome (backend C) := notify fd kNotiWrite t.
(** The overload for an address: the descriptor is left 0, which is only ever
    standard input. Nothing calls it. *)
Definition NotifyWrite_addr (ip_port : bytes) t : outcome (backend C) :=
  let! ti := new_PinkItem 0 ip_port kNotiWrite in
  Ret (on_peers (fun w => PeerConns.put_epoll (Register ti true (pink_epoll_ w)).2 w) t).
Definition NotifyClose (fd : Z) t : outcome (backend C) := notify fd kNotiClose t.

Definition total (l : list bytes) : Z := fold_right (fun s n => zlen s + n) 0 l.

Definition Write (fd : Z) (msg : bytes) t : outcome (Status * backend C) :=
  match sm_find fd (conns_ t) with
  | None => Ret (Corruption, t)
  | Some p =>
      let! c := deref p (mem (peers_ t)) in
      if negb (AccessHandle (ip_port_ (conn_base c))) then Ret (Corruption, t)
      else
        let str_vec := default [] (sm_find fd (to_send_ t)) in
        if kConnWriteBuf <? total str_vec then Ret (Corruption, put_to_send (sm_set fd str_vec (to_send_ t)) t)
        else
          let! t := NotifyWrite fd (put_to_send (sm_set fd (str_vec ++ [msg]) (to_send_ t)) t) in
          Ret (OK, t)
  end.

Definition Close (fd : Z) t : outcome (Status * backend C) :=
  match sm_find fd (conns_ t) with
  | None => Ret (OK, t)
  | Some _ => let! t := NotifyClose fd t in Ret (OK, t)
  end.

Definition GetConn (fd : Z) t : option ptr := sm_find fd (conns_ t).

(** * Closing *)

Definition CleanUpConnRemaining (hold : bool) (fd : Z) t : outcome (backend C) :=
  let! t := lock_mu hold t in
  Ret (put_to_send (sm_erase fd (to_send_ t)) t).

(** The two overloads of [CloseFd]. *)
Definition CloseFd_conn (hold : bool) (p : ptr) t : outcome (backend C) :=
  let! c := deref p (mem (peers_ t)) in
  let fd := fd_ (conn_base c) in
  let! t := CleanUpConnRemaining hold fd (on_peers (close_peer fd) t) in
  Ret (on_peers (tell (FdClosed fd (ip_port_ (conn_base c)))) t).
Definition CloseFd_fd (hold : bool) (fd : Z) t : outcome (backend C) :=
  let! t := CleanUpConnRemaining hold fd (on_peers (close_peer fd) t) in
  Ret (on_peers (tell (FdClosed fd [])) t).

(** * Connecting *)

(** [AddConnection]: [insert] does not replace an entry. *)
Definition AddConnection (peer_ip : bytes) (peer_port fd : Z) t : outcome (backend C) :=
  let! (p, w) := make_conn NewPinkConn (addr_text peer_ip peer_port) fd (peers_ t) in
  Ret (put_conns (sm_insert fd p (conns_ t)).1 (put_peers w t)).

(** [Connect] with a place for the descriptor: the status, and what is stored there.
    The loop calls [CloseFd(int)] without [mu_]. *)
Definition close_failed (fd : Z) t : backend C :=
  on_peers (tell (FdClosed fd [])) (put_to_send (sm_erase fd (to_send_ t)) (on_peers (close_peer fd) t)).
Definition Connect (dst_ip : bytes) (dst_port : Z) t : outcome (Status * option Z * backend C) :=
  dial_host peers_ put_peers (AddConnection dst_ip dst_port) close_failed dst_ip dst_port t.

(** * The cron task *)

(** The scan over the entries [l] that [iter] has before it. An entry that is erased
    by its key while [iter] stands on it leaves [iter] without its node. *)
Fixpoint cron_scan (now : Z) (fuel : nat) (l : list (Z * ptr)) t : outcome (backend C) :=
  match fuel, l with
  | O, _ | _, [] => Ret t
  | S fuel, (fd, p) :: l =>
      let! c := deref p (mem (peers_ t)) in
      let b := conn_base c in
      if (0 <? keepalive_timeout_ (peers_ t)) && (keepalive_timeout_ (peers_ t) <? now - last_interaction_ b) then
        let t := on_peers (tell (FdTimedOut (fd_ b) (ip_port_ b))) (on_peers (close_peer (fd_ b)) (on_peers (unwatch (fd_ b)) t)) in
        let erased := bool_decide (is_Some (sm_find (fd_ b) (conns_ t))) in
        let t := on_peers (not_connecting (fd_ b)) (put_conns (sm_erase (fd_ b) (conns_ t)) t) in
        if erased && (fd_ b =? fd) then Fault UseAfterFree
        else cron_scan now fuel (filter (fun e => e.1 <> fd_ b) l) (put_conns (sm_erase fd (conns_ t)) t)
      else
        let! c := conn_TryResizeBuffer now c in
        cron_scan now fuel l (on_peers (fun w => put_mem (set_heap (<[p := c]> (heap (mem w))) (mem w)) w) t)
  end.

Definition DoCronTask (now : Z) t : outcome (backend C) := cron_scan now (length (conns_ t)) (conns_ t) t.

(** * Notifications *)

(** One item; [mu_] is held. *)
Definition handle_item (ti : PinkItem) t : outcome (backend C) :=
  let fd := item_fd ti in
  match item_notify_type ti with
  | kNotiWrite =>
      match sm_find fd (conns_ t) with
      | None => Ret t
      | Some p =>
          let t := on_peers (watch_for fd (Z.lor EPOLLOUT EPOLLIN)) t in
          match sm_find fd (to_send_ t) with
          | None => Ret t
          | Some msgs =>
              let! w := post msgs p (peers_ t) in
              Ret (put_to_send (sm_erase fd (to_send_ t)) (put_peers w t))
          end
      end
  | kNotiClose =>
      let! t := CloseFd_fd true fd (on_peers (unwatch fd) t) in
      Ret (on_peers (not_connecting fd) (put_conns (sm_erase fd (conns_ t)) t))
  | _ => Ret t
  end.

Fixpoint handle_items (l : list PinkItem) t : outcome (backend C) :=
  match l with
  | [] => Ret t
  | ti :: l => let! t := handle_item ti t in handle_items l t
  end.

Definition ProcessNotifyEvents (mask : Z) t : outcome (backend C) :=
  if negb (has EPOLLIN mask) then Ret t
  else
    let '(items, e) := read_items 64 (pink_epoll_ (peers_ t)) in
    if bool_decide (items = []) then Fault AssertFailed
    else handle_items items (on_peers (PeerConns.put_epoll e) t).

(** * The loop *)

Definition conn_event (now fd mask : Z) (so_error : option Z) t : outcome (backend C) :=
  match sm_find fd (conns_ t) with
  | None => Ret (on_peers (unwatch fd) t)
  | Some p =>
      let! (close, w) := conn_parts now mask so_error fd p (peers_ t) in
      let t := put_peers w t in
      if close then
        let! c := deref p (mem (peers_ t)) in
        let! t := CloseFd_conn false p (on_peers (unwatch fd) t) in
        Ret (on_peers (not_connecting (fd_ (conn_base c))) (put_conns (sm_erase fd (conns_ t)) t))
      else Ret t
  end.

(** A fired event: descriptor, mask, and what [getsockopt] would give. *)
Definition handle_event_of (now : Z) (ev : Z * Z * option Z) t : outcome (backend C) :=
  let '(fd, mask, so_error) := ev in
  if fd =? notify_receive_fd (pink_epoll_ (peers_ t)) then ProcessNotifyEvents mask t
  else conn_event now fd mask so_error t.

Fixpoint handle_events (now : Z) (evs : list (Z * Z * option Z)) t : outcome (backend C) :=
  match evs with
  | [] => Ret t
  | ev :: evs => let! t := handle_event_of now ev t in handle_events now evs t
  end.

(** An iteration of [ThreadMain] at time [tm]: [evs] is what [PinkPoll] reports. *)
Definition iteration (cron_interval_ : Z) (tm : timeval) (evs : list (Z * Z * option Z)) (k : clock) t
    : outcome (clock * backend C) :=
  let '(fires, k) := cron_head cron_interval_ tm k in
  let! t := if fires then DoCronTask (tv_sec tm) t else Ret t in
  let! t := handle_events (tv_sec (c_now k)) evs t in
  Ret (k, t).

(** The iterations of [ThreadMain] until [should_stop()]: the time of each, and
    what the poller reports. *)
Fixpoint iterations (cron_interval_ : Z) (rounds : list (timeval * list (Z * Z * option Z))) (k : clock) t
    : outcome (clock * backend C) :=
  match rounds with
  | [] => Ret (k, t)
  | (tm, evs) :: rounds =>
      let! (k, t) := iteration cron_interval_ tm evs k t in iterations cron_interval_ rounds k t
  end.

Definition ThreadMain (cron_interval_ : Z) (start : timeval) (rounds : list (timeval * list (Z * Z * option Z))) t
    : outcome (backend C) :=
  let! (_, t) := iterations cron_interval_ rounds (start_clock cron_interval_ start) t in
  Ret t.
End backend.
