(* ===== verification/ClientThread.v ===== *)
(** [pink/include/client_thread.h] and [pink/src/client_thread.cc]: the thread that
    keeps outgoing connections named by their addresses, and dials an address when
    there is a message for it. *)
From S2P Require Import Pink Prelude Sys StdMap PinkConn PinkEpoll Cron PeerConns.

Record client (C : Type) : Type := mkClient {
  fd_conns_ : stdmap Z ptr;
  ipport_conns_ : stdmap bytes ptr;
  to_send_ : stdmap bytes (list bytes);
  to_del_ : list bytes;
  peers_ : peers C
}.
Arguments mkClient {C}. Arguments fd_conns_ {C}. Arguments ipport_conns_ {C}.
Arguments to_send_ {C}. Arguments to_del_ {C}. Arguments peers_ {C}.

Section client.
Context {C : Type} {Ops : ConnOps C}.
Context (NewPinkConn : Z -> bytes -> option C).
(** [ClientHandle::AccessHandle] of the user and [slash::ParseIpPortString]. *)
Context (AccessHandle : bytes -> bool).
Context (ParseIpPortString : bytes -> option (bytes * Z)).
Implicit Types t : client C.

Definition put_fd_conns (m : stdmap Z ptr) t : client C :=
  mkClient m (ipport_conns_ t) (to_send_ t) (to_del_ t) (peers_ t).
Definition put_ipport_conns (m : stdmap bytes ptr) t : client C :=
  mkClient (fd_conns_ t) m (to_send_ t) (to_del_ t) (peers_ t).
Definition put_to_send (m : stdmap bytes (list bytes)) t : client C :=
  mkClient (fd_conns_ t) (ipport_conns_ t) m (to_del_ t) (peers_ t).
Definition put_to_del (l : list bytes) t : client C :=
  mkClient (fd_conns_ t) (ipport_conns_ t) (to_send_ t) l (peers_ t).
Definition put_peers (w : peers C) t : client C :=
  mkClient (fd_conns_ t) (ipport_conns_ t) (to_send_ t) (to_del_ t) w.
Definition on_peers (f : peers C -> peers C) t : client C := put_peers (f (peers_ t)) t.

Definition new_ClientThread (receive_fd keepalive_timeout : Z) (n : list (option (list dial))) (w : world C) : client C :=
  mkClient [] [] [] [] (mkPeers (new_PinkEpoll receive_fd) ∅ keepalive_timeout n w).

(** * Calls of other threads *)

Definition NotifyWrite (ip_port : bytes) t : outcome (client C) :=
  let! ti := new_PinkItem 0 ip_port kNotiWrite in
  Ret (on_peers (fun w => PeerConns.put_epoll (Register ti true (pink_epoll_ w)).2 w) t).

Definition total (l : list bytes) : Z := fold_right (fun s n => zlen s + n) 0 l.

Definition Write (ip : bytes) (port : Z) (msg : bytes) t : outcome (Status * client C) :=
  let ip_port := addr_text ip port in
  if negb (AccessHandle ip_port) then Ret (Corruption, t)
  else
    let str_vec := default [] (sm_find ip_port (to_send_ t)) in
    if kConnWriteBuf <? total str_vec then Ret (Corruption, put_to_send (sm_set ip_port str_vec (to_send_ t)) t)
    else
      let! t := NotifyWrite ip_port (put_to_send (sm_set ip_port (str_vec ++ [msg]) (to_send_ t)) t) in
      Ret (OK, t).

Definition Close (ip : bytes) (port : Z) t : Status * client C := (OK, put_to_del (to_del_ t ++ [addr_text ip port]) t).

(** * Closing *)

Definition CleanUpConnRemaining (ip_port : bytes) t : client C := put_to_send (sm_erase ip_port (to_send_ t)) t.

(** The two overloads of [CloseFd]. *)
Definition CloseFd_addr (fd : Z) (ip_port : bytes) t : client C :=
  on_peers (tell (FdClosed fd ip_port)) (CleanUpConnRemaining ip_port (on_peers (close_peer fd) t)).
Definition CloseFd_conn (p : ptr) t : outcome (client C) :=
  let! c := deref p (mem (peers_ t)) in
  Ret (CloseFd_addr (fd_ (conn_base c)) (ip_port_ (conn_base c)) t).

(** * Connecting *)

(** [NewConnection]: [insert] does not replace an entry. *)
Definition NewConnection (peer_ip : bytes) (peer_port fd : Z) t : outcome (client C) :=
  let ip_port := addr_text peer_ip peer_port in
  let! (p, w) := make_conn NewPinkConn ip_port fd (peers_ t) in
  let t := put_fd_conns (sm_insert fd p (fd_conns_ t)).1 (put_peers w t) in
  Ret (put_ipport_conns (sm_insert ip_port p (ipport_conns_ t)).1 t).

Definition ScheduleConnect (dst_ip : bytes) (dst_port : Z) t : outcome (Status * client C) :=
  let! (s, _, t) := dial_host peers_ put_peers (NewConnection dst_ip dst_port)
    (fun fd => CloseFd_addr fd (addr_text dst_ip dst_port)) dst_ip dst_port t in
  Ret (s, t).

(** * The cron task *)

(** The scan of the connections; [iter] erases its own entry. *)
Fixpoint cron_scan (now : Z) (l : list (Z * ptr)) t : outcome (client C) :=
  match l with
  | [] => Ret t
  | (fd, p) :: l =>
      let! c := deref p (mem (peers_ t)) in
      let b := conn_base c in
      if (0 <? keepalive_timeout_ (peers_ t)) && (keepalive_timeout_ (peers_ t) <? now - last_interaction_ b) then
        let t := on_peers (tell (FdTimedOut (fd_ b) (ip_port_ b))) (on_peers (close_peer (fd_ b)) (on_peers (unwatch (fd_ b)) t)) in
        let t := on_peers (not_connecting (fd_ b)) (put_ipport_conns (sm_erase (ip_port_ b) (ipport_conns_ t)) t) in
        cron_scan now l (put_fd_conns (sm_erase fd (fd_conns_ t)) t)
      else
        let! c := conn_TryResizeBuffer now c in
        cron_scan now l (on_peers (fun w => put_mem (set_heap (<[p := c]> (heap (mem w))) (mem w)) w) t)
  end.

(** The addresses that [Close] was called for. *)
Fixpoint delete_conns (l : list bytes) t : outcome (client C) :=
  match l with
  | [] => Ret t
  | conn_name :: l =>
      match sm_find conn_name (ipport_conns_ t) with
      | None => delete_conns l t
      | Some p =>
          let! c := deref p (mem (peers_ t)) in
          let fd := fd_ (conn_base c) in
          let! t := CloseFd_conn p (on_peers (unwatch fd) t) in
          let t := put_fd_conns (sm_erase fd (fd_conns_ t)) t in
          let t := put_ipport_conns (sm_erase conn_name (ipport_conns_ t)) t in
          delete_conns l (on_peers (not_connecting fd) t)
      end
  end.

Definition DoCronTask (now : Z) t : outcome (client C) :=
  let! t := cron_scan now (fd_conns_ t) t in
  delete_conns (to_del_ t) (put_to_del [] t).

(** * Notifications *)

(** The messages of an address go to its connection. [ipport_conns_[ip_port]] of
    an address without one is a null pointer. *)
Definition deliver (ip_port : bytes) t : outcome (client C) :=
  match sm_find ip_port (to_send_ t) with
  | None => Ret t
  | Some msgs =>
      let! t :=
        match msgs, sm_find ip_port (ipport_conns_ t) with
        | [], _ => Ret t
        | _ :: _, None => Fault UseAfterFree
        | _ :: _, Some p => let! w := post msgs p (peers_ t) in Ret (put_peers w t)
        end in
      Ret (put_to_send (sm_erase ip_port (to_send_ t)) t)
  end.

Definition handle_item (ti : PinkItem) t : outcome (client C) :=
  let a := ip_port ti in
  let fd := item_fd ti in
  match item_notify_type ti with
  | kNotiWrite =>
      match sm_find a (ipport_conns_ t) with
      | None =>
          match ParseIpPortString a with
          | None => Ret t
          | Some (ip, port) =>
              let! (s, t) := ScheduleConnect ip port t in
              if bool_decide (s = OK) then deliver a t
              else Ret (on_peers (tell (ConnectFailed (addr_text ip port))) t)
          end
      | Some p =>
          let! c := deref p (mem (peers_ t)) in
          deliver a (on_peers (watch_for (fd_ (conn_base c)) (Z.lor EPOLLOUT EPOLLIN)) t)
      end
  | kNotiClose =>
      let t := CloseFd_addr fd a (on_peers (unwatch fd) t) in
      let t := put_fd_conns (sm_erase fd (fd_conns_ t)) t in
      let t := put_ipport_conns (sm_erase a (ipport_conns_ t)) t in
      Ret (on_peers (not_connecting fd) t)
  | _ => Ret t
  end.

Fixpoint handle_items (l : list PinkItem) t : outcome (client C) :=
  match l with
  | [] => Ret t
  | ti :: l => let! t := handle_item ti t in handle_items l t
  end.

Definition ProcessNotifyEvents (mask : Z) t : outcome (client C) :=
  if negb (has EPOLLIN mask) then Ret t
  else
    let '(items, e) := read_items 64 (pink_epoll_ (peers_ t)) in
    if bool_decide (items = []) then Fault AssertFailed
    else handle_items items (on_peers (PeerConns.put_epoll e) t).

(** * The loop *)

Definition conn_event (now fd mask : Z) (so_error : option Z) t : outcome (client C) :=
  match sm_find fd (fd_conns_ t) with
  | None => Ret (on_peers (unwatch fd) t)
  | Some p =>
      let! (close, w) := conn_parts now mask so_error fd p (peers_ t) in
      let t := put_peers w t in
      if close then
        let! c := deref p (mem (peers_ t)) in
        let! t := CloseFd_conn p (on_peers (unwatch fd) t) in
        let t := put_fd_conns (sm_erase fd (fd_conns_ t)) t in
        let t := put_ipport_conns (sm_erase (ip_port_ (conn_base c)) (ipport_conns_ t)) t in
        Ret (on_peers (not_connecting (fd_ (conn_base c))) t)
      else Ret t
  end.

(** A fired event: descriptor, mask, and what [getsockopt] would give. *)
Definition handle_event_of (now : Z) (ev : Z * Z * option Z) t : outcome (client C) :=
  let '(fd, mask, so_error) := ev in
  if fd =? notify_receive_fd (pink_epoll_ (peers_ t)) then ProcessNotifyEvents mask t
  else conn_event now fd mask so_error t.

Fixpoint handle_events (now : Z) (evs : list (Z * Z * option Z)) t : outcome (client C) :=
  match evs with
  | [] => Ret t
  | ev :: evs => let! t := handle_event_of now ev t in handle_events now evs t
  end.

(** An iteration of [ThreadMain] at time [tm]: [evs] is what [PinkPoll] reports. *)
Definition iteration (cron_interval_ : Z) (tm : timeval) (evs : list (Z * Z * option Z)) (k : clock) t
    : outcome (clock * client C) :=
  let '(fires, k) := cron_head cron_interval_ tm k in
  let! t := if fires then DoCronTask (tv_sec tm) t else Ret t in
  let! t := handle_events (tv_sec (c_now k)) evs t in
  Ret (k, t).

(** The iterations of [ThreadMain] until [should_stop()]: the time of each, and
    what the poller reports. *)
Fixpoint iterations (cron_interval_ : Z) (rounds : list (timeval * list (Z * Z * option Z))) (k : clock) t
    : outcome (clock * client C) :=
  match rounds with
  | [] => Ret (k, t)
  | (tm, evs) :: rounds =>
      let! (k, t) := iteration cron_interval_ tm evs k t in iterations cron_interval_ rounds k t
  end.

Definition ThreadMain (cron_interval_ : Z) (start : timeval) (rounds : list (timeval * list (Z * Z * option Z))) t
    : outcome (client C) :=
  let! (_, t) := iterations cron_interval_ rounds (start_clock cron_interval_ start) t in
  Ret t.
End client.
