(* ===== verification/ClientFacts.v ===== *)
(** The invariant of [ClientThread]: its two tables name the same connections. *)
From S2P Require Import Pink Prelude Sys StdMap PinkConn PinkEpoll Cron PeerConns PeerFacts ClientThread.

Section facts.
Context {C : Type} {Ops : ConnOps C} {CL : ConnLaws C}.
Implicit Types w : peers C.

(** Both tables lead to the same connections, each under its own descriptor, which
    is open, and its own address. *)
Record agreeing (fdm : stdmap Z ptr) (ipm : stdmap bytes ptr) w : Prop := {
  ag_fds : sm_sorted fdm;
  ag_ips : sm_sorted ipm;
  ag_fd fd p : sm_find fd fdm = Some p -> exists a, id_at w p = Some (fd, a) /\ sm_find a ipm = Some p;
  ag_ip a p : sm_find a ipm = Some p -> exists fd, id_at w p = Some (fd, a) /\ sm_find fd fdm = Some p;
  ag_open fd : is_Some (sm_find fd fdm) -> is_Some (fds (mem w) !! fd);
  ag_connecting fd : fd ∈ connecting_fds_ w -> is_Some (sm_find fd fdm);
  ag_next p : is_Some (id_at w p) -> p < next_ptr (mem w)
}.
Definition agree (t : client C) : Prop := agreeing (fd_conns_ t) (ipport_conns_ t) (peers_ t).

(** The same connections, and no descriptor of theirs closed. *)
Lemma agreeing_keep fdm ipm w w' :
  agreeing fdm ipm w -> (forall p, id_at w' p = id_at w p) -> next_ptr (mem w') = next_ptr (mem w) ->
  connecting_fds_ w' ⊆ connecting_fds_ w ->
  (forall fd, is_Some (sm_find fd fdm) -> is_Some (fds (mem w) !! fd) -> is_Some (fds (mem w') !! fd)) ->
  agreeing fdm ipm w'.
Proof.
  intros [Hf Hi Hfd Hip Ho Hc Hn] Hid Hnx Hcn Hop. split; try done.
  - intros fd p E. rewrite Hid. by apply Hfd.
  - intros a p E. rewrite Hid. by apply Hip.
  - intros fd E. auto.
  - intros fd E. apply Hc. set_solver.
  - intros p. rewrite Hid, Hnx. apply Hn.
Qed.

Lemma agreeing_quiet fdm ipm w w' : agreeing fdm ipm w -> quiet w w' -> agreeing fdm ipm w'.
Proof. intros Ha [H1 H2 H3 _ _ _ H4]. apply (agreeing_keep _ _ w); try done. intros fd _. by apply H3. Qed.

(** A descriptor is closed, nothing else changes. *)
Record closes (fd : Z) w w' : Prop := {
  cl_ids p : id_at w' p = id_at w p;
  cl_next : next_ptr (mem w') = next_ptr (mem w);
  cl_fds x : is_Some (fds (mem w') !! x) <-> x <> fd /\ is_Some (fds (mem w) !! x);
  cl_queue : notify_queue (pink_epoll_ w') = notify_queue (pink_epoll_ w);
  cl_connecting : connecting_fds_ w' ⊆ connecting_fds_ w
}.

Lemma close_peer_closes fd w : closes fd w (close_peer fd w).
Proof.
  split; try done; unfold close_peer, epoll_ctl_del; try (by case_match).
  intros x. simpl. destruct (decide (x = fd)) as [->|Hne].
  - rewrite lookup_delete_eq. by split; intros [].
  - rewrite lookup_delete_ne by done. split; [done|by intros []].
Qed.

Lemma quiet_closes fd a b d : quiet a b -> closes fd b d -> closes fd a d.
Proof.
  intros [H1 H2 H3 H4 _ _ H5] [K1 K2 K3 K4 K5]. split; [|congruence| |congruence|set_solver].
  - intros p. by rewrite K1.
  - intros x. by rewrite K3, H3.
Qed.

Lemma closes_quiet fd a b d : closes fd a b -> quiet b d -> closes fd a d.
Proof.
  intros [K1 K2 K3 K4 K5] [H1 H2 H3 H4 _ _ H5]. split; [|congruence| |congruence|set_solver].
  - intros p. by rewrite H1.
  - intros x. by rewrite H3, K3.
Qed.

Lemma agreeing_remove fdm ipm w w' fd a p :
  agreeing fdm ipm w -> sm_find fd fdm = Some p -> id_at w p = Some (fd, a) -> closes fd w w' ->
  agreeing (sm_erase fd fdm) (sm_erase a ipm) (not_connecting fd w').
Proof.
  intros [Hf Hi Hfd Hip Ho Hc Hn] Hp Hid [K1 K2 K3 _ K5].
  assert (Hother : forall x q, sm_find x (sm_erase fd fdm) = Some q -> x <> fd /\ sm_find x fdm = Some q).
  { intros x q E. destruct (decide (x = fd)) as [->|Hne]; [by rewrite sm_find_erase_eq in E|].
    by rewrite sm_find_erase_ne in E. }
  assert (Hother2 : forall x q, sm_find x (sm_erase a ipm) = Some q -> x <> a /\ sm_find x ipm = Some q).
  { intros x q E. destruct (decide (x = a)) as [->|Hne]; [by rewrite sm_find_erase_eq in E|].
    by rewrite sm_find_erase_ne in E. }
  split.
  - by apply sm_erase_sorted.
  - by apply sm_erase_sorted.
  - intros x q E. destruct (Hother _ _ E) as [Hne E2]. destruct (Hfd _ _ E2) as (b & Hq & Hb).
    exists b. split; [by rewrite <- Hq; apply K1|]. rewrite sm_find_erase_ne; [done|done|].
    intros ->. destruct (Hip _ _ Hb) as (y & Hy & Hyp). destruct (Hfd _ _ Hp) as (a' & Ha' & Hap).
    rewrite Hid in Ha'. injection Ha' as <-. rewrite Hb in Hap. congruence.
  - intros b q E. destruct (Hother2 _ _ E) as [Hne E2]. destruct (Hip _ _ E2) as (x & Hq & Hx).
    exists x. split; [by rewrite <- Hq; apply K1|]. rewrite sm_find_erase_ne; [done|done|].
    intros ->. rewrite Hp in Hx. injection Hx as <-. rewrite Hid in Hq. congruence.
  - intros x [q E]. destruct (Hother _ _ E) as [Hne E2]. simpl. apply K3. split; [done|]. apply Ho. by eexists.
  - intros x E. simpl in E. assert (x <> fd /\ x ∈ connecting_fds_ w) as [Hne E2] by set_solver.
    rewrite sm_find_erase_ne by done. by apply Hc.
  - intros q E. simpl in *. rewrite K2. apply Hn. rewrite <- K1. exact E.
Qed.

(** A new connection. *)
Record opens (fd : Z) (a : bytes) w w' : Prop := {
  op_new : id_at w' (next_ptr (mem w)) = Some (fd, a);
  op_ids p : p <> next_ptr (mem w) -> id_at w' p = id_at w p;
  op_next : next_ptr (mem w') = next_ptr (mem w) + 1;
  op_fds x : is_Some (fds (mem w') !! x) <-> is_Some (fds (mem w) !! x);
  op_queue : notify_queue (pink_epoll_ w') = notify_queue (pink_epoll_ w);
  op_connecting : connecting_fds_ w' = connecting_fds_ w
}.

Lemma agreeing_add fdm ipm w w' fd a :
  agreeing fdm ipm w -> sm_find fd fdm = None -> sm_find a ipm = None -> is_Some (fds (mem w) !! fd) -> opens fd a w w' ->
  agreeing (sm_set fd (next_ptr (mem w)) fdm) (sm_set a (next_ptr (mem w)) ipm) w'.
Proof.
  intros [Hf Hi Hfd Hip Ho Hc Hn] Hnf Hna Hop [N1 N2 N3 N4 _ N5]. set (p := next_ptr (mem w)) in *.
  assert (Hold : forall q i, id_at w q = Some i -> id_at w' q = Some i).
  { intros q i E. rewrite N2; [done|]. intros ->. assert (p < p); [|lia]. apply Hn. by eexists. }
  split.
  - by apply sm_set_sorted.
  - by apply sm_set_sorted.
  - intros x q. destruct (decide (x = fd)) as [->|Hne].
    + rewrite sm_find_set_eq. intros [= <-]. exists a. by rewrite sm_find_set_eq.
    + rewrite sm_find_set_ne by done. intros E. destruct (Hfd _ _ E) as (b & Hq & Hb). exists b.
      split; [by apply Hold|]. rewrite sm_find_set_ne; [done|]. intros ->. by rewrite Hna in Hb.
  - intros b q. destruct (decide (b = a)) as [->|Hne].
    + rewrite sm_find_set_eq. intros [= <-]. exists fd. by rewrite sm_find_set_eq.
    + rewrite sm_find_set_ne by done. intros E. destruct (Hip _ _ E) as (x & Hq & Hx). exists x.
      split; [by apply Hold|]. rewrite sm_find_set_ne; [done|]. intros ->. by rewrite Hnf in Hx.
  - intros x E. apply N4. destruct (decide (x = fd)) as [->|Hne]; [done|].
    rewrite sm_find_set_ne in E by done. by apply Ho.
  - intros x E. destruct (decide (x = fd)) as [->|Hne]; [by rewrite sm_find_set_eq|].
    rewrite sm_find_set_ne by done. apply Hc. by rewrite <- N5.
  - intros q E. rewrite N3. destruct (decide (q = p)) as [->|Hne]; [lia|].
    rewrite N2 in E by done. pose proof (Hn q E). lia.
Qed.

End facts.

Section factory.
Context {C : Type} {Ops : ConnOps C} {CL : ConnLaws C}.
Context (NewPinkConn : Z -> bytes -> option C).
Implicit Types w : peers C.

(** The user's factory makes a connection of the descriptor and the address. *)
Definition factory_ok : Prop :=
  forall fd a, exists c, NewPinkConn fd a = Some c /\ conn_id (conn_base c) = (fd, a).

Lemma make_conn_opens fd a w :
  factory_ok -> is_Some (fds (mem w) !! fd) ->
  wp alive (fun '(p, w') => p = next_ptr (mem w) /\ opens fd a w w') (make_conn NewPinkConn a fd w).
Proof.
  intros Hfac [d Hd]. unfold make_conn. destruct (Hfac fd a) as (c & -> & Hid). injection Hid as Hcf Hca.
  unfold alloc, conn_SetNonblock, deref. cbn [heap]. rewrite lookup_insert_eq. cbn [obind].
  unfold Setnonblocking. cbn [fds]. rewrite Hcf, Hd. unfold modify, deref. cbn [heap set_fds].
  rewrite lookup_insert_eq. cbn [obind]. simpl. split; [done|]. split; simpl.
  - unfold id_at. simpl. rewrite lookup_insert_eq. simpl. f_equal. unfold conn_id. rewrite base_with_base. simpl.
    by rewrite Hcf, Hca.
  - intros q Hne. unfold id_at. simpl. by rewrite !lookup_insert_ne by done.
  - done.
  - intros x. destruct (decide (x = fd)) as [->|Hne]; [rewrite lookup_insert_eq, Hd; by split|].
    by rewrite lookup_insert_ne.
  - done.
  - done.
Qed.
End factory.
