(* ===== verification/ClientInvariant.v ===== *)
(** Every operation of [ClientThread] keeps its tables in agreement, and follows no
    pointer that leads nowhere. *)
From S2P Require Import Pink Prelude Sys StdMap PinkConn PinkEpoll Cron PeerConns PeerFacts ClientThread ClientFacts.

Section invariant.
Context {C : Type} {Ops : ConnOps C} {CL : ConnLaws C}.
Implicit Types t : client C.

Definition items_of t : list PinkItem := notify_queue (pink_epoll_ (peers_ t)).

(** The tables agree, and the pipe is untouched. *)
Definition stays t t' : Prop := agree t' /\ items_of t' = items_of t.

Lemma stays_trans a b d : stays a b -> stays b d -> stays a d.
Proof. intros [? H1] [? H2]. split; [done|congruence]. Qed.

Lemma stays_quiet t w : agree t -> quiet (peers_ t) w -> stays t (put_peers w t).
Proof. intros Ha Hq. split; [by eapply agreeing_quiet|]. apply Hq. Qed.

(** A connection of the tables. *)
Lemma agree_fd t fd p : agree t -> sm_find fd (fd_conns_ t) = Some p ->
  exists c a, heap (mem (peers_ t)) !! p = Some c /\ conn_id (conn_base c) = (fd, a) /\
    id_at (peers_ t) p = Some (fd, a) /\ sm_find a (ipport_conns_ t) = Some p.
Proof.
  intros Ha Hp. destruct (ag_fd _ _ _ Ha _ _ Hp) as (a & Hid & Hip).
  destruct (id_at_inv _ _ _ Hid) as (c & Hc & Hf & Hi). exists c, a. split_and!; try done.
  unfold conn_id. by rewrite Hf, Hi.
Qed.

Lemma agree_ip t a p : agree t -> sm_find a (ipport_conns_ t) = Some p ->
  exists c fd, heap (mem (peers_ t)) !! p = Some c /\ conn_id (conn_base c) = (fd, a) /\
    id_at (peers_ t) p = Some (fd, a) /\ sm_find fd (fd_conns_ t) = Some p.
Proof.
  intros Ha Hp. destruct (ag_ip _ _ _ Ha _ _ Hp) as (fd & Hid & Hfd).
  destruct (id_at_inv _ _ _ Hid) as (c & Hc & Hf & Hi). exists c, fd. split_and!; try done.
  unfold conn_id. by rewrite Hf, Hi.
Qed.

Lemma deref_heap p c (w : world C) : heap w !! p = Some c -> deref p w = Ret c.
Proof. unfold deref. by intros ->. Qed.

(** Taking it out of both. *)
Definition removed (fd : Z) (a : bytes) (w : peers C) (s : stdmap bytes (list bytes)) (d : list bytes) t : client C :=
  mkClient (sm_erase fd (fd_conns_ t)) (sm_erase a (ipport_conns_ t)) s d (not_connecting fd w).

Lemma removed_stays t fd a p w s d :
  agree t -> sm_find fd (fd_conns_ t) = Some p -> id_at (peers_ t) p = Some (fd, a) -> closes fd (peers_ t) w ->
  stays t (removed fd a w s d t).
Proof. intros Ha Hp Hid Hc. split; [by eapply agreeing_remove|]. apply Hc. Qed.

Lemma shut_closes fd e (w : peers C) : closes fd w (tell e (close_peer fd (unwatch fd w))).
Proof.
  apply (closes_quiet fd w (close_peer fd (unwatch fd w))); [|apply tell_quiet].
  apply (quiet_closes fd w (unwatch fd w)); [apply unwatch_quiet|apply close_peer_closes].
Qed.

(** * The cron task *)

Lemma cron_scan_stays now l t :
  agree t -> (forall k q, (k, q) ∈ l -> sm_find k (fd_conns_ t) = Some q) -> NoDup (map fst l) ->
  wp alive (stays t) (cron_scan now l t).
Proof.
  revert t. induction l as [|[fd p] l IH]; intros t Ha Hl Hnd; [by split|]. cbn [cron_scan].
  assert (Hp : sm_find fd (fd_conns_ t) = Some p) by (apply Hl, elem_of_cons; by left).
  destruct (agree_fd t fd p Ha Hp) as (c & a & Hc & Hid & Hida & Hip).
  rewrite (deref_heap _ _ _ Hc). cbn [obind]. injection Hid as Hcf Hca. rewrite Hcf, Hca.
  change (NoDup (fd :: map fst l)) in Hnd. apply NoDup_cons in Hnd as [Hni Hnd].
  destruct (_ && _)%bool.
  - set (w := tell (FdTimedOut fd a) (close_peer fd (unwatch fd (peers_ t)))).
    change (wp alive (stays t) (cron_scan now l (removed fd a w (to_send_ t) (to_del_ t) t))).
    assert (Hst : stays t (removed fd a w (to_send_ t) (to_del_ t) t)).
    { eapply removed_stays; [done|exact Hp|done|apply shut_closes]. }
    eapply wp_mono; [intros t'; by apply stays_trans|]. apply IH; [apply Hst| |done].
    intros k q Hin. simpl. rewrite sm_find_erase_ne; [apply Hl, elem_of_cons; by right|apply Ha|].
    intros ->. apply Hni. apply list_elem_of_fmap. by exists (fd, q).
  - pose proof (TryResizeBuffer_id now c) as HT. destruct (conn_TryResizeBuffer now c) as [c'|e]; [|exact HT].
    cbn [obind]. assert (Hst : stays t (on_peers (fun w => put_mem (set_heap (<[p := c']> (heap (mem w))) (mem w)) w) t)).
    { apply stays_quiet; [done|]. by apply (heap_quiet p c). }
    eapply wp_mono; [intros t'; by apply stays_trans|]. apply IH; [apply Hst| |done].
    intros k q Hin. apply Hl, elem_of_cons. by right.
Qed.

Lemma delete_conns_stays l t : agree t -> wp alive (stays t) (delete_conns l t).
Proof.
  revert t. induction l as [|a l IH]; intros t Ha; [by split|]. cbn [delete_conns].
  destruct (sm_find a (ipport_conns_ t)) as [p|] eqn:E; [|by apply IH].
  destruct (agree_ip t a p Ha E) as (c & fd & Hc & Hid & Hida & Hfd). injection Hid as Hcf Hca.
  rewrite (deref_heap _ _ _ Hc). cbn [obind]. rewrite Hcf. unfold CloseFd_conn.
  change (deref p (mem (peers_ (on_peers (unwatch fd) t)))) with (deref p (mem (peers_ t))).
  rewrite (deref_heap _ _ _ Hc). cbn [obind]. rewrite Hcf, Hca.
  set (w := tell (FdClosed fd a) (close_peer fd (unwatch fd (peers_ t)))).
  change (wp alive (stays t) (delete_conns l (removed fd a w (sm_erase a (to_send_ t)) (to_del_ t) t))).
  assert (Hst : stays t (removed fd a w (sm_erase a (to_send_ t)) (to_del_ t) t)).
  { eapply removed_stays; [done|done|done|apply shut_closes]. }
  eapply wp_mono; [intros t'; by apply stays_trans|]. apply IH, Hst.
Qed.

Lemma DoCronTask_stays now t : agree t -> wp alive (stays t) (DoCronTask now t).
Proof.
  intros Ha. unfold DoCronTask. eapply alive_bind.
  - apply cron_scan_stays; [done| |apply sm_sorted_nodup, Ha]. intros k q Hin. apply sm_find_elem; [apply Ha|done].
  - intros t1 H1. eapply wp_mono; [intros t'; by apply stays_trans|].
    eapply wp_mono; [|apply (delete_conns_stays _ (put_to_del [] t1)); apply H1]. intros t' [H2 H3]. by split.
Qed.

(** * Events of a connection *)

Lemma conn_event_stays now fd mask e t : agree t -> wp alive (stays t) (conn_event now fd mask e t).
Proof.
  intros Ha. unfold conn_event. destruct (sm_find fd (fd_conns_ t)) as [p|] eqn:E.
  2:{ apply stays_quiet; [done|apply unwatch_quiet]. }
  destruct (agree_fd t fd p Ha E) as (c0 & a & _ & _ & Hid & Hip).
  eapply alive_bind; [apply conn_parts_quiet; by eexists|]. intros [close w] Hq.
  pose proof (stays_quiet t w Ha Hq) as Hst. destruct close; [|exact Hst].
  destruct (agree_fd (put_peers w t) fd p ltac:(apply Hst) E) as (c & a' & Hc & Hidc & Hida & Hip').
  change (mem (peers_ (put_peers w t))) with (mem w) in Hc. simpl in Hida.
  assert (a' = a) as -> by (rewrite (q_ids _ _ Hq) in Hida; congruence).
  cbn [put_peers peers_]. rewrite (deref_heap _ _ _ Hc). cbn [obind]. injection Hidc as Hcf Hca.
  unfold CloseFd_conn. cbn [on_peers put_peers peers_]. change (mem (unwatch fd w)) with (mem w).
  rewrite (deref_heap _ _ _ Hc). cbn [obind]. rewrite Hcf, Hca.
  eapply stays_trans; [exact Hst|].
  apply (removed_stays (put_peers w t) fd a p (tell (FdClosed fd a) (close_peer fd (unwatch fd w)))
    (sm_erase a (to_send_ t)) (to_del_ t)); [apply Hst|done|done|apply shut_closes].
Qed.

(** * Connecting *)

Lemma free_fd_fresh (w : peers C) : fds (mem w) !! free_fd w = None.
Proof.
  apply not_elem_of_dom. unfold free_fd.
  pose proof (is_fresh ({[notify_receive_fd (pink_epoll_ w)]} ∪ dom (fds (mem w)) : gset Z)). set_solver.
Qed.

Lemma open_socket_agree s t fd w : agree t -> open_socket s (peers_ t) = (fd, w) ->
  agree (put_peers w t) /\ items_of (put_peers w t) = items_of t /\ sm_find fd (fd_conns_ t) = None /\
  is_Some (fds (mem w) !! fd).
Proof.
  intros Ha Ho. unfold open_socket in Ho. injection Ho as <- <-. split_and!.
  - eapply agreeing_keep; [exact Ha|done|done|done|]. intros x _ Hx. simpl.
    destruct (decide (x = free_fd (peers_ t))) as [->|Hne]; [by rewrite lookup_insert_eq|by rewrite lookup_insert_ne].
  - done.
  - destruct (sm_find _ _) as [p|] eqn:E; [|done].
    pose proof (ag_open _ _ _ Ha (free_fd (peers_ t)) ltac:(by rewrite E)) as [d Hd]. by rewrite free_fd_fresh in Hd.
  - simpl. rewrite lookup_insert_eq. by eexists.
Qed.

(** A socket that no connection uses is closed. *)
Lemma close_unused t fd a : agree t -> sm_find fd (fd_conns_ t) = None -> stays t (CloseFd_addr fd a t).
Proof.
  intros Ha E. split; [|].
  2:{ unfold items_of, CloseFd_addr. simpl. unfold epoll_ctl_del. by case_match. }
  unfold CloseFd_addr. eapply (agreeing_keep _ _ (peers_ t)); try done.
  intros x Hx Hop. simpl. rewrite lookup_delete_ne; [done|]. intros ->. destruct Hx as [q Hx]. simpl in Hx. congruence.
Qed.

End invariant.

Section dialling.
Context {C : Type} {Ops : ConnOps C} {CL : ConnLaws C}.
Context (NewPinkConn : Z -> bytes -> option C) (FAC : factory_ok NewPinkConn).
Implicit Types t : client C.

(** A connection is added. *)
Lemma NewConnection_stays ip port fd t :
  agree t -> sm_find fd (fd_conns_ t) = None -> sm_find (addr_text ip port) (ipport_conns_ t) = None ->
  is_Some (fds (mem (peers_ t)) !! fd) ->
  wp alive (fun t' => stays t t' /\ is_Some (sm_find (addr_text ip port) (ipport_conns_ t')) /\
    is_Some (sm_find fd (fd_conns_ t')) /\ to_send_ t' = to_send_ t) (NewConnection NewPinkConn ip port fd t).
Proof.
  intros Ha Hfd Hip Hop. unfold NewConnection. eapply alive_bind; [by apply make_conn_opens|].
  intros [p w] [-> Hw]. simpl. unfold sm_insert. rewrite Hfd, Hip. simpl. rewrite !sm_find_set_eq.
  split_and!; [split; [by eapply agreeing_add|apply Hw]|done..].
Qed.

(** One address after the other. *)
Definition dialled (a : bytes) t (r : Status * option Z * client C) : Prop :=
  let '(s, _, t') := r in stays t t' /\ (s = OK -> is_Some (sm_find a (ipport_conns_ t'))).

Lemma SetWait_stays fd t : agree t -> is_Some (sm_find fd (fd_conns_ t)) -> stays t (on_part peers_ put_peers (SetWaitConnectOnEpoll fd) t).
Proof.
  intros Ha Hs. pose proof (stays_quiet t _ Ha (watch_quiet fd (peers_ t))) as [[H1 H2 H3 H4 H5 H6 H7] Hq].
  split; [|exact Hq]. split; try done. intros x. simpl. rewrite elem_of_union, elem_of_singleton.
  intros [->|Hx]; [done|]. by apply H6.
Qed.

Lemma dial_loop_stays ip port l t :
  agree t -> sm_find (addr_text ip port) (ipport_conns_ t) = None ->
  wp alive (dialled (addr_text ip port) t)
    (dial_loop peers_ put_peers (NewConnection NewPinkConn ip port) (fun fd => CloseFd_addr fd (addr_text ip port)) ip port l t).
Proof.
  revert t. induction l as [|d l IH]; intros t Ha Hn; cbn [dial_loop]; [by split|].
  destruct (negb (dial_socket d)); [by apply IH|].
  destruct (open_socket (dial_stream d) (peers_ t)) as [fd w] eqn:E.
  destruct (open_socket_agree _ _ _ _ Ha E) as (Ha1 & Hq1 & Hfd & Hop).
  assert (Hcl : stays t (CloseFd_addr fd (addr_text ip port) (put_peers w t))).
  { destruct (close_unused (put_peers w t) fd (addr_text ip port) Ha1 Hfd) as [H1 H2]. split; [done|congruence]. }
  destruct (dial_connect d).
  - eapply alive_bind; [by apply NewConnection_stays|]. intros t1 ([Hs1 Hs2] & Hi & _).
    pose proof (stays_quiet t1 _ Hs1 (watch_quiet fd (peers_ t1))) as [Hw1 Hw2].
    case_bool_decide; (split; [split; [exact Hw1|by etrans; [exact Hw2|congruence]]|done]).
  - eapply wp_mono; [|apply IH; [apply Hcl|done]]. intros [[s x] t'] [Hs Hok]. split; [|done]. by eapply stays_trans.
  - eapply alive_bind; [by apply NewConnection_stays|]. intros t1 ([Hs1 Hs2] & Hi & Hf & _).
    pose proof (SetWait_stays fd t1 Hs1 Hf) as [Hw1 Hw2]. split; [split; [done|congruence]|done].
  - split; [exact Hcl|done].
Qed.

Lemma ScheduleConnect_stays ip port t :
  agree t -> sm_find (addr_text ip port) (ipport_conns_ t) = None ->
  wp alive (fun '(s, t') => stays t t' /\ (s = OK -> is_Some (sm_find (addr_text ip port) (ipport_conns_ t'))))
    (ScheduleConnect NewPinkConn ip port t).
Proof.
  intros Ha Hn. unfold ScheduleConnect. eapply (alive_bind (dialled (addr_text ip port) t)).
  - unfold dial_host. destruct (net (peers_ t)) as [|ans n]; [by split|].
    assert (Hst : stays t (on_part peers_ put_peers (put_net n) t)) by (split; [eapply (agreeing_keep _ _ (peers_ t)); done || auto|done]).
    destruct ans as [l|]; [|split; [exact Hst|discriminate]]. eapply wp_mono; [|apply dial_loop_stays; [apply Hst|done]].
    intros [[s x] t'] [Hs Hok]. split; [|done]. eapply stays_trans; [exact Hst|exact Hs].
  - by intros [[s x] t'].
Qed.
End dialling.

(** * Notifications *)
Section notifications.
Context {C : Type} {Ops : ConnOps C} {CL : ConnLaws C}.
Context (NewPinkConn : Z -> bytes -> option C) (ParseIpPortString : bytes -> option (bytes * Z)).
Context (FAC : factory_ok NewPinkConn).
Implicit Types t : client C.

(** What [slash::ParseIpPortString] is used for: the parts of an address make the
    same address again. *)
Definition parse_ok : Prop := forall ip port, NUL ∉ ip ->
  match ParseIpPortString (addr_text ip port) with
  | Some (ip', port') => addr_text ip' port' = addr_text ip port
  | None => True
  end.
Context (PAR : parse_ok).

(** The items that [NotifyWrite] makes. *)
Definition item_ok (ti : PinkItem) : Prop :=
  item_notify_type ti = kNotiWrite /\ exists ip port, (NUL ∉ ip) /\ item_ip_port ti = addr_text ip port.

Lemma to_string_nul z : NUL ∉ to_string z.
Proof.
  unfold to_string. destruct (z <? 0) eqn:E; b2p.
  - apply not_elem_of_cons. split; [done|]. apply to_dec_not_in; [lia|done].
  - by apply to_dec_not_in.
Qed.

Lemma item_addr ti : item_ok ti -> exists ip port, (NUL ∉ ip) /\ ip_port ti = addr_text ip port.
Proof.
  intros (_ & ip & port & Hn & E). exists ip, port. split; [done|]. unfold ip_port. rewrite E. apply cstr_id.
  unfold addr_text. pose proof (to_string_nul port). rewrite elem_of_app, elem_of_cons. by intros [?|[?|?]].
Qed.

Lemma deliver_stays a t : agree t -> is_Some (sm_find a (ipport_conns_ t)) -> wp alive (stays t) (deliver a t).
Proof.
  intros Ha [p Hp]. unfold deliver. destruct (sm_find a (to_send_ t)) as [msgs|]; [|by split]. rewrite Hp.
  eapply (alive_bind (stays t)).
  - destruct msgs as [|m msgs]; [by split|]. destruct (agree_ip t a p Ha Hp) as (_ & fd & _ & _ & Hid & _).
    eapply alive_bind; [apply post_quiet; by eexists|]. intros w Hq. by apply stays_quiet.
  - intros t' Hs. exact Hs.
Qed.

Lemma handle_item_stays ti t : agree t -> item_ok ti -> wp alive (stays t) (handle_item NewPinkConn ParseIpPortString ti t).
Proof.
  intros Ha Hi. unfold handle_item. rewrite (proj1 Hi). destruct (item_addr ti Hi) as (ip & port & Hn & ->).
  destruct (sm_find (addr_text ip port) (ipport_conns_ t)) as [p|] eqn:E.
  - destruct (agree_ip t _ p Ha E) as (c & fd & Hc & _). rewrite (deref_heap _ _ _ Hc). cbn [obind].
    assert (Hst : stays t (on_peers (watch_for (fd_ (conn_base c)) (Z.lor EPOLLOUT EPOLLIN)) t))
      by (apply stays_quiet; [done|apply watch_for_quiet]).
    eapply wp_mono; [intros t'; by apply stays_trans|]. apply deliver_stays; [apply Hst|by eexists].
  - pose proof (PAR ip port Hn) as HP. destruct (ParseIpPortString (addr_text ip port)) as [[ip' port']|]; [|by split].
    eapply alive_bind; [apply ScheduleConnect_stays; [done|done|by rewrite HP]|]. intros [s t1] [Hs Hok].
    case_bool_decide as Es.
    + eapply wp_mono; [intros t'; by apply stays_trans|]. apply deliver_stays; [apply Hs|]. rewrite <- HP. by apply Hok.
    + eapply stays_trans; [exact Hs|]. apply stays_quiet; [apply Hs|apply tell_quiet].
Qed.

Lemma handle_items_stays l t :
  agree t -> Forall item_ok l -> wp alive (stays t) (handle_items NewPinkConn ParseIpPortString l t).
Proof.
  intros Ha Hl. revert t Ha. induction Hl as [|ti l Hi _ IH]; intros t Ha; [by split|]. cbn [handle_items].
  eapply alive_bind; [by apply handle_item_stays|]. intros t1 H1.
  eapply wp_mono; [intros t'; by apply stays_trans|]. apply IH, H1.
Qed.

(** * The loop *)

(** The tables agree and the pipe holds only items of [NotifyWrite]. *)
Definition good t : Prop := agree t /\ Forall item_ok (items_of t).

Lemma stays_good t t' : good t -> stays t t' -> good t'.
Proof. intros [_ Hq] [Ha E]. split; [done|]. by rewrite E. Qed.

Lemma ProcessNotifyEvents_good mask t : good t -> wp alive good (ProcessNotifyEvents NewPinkConn ParseIpPortString mask t).
Proof.
  intros [Ha Hq]. unfold ProcessNotifyEvents. destruct (negb _); [done|]. unfold read_items.
  case_bool_decide; [done|].
  set (t1 := on_peers (PeerConns.put_epoll _) t).
  assert (H1 : good t1).
  { split; [by eapply (agreeing_keep _ _ (peers_ t)); done || auto|]. by apply Forall_drop. }
  eapply wp_mono; [intros t'; by apply stays_good|]. apply handle_items_stays; [apply H1|by apply Forall_take].
Qed.

Lemma client_events_good now evs t : good t -> wp alive good (handle_events NewPinkConn ParseIpPortString now evs t).
Proof.
  revert t. induction evs as [|[[fd mask] e] evs IH]; intros t Hg; [done|]. cbn [handle_events].
  eapply alive_bind; [|intros t1; apply IH]. unfold handle_event_of.
  destruct (fd =? _); [by apply ProcessNotifyEvents_good|].
  eapply wp_mono; [intros t'; by apply stays_good|]. apply conn_event_stays, Hg.
Qed.

Lemma iteration_good i tm evs k t :
  good t -> wp alive (fun '(_, t') => good t') (iteration NewPinkConn ParseIpPortString i tm evs k t).
Proof.
  intros Hg. unfold iteration. destruct (cron_head i tm k) as [fires k'].
  eapply (alive_bind good).
  - destruct fires; [|done]. eapply wp_mono; [intros t'; by apply stays_good|]. apply DoCronTask_stays, Hg.
  - intros t1 H1. eapply alive_bind; [by apply client_events_good|]. done.
Qed.

Lemma iterations_good i rounds k t :
  good t -> wp alive (fun '(_, t') => good t') (iterations NewPinkConn ParseIpPortString i rounds k t).
Proof.
  revert k t. induction rounds as [|[tm evs] rounds IH]; intros k t Hg; [done|]. cbn [iterations].
  eapply (alive_bind (fun '(_, t') => good t')); [by apply iteration_good|]. intros [k1 t1]. apply IH.
Qed.

Lemma ThreadMain_good i start rounds t :
  good t -> wp alive good (ThreadMain NewPinkConn ParseIpPortString i start rounds t).
Proof.
  intros Hg. unfold ThreadMain. eapply (alive_bind (fun '(_, t') => good t')); [by apply iterations_good|].
  by intros [k1 t1].
Qed.

Lemma Write_good AccessHandle ip port msg t :
  NUL ∉ ip -> good t -> wp alive (fun '(_, t') => good t') (Write AccessHandle ip port msg t).
Proof.
  intros Hn [Ha Hq]. unfold Write. destruct (negb _); [done|]. destruct (_ <? _); [done|].
  unfold NotifyWrite, new_PinkItem. destruct (zlen (addr_text ip port) <? IP_PORT_SIZE); [|done]. cbn.
  split; [by eapply (agreeing_keep _ _ (peers_ t)); done || auto|].
  apply Forall_app. split; [exact Hq|]. apply Forall_cons. split; [|done]. split; [done|]. by exists ip, port.
Qed.
End notifications.
