(* ===== verification/ClientTheorems.v ===== *)
(** The theorems on [ClientThread]: its tables, and what becomes of the messages. *)
From S2P Require Import Pink Prelude Sys StdMap PinkConn PinkEpoll Cron WorkerTheorems.
From S2P Require Import PeerConns PeerFacts ClientThread ClientFacts ClientInvariant.

(** * Runs *)

(** A call of another thread, or an iteration of the loop at a time with the events
    the poller reports. *)
Inductive client_op : Type :=
  | OpWrite (ip : bytes) (port : Z) (msg : bytes)
  | OpClose (ip : bytes) (port : Z)
  | OpIteration (tm : timeval) (evs : list (Z * Z * option Z)).

Section runs.
Context {C : Type} {Ops : ConnOps C}.
Context (NewPinkConn : Z -> bytes -> option C) (AccessHandle : bytes -> bool).
Context (ParseIpPortString : bytes -> option (bytes * Z)).
Context (cron_interval_ : Z).

Definition run_op (o : client_op) (s : clock * client C) : outcome (clock * client C) :=
  let '(k, t) := s in
  match o with
  | OpWrite ip port msg => let! (_, t) := Write AccessHandle ip port msg t in Ret (k, t)
  | OpClose ip port => Ret (k, (Close ip port t).2)
  | OpIteration tm evs => iteration NewPinkConn ParseIpPortString cron_interval_ tm evs k t
  end.

Fixpoint run (ops : list client_op) (s : clock * client C) : outcome (clock * client C) :=
  match ops with
  | [] => Ret s
  | o :: ops => let! s := run_op o s in run ops s
  end.

(** The address has no zero byte. *)
Definition op_ok (o : client_op) : Prop := match o with OpWrite ip _ _ => NUL ∉ ip | _ => True end.

Lemma run_good {CL : ConnLaws C} ops s :
  factory_ok NewPinkConn -> parse_ok ParseIpPortString -> Forall op_ok ops -> good s.2 ->
  wp alive (fun s' => good s'.2) (run ops s).
Proof.
  intros Hf Hp Ho. revert s. induction Ho as [|o ops Hop _ IH]; intros [k t] Hg; [done|]. cbn [run].
  eapply alive_bind; [|intros s1; apply IH]. destruct o as [ip port msg|ip port|tm evs]; cbn [run_op].
  - eapply alive_bind; [by apply Write_good|]. by intros [st t1].
  - exact Hg.
  - eapply wp_mono; [|by apply iteration_good]. by intros [k1 t1].
Qed.
End runs.


(** An address as it is written: the parts around its last colon. *)
Definition split_addr (s : bytes) : option (bytes * Z) :=
  match index_of ":"%char s with
  | Some n => if bool_decide (drop (S n) s = to_string (dec_value (drop (S n) s))) then Some (take n s, dec_value (drop (S n) s)) else None
  | None => None
  end.

Lemma split_addr_ok : parse_ok split_addr.
Proof.
  intros ip port _. unfold split_addr. destruct (index_of ":"%char (addr_text ip port)) as [n|] eqn:E; [|done].
  apply index_of_Some in E as (pre & post & E & <- & _). case_bool_decide as Hd; [|done].
  rewrite E in *. rewrite take_app_length.
  assert (Hdrop : drop (S (length pre)) (pre ++ ":"%char :: post) = post).
  { replace (pre ++ ":"%char :: post) with ((pre ++ [":"%char]) ++ post) by by app_norm.
    apply drop_app_length'. rewrite length_app. simpl. lia. }
  rewrite Hdrop in *. unfold addr_text at 1. by rewrite <- Hd.
Qed.

Lemma echo_factory_ok : factory_ok echo_factory.
Proof. intros fd a. by eexists. Qed.

Definition start_of_day : clock := start_clock 1000 (mkTime 0 0).
Definition dialled_stream : sock := mkSock [Arrive (bs "hi")] [Accepts 100] [].

