(* ===== verification/ClientMessages.v ===== *)
(** What becomes of the messages of [ClientThread]. *)
From S2P Require Import Pink Prelude Sys StdMap PinkConn PinkEpoll Cron WorkerTheorems.
From S2P Require Import PeerConns PeerFacts ClientThread ClientFacts ClientInvariant ClientTheorems.

Section messages.
Context {C : Type} {Ops : ConnOps C} {CL : ConnLaws C}.
Context (NewPinkConn : Z -> bytes -> option C) (AccessHandle : bytes -> bool).
Context (ParseIpPortString : bytes -> option (bytes * Z)).
Implicit Types t : client C.

(** Calls of [Write] that return [OK]. *)
Inductive writes (ip : bytes) (port : Z) : list bytes -> client C -> client C -> Prop :=
  | WritesNil t : writes ip port [] t t
  | WritesCons m ms t t1 t2 :
      Write AccessHandle ip port m t = Ret (OK, t1) -> writes ip port ms t1 t2 -> writes ip port (m :: ms) t t2.

Definition write_item (a : bytes) : PinkItem := mkItem 0 a kNotiWrite None.

(** The same thread with other messages and other items in the pipe. *)
Definition with_mail (s : stdmap bytes (list bytes)) (q : list PinkItem) t : client C :=
  mkClient (fd_conns_ t) (ipport_conns_ t) s (to_del_ t)
    (PeerConns.put_epoll (set_notify_queue q (pink_epoll_ (peers_ t))) (peers_ t)).

Lemma Write_OK ip port m t t1 :
  Write AccessHandle ip port m t = Ret (OK, t1) ->
  let a := addr_text ip port in
  t1 = with_mail (sm_set a (default [] (sm_find a (to_send_ t)) ++ [m]) (to_send_ t)) (items_of t ++ [write_item a]) t.
Proof.
  unfold Write. destruct (negb _); [done|]. destruct (_ <? _); [done|].
  unfold NotifyWrite, new_PinkItem. destruct (_ <? IP_PORT_SIZE); [|done]. cbn. by intros [= <-].
Qed.

Lemma writes_mail ip port ms t t' :
  writes ip port ms t t' -> let a := addr_text ip port in
  exists s, t' = with_mail s (items_of t ++ replicate (length ms) (write_item a)) t /\
    (ms = [] -> s = to_send_ t) /\
    (ms <> [] -> sm_find a s = Some (default [] (sm_find a (to_send_ t)) ++ ms)) /\
    (sm_sorted (to_send_ t) -> sm_sorted s).
Proof.
  intros Hw a. induction Hw as [t|m ms t t1 t2 Hm Hw IH].
  - exists (to_send_ t). split; [|done]. destruct t as [f i s d [[x y z] c k n w]]. unfold with_mail, items_of. simpl. by rewrite app_nil_r.
  - apply Write_OK in Hm. subst t1. fold a in IH, Hw. destruct IH as (s & -> & Hnil & Hs & Hsort). exists s. split_and!.
    + unfold with_mail, items_of, put_epoll, set_notify_queue. simpl. by rewrite <- app_assoc.
    + done.
    + intros _. simpl in Hs, Hnil. rewrite sm_find_set_eq in Hs. destruct ms as [|m2 ms].
      * rewrite Hnil by done. by rewrite sm_find_set_eq.
      * rewrite Hs by done. simpl. by rewrite <- app_assoc.
    + intros Hso. apply Hsort. by apply sm_set_sorted.
Qed.

(** The connection of the address [a], and its address in memory: the one the
    thread has, or the one it makes when its first address is being connected. *)
Inductive target (a : bytes) t : ptr -> C -> Prop :=
  | Existing p c : sm_find a (ipport_conns_ t) = Some p -> heap (mem (peers_ t)) !! p = Some c -> target a t p c
  | Dialled d ds n c :
      sm_find a (ipport_conns_ t) = None -> net (peers_ t) = Some (d :: ds) :: n ->
      dial_socket d = true -> dial_connect d = DInProgress ->
      NewPinkConn (free_fd (peers_ t)) a = Some c -> fd_ (conn_base c) = free_fd (peers_ t) ->
      target a t (next_ptr (mem (peers_ t))) (with_base (set_flags O_NONBLOCK) c).

(** The connection [p] of the address is [c], with the messages [s] and the items
    [q] waiting. *)
Definition stands (a : bytes) (p : ptr) (c : C) (s : stdmap bytes (list bytes)) (q : list PinkItem) t : Prop :=
  sm_find a (ipport_conns_ t) = Some p /\ heap (mem (peers_ t)) !! p = Some c /\ to_send_ t = s /\ items_of t = q.

Abbreviation dial_client ip port :=
  (dial_loop peers_ put_peers (NewConnection NewPinkConn ip port) (fun fd => CloseFd_addr fd (addr_text ip port)) ip port).

Lemma dial_loop_new ip port d ds c t :
  let a := addr_text ip port in
  sm_find a (ipport_conns_ t) = None -> dial_socket d = true -> dial_connect d = DInProgress ->
  NewPinkConn (free_fd (peers_ t)) a = Some c -> fd_ (conn_base c) = free_fd (peers_ t) ->
  exists t', dial_client ip port (d :: ds) t = Ret (OK, Some (free_fd (peers_ t)), t') /\
    stands a (next_ptr (mem (peers_ t))) (with_base (set_flags O_NONBLOCK) c) (to_send_ t) (items_of t) t' /\
    handle_log (mem (peers_ t')) = handle_log (mem (peers_ t)).
Proof.
  intros a Ha Hd Hc HN Hfd. cbn [dial_loop]. rewrite Hd. cbn [negb]. unfold open_socket.
  set (fd := free_fd (peers_ t)) in *. rewrite Hc. unfold NewConnection, make_conn. fold a. rewrite HN.
  unfold alloc, conn_SetNonblock, deref. cbn. rewrite lookup_insert_eq. cbn. unfold Setnonblocking. cbn.
  rewrite Hfd, lookup_insert_eq. cbn. unfold modify, deref. cbn. rewrite lookup_insert_eq. cbn.
  eexists. split; [reflexivity|]. unfold stands. split_and!; cbn.
  - unfold sm_insert. rewrite Ha. cbn. apply sm_find_set_eq.
  - by rewrite lookup_insert_eq.
  - done.
  - unfold items_of. cbn. unfold PinkAddEvent, epoll_ctl_add. by repeat case_match.
  - done.
Qed.

Lemma ScheduleConnect_new ip port d ds n c t :
  let a := addr_text ip port in
  sm_find a (ipport_conns_ t) = None -> net (peers_ t) = Some (d :: ds) :: n ->
  dial_socket d = true -> dial_connect d = DInProgress ->
  NewPinkConn (free_fd (peers_ t)) a = Some c -> fd_ (conn_base c) = free_fd (peers_ t) ->
  exists t', ScheduleConnect NewPinkConn ip port t = Ret (OK, t') /\
    stands a (next_ptr (mem (peers_ t))) (with_base (set_flags O_NONBLOCK) c) (to_send_ t) (items_of t) t'.
Proof.
  intros a Ha Hn Hd Hc HN Hfd. unfold ScheduleConnect, dial_host. rewrite Hn.
  destruct (dial_loop_new ip port d ds c (on_part peers_ put_peers (put_net n) t) Ha Hd Hc HN Hfd) as (t' & -> & Hs & _).
  by exists t'.
Qed.

(** An address that cannot be reached, with the descriptor it was tried on. *)
Lemma dial_loop_unreachable ip port d ds t :
  dial_socket d = true -> dial_connect d = DUnreachable ->
  exists t1, dial_client ip port (d :: ds) t = dial_client ip port ds t1 /\
    ipport_conns_ t1 = ipport_conns_ t /\ to_send_ t1 = sm_erase (addr_text ip port) (to_send_ t) /\
    handle_log (mem (peers_ t1)) = handle_log (mem (peers_ t)) ++ [FdClosed (free_fd (peers_ t)) (addr_text ip port)].
Proof.
  intros Hd Hc. cbn [dial_loop]. rewrite Hd. cbn [negb]. unfold open_socket. rewrite Hc. by eexists.
Qed.

(** The messages go to the connection. *)
Lemma deliver_stands a p c s q msgs t :
  stands a p c s q t -> sm_find a s = Some msgs ->
  exists t', deliver a t = Ret t' /\ stands a p (posted msgs c) (sm_erase a s) q t'.
Proof.
  intros (Hip & Hc & Hs & Hq) Hm. unfold deliver. rewrite Hs, Hm. destruct msgs as [|m msgs].
  - eexists. split; [reflexivity|]. split_and!; try done. cbn. by rewrite Hs.
  - rewrite Hip. unfold post, on_conn. rewrite (deref_heap _ _ _ Hc). cbn [obind].
    eexists. split; [reflexivity|]. split_and!; try done; cbn; [by rewrite lookup_insert_eq|by rewrite Hs].
Qed.

Lemma deliver_nothing a t : sm_find a (to_send_ t) = None -> deliver a t = Ret t.
Proof. unfold deliver. by intros ->. Qed.

Lemma watch_for_stands a p c s q fd m t : stands a p c s q t -> stands a p c s q (on_peers (watch_for fd m) t).
Proof.
  intros (Hip & Hc & Hs & Hq). split_and!; try done. rewrite <- Hq. unfold items_of. cbn.
  unfold PinkModEvent, epoll_ctl_mod. by case_match.
Qed.

Lemma write_item_addr ip port : NUL ∉ ip -> PinkEpoll.ip_port (write_item (addr_text ip port)) = addr_text ip port.
Proof.
  intros Hn. unfold PinkEpoll.ip_port. cbn. apply cstr_id. unfold addr_text.
  pose proof (to_string_nul port). rewrite elem_of_app, elem_of_cons. by intros [?|[?|?]].
Qed.

(** One item for an address that has its connection, and all the items after it. *)
Lemma handle_item_known ip port p c s q t :
  NUL ∉ ip -> let a := addr_text ip port in stands a p c s q t ->
  exists t', handle_item NewPinkConn ParseIpPortString (write_item a) t = deliver a t' /\ stands a p c s q t'.
Proof.
  intros Hn a Hst. pose proof Hst as (Hip & Hc & _). unfold handle_item. cbn [item_notify_type write_item].
  unfold a. rewrite write_item_addr by done. fold a. rewrite Hip, (deref_heap _ _ _ Hc). cbn [obind].
  eexists. split; [reflexivity|]. by apply watch_for_stands.
Qed.

Lemma handle_items_rest ip port p c s q n t :
  NUL ∉ ip -> let a := addr_text ip port in stands a p c s q t -> sm_find a s = None ->
  exists t', handle_items NewPinkConn ParseIpPortString (replicate n (write_item a)) t = Ret t' /\ stands a p c s q t'.
Proof.
  intros Hn a. revert t. induction n as [|n IH]; intros t Hst Hs; [by exists t|]. cbn [replicate handle_items].
  destruct (handle_item_known ip port p c s q t Hn Hst) as (t1 & E & H1). fold a in E. rewrite E.
  rewrite deliver_nothing by by rewrite (proj1 (proj2 (proj2 H1))). cbn [obind]. by apply IH.
Qed.

(** The first item brings the messages to the connection that is aimed at. *)
Lemma handle_item_first ip port p c s q msgs t :
  NUL ∉ ip -> let a := addr_text ip port in
  ParseIpPortString a = Some (ip, port) -> target a t p c -> to_send_ t = s -> items_of t = q -> sm_find a s = Some msgs ->
  exists t', handle_item NewPinkConn ParseIpPortString (write_item a) t = Ret t' /\
    stands a p (posted msgs c) (sm_erase a s) q t'.
Proof.
  intros Hn a Hp Ht Hs Hq Hm. destruct Ht as [p c Hip Hc|d ds n c Hip Hnet Hd Hdc HN Hfd].
  - destruct (handle_item_known ip port p c s q t Hn) as (t1 & E & H1); [done|]. fold a in E. rewrite E.
    by apply deliver_stands.
  - destruct (ScheduleConnect_new ip port d ds n c t Hip Hnet Hd Hdc HN Hfd) as (t1 & E & H1). fold a in H1.
    unfold handle_item. cbn [item_notify_type write_item]. unfold a. rewrite write_item_addr by done. fold a.
    rewrite Hip, Hp, E. cbn [obind]. rewrite bool_decide_true by done. rewrite Hs, Hq in H1. by apply deliver_stands.
Qed.
End messages.


Definition idle_client : client EchoConn :=
  new_ClientThread 3 60 [Some [mkDial true DInProgress (bs "10.0.0.9", 4000) dialled_stream]] empty_world.


(** The messages of an address are lost when the first of its host's addresses
    cannot be reached. The loop goes on to the next one and connects; but
    [CloseFd] of the first descriptor has erased what was waiting for the address.
    The connection is there, as the factory made it, and is given nothing; nothing
    is left to send, and the failure is not reported. *)
Theorem client_unreachable_loses {C} {Ops : ConnOps C} {CL : ConnLaws C} NewPinkConn ParseIpPortString
    ip port d1 d2 ds n (t : client C) :
  let a := addr_text ip port in
  NUL ∉ ip -> ParseIpPortString a = Some (ip, port) -> sm_sorted (to_send_ t) -> factory_ok NewPinkConn ->
  sm_find a (ipport_conns_ t) = None -> net (peers_ t) = Some (d1 :: d2 :: ds) :: n ->
  dial_socket d1 = true -> dial_connect d1 = DUnreachable ->
  dial_socket d2 = true -> dial_connect d2 = DInProgress ->
  exists fd p c t', handle_item NewPinkConn ParseIpPortString (write_item a) t = Ret t' /\
    sm_find a (ipport_conns_ t') = Some p /\ NewPinkConn fd a = Some c /\
    heap (mem (peers_ t')) !! p = Some (with_base (set_flags O_NONBLOCK) c) /\ sm_find a (to_send_ t') = None /\
    handle_log (mem (peers_ t')) = handle_log (mem (peers_ t)) ++ [FdClosed (free_fd (peers_ t)) a].
Proof.
  intros a Hn Hp Hso Hfac Ha Hnet Hd1 Hc1 Hd2 Hc2.
  set (t0 := on_part peers_ put_peers (put_net n) t).
  destruct (dial_loop_unreachable NewPinkConn ip port d1 (d2 :: ds) t0 Hd1 Hc1) as (t1 & E1 & Hip1 & Hs1 & Hl1).
  destruct (Hfac (free_fd (peers_ t1)) a) as (c & HN & Hid). injection Hid as Hfd _.
  destruct (dial_loop_new NewPinkConn ip port d2 ds c t1) as (t2 & E2 & (Hip2 & Hc & Hs2 & _) & Hl2); try done;
    [by rewrite Hip1|].
  assert (Hs : sm_find a (to_send_ t2) = None) by (rewrite Hs2, Hs1; by apply sm_find_erase_eq).
  exists (free_fd (peers_ t1)), (next_ptr (mem (peers_ t1))), c, t2. split_and!; try done; [|by rewrite Hl2, Hl1].
  unfold handle_item. cbn [item_notify_type write_item]. unfold a in *. rewrite write_item_addr by done.
  rewrite Ha, Hp. unfold ScheduleConnect, dial_host. rewrite Hnet. fold t0. rewrite E1, E2. cbn [obind].
  rewrite bool_decide_true by done. by apply deliver_nothing.
Qed.

Definition two_addresses : client EchoConn :=
  ClientThread.put_to_send [(bs "h:1", [bs "a"; bs "b"])]
    (new_ClientThread 3 60 [Some [mkDial true DUnreachable (bs "10.0.0.9", 4000) dialled_stream;
                                  mkDial true DInProgress (bs "10.0.0.9", 4001) dialled_stream]] empty_world).

Lemma client_unreachable_loses_witness :
  sm_find (bs "h:1") (ClientThread.to_send_ two_addresses) = Some [bs "a"; bs "b"] /\
  exists fd p c t', handle_item echo_factory split_addr (write_item (bs "h:1")) two_addresses = Ret t' /\
    sm_find (bs "h:1") (ipport_conns_ t') = Some p /\ echo_factory fd (bs "h:1") = Some c /\
    heap (mem (peers_ t')) !! p = Some (with_base (set_flags O_NONBLOCK) c) /\
    sm_find (bs "h:1") (ClientThread.to_send_ t') = None /\
    handle_log (mem (peers_ t')) = handle_log (mem (peers_ two_addresses)) ++ [FdClosed (free_fd (peers_ two_addresses)) (bs "h:1")].
Proof.
  split; [vm_compute; reflexivity|].
  assert (E : bs "h:1" = addr_text (bs "h") 1) by (vm_compute; reflexivity). rewrite E.
  eapply (client_unreachable_loses echo_factory split_addr (bs "h") 1 _ _ [] [] two_addresses);
    [by apply (bool_decide_unpack _)|vm_compute; reflexivity|repeat constructor|apply echo_factory_ok|vm_compute; reflexivity|
     reflexivity..].
Defined.
