(* ===== verification/BackendTheorems.v ===== *)
(** The theorems on [BackendThread]: its messages, its cron task and its closing. *)
From S2P Require Import Pink Prelude Sys StdMap PinkConn PinkEpoll Cron WorkerTheorems.
From S2P Require Import PeerConns PeerFacts BackendThread.

Section backend.
Context {C : Type} {Ops : ConnOps C}.
Context (AccessHandle : bytes -> bool) (recursive : bool).
Implicit Types t : backend C.

Definition pipe_of t : list PinkItem := notify_queue (pink_epoll_ (peers_ t)).

(** Calls of [Write] that return [OK]. *)
Inductive writes_fd (fd : Z) : list bytes -> backend C -> backend C -> Prop :=
  | NoWrites t : writes_fd fd [] t t
  | AWrite m ms t t1 t2 : Write AccessHandle fd m t = Ret (OK, t1) -> writes_fd fd ms t1 t2 -> writes_fd fd (m :: ms) t t2.

Definition item_for (type : NotifyType) (fd : Z) : PinkItem := mkItem fd [] type None.

(** The connection [p] of the descriptor is [c], with the messages [s] and the
    items [q] waiting. *)
Definition holds (fd : Z) (p : ptr) (c : C) (s : stdmap Z (list bytes)) (q : list PinkItem) t : Prop :=
  sm_find fd (conns_ t) = Some p /\ heap (mem (peers_ t)) !! p = Some c /\ to_send_ t = s /\ pipe_of t = q.

Lemma deref_holds fd p c s q t : holds fd p c s q t -> deref p (mem (peers_ t)) = Ret c.
Proof. intros (_ & Hc & _). unfold deref. by rewrite Hc. Qed.

Lemma Write_holds fd p c s q m t t1 :
  holds fd p c s q t -> Write AccessHandle fd m t = Ret (OK, t1) ->
  holds fd p c (sm_set fd (default [] (sm_find fd s) ++ [m]) s) (q ++ [item_for kNotiWrite fd]) t1.
Proof.
  intros Hh. pose proof (deref_holds _ _ _ _ _ _ Hh) as Hd. destruct Hh as (Hp & Hc & <- & <-). unfold Write.
  rewrite Hp, Hd. cbn [obind]. destruct (negb _); [done|]. destruct (_ <? _); [done|]. by intros [= <-].
Qed.

Lemma writes_fd_holds fd p c ms s q t t' :
  holds fd p c s q t -> writes_fd fd ms t t' ->
  exists s', holds fd p c s' (q ++ replicate (length ms) (item_for kNotiWrite fd)) t' /\
    default [] (sm_find fd s') = default [] (sm_find fd s) ++ ms /\ (sm_sorted s -> sm_sorted s').
Proof.
  intros Hh Hw. revert s q Hh. induction Hw as [t|m ms t t1 t2 Hm _ IH]; intros s q Hh.
  - exists s. simpl. by rewrite !app_nil_r.
  - destruct (IH _ _ (Write_holds _ _ _ _ _ _ _ _ Hh Hm)) as (s' & H1 & H2 & H3). exists s'. split_and!.
    + cbn [length replicate]. by rewrite <- app_assoc in H1.
    + rewrite H2, sm_find_set_eq. simpl. by rewrite <- app_assoc.
    + intros Hs. apply H3. by apply sm_set_sorted.
Qed.

(** An item: what is waiting goes to the connection. *)
Lemma handle_item_holds fd p c s q t :
  holds fd p c s q t -> sm_sorted s ->
  exists t', handle_item recursive (item_for kNotiWrite fd) t = Ret t' /\
    holds fd p (posted (default [] (sm_find fd s)) c) (sm_erase fd s) q t'.
Proof.
  intros Hh Hso. destruct Hh as (Hp & Hc & Hs & Hq). unfold handle_item. cbn [item_for item_notify_type item_fd]. rewrite Hp.
  set (t1 := on_peers _ t).
  assert (Hh1 : holds fd p c s q t1).
  { split_and!; try done. rewrite <- Hq. unfold t1, pipe_of. cbn. unfold PinkModEvent, epoll_ctl_mod. by case_match. }
  pose proof (deref_holds _ _ _ _ _ _ Hh1) as Hd. clearbody t1. destruct Hh1 as (Hp1 & Hc1 & Hs1 & Hq1). rewrite Hs1.
  destruct (sm_find fd s) as [msgs|] eqn:E.
  - unfold post, on_conn. rewrite Hd. cbn [obind]. eexists. split; [reflexivity|]. split_and!; try done; cbn.
    by rewrite lookup_insert_eq.
  - eexists. split; [reflexivity|]. rewrite sm_erase_absent by done. by split_and!.
Qed.

Lemma handle_items_holds fd p c s q n t :
  holds fd p c s q t -> sm_sorted s -> (0 < n)%nat ->
  exists t', handle_items recursive (replicate n (item_for kNotiWrite fd)) t = Ret t' /\
    holds fd p (posted (default [] (sm_find fd s)) c) (sm_erase fd s) q t'.
Proof.
  revert c s t. induction n as [|n IH]; intros c s t Hh Hso Hn; [lia|]. cbn [replicate handle_items].
  destruct (handle_item_holds _ _ _ _ _ _ Hh Hso) as (t1 & -> & H1). cbn [obind].
  destruct n as [|n]; [by exists t1|]. destruct (IH _ _ _ H1) as (t2 & E & H2); [by apply sm_erase_sorted|lia|].
  exists t2. split; [exact E|]. rewrite sm_find_erase_eq in H2 by done.
  by rewrite sm_erase_absent in H2 by (by apply sm_find_erase_eq || by apply sm_erase_sorted).
Qed.
End backend.

(** * The cron task *)

Section cron.
Context {C : Type} {Ops : ConnOps C} {CL : ConnLaws C}.
Implicit Types t : backend C.

(** An entry whose connection has been silent for longer than the timeout. *)
Definition silent (now : Z) t (e : Z * ptr) : bool :=
  match heap (mem (peers_ t)) !! e.2 with
  | Some c => (0 <? keepalive_timeout_ (peers_ t)) &&
      (keepalive_timeout_ (peers_ t) <? now - last_interaction_ (conn_base c))
  | None => false
  end.

(** Every entry leads to a connection with the descriptor it is filed under. *)
Definition filed (l : list (Z * ptr)) t : Prop :=
  forall fd p, (fd, p) ∈ l ->
    sm_find fd (conns_ t) = Some p /\ exists c, heap (mem (peers_ t)) !! p = Some c /\ fd_ (conn_base c) = fd.

Lemma backend_scan_spec now fuel l t :
  (forall c, exists c', conn_TryResizeBuffer now c = Ret c') ->
  filed l t -> NoDup (map fst l) -> (length l <= fuel)%nat ->
  if existsb (silent now t) l then cron_scan now fuel l t = Fault UseAfterFree
  else exists t', cron_scan now fuel l t = Ret t' /\ conns_ t' = conns_ t /\ to_send_ t' = to_send_ t.
Proof.
  intros Htry. revert l t. induction fuel as [|fuel IH]; intros [|[fd p] l] t Hl Hnd Hn; try (by exists t); simpl in Hn; [lia|].
  cbn [cron_scan existsb]. destruct (Hl fd p) as (Hfind & c & Hc & Hfd); [apply elem_of_cons; by left|].
  change (NoDup (fd :: map fst l)) in Hnd. apply NoDup_cons in Hnd as [Hni Hnd].
  unfold deref. unfold silent at 1. cbn [snd]. rewrite Hc. cbn [obind].
  destruct (_ && _)%bool eqn:Es; cbn [orb].
  - rewrite Hfd. cbn [conns_ on_peers put_peers]. rewrite Hfind. rewrite bool_decide_true by done. by rewrite Z.eqb_refl.
  - destruct (Htry c) as [c' Hc']. pose proof (TryResizeBuffer_id now c) as Hid. rewrite Hc' in Hid |- *. cbn [obind].
    set (t1 := on_peers _ t).
    assert (Hsame : forall k q, (k, q) ∈ l -> heap (mem (peers_ t1)) !! q = heap (mem (peers_ t)) !! q).
    { intros k q Hin. apply lookup_insert_ne. intros <-. destruct (Hl k p) as (_ & d & Hd & Hk); [apply elem_of_cons; by right|].
      rewrite Hc in Hd. injection Hd as <-. apply Hni. apply list_elem_of_fmap. exists (k, p). split; [by rewrite <- Hfd|done]. }
    specialize (IH l t1).
    replace (existsb (silent now t) l) with (existsb (silent now t1) l).
    + apply IH; [|done|lia]. intros k q Hin. rewrite (Hsame k q Hin). apply Hl, elem_of_cons. by right.
    + clear -Hsame. induction l as [|[k q] l IHl]; [done|]. cbn [existsb]. f_equal.
      * unfold silent. cbn [snd]. by rewrite (Hsame k q) by (apply elem_of_cons; by left).
      * apply IHl. intros k' q' Hin. apply (Hsame k' q'), elem_of_cons. by right.
Qed.
End cron.

(** * The theorems *)

(** C32: [Close] of a live connection stops the thread. The notification is handled
    with [mu_] held, and [CloseFd] locks [mu_] again: with a mutex that is not
    recursive, as those of [slash] are, the thread waits for itself for ever. With
    a recursive one the event returns, and the connection is out of the table and
    of the set of connecting descriptors, its descriptor is closed, its messages
    are dropped, and the user is told. *)
Theorem backend_close_deadlocks {C} {Ops : ConnOps C} (t : backend C) fd p :
  sm_find fd (conns_ t) = Some p -> sm_sorted (conns_ t) -> sm_sorted (to_send_ t) -> pipe_of t = [] ->
  exists t1, Close fd t = Ret (OK, t1) /\ ProcessNotifyEvents false EPOLLIN t1 = Fault Diverges /\
    exists t2, ProcessNotifyEvents true EPOLLIN t1 = Ret t2 /\ sm_find fd (conns_ t2) = None /\
      (fd ∉ connecting_fds_ (peers_ t2)) /\ fds (mem (peers_ t2)) !! fd = None /\ sm_find fd (to_send_ t2) = None /\
      handle_log (mem (peers_ t2)) = handle_log (mem (peers_ t)) ++ [FdClosed fd []].
Proof.
  intros Hp Hso Hss Hq. unfold Close. rewrite Hp. eexists. split; [reflexivity|].
  unfold pipe_of in Hq. unfold ProcessNotifyEvents, read_items. cbn. rewrite Hq. cbn.
  split; [reflexivity|]. eexists. split; [reflexivity|]. cbn. split_and!; try done.
  - by apply sm_find_erase_eq.
  - set_solver.
  - by rewrite lookup_delete_eq.
  - by apply sm_find_erase_eq.
Qed.

(** The cron task survives only when no connection is silent for too long. When
    every entry of the table leads to a connection with its descriptor and
    [TryResizeBuffer] returns: if some connection has been silent for longer than
    the timeout, the entry is erased through its key while the iterator stands on
    it, and the iterator is used afterwards; otherwise the task returns with the
    table and the messages as they were. *)
Theorem backend_cron_erases_under_iterator {C} {Ops : ConnOps C} {CL : ConnLaws C} now (t : backend C) :
  (forall c, exists c', conn_TryResizeBuffer now c = Ret c') -> sm_sorted (conns_ t) -> filed (conns_ t) t ->
  if existsb (silent now t) (conns_ t) then DoCronTask now t = Fault UseAfterFree
  else exists t', DoCronTask now t = Ret t' /\ conns_ t' = conns_ t /\ to_send_ t' = to_send_ t.
Proof. intros Htry Hso Hf. apply backend_scan_spec; [done|done|by apply sm_sorted_nodup|done]. Qed.

(** C31: messages are delivered in the order of their calls of [Write]. When the
    pipe is empty and between one and 64 calls of [Write] for a descriptor return
    [OK], the next notification event returns, and the connection of the
    descriptor has been given every message that was waiting for it, the new ones
    last, each once and in order; nothing is left waiting, and the pipe is empty. *)
Theorem backend_messages_delivered {C} {Ops : ConnOps C} AccessHandle recursive fd p c msgs (t t1 : backend C) :
  sm_find fd (conns_ t) = Some p -> heap (mem (peers_ t)) !! p = Some c -> sm_sorted (to_send_ t) -> pipe_of t = [] ->
  msgs <> [] -> (length msgs <= 64)%nat -> writes_fd AccessHandle fd msgs t t1 ->
  exists t2, ProcessNotifyEvents recursive EPOLLIN t1 = Ret t2 /\ sm_find fd (conns_ t2) = Some p /\
    heap (mem (peers_ t2)) !! p = Some (posted (default [] (sm_find fd (to_send_ t)) ++ msgs) c) /\
    sm_find fd (to_send_ t2) = None /\ pipe_of t2 = [].
Proof.
  intros Hp Hc Hso Hq Hne Hlen Hw.
  destruct (writes_fd_holds AccessHandle fd p c msgs (to_send_ t) [] t t1) as (s & (Hp1 & Hc1 & Hs1 & Hq1) & Hs & Hso1); try done.
  specialize (Hso1 Hso). unfold pipe_of in Hq1. unfold ProcessNotifyEvents. change (negb (has EPOLLIN EPOLLIN)) with false. cbn iota.
  unfold read_items. rewrite Hq1, app_nil_l.
  rewrite (take_ge (replicate _ _)), (drop_ge (replicate _ _)) by (rewrite length_replicate; lia).
  rewrite bool_decide_false by by destruct msgs.
  destruct (handle_items_holds recursive fd p c s [] (length msgs)
    (on_peers (PeerConns.put_epoll (set_notify_queue [] (pink_epoll_ (peers_ t1)))) t1)) as (t2 & E & H2 & H3 & H4 & H5); try done;
    [destruct msgs; [done|simpl; lia]|].
  exists t2. split_and!; try done; [by rewrite H3, Hs|rewrite H4; by apply sm_find_erase_eq].
Qed.

(** * Witnesses *)

(** A thread with one connection, on descriptor 7. *)
Definition seven : EchoConn := mkEcho (new_PinkConn 7 (bs "h:1") 0) [].
Definition one_backend : backend EchoConn :=
  mkBackend [(7, 1)] []
    (mkPeers (PinkAddEvent true 7 (Z.lor EPOLLIN EPOLLOUT) (new_PinkEpoll 3)).2 {[7]} 60 []
       (mkWorld {[1 := seven]} 2 [] {[7 := client (bs "hi")]} [])).

Lemma backend_close_deadlocks_witness :
  exists t1, Close 7 one_backend = Ret (OK, t1) /\ ProcessNotifyEvents false EPOLLIN t1 = Fault Diverges /\
    exists t2, ProcessNotifyEvents true EPOLLIN t1 = Ret t2 /\ sm_find 7 (conns_ t2) = None /\
      (7 ∉ connecting_fds_ (peers_ t2)) /\ fds (mem (peers_ t2)) !! 7 = None /\ sm_find 7 (to_send_ t2) = None /\
      handle_log (mem (peers_ t2)) = handle_log (mem (peers_ one_backend)) ++ [FdClosed 7 []].
Proof. apply (backend_close_deadlocks one_backend 7 1); [reflexivity|repeat constructor|constructor|vm_compute; reflexivity]. Defined.

Lemma backend_cron_erases_under_iterator_witness :
  existsb (silent 100 one_backend) (conns_ one_backend) = true /\
  if existsb (silent 100 one_backend) (conns_ one_backend) then DoCronTask 100 one_backend = Fault UseAfterFree
  else exists t', DoCronTask 100 one_backend = Ret t' /\ conns_ t' = conns_ one_backend /\ to_send_ t' = to_send_ one_backend.
Proof.
  split; [reflexivity|]. apply (backend_cron_erases_under_iterator 100 one_backend); [by intros c; exists c|repeat constructor|].
  intros fd p Hin. assert (fd = 7 /\ p = 1) as [-> ->] by set_solver. split; [reflexivity|]. by exists seven.
Defined.

Lemma backend_messages_delivered_witness :
  exists t1 t2, ProcessNotifyEvents false EPOLLIN t1 = Ret t2 /\ sm_find 7 (conns_ t2) = Some 1 /\
    heap (mem (peers_ t2)) !! 1 = Some (posted [bs "a"; bs "b"] seven) /\
    sm_find 7 (to_send_ t2) = None /\ pipe_of t2 = [].
Proof.
  eexists. apply (backend_messages_delivered (fun _ => true) false 7 1 seven [bs "a"; bs "b"] one_backend);
    [reflexivity|reflexivity|constructor|vm_compute; reflexivity|done|simpl; lia|].
  eapply AWrite; [vm_compute; reflexivity|]. eapply AWrite; [vm_compute; reflexivity|]. apply NoWrites.
Defined.
