(* ===== verification/RedisConn.v ===== *)
(** [pink/include/redis_conn.h] and [pink/src/redis_conn.cc]: the server side of
    a redis connection: its read buffer, the parser it feeds and the responses it
    sends with [writev] (the default build). *)
From S2P Require Import Pink Prelude Sys Slash RedisParser PinkConn.

Inductive HandleType : Type := kSynchronous | kAsynchronous.

#[export] Instance HandleType_eq_dec : EqDecision HandleType.
Proof. solve_decision. Defined.

(** * The vectored write *)

(** [terark::easy_writev(fd, iov, num, &iov_idx)]: terark is a separate library.
    The entries hold the bytes that are left of them; the result is the number
    returned, the [errno] left, and the new entries and index. *)
Class Writev : Type := {
  easy_writev : list bytes -> Z -> sock -> Z * errno * list bytes * Z * sock
}.

(** What the connection relies on: some prefix of the entries is written and
    taken off them in order, an entry is emptied in place (so that the last entry
    is emptied last), a positive result means that something was written, and the
    index stays that of a write in progress. *)
Class WritevLaws (W : Writev) : Prop := {
  writev_sends iov idx s :
    let '(n, e, iov', idx', s') := easy_writev iov idx s in
    exists k, sent s' = sent s ++ ztake k (concat iov) /\ concat iov' = zdrop k (concat iov) /\
      0 <= k <= zlen (concat iov) /\ length iov' = length iov /\ rdq s' = rdq s /\
      (0 < n -> 0 < k) /\ (0 <= idx -> 0 <= idx') /\
      (last iov <> Some [] -> last iov' = Some [] -> concat iov' = [])
}.

Section conn.
Context {SL : Slash} {WV : Writev}.
(** The subclass's own state, and its handlers. What they give to [WriteResp] is
    the list they return. *)
Context {U : Type}.
Context (DealMessage : RedisCmdArgsType -> U -> Z * list bytes * U).
Context (ProcessRedisCmds : list RedisCmdArgsType -> bool -> U -> list bytes * U).
Context (realloc_ok : Z -> bool).

(** * The state *)

(** The part the parser's callbacks change through [data]. *)
Record Client : Type := mkClient {
  handle_type_ : HandleType;
  response_ : list bytes;
  base : PinkConn;
  user : U
}.

(** The contents of [rbuf_] are not part of the state: the bytes a [read] stores
    are given to the parser at once and never looked at again. *)
Record RedisConn : Type := mkRedisConn {
  client : Client;
  rbuf_len_ : Z;
  rbuf_max_len_ : Z;
  msg_peak_ : Z;
  command_len_ : Z;
  num_retry_ : Z;
  iov_idx_ : Z;
  iov_ : list bytes;
  last_read_pos_ : Z;
  redis_parser_ : RedisParser Client;
  bulk_len_ : Z
}.

Definition set_client (v : Client) (c : RedisConn) : RedisConn :=
  mkRedisConn v (rbuf_len_ c) (rbuf_max_len_ c) (msg_peak_ c) (command_len_ c) (num_retry_ c)
    (iov_idx_ c) (iov_ c) (last_read_pos_ c) (redis_parser_ c) (bulk_len_ c).
Definition set_rbuf_len (v : Z) (c : RedisConn) : RedisConn :=
  mkRedisConn (client c) v (rbuf_max_len_ c) (msg_peak_ c) (command_len_ c) (num_retry_ c)
    (iov_idx_ c) (iov_ c) (last_read_pos_ c) (redis_parser_ c) (bulk_len_ c).
Definition set_msg_peak (v : Z) (c : RedisConn) : RedisConn :=
  mkRedisConn (client c) (rbuf_len_ c) (rbuf_max_len_ c) v (command_len_ c) (num_retry_ c)
    (iov_idx_ c) (iov_ c) (last_read_pos_ c) (redis_parser_ c) (bulk_len_ c).
Definition set_command_len (v : Z) (c : RedisConn) : RedisConn :=
  mkRedisConn (client c) (rbuf_len_ c) (rbuf_max_len_ c) (msg_peak_ c) v (num_retry_ c)
    (iov_idx_ c) (iov_ c) (last_read_pos_ c) (redis_parser_ c) (bulk_len_ c).
Definition set_num_retry (v : Z) (c : RedisConn) : RedisConn :=
  mkRedisConn (client c) (rbuf_len_ c) (rbuf_max_len_ c) (msg_peak_ c) (command_len_ c) v
    (iov_idx_ c) (iov_ c) (last_read_pos_ c) (redis_parser_ c) (bulk_len_ c).
Definition set_iov (iov : list bytes) (idx : Z) (c : RedisConn) : RedisConn :=
  mkRedisConn (client c) (rbuf_len_ c) (rbuf_max_len_ c) (msg_peak_ c) (command_len_ c) (num_retry_ c)
    idx iov (last_read_pos_ c) (redis_parser_ c) (bulk_len_ c).
Definition set_last_read_pos (v : Z) (c : RedisConn) : RedisConn :=
  mkRedisConn (client c) (rbuf_len_ c) (rbuf_max_len_ c) (msg_peak_ c) (command_len_ c) (num_retry_ c)
    (iov_idx_ c) (iov_ c) v (redis_parser_ c) (bulk_len_ c).
Definition set_parser (v : RedisParser Client) (c : RedisConn) : RedisConn :=
  mkRedisConn (client c) (rbuf_len_ c) (rbuf_max_len_ c) (msg_peak_ c) (command_len_ c) (num_retry_ c)
    (iov_idx_ c) (iov_ c) (last_read_pos_ c) v (bulk_len_ c).
Definition set_bulk_len_ (v : Z) (c : RedisConn) : RedisConn :=
  mkRedisConn (client c) (rbuf_len_ c) (rbuf_max_len_ c) (msg_peak_ c) (command_len_ c) (num_retry_ c)
    (iov_idx_ c) (iov_ c) (last_read_pos_ c) (redis_parser_ c) v.

Definition set_response (v : list bytes) (cl : Client) : Client :=
  mkClient (handle_type_ cl) v (base cl) (user cl).
Definition set_user (v : U) (cl : Client) : Client :=
  mkClient (handle_type_ cl) (response_ cl) (base cl) v.
Definition reply_flag (cl : Client) : Client :=
  mkClient (handle_type_ cl) (response_ cl) (set_is_reply true (base cl)) (user cl).

Definition GetHandleType (cl : Client) : HandleType := handle_type_ cl.
Definition SetHandleType (h : HandleType) (cl : Client) : Client :=
  mkClient h (response_ cl) (base cl) (user cl).

(** * The parser's callbacks *)

(** [WriteResp]. *)
Definition WriteResp (resp : bytes) (cl : Client) : Client :=
  reply_flag (set_response (response_ cl ++ [resp]) cl).

Definition write_resps (resps : list bytes) (cl : Client) : Client :=
  fold_left (fun cl r => WriteResp r cl) resps cl.

Definition ParserDealMessageCb (argv : RedisCmdArgsType) (cl : Client) : Z * Client :=
  if bool_decide (GetHandleType cl = kSynchronous) then
    let '(r, resps, u) := DealMessage argv (user cl) in
    (r, write_resps resps (set_user u cl))
  else (0, cl).

Definition ParserCompleteCb (argvs : list RedisCmdArgsType) (cl : Client) : Z * Client :=
  let async := bool_decide (GetHandleType cl = kAsynchronous) in
  let '(resps, u) := ProcessRedisCmds argvs async (user cl) in
  (0, write_resps resps (set_user u cl)).

Definition conn_settings : RedisParserSettings Client :=
  {| RedisParser.DealMessage := Some ParserDealMessageCb; Complete := Some ParserCompleteCb |}.

(** The constructor. *)
Definition new_RedisConn (fd : Z) (ip_port : bytes) (now : Z) (handle_type : HandleType)
    (rbuf_max_len : Z) (u : U) : RedisConn :=
  {| client := mkClient handle_type [] (new_PinkConn fd ip_port now) u;
     rbuf_len_ := 0; rbuf_max_len_ := rbuf_max_len; msg_peak_ := 0; command_len_ := 0;
     num_retry_ := 0; iov_idx_ := -1; iov_ := []; last_read_pos_ := -1;
     redis_parser_ := (RedisParserInit REDIS_PARSER_REQUEST conn_settings new_parser).2;
     bulk_len_ := -1 |}.

(** * Reading *)

Definition ParseRedisParserStatus (status : RedisParserStatus) (e : RedisParserError) : ReadStatus :=
  match status with
  | kRedisParserInitDone => kOk
  | kRedisParserHalf => kReadHalf
  | kRedisParserDone => kReadAll
  | kRedisParserError =>
      match e with
      | kRedisParserOk => kReadError
      | kRedisParserInitError => kReadError
      | kRedisParserFullError => kFullError
      | kRedisParserProtoError => kParseError
      | kRedisParserDealError => kDealError
      | kRedisParserCompleteError => kReadError
      end
  | kRedisParserNone => kReadError
  end.

(** A checked [int]. *)
Definition int_of (z : Z) : outcome Z :=
  if (INT_MIN <=? z) && (z <=? INT_MAX) then Ret z else Fault Overflow.

(** The sizes of the next read: [next_read_pos], [remain] and [new_size].
    [bulk_len_] is a [long] and is narrowed. *)
Definition read_sizes (c : RedisConn) : outcome (Z * Z * Z) :=
  let! next := int_of (last_read_pos_ c + 1) in
  let! remain := int_of (rbuf_len_ c - next) in
  if remain =? 0 then
    let! new_size := int_of (rbuf_len_ c + REDIS_IOBUF_LEN) in
    Ret (next, remain + REDIS_IOBUF_LEN, new_size)
  else if remain <? bulk_len_ c then
    if LONG_MAX <? next + bulk_len_ c then Fault Overflow
    else Ret (next, to_i32 (bulk_len_ c), to_i32 (next + bulk_len_ c))
  else Ret (next, remain, 0).

(** [if (new_size > rbuf_len_)]: [None] is [kFullError]. *)
Definition enlarge (new_size : Z) (c : RedisConn) : outcome (option RedisConn) :=
  if rbuf_len_ c <? new_size then
    if rbuf_max_len_ c <? new_size then Ret None
    else
      let! x := int_of (rbuf_len_ c * 3) in
      let new_size := Z.min (rbuf_max_len_ c) (Z.max (Z.quot x 2) new_size) in
      if realloc_ok new_size then Ret (Some (set_rbuf_len new_size c)) else Ret None
  else Ret (Some c).

(** From [redis_parser_.ProcessInputBuffer] on, with the bytes read. *)
Definition process_input (d : bytes) (c : RedisConn) : outcome (ReadStatus * RedisConn) :=
  let! (ret, p, cl) := ProcessInputBuffer d (redis_parser_ c) (client c) in
  let c := set_client cl (set_parser p c) in
  let read_status := ParseRedisParserStatus ret (get_error_code p) in
  let c :=
    if bool_decide (read_status = kReadAll) || bool_decide (read_status = kReadHalf) then
      let c := if bool_decide (read_status = kReadAll) then set_command_len 0 c else c in
      set_bulk_len_ (get_bulk_len p) (set_last_read_pos (-1) c)
    else c in
  let c := match response_ (client c) with [] => c | _ => set_client (reply_flag (client c)) c end in
  Ret (read_status, c).

Definition GetRequest (c : RedisConn) (s : sock) : outcome (ReadStatus * RedisConn * sock) :=
  let! (next, remain, new_size) := read_sizes c in
  let! grown := enlarge new_size c in
  match grown with
  | None => Ret (kFullError, c, s)
  | Some c =>
      let '(res, d, s) := sys_read (to_u64 remain) s in
      match res with
      | IoErr EAGAIN => Ret (kReadHalf, c, s)
      | IoErr _ => Ret (kReadError, c, s)
      | IoLen n =>
          if n =? 0 then Ret (kReadClose, c, s)
          else if (next <? 0) || (rbuf_len_ c <? next + n) then Fault OutOfBounds
          else
            let! last := int_of (last_read_pos_ c + n) in
            let! len := int_of (command_len_ c + n) in
            let c := set_command_len len (set_msg_peak last (set_last_read_pos last c)) in
            if rbuf_max_len_ c <=? len then Ret (kFullError, c, s)
            else let! (r, c) := process_input d c in Ret (r, c, s)
      end
  end.

(** * Sending *)

(** [iov[num-1].iov_len == 0] *)
Definition all_sent (iov : list bytes) : bool := bool_decide (last iov = Some []).

(** [do { ... } while (nwritten > 0);] with the last result and [errno]. *)
Fixpoint writev_loop (fuel : nat) (c : RedisConn) (s : sock)
    : outcome (option (Z * errno) * RedisConn * sock) :=
  match fuel with
  | O => Fault Diverges
  | S f =>
      let '(n, e, iov, idx, s) := easy_writev (iov_ c) (iov_idx_ c) s in
      let c := set_iov iov idx c in
      if all_sent iov then
        Ret (None, set_iov [] (-1) (set_client (set_response [] (client c)) c), s)
      else if 0 <? n then writev_loop f c s
      else Ret (Some (n, e), c, s)
  end.

(** What is done with an unfinished write. *)
Definition write_stopped (n : Z) (e : errno) (c : RedisConn) : WriteStatus * RedisConn :=
  if n =? -1 then
    match e with
    | EAGAIN => (kWriteHalf, set_num_retry 0 c)
    | EDEADLK =>
        if num_retry_ c <? 5 then (kWriteHalf, set_num_retry (num_retry_ c + 1) c)
        else (kWriteError, set_num_retry 0 c)
    | _ => (kWriteError, set_num_retry 0 c)
    end
  else (kWriteHalf, c).

(** The entries for the responses that are not empty. *)
Definition iov_of (responses : list bytes) : list bytes := filter (fun r => r <> []) responses.

Definition SendReply (c : RedisConn) (s : sock) : outcome (WriteStatus * RedisConn * sock) :=
  match response_ (client c) with
  | [] => Ret (kWriteAll, c, s)
  | _ =>
      let start := iov_idx_ c <? 0 in
      let iov := if start then iov_of (response_ (client c)) else iov_ c in
      if start && bool_decide (iov = []) then Ret (kWriteAll, c, s)
      else
        let c := if start then set_iov iov 0 c else c in
        let! (r, c, s) := writev_loop (S (Z.to_nat (zlen (concat (iov_ c))))) c s in
        match r with
        | None => Ret (kWriteAll, c, s)
        | Some (n, e) => let '(st, c) := write_stopped n e c in Ret (st, c, s)
        end
  end.

(** * Shrinking the buffer *)

Definition TryResizeBuffer (now : Z) (c : RedisConn) : outcome RedisConn :=
  let idletime := to_i32 (now - last_interaction_ (base (client c))) in
  if REDIS_MBULK_BIG_ARG <? rbuf_len_ c then
    if msg_peak_ c =? -1 then Fault Overflow
    else if (2 <? Z.quot (rbuf_len_ c) (msg_peak_ c + 1)) || (2 <? idletime) then
      let new_size := Z.quot (last_read_pos_ c + REDIS_IOBUF_LEN) REDIS_IOBUF_LEN * REDIS_IOBUF_LEN in
      let c := if new_size <? rbuf_len_ c then set_rbuf_len new_size c else c in
      Ret (set_msg_peak 0 c)
    else Ret c
  else Ret c.
End conn.

Arguments Client U : clear implicits.
Arguments RedisConn U : clear implicits.
#[global] Arguments writev_loop {WV U} fuel c s : simpl never.

(** [NotifyEpoll]: the event registered with the poller. *)
Definition NotifyEpoll (success : bool) (fd : Z) : Z * NotifyType :=
  (fd, if success then kNotiEpolloutAndEpollin else kNotiClose).

(** * A concrete vectored write *)

(** [k] bytes taken off the entries, in order. *)
Fixpoint take_off (k : Z) (iov : list bytes) : list bytes :=
  match iov with
  | [] => []
  | i :: iov => zdrop k i :: take_off (k - zlen i) iov
  end.

(** One [write] of everything. *)
#[export] Instance ref_writev : Writev := {
  easy_writev iov idx s :=
    match sys_write (concat iov) s with
    | (IoLen n, s) => (n, EAGAIN, take_off n iov, idx, s)
    | (IoErr e, s) => (-1, e, iov, idx, s)
    end
}.

Lemma concat_take_off k iov : concat (take_off k iov) = zdrop k (concat iov).
Proof.
  revert k. induction iov as [|i iov IH]; intros k; [symmetry; apply drop_nil|].
  cbn [take_off concat]. rewrite IH. unfold zdrop, zlen. rewrite drop_app.
  do 2 f_equal. lia.
Qed.

Lemma length_take_off k iov : length (take_off k iov) = length iov.
Proof. revert k. induction iov as [|i iov IH]; intros k; [done|]. simpl. by rewrite IH. Qed.

Lemma take_off_last k iov :
  last iov <> Some [] -> last (take_off k iov) = Some [] -> concat (take_off k iov) = [].
Proof.
  rewrite concat_take_off. revert k. induction iov as [|i [|j iov] IH]; intros k Hl Ht; [done| |].
  - simpl in *. rewrite app_nil_r. by injection Ht as ->.
  - change (last (take_off (k - zlen i) (j :: iov)) = Some []) in Ht.
    specialize (IH (k - zlen i) Hl Ht). apply (f_equal zlen) in IH.
    unfold zdrop, zlen in IH. cbn [concat] in *. rewrite length_drop in IH.
    assert (length (j ++ concat iov) <= Z.to_nat (k - Z.of_nat (length i)))%nat by (simpl in IH; lia).
    assert (j ++ concat iov <> []).
    { clear -Hl. revert j Hl. induction iov as [|x iov IH]; intros j Hl; simpl in *.
      - rewrite app_nil_r. congruence.
      - intros H. apply app_eq_nil in H as [_ H]. by apply (IH x). }
    unfold zdrop. apply drop_ge. rewrite length_app. destruct (j ++ concat iov); [done|]. simpl in *. lia.
Qed.

#[export] Instance ref_writev_laws : WritevLaws ref_writev.
Proof.
  split. intros iov idx s. simpl. destruct (sys_write (concat iov) s) as [r s'] eqn:W.
  pose proof (sys_write_prefix _ _ _ _ W) as [H Hr]. destruct r as [n|e].
  - destruct H as [Hn Hs]. exists n. rewrite concat_take_off, length_take_off.
    split_and!; try done; try lia. rewrite <- concat_take_off. apply take_off_last.
  - exists 0. pose proof (zlen_nonneg (concat iov)). split_and!; try done; [|lia..].
    rewrite H. by rewrite app_nil_r.
Qed.
