(* ===== verification/RedisConnFacts.v ===== *)
(** Facts about the redis connection: its read buffer, the commands it hands to
    the subclass, and its responses. *)
From S2P Require Import Pink Prelude Sys Slash RedisParser RedisParserFacts.
From S2P Require Import RedisCodec RedisCodecFacts RedisStream PinkConn RedisConn.

(** * The read buffer *)

Section reading.
Context {SL : Slash} {SLL : SlashLaws SL} {U : Type}.
Context (realloc_ok : Z -> bool).
Hypothesis realloc_works : forall n, realloc_ok n = true.
Implicit Types c : RedisConn U.

(** The connection between two calls of [GetRequest]. *)
Record reading c : Prop := {
  rd_pos : last_read_pos_ c = -1;
  rd_room : 0 <= rbuf_len_ c <= rbuf_max_len_ c;
  rd_max : REDIS_IOBUF_LEN <= rbuf_max_len_ c <= REDIS_MAX_MESSAGE;
  rd_count : 0 <= command_len_ c < rbuf_max_len_ c;
  rd_parser : idle (redis_parser_ c);
  rd_alive : status_code (redis_parser_ c) <> kRedisParserError;
  rd_half : zlen (half_argv (redis_parser_ c)) <= command_len_ c;
  rd_bulk : bulk_len_ c = get_bulk_len (redis_parser_ c)
}.

(** The sizes: those of a fresh buffer, of the buffer, or of the argument, narrowed. *)
Lemma read_sizes_spec c :
  reading c -> bulk_len_ c <= LONG_MAX ->
  exists remain new_size, read_sizes c = Ret (0, remain, new_size) /\
    ((rbuf_len_ c = 0 /\ remain = REDIS_IOBUF_LEN /\ new_size = REDIS_IOBUF_LEN) \/
     (0 < rbuf_len_ c /\ bulk_len_ c <= rbuf_len_ c /\ remain = rbuf_len_ c /\ new_size = 0) \/
     (0 < rbuf_len_ c < bulk_len_ c /\ remain = to_i32 (bulk_len_ c) /\ new_size = to_i32 (bulk_len_ c))).
Proof.
  intros [Hp Hr Hm _ _ _ _ _] Hb. unfold read_sizes, int_of. rewrite Hp.
  assert (HI : REDIS_IOBUF_LEN = 16384) by done. assert (HM : REDIS_MAX_MESSAGE = 268435456) by done.
  change ((INT_MIN <=? -1 + 1) && (-1 + 1 <=? INT_MAX)) with true. cbn [obind].
  change (-1 + 1) with 0. rewrite Z.sub_0_r.
  rewrite !(proj2 (Z.leb_le _ _)) by clia. cbn [andb obind].
  destruct (rbuf_len_ c =? 0) eqn:E; b2p.
  - rewrite HI, E. change ((INT_MIN <=? 0 + 16384) && (0 + 16384 <=? INT_MAX)) with true.
    cbn [obind]. exists 16384, 16384. split; [done|]. by left.
  - destruct (rbuf_len_ c <? bulk_len_ c) eqn:E2; b2p.
    + rewrite (proj2 (Z.ltb_ge _ _)), Z.add_0_l by clia. eexists _, _. split; [done|]. right. right. split; [lia|]. by split.
    + exists (rbuf_len_ c), 0. split; [done|]. right. left. split; [lia|]. by split.
Qed.

(** The buffer after it was made to hold [new_size] bytes. *)
Lemma enlarge_spec c new_size :
  reading c -> new_size <= INT_MAX ->
  (enlarge realloc_ok new_size c = Ret None /\ rbuf_max_len_ c < new_size) \/
  exists n, enlarge realloc_ok new_size c = Ret (Some (set_rbuf_len n c)) /\
    new_size <= n /\ rbuf_len_ c <= n <= rbuf_max_len_ c /\ (new_size <= rbuf_len_ c -> n = rbuf_len_ c).
Proof.
  intros [_ Hr Hm _ _ _ _ _] Hn. unfold enlarge.
  assert (HM : REDIS_MAX_MESSAGE = 268435456) by done.
  destruct (rbuf_len_ c <? new_size) eqn:E; b2p.
  2:{ right. exists (rbuf_len_ c). split; [by destruct c|]. lia. }
  destruct (rbuf_max_len_ c <? new_size) eqn:E2; b2p; [by left|]. right.
  unfold int_of. rewrite !(proj2 (Z.leb_le _ _)) by clia. cbn [andb obind]. rewrite realloc_works.
  eexists. split; [done|]. lia.
Qed.

Context (DealMessage : RedisCmdArgsType -> U -> Z * list bytes * U).
Context (ProcessRedisCmds : list RedisCmdArgsType -> bool -> U -> list bytes * U).

Lemma reading_set_rbuf_len n c :
  reading c -> rbuf_len_ c <= n <= rbuf_max_len_ c -> reading (set_rbuf_len n c).
Proof. intros [] Hn. constructor; simpl in *; done || lia. Qed.

(** What [process_input] keeps. *)
Definition read_ok c c' : Prop :=
  rbuf_len_ c' = rbuf_len_ c /\ rbuf_max_len_ c' = rbuf_max_len_ c /\
  iov_idx_ c' = iov_idx_ c /\ iov_ c' = iov_ c.

(** The state in which the bytes [d] are given to the parser. *)
Definition stored (d : bytes) c : RedisConn U :=
  set_command_len (command_len_ c + zlen d)
    (set_msg_peak (-1 + zlen d) (set_last_read_pos (-1 + zlen d) c)).

Lemma status_live e s :
  ParseRedisParserStatus s e = kReadHalf \/ ParseRedisParserStatus s e = kReadAll ->
  s <> kRedisParserError.
Proof. destruct s; try done. destruct e; simpl; intros [?|?]; done. Qed.

Lemma process_input_wp d c :
  reading c -> d <> [] -> command_len_ c + zlen d < rbuf_max_len_ c ->
  wp input_fault
    (fun '(r, c') => read_ok c c' /\
       (r = kReadHalf \/ r = kReadAll -> reading c') /\
       (status_code (redis_parser_ c') = kRedisParserError -> r <> kReadHalf /\ r <> kReadAll))
    (process_input d (stored d c)).
Proof.
  intros Hrd Hd Hlen. pose proof (zlen_nonneg d).
  assert (HM : REDIS_MAX_MESSAGE = 268435456) by done.
  pose proof (rd_max _ Hrd). pose proof (rd_half _ Hrd). pose proof (rd_count _ Hrd).
  unfold process_input. apply wp_bind. simpl redis_parser_. simpl client.
  eapply wp_mono; [|apply ProcessInputBuffer_wp; [apply Hrd|done|rewrite zlen_app; clia]].
  intros [[s p'] cl'] (-> & Hi & _ & Hhalf & _). simpl wp. unfold get_error_code.
  set (st := ParseRedisParserStatus (status_code p') (error_code p')).
  pose proof (status_live (error_code p') (status_code p')) as Hlive. fold st in Hlive.
  assert (Hdone : st = kReadAll -> half_argv p' = []).
  { intros Hst. pose proof (idle_state p' Hi) as Hs. unfold st in Hst.
    destruct (status_code p'); try done; [by destruct Hs as (_ & (_ & _ & _ & -> & _) & _)|].
    by destruct (error_code p'). }
  assert (Hcount : st = kReadHalf -> zlen (half_argv p') <= command_len_ c + zlen d).
  { intros Hst. etrans; [apply Hhalf, Hlive; by left|]. rewrite zlen_app. lia. }
  destruct Hrd as [Hp Hr Hm Hc _ _ _ _].
  case_bool_decide as Hall; [|case_bool_decide as Hhf]; cbn [orb].
  - split; [by destruct (response_ _)|]. split.
    + intros _. destruct (response_ _); constructor; simpl; try done; try lia; try (by apply Hlive; auto);
        by rewrite Hdone.
    + intros He. exfalso. revert He. destruct (response_ _); simpl; apply Hlive; auto.
  - split; [by destruct (response_ _)|]. split.
    + intros _. destruct (response_ _); constructor; simpl; try done; try lia;
        try (by apply Hlive; auto); by apply Hcount.
    + intros He. exfalso. revert He. destruct (response_ _); simpl; apply Hlive; auto.
  - split; [by destruct (response_ _)|]. split; [by intros [?|?]|]. done.
Qed.

Lemma process_input_room d c r c' : process_input d c = Ret (r, c') -> rbuf_len_ c' = rbuf_len_ c.
Proof.
  unfold process_input. intros HP. obind_inv. destruct a as [[ret p] cl]. injection HP as _ <-.
  repeat case_match; done.
Qed.

(** After the sizes and the buffer: the [read] and what follows. *)
Definition receive (remain : Z) c (s : sock) : outcome (ReadStatus * RedisConn U * sock) :=
  let '(res, d, s) := sys_read remain s in
  match res with
  | IoErr EAGAIN => Ret (kReadHalf, c, s)
  | IoErr _ => Ret (kReadError, c, s)
  | IoLen n =>
      if n =? 0 then Ret (kReadClose, c, s)
      else if rbuf_max_len_ c <=? command_len_ c + n
      then Ret (kFullError, stored d c, s)
      else let! (r, c) := process_input d (stored d c) in Ret (r, c, s)
  end.

(** With sizes that allow a read. *)
Lemma sized_receive c s remain new_size :
  reading c -> read_sizes c = Ret (0, remain, new_size) -> 0 < remain <= INT_MAX -> new_size <= INT_MAX ->
  (remain <= new_size \/ remain <= rbuf_len_ c) ->
  (GetRequest realloc_ok c s = Ret (kFullError, c, s) /\ rbuf_max_len_ c < new_size) \/
  exists n, 0 < remain <= n /\ rbuf_len_ c <= n <= rbuf_max_len_ c /\
    (new_size <= rbuf_len_ c -> n = rbuf_len_ c) /\
    GetRequest realloc_ok c s = receive remain (set_rbuf_len n c) s.
Proof.
  intros Hrd HS Hrem Hnew Hfit. unfold GetRequest. rewrite HS. cbn [obind].
  destruct (enlarge_spec c new_size Hrd Hnew) as [[-> Hbig]|(n & -> & Hn & Hr & Hsame)]; [by left|].
  right. cbn [obind]. exists n. split; [lia|]. split; [done|]. split; [done|].
  assert (Hremn : remain <= n) by lia.
  assert (HM : REDIS_MAX_MESSAGE = 268435456) by done.
  pose proof (rd_max _ Hrd). pose proof (rd_count _ Hrd). pose proof (rd_pos _ Hrd) as Hpos.
  unfold receive. rewrite to_u64_id by clia.
  destruct (sys_read remain s) as [[res d] s1] eqn:R.
  pose proof (sys_read_incoming remain s res d s1 ltac:(lia) R) as (Hres & _).
  destruct res as [k|e]; [|done]. destruct Hres as [-> Hle]. destruct (zlen d =? 0) eqn:E; [done|]. b2p.
  pose proof (zlen_nonneg d). simpl rbuf_len_. change (0 <? 0) with false. cbn [orb].
  rewrite (proj2 (Z.ltb_ge n (0 + zlen d))) by lia. simpl last_read_pos_. simpl command_len_. rewrite Hpos.
  unfold int_of. rewrite !(proj2 (Z.leb_le _ _)) by clia. cbn [andb obind].
  simpl rbuf_max_len_. unfold stored. simpl. done.
Qed.

(** With a size that has become no positive number there is no read: the kernel refuses
    a negative count, and gives nothing for zero. *)
Lemma sized_nothing c s remain :
  reading c -> read_sizes c = Ret (0, remain, remain) -> INT_MIN <= remain <= 0 ->
  GetRequest realloc_ok c s = Ret (if remain =? 0 then kReadClose else kReadError, c, s).
Proof.
  intros Hrd HS Hrem. unfold GetRequest. rewrite HS. cbn [obind]. unfold enlarge. pose proof (rd_room _ Hrd).
  rewrite (proj2 (Z.ltb_ge _ _)) by lia. cbn [obind]. destruct (Z.eqb_spec remain 0) as [->|Hne]; [done|].
  rewrite sys_read_negative by clia. done.
Qed.

Lemma to_i32_int z : INT_MIN <= to_i32 z <= INT_MAX.
Proof. unfold to_i32. pose proof (Z.mod_pos_bound (z + 2 ^ 31) (2 ^ 32) ltac:(done)). clia. Qed.

Lemma GetRequest_receive c s :
  reading c -> bulk_len_ c <= LONG_MAX ->
  (GetRequest realloc_ok c s = Ret (kFullError, c, s) /\
     rbuf_max_len_ c < Z.max REDIS_IOBUF_LEN (bulk_len_ c)) \/
  (exists n remain, 0 < remain <= n /\ rbuf_len_ c <= n <= rbuf_max_len_ c /\
     GetRequest realloc_ok c s = receive remain (set_rbuf_len n c) s) \/
  (INT_MAX < bulk_len_ c /\ exists r, (r = kReadError \/ r = kReadClose) /\ GetRequest realloc_ok c s = Ret (r, c, s)).
Proof.
  intros Hrd Hb. destruct (read_sizes_spec c Hrd Hb) as (remain & new_size & HS & Hsz).
  assert (HM : REDIS_MAX_MESSAGE = 268435456) by done. assert (HI : REDIS_IOBUF_LEN = 16384) by done.
  pose proof (rd_max _ Hrd). pose proof (rd_room _ Hrd). pose proof (to_i32_int (bulk_len_ c)) as Hi.
  assert (Hnarrow : to_i32 (bulk_len_ c) <= bulk_len_ c \/ bulk_len_ c <= 0).
  { destruct (Z.leb_spec (bulk_len_ c) INT_MAX); [|lia]. destruct (Z.leb_spec (bulk_len_ c) 0); [by right|].
    rewrite to_i32_id by clia. lia. }
  destruct (Z.leb_spec remain 0) as [Hz|Hz].
  - right. right. destruct Hsz as [(_ & ? & _)|[(? & _ & ? & _)|(Hl & Hr & Hn)]]; [lia..|]. subst remain new_size.
    rewrite (sized_nothing c s _ Hrd HS) by lia. split.
    + destruct (Z.leb_spec (bulk_len_ c) INT_MAX); [|done]. rewrite to_i32_id in Hz by clia. lia.
    + eexists. split; [|done]. destruct (_ =? 0); auto.
  - destruct (sized_receive c s remain new_size Hrd HS) as [[HG Hbig]|(n & Hrn & Hn & _ & HG)];
      [destruct Hsz as [(_ & -> & ->)|[(? & _ & -> & ->)|(Hl & -> & ->)]]; clia..| |].
    + left. split; [done|]. destruct Hsz as [(_ & _ & ->)|[(_ & _ & _ & ->)|(Hl & _ & ->)]]; lia.
    + right. left. by exists n, remain.
Qed.

Lemma GetRequest_wp c s :
  reading c -> bulk_len_ c <= LONG_MAX ->
  wp input_fault
    (fun '(r, c', s') => 0 <= rbuf_len_ c' <= rbuf_max_len_ c' /\
       iov_idx_ c' = iov_idx_ c /\ iov_ c' = iov_ c /\
       (r = kReadHalf \/ r = kReadAll -> reading c'))
    (GetRequest realloc_ok c s).
Proof.
  intros Hrd Hb. pose proof (rd_room _ Hrd) as Hroom.
  destruct (GetRequest_receive c s Hrd Hb) as [[-> _]|[(n & remain & Hrem & Hn & ->)|(_ & r & Hr & ->)]].
  { simpl. split_and!; try lia; [done..|]. by intros [?|?]. }
  2:{ simpl. split_and!; try lia; [done..|]. by destruct Hr as [-> | ->]; intros [?|?]. }
  pose proof (reading_set_rbuf_len n c Hrd Hn) as Hrd1. unfold receive.
  destruct (sys_read remain s) as [[res d] s1] eqn:R.
  pose proof (sys_read_incoming remain s res d s1 ltac:(lia) R) as (Hres & _).
  assert (Hstop : forall r, r = kReadHalf \/ ~ (r = kReadHalf \/ r = kReadAll) ->
    wp input_fault (fun '(r, c', s') => 0 <= rbuf_len_ c' <= rbuf_max_len_ c' /\
      iov_idx_ c' = iov_idx_ c /\ iov_ c' = iov_ c /\
      (r = kReadHalf \/ r = kReadAll -> reading c')) (Ret (r, set_rbuf_len n c, s1))).
  { intros r Hr. simpl. split_and!; try done; lia. }
  destruct res as [k|e].
  2:{ destruct e; apply Hstop; auto; right; by intros [?|?]. }
  destruct Hres as [-> Hle]. destruct (zlen d =? 0) eqn:E; b2p.
  { apply Hstop. right. by intros [?|?]. }
  destruct (rbuf_max_len_ (set_rbuf_len n c) <=? _) eqn:E2; b2p.
  { simpl. split_and!; try done; [lia..|]. by intros [?|?]. }
  apply wp_bind. eapply wp_mono; [|apply process_input_wp; try done; by intros ->].
  intros [r c'] ((Hl & Hm & Hi & Hv) & Hok & _). simpl in *.
  rewrite Hl, Hm, Hi, Hv. split_and!; try done; lia.
Qed.
End reading.

(** * A whole connection *)

Section serving.
Context {SL : Slash} {SLL : SlashLaws SL} {U : Type}.
Context (realloc_ok : Z -> bool).
Hypothesis realloc_works : forall n, realloc_ok n = true.
(** A handler that answers and reports success. *)
Context (handle : RedisCmdArgsType -> U -> list bytes * U).
Implicit Types c : RedisConn U.

Definition deal_ok (argv : RedisCmdArgsType) (u : U) : Z * list bytes * U :=
  let '(rs, u) := handle argv u in (0, rs, u).

(** The default [ProcessRedisCmds]: its body is empty. *)
Definition no_process (argvs : list RedisCmdArgsType) (async : bool) (u : U) : list bytes * U := ([], u).

(** The responses queued and the subclass's state, after the commands [cs]. *)
Definition executed (cs : list RedisCmdArgsType) (ru : list bytes * U) : list bytes * U :=
  fold_left (fun '(rs, u) argv => let '(new, u) := handle argv u in (rs ++ new, u)) cs ru.

Definition outbox (cl : Client U) : list bytes * U := (response_ cl, user cl).

Abbreviation deal_cb := (ParserDealMessageCb deal_ok).
Abbreviation comp_cb := (ParserCompleteCb no_process).

Lemma write_resps_spec rs (cl : Client U) :
  response_ (write_resps rs cl) = response_ cl ++ rs /\ user (write_resps rs cl) = user cl /\
  handle_type_ (write_resps rs cl) = handle_type_ cl.
Proof.
  revert cl. induction rs as [|r rs IH]; intros cl.
  { by rewrite app_nil_r. }
  change (write_resps (r :: rs) cl) with (write_resps rs (WriteResp r cl)).
  destruct (IH (WriteResp r cl)) as (-> & -> & ->). simpl. by rewrite <- app_assoc.
Qed.

Lemma deal_cb_accepts argv cl : (deal_cb argv cl).1 = 0.
Proof.
  unfold ParserDealMessageCb, deal_ok. case_bool_decide; [|done]. by destruct (handle argv (user cl)).
Qed.

Lemma comp_cb_accepts argvs cl : (comp_cb argvs cl).1 = 0.
Proof. done. Qed.

Lemma comp_cb_same argvs cl : (comp_cb argvs cl).2 = cl.
Proof. by destruct cl. Qed.

Lemma deals_executed cs cl :
  handle_type_ cl = kSynchronous ->
  outbox (deals deal_cb cs cl) = executed cs (outbox cl) /\
  handle_type_ (deals deal_cb cs cl) = kSynchronous.
Proof.
  revert cl. induction cs as [|argv cs IH]; intros cl Hs; [done|].
  unfold deals, executed, ParserDealMessageCb, deal_ok, GetHandleType. cbn [fold_left].
  rewrite Hs, bool_decide_eq_true_2 by done. unfold outbox at 2.
  destruct (handle argv (user cl)) as [rs u]. cbn [snd].
  destruct (write_resps_spec rs (set_user u cl)) as (Hr & Hu & Ht).
  destruct (IH (write_resps rs (set_user u cl))) as [HO Hh]; [by rewrite Ht|].
  split; [|exact Hh]. etrans; [exact HO|]. unfold executed, outbox. by rewrite Hr, Hu.
Qed.

Lemma executed_app cs1 cs2 ru : executed (cs1 ++ cs2) ru = executed cs2 (executed cs1 ru).
Proof. apply fold_left_app. Qed.

(** The connection in the middle of a stream: the commands [todo] are to come if
    the bytes still to arrive are [rest]. *)
Record on_stream c (rest : bytes) (todo : list RedisCmdArgsType) : Prop := {
  os_reading : reading c;
  os_settings : parser_settings (redis_parser_ c) = callbacks deal_cb comp_cb;
  os_type : handle_type_ (client c) = kSynchronous;
  os_expects : expects (redis_parser_ c) (half_argv (redis_parser_ c) ++ rest) todo;
  os_fits : command_len_ c + zlen rest < rbuf_max_len_ c;
  os_whole : Forall (fun argv => argv <> []) todo
}.

Lemma expects_bulk (p : RedisParser (Client U)) s cmds :
  expects p s cmds -> get_bulk_len p = -1 \/ get_bulk_len p <= zlen s.
Proof.
  unfold get_bulk_len. intros [? ? Hk ? ?|? ? Hk ? ?|rest cs ? ? Hk ? ? ?|a rest cs ? ? Hk ? ->]; auto.
  right. rewrite Hk, zlen_app. zlen_pos. lia.
Qed.

Lemma on_stream_bulk c rest todo : on_stream c rest todo -> bulk_len_ c < rbuf_max_len_ c.
Proof.
  intros [Hrd _ _ He Hf _]. rewrite (rd_bulk _ Hrd).
  pose proof (rd_half _ Hrd). pose proof (rd_max _ Hrd).
  assert (REDIS_IOBUF_LEN = 16384) by done.
  destruct (expects_bulk _ _ _ He) as [-> |Hbk]; [lia|]. rewrite zlen_app in Hbk. lia.
Qed.

Lemma status_of_done (p : RedisParser (Client U)) :
  (status_code p = kRedisParserHalf -> ParseRedisParserStatus (status_code p) (error_code p) = kReadHalf) /\
  (status_code p = kRedisParserDone -> ParseRedisParserStatus (status_code p) (error_code p) = kReadAll).
Proof. by split; intros ->. Qed.

(** One read: some commands are handed over, the rest is still to come. *)
Lemma process_input_track d c fut todo :
  on_stream c (d ++ fut) todo -> d <> [] ->
  exists r c' done_ todo', process_input d (stored d c) = Ret (r, c') /\ todo = done_ ++ todo' /\
    (r = kReadHalf \/ r = kReadAll) /\ on_stream c' fut todo' /\
    outbox (client c') = executed done_ (outbox (client c)).
Proof.
  intros [Hrd Hset Hty He Hf Hw] Hd. pose proof (zlen_nonneg fut).
  assert (HM : REDIS_MAX_MESSAGE = 268435456) by done.
  pose proof (rd_max _ Hrd). pose proof (rd_half _ Hrd). pose proof (rd_count _ Hrd).
  rewrite zlen_app in Hf.
  pose proof (process_input_wp d c Hrd Hd ltac:(lia)) as Hwp.
  destruct (ProcessInputBuffer_track deal_cb comp_cb deal_cb_accepts comp_cb_accepts d fut
    (redis_parser_ c) (client c) todo) as
    (dn & todo' & s & p' & cl' & Htd & HP & Hi' & Hset' & He' & Hm' & Hres); try done;
    [apply Hrd|apply Hrd|rewrite !zlen_app; clia|].
  assert (Hcl : outbox cl' = executed dn (outbox (client c)) /\ handle_type_ cl' = kSynchronous /\
    (status_code p' = kRedisParserHalf \/ status_code p' = kRedisParserDone)).
  { destruct (deals_executed dn (client c) Hty) as [HO Hh].
    destruct Hres as [(Hst & _ & ->)|(Hst & _ & ->)]; [by auto|]. rewrite comp_cb_same. auto. }
  destruct Hcl as (HO & Hh & Hst).
  assert (Hs : s = status_code p').
  { pose proof (ProcessInputBuffer_wp d (redis_parser_ c) (client c) (rd_parser _ Hrd) Hd) as Hw2.
    rewrite HP in Hw2. simpl in Hw2. apply Hw2. rewrite zlen_app. clia. }
  unfold process_input in Hwp |- *. simpl redis_parser_ in Hwp |- *. simpl client in Hwp |- *.
  rewrite HP in Hwp |- *. cbn [obind wp] in Hwp |- *. unfold get_error_code in Hwp |- *. rewrite Hs in Hwp |- *.
  destruct Hwp as (_ & Hok & _).
  assert (Hr : ParseRedisParserStatus (status_code p') (error_code p') = kReadHalf \/
               ParseRedisParserStatus (status_code p') (error_code p') = kReadAll).
  { destruct (status_of_done p'). destruct Hst; auto. }
  specialize (Hok Hr). eexists _, _, dn, todo'. split; [done|]. split; [done|]. split; [done|].
  rewrite Htd in Hw. apply Forall_app in Hw as [_ Hw].
  split.
  - assert (Hp : forall c1 : RedisConn U, reading c1 -> redis_parser_ c1 = p' -> handle_type_ (client c1) = kSynchronous ->
      command_len_ c1 + zlen fut < rbuf_max_len_ c1 -> on_stream c1 fut todo').
    { intros c1 Hrd1 Hp1 Ht1 Hf1. constructor; rewrite ?Hp1; done. }
    apply Hp; [exact Hok|..].
    all: pose proof (zlen_nonneg d); clear Hok Hp; repeat case_match; simpl; done || lia.
  - rewrite <- HO. clear Hok. by repeat case_match.
Qed.

Lemma on_stream_grown n c rest todo :
  on_stream c rest todo -> rbuf_len_ c <= n <= rbuf_max_len_ c -> on_stream (set_rbuf_len n c) rest todo.
Proof. intros [] Hn. constructor; simpl; try done. by apply reading_set_rbuf_len. Qed.

Lemma GetRequest_track c s todo :
  on_stream c (incoming (rdq s)) todo -> plain_queue (rdq s) ->
  exists r c' s' done_ todo', GetRequest realloc_ok c s = Ret (r, c', s') /\ todo = done_ ++ todo' /\
    (r = kReadHalf \/ r = kReadAll) /\ on_stream c' (incoming (rdq s')) todo' /\
    outbox (client c') = executed done_ (outbox (client c)) /\ plain_queue (rdq s') /\
    wrq s' = wrq s /\ sent s' = sent s /\
    (rdq s = [] /\ s' = s /\ redis_parser_ c' = redis_parser_ c \/ (rd_work (rdq s') < rd_work (rdq s))%nat).
Proof.
  intros Hos Hq. pose proof (on_stream_bulk _ _ _ Hos) as Hb. pose proof (os_reading _ _ _ Hos) as Hrd.
  assert (HM : REDIS_MAX_MESSAGE = 268435456) by done. assert (HI : REDIS_IOBUF_LEN = 16384) by done.
  pose proof (rd_max _ Hrd).
  destruct (GetRequest_receive realloc_ok realloc_works c s Hrd) as
    [[_ Hbig]|[(n & remain & Hrem & Hn & ->)|(Hbig & _)]]; [clia|lia| |clia].
  pose proof (on_stream_grown n _ _ _ Hos Hn) as Hos1. unfold receive.
  destruct (sys_read_plain remain s) as [[H0 ->]|(d & s' & -> & Hd & Hin & Hq' & Hw & Hwq & Hse)];
    [unfold SSIZE_MAX; lia|done| |].
  - eexists kReadHalf, _, s, [], todo. split; [done|]. split_and!; try done; by left.
  - rewrite (proj2 (Z.eqb_neq _ _)) by lia.
    pose proof (os_fits _ _ _ Hos1) as Hf. rewrite Hin, zlen_app in Hf.
    pose proof (zlen_nonneg (incoming (rdq s'))).
    rewrite (proj2 (Z.leb_gt _ _)) by lia. rewrite Hin in Hos1.
    destruct (process_input_track d _ _ todo Hos1) as (r & c' & dn & todo' & -> & Htd & Hr & Hos' & HO).
    { intros ->. unfold zlen in Hd. simpl in Hd. lia. }
    cbn [obind]. exists r, c', s', dn, todo'. split_and!; try done. by right.
Qed.

(** [n] calls of [GetRequest], as the event loop makes them. *)
Fixpoint serve (n : nat) c (s : sock) : outcome (ReadStatus * RedisConn U * sock) :=
  match n with
  | O => Ret (kReadHalf, c, s)
  | S n =>
      let! (r, c, s) := GetRequest realloc_ok c s in
      match r with
      | kReadHalf | kReadAll => serve n c s
      | _ => Ret (r, c, s)
      end
  end.

(** Nothing more to come: between two commands. *)
Lemma on_stream_end c todo :
  on_stream c [] todo -> todo = [] /\ half_argv (redis_parser_ c) = [] /\ argvs (redis_parser_ c) = [].
Proof.
  intros [Hrd _ _ He _ Hw]. pose proof (idle_state _ (rd_parser _ Hrd)) as Hst.
  pose proof (rd_alive _ Hrd) as Hal. set (p := redis_parser_ c) in *.
  assert (Hclean : clean p /\ argvs p = []).
  { destruct (status_code p); try done; try (by destruct Hst as (_ & ? & ?)).
    exfalso. by apply (waiting_expects_more deal_cb comp_cb deal_cb_accepts comp_cb_accepts p todo (proj1 Hst)). }
  destruct Hclean as ((Ht & _ & _ & Hh & _) & Hav). split_and!; try done.
  destruct He as [_ _ _ _ Hs|? _ _ _ _|? ? ? _ _ _ _ _|? ? ? ? _ _ _ _]; [|lia..].
  rewrite Hh in Hs. destruct todo as [|t todo]; [done|]. by destruct t.
Qed.

Lemma serve_track n c s todo :
  on_stream c (incoming (rdq s)) todo -> plain_queue (rdq s) -> (rd_work (rdq s) <= n)%nat ->
  exists c' s', serve n c s = Ret (kReadHalf, c', s') /\ on_stream c' [] [] /\
    outbox (client c') = executed todo (outbox (client c)) /\ rdq s' = [] /\
    wrq s' = wrq s /\ sent s' = sent s.
Proof.
  revert c s todo. induction n as [|n IH]; intros c s todo Hos Hq Hn.
  - assert (H0 : rdq s = []) by (unfold rd_work in Hn; destruct (rdq s); [done|simpl in Hn; lia]).
    rewrite H0 in Hos. destruct (on_stream_end _ _ Hos) as (-> & _). by exists c, s.
  - cbn [serve]. destruct (GetRequest_track c s todo Hos Hq) as
      (r & c' & s' & dn & todo' & -> & -> & Hr & Hos' & HO & Hq' & Hwq & Hse & Hw). cbn [obind].
    destruct (IH c' s' todo' Hos' Hq') as (c2 & s2 & HS & Hos2 & HO2 & H0 & Hwq2 & Hse2).
    { destruct Hw as [(H0 & -> & _)|Hw]; [|lia]. rewrite H0. unfold rd_work. simpl. lia. }
    exists c2, s2. split; [by destruct Hr as [-> | ->]|].
    split_and!; try done; [|congruence|congruence]. by rewrite executed_app, HO2, HO.
Qed.
End serving.

(** ** A new connection *)

Lemma new_conn_on_stream {SL : Slash} {SLL : SlashLaws SL} {U} (handle : RedisCmdArgsType -> U -> list bytes * U)
    fd ip now m u rest cmds :
  REDIS_IOBUF_LEN <= m <= REDIS_MAX_MESSAGE -> rest = stream cmds -> zlen rest < m ->
  Forall (fun argv => argv <> []) cmds ->
  on_stream handle (new_RedisConn (deal_ok handle) no_process fd ip now kSynchronous m u) rest cmds.
Proof.
  intros Hm -> Hl Hc. assert (REDIS_IOBUF_LEN = 16384) by done.
  constructor; try done.
  - constructor; simpl; try done; try lia.
  - by apply ExIdle.
Qed.

(** The text of serialized commands. *)
Lemma serialized_commands {SL : Slash} {SLL : SlashLaws SL} cmds outs :
  Forall2 (fun argv out => SerializeRedisCommand argv = Ret (REDIS_OK, out)) cmds outs -> concat outs = stream cmds.
Proof.
  intros Hser. induction Hser as [|c out cs outs Hc _ IH]; [done|].
  rewrite stream_cons, <- IH. cbn [concat]. f_equal.
  unfold SerializeRedisCommand, redisFormatCommandArgv in Hc. obind_inv. apply build_command_spec.
Qed.

(** * Responses *)

Section replies.
Context {WV : Writev} {WL : WritevLaws WV} {U : Type}.
Implicit Types c : RedisConn U.

(** The bytes that [SendReply] still has to write. *)
Definition pending c : bytes := concat (if iov_idx_ c <? 0 then response_ (client c) else iov_ c).

(** No write in progress, or an unfinished one. *)
Definition sendable c : Prop :=
  iov_idx_ c < 0 \/ (iov_ c <> [] /\ last (iov_ c) <> Some []).

Lemma concat_iov_of (rs : list bytes) : concat (iov_of rs) = concat rs.
Proof.
  unfold iov_of. induction rs as [|r rs IH]; [done|]. destruct (decide (r = [])) as [-> |H].
  - by rewrite filter_cons_False by naive_solver.
  - rewrite filter_cons_True by done. cbn [concat]. by rewrite IH.
Qed.

Lemma last_iov_of (rs : list bytes) : last (iov_of rs) <> Some [].
Proof.
  intros H. apply last_Some_elem_of in H. unfold iov_of in H. apply list_elem_of_filter in H. tauto.
Qed.

Lemma writev_loop_S f c s :
  writev_loop (S f) c s =
    let '(n, e, iov, idx, s) := easy_writev (iov_ c) (iov_idx_ c) s in
    let c := set_iov iov idx c in
    if all_sent iov then
      Ret (None, set_iov [] (-1) (set_client (set_response [] (client c)) c), s)
    else if 0 <? n then writev_loop f c s
    else Ret (Some (n, e), c, s).
Proof. done. Qed.

(** The loop ends; it has written all of the entries, or a prefix. *)
Lemma writev_loop_spec fuel c s :
  iov_ c <> [] -> last (iov_ c) <> Some [] -> 0 <= iov_idx_ c ->
  zlen (concat (iov_ c)) < Z.of_nat fuel ->
  exists r c' s', writev_loop fuel c s = Ret (r, c', s') /\ rdq s' = rdq s /\
    match r with
    | None => sent s' = sent s ++ concat (iov_ c) /\ iov_ c' = [] /\ iov_idx_ c' = -1 /\
        response_ (client c') = []
    | Some _ => sent s' ++ concat (iov_ c') = sent s ++ concat (iov_ c) /\ 0 <= iov_idx_ c' /\
        iov_ c' <> [] /\ last (iov_ c') <> Some [] /\ client c' = client c
    end.
Proof.
  revert c s. induction fuel as [|f IH]; intros c s Hne Hlast Hidx Hf; [zlen_pos; lia|].
  rewrite writev_loop_S. pose proof (writev_sends (iov_ c) (iov_idx_ c) s) as W.
  destruct (easy_writev _ _ s) as [[[[n e] iov] idx] s1].
  destruct W as (k & Hs & Hc & Hk & Hlen & Hr & Hpos & Hi & Hl). cbv zeta.
  unfold all_sent. case_bool_decide as Hall.
  - eexists None, _, s1. split; [done|]. split; [done|]. split_and!; try done.
    rewrite Hs. f_equal. rewrite (Hl Hlast Hall) in Hc.
    rewrite <- (ztake_zdrop k (concat (iov_ c))) at 2. by rewrite <- Hc, app_nil_r.
  - assert (Hne' : iov <> []) by (intros ->; by destruct (iov_ c)).
    destruct (0 <? n) eqn:E; b2p.
    + destruct (IH (set_iov iov idx c) s1) as (r & c' & s' & -> & Hr' & Hres); simpl; try done; [auto| |].
      { rewrite Hc, zlen_zdrop by lia. specialize (Hpos E). lia. }
      exists r, c', s'. split; [done|]. split; [congruence|]. destruct r as [r|]; simpl in Hres.
      * destruct Hres as (H1 & H2). split; [|done]. rewrite H1, Hs, Hc, <- app_assoc. f_equal. apply ztake_zdrop.
      * destruct Hres as (H1 & H2). split; [|done]. rewrite H1, Hs, Hc, <- app_assoc. f_equal. apply ztake_zdrop.
    + eexists (Some _), _, s1. split; [done|]. split; [done|]. simpl.
      split_and!; try done; [|by auto]. rewrite Hs, Hc, <- app_assoc. f_equal. apply ztake_zdrop.
Qed.

Lemma write_stopped_spec n e c :
  let '(st, c') := write_stopped n e c in
  st <> kWriteAll /\ iov_ c' = iov_ c /\ iov_idx_ c' = iov_idx_ c /\ client c' = client c.
Proof. unfold write_stopped. repeat case_match; by simplify_eq. Qed.

Lemma redis_SendReply_spec c s :
  sendable c ->
  exists st c' s', SendReply c s = Ret (st, c', s') /\ rdq s' = rdq s /\ sendable c' /\
    (response_ (client c) <> [] ->
       sent s' ++ pending c' = sent s ++ pending c /\
       (st = kWriteAll -> sent s' = sent s ++ pending c /\
          (response_ (client c') = [] \/ pending c = [] /\ c' = c))).
Proof.
  intros Hsend. unfold SendReply. destruct (response_ (client c)) as [|r rs] eqn:Er.
  { eexists _, c, s. by split_and!. }
  rewrite <- Er.
  set (iov := if iov_idx_ c <? 0 then iov_of (response_ (client c)) else iov_ c).
  assert (Hp : concat iov = pending c).
  { unfold iov, pending. destruct (iov_idx_ c <? 0); [apply concat_iov_of|done]. }
  destruct ((iov_idx_ c <? 0) && bool_decide (iov = [])) eqn:E0.
  { b2p. eexists _, c, s. split; [done|]. split; [done|]. split; [done|]. intros _. split; [done|].
    intros _. rewrite <- Hp. match goal with H : iov = [] |- _ => rewrite H end.
    split; [by rewrite app_nil_r|by right]. }
  set (c1 := if iov_idx_ c <? 0 then set_iov iov 0 c else c).
  assert (Hc1 : iov_ c1 = iov /\ 0 <= iov_idx_ c1 /\ client c1 = client c /\ iov <> [] /\ last iov <> Some []).
  { unfold c1, iov in *. destruct (iov_idx_ c <? 0) eqn:E; b2p; simpl in *.
    - b2p. split_and!; try done. apply last_iov_of.
    - destruct Hsend as [?|[? ?]]; [lia|]. split_and!; done. }
  destruct Hc1 as (Hi1 & Hx1 & Hcl1 & Hne & Hl).
  destruct (writev_loop_spec (S (Z.to_nat (zlen (concat (iov_ c1))))) c1 s) as
    (res & c2 & s2 & -> & Hr & Hres); rewrite ?Hi1; try done; [zlen_pos; lia|]. cbn [obind].
  rewrite Hi1 in Hres. destruct res as [[n e]|].
  - destruct Hres as (Hs & Hx & Hn & Hl' & Hcl). pose proof (write_stopped_spec n e c2) as Hw.
    destruct (write_stopped n e c2) as [st c3]. destruct Hw as (Hst & Hi3 & Hx3 & Hc3).
    exists st, c3, s2. split; [done|]. split; [done|]. split; [right; by rewrite Hi3|]. intros _.
    split; [|done]. rewrite <- Hp. unfold pending at 1.
    rewrite Hx3, (proj2 (Z.ltb_ge _ _)), Hi3 by lia. done.
  - destruct Hres as (Hs & Hi2 & Hx2 & Hr2). exists kWriteAll, c2, s2.
    split; [done|]. split; [done|]. split; [left; lia|]. intros _. rewrite <- Hp.
    unfold pending at 1. rewrite Hx2, Hr2. simpl. rewrite app_nil_r. split; [done|].
    intros _. split; [done|by left].
Qed.
End replies.
