(* ===== verification/RedisConnTheorems.v ===== *)
(** The theorems on the redis connection: what reaches the command handler, how
    the read buffer grows, and what becomes of the responses. *)
From S2P Require Import Pink Prelude Sys Slash RedisParser RedisParserFacts.
From S2P Require Import RedisCodec RedisCodecFacts RedisStream PinkConn RedisConn RedisConnFacts.

(** * From the wire to the handler *)

(** C12: a pipeline of commands that [SerializeRedisCommand] built, arriving at a
    new connection in any pieces and smaller than its limit, is executed exactly:
    after the reads the handler has been called once per command, in order, with
    its arguments, and the responses stand in the queue in that order. The
    connection is alive and between two commands. *)
Theorem redis_conn_executes {SL : Slash} {SLL : SlashLaws SL} {U} realloc_ok
    (handle : RedisCmdArgsType -> U -> list bytes * U) fd ip now m u cmds outs q w o n :
  (forall k, realloc_ok k = true) -> REDIS_IOBUF_LEN <= m <= REDIS_MAX_MESSAGE ->
  Forall2 (fun argv out => SerializeRedisCommand argv = Ret (REDIS_OK, out)) cmds outs ->
  Forall (fun argv => argv <> []) cmds -> plain_queue q -> incoming q = concat outs ->
  zlen (concat outs) < m -> (rd_work q <= n)%nat ->
  exists c, serve realloc_ok n (new_RedisConn (deal_ok handle) no_process fd ip now kSynchronous m u)
      (mkSock q w o) = Ret (kReadHalf, c, mkSock [] w o) /\
    (response_ (client c), user (client c)) = executed handle cmds ([], u) /\
    half_argv (redis_parser_ c) = [] /\ argvs (redis_parser_ c) = [].
Proof.
  intros Hre Hm Hser Hne Hq Hin Hl Hn.
  pose proof (serialized_commands cmds outs Hser) as Hst.
  destruct (serve_track realloc_ok Hre handle n
    (new_RedisConn (deal_ok handle) no_process fd ip now kSynchronous m u) (mkSock q w o) cmds)
    as (c & [q' w' o'] & HS & Hos & HO & H0 & Hw & Ho); try done.
  { simpl. rewrite Hin. by apply new_conn_on_stream. }
  simpl in H0, Hw, Ho. subst. exists c. split; [done|]. split; [exact HO|].
  by destruct (on_stream_end handle c [] Hos) as (_ & Hh & Ha).
Qed.

Lemma redis_conn_executes_witness :
  exists c, serve (fun _ => true) 60
      (new_RedisConn (deal_ok (fun argv l => ([bs "+OK"], l ++ [argv]))) no_process 7 (bs "1.2.3.4:5") 0
        kSynchronous REDIS_MAX_MESSAGE [])
      (mkSock [Arrive (bs "*2" ++ CRLF ++ bs "$3" ++ CRLF ++ bs "G"); Arrive (bs "ET" ++ CRLF ++ bs "$1");
               Arrive (CRLF ++ bs "k" ++ CRLF)] [] []) =
      Ret (kReadHalf, c, mkSock [] [] []) /\
    (response_ (client c), user (client c)) = ([bs "+OK"], [[bs "GET"; bs "k"]]) /\
    half_argv (redis_parser_ c) = [] /\ argvs (redis_parser_ c) = [].
Proof.
  apply (redis_conn_executes (fun _ => true) (fun argv l => ([bs "+OK"], l ++ [argv])) 7 (bs "1.2.3.4:5") 0
    REDIS_MAX_MESSAGE [] [[bs "GET"; bs "k"]] [resp_command [bs "GET"; bs "k"]]); try done.
  - repeat constructor.
  - by repeat constructor.
  - repeat constructor; by eexists.
  - vm_compute. lia.
Defined.

(** * The read buffer *)

(** C13: whatever length the client has announced for its next argument, a call of
    [GetRequest] on a connection in order reads nothing past its buffer and does
    not loop, whatever arrives; the buffer stays within the connection's limit;
    and after [kReadHalf] or [kReadAll] the connection is in order again. *)
Theorem GetRequest_stays_in_buffer {SL : Slash} {SLL : SlashLaws SL} {U} realloc_ok (c : RedisConn U) s :
  (forall k, realloc_ok k = true) -> reading c -> bulk_len_ c <= LONG_MAX ->
  match GetRequest realloc_ok c s with
  | Ret (r, c', s') => 0 <= rbuf_len_ c' <= rbuf_max_len_ c' /\
      (r = kReadHalf \/ r = kReadAll -> reading c')
  | Fault f => f = LengthError \/ f = Overflow
  end.
Proof.
  intros Hre Hrd Hb. pose proof (GetRequest_wp realloc_ok Hre c s Hrd Hb) as H.
  destruct (GetRequest realloc_ok c s) as [[[r c'] s']|f]; [|exact H].
  destruct H as (H1 & _ & _ & H2). by split.
Qed.

(** A connection whose handler does nothing. *)
Definition idle_conn {SL : Slash} : RedisConn () :=
  new_RedisConn (deal_ok (fun _ u => ([], u))) no_process 7 [] 0 kSynchronous REDIS_MAX_MESSAGE ().

Lemma idle_conn_reading {SL : Slash} : reading idle_conn.
Proof. constructor; simpl; try done. Qed.

Lemma GetRequest_stays_in_buffer_witness :
  match GetRequest (fun _ => true) idle_conn (mkSock [Arrive (bs "*1" ++ CRLF)] [] []) with
  | Ret (r, c', s') => 0 <= rbuf_len_ c' <= rbuf_max_len_ c' /\
      (r = kReadHalf \/ r = kReadAll -> reading c')
  | Fault f => f = LengthError \/ f = Overflow
  end.
Proof. apply GetRequest_stays_in_buffer; [done|apply idle_conn_reading|done]. Defined.

(** C14: what an announced length above [INT_MAX] comes to is decided by the [int] [b]
    it is narrowed to. If [b] is negative the next [GetRequest] asks the kernel for a
    negative count and reports [kReadError]; if it is zero it reports [kReadClose],
    though the client is still there; in both cases nothing is read and nothing has
    changed. If [b] is positive but not above the size of the buffer, at most [b] bytes
    are read and the buffer does not grow. Only if [b] is above the limit is it refused
    with [kFullError]. *)
Theorem announced_length_narrowed {SL : Slash} {U} realloc_ok (c : RedisConn U) s :
  (forall k, realloc_ok k = true) -> reading c -> 0 < rbuf_len_ c -> INT_MAX < bulk_len_ c <= LONG_MAX ->
  let b := to_i32 (bulk_len_ c) in
  (b < 0 -> GetRequest realloc_ok c s = Ret (kReadError, c, s)) /\
  (b = 0 -> GetRequest realloc_ok c s = Ret (kReadClose, c, s)) /\
  (0 < b <= rbuf_len_ c -> forall r c' s', GetRequest realloc_ok c s = Ret (r, c', s') ->
     rbuf_len_ c' = rbuf_len_ c /\ exists res d, sys_read b s = (res, d, s')) /\
  (rbuf_max_len_ c < b -> GetRequest realloc_ok c s = Ret (kFullError, c, s)).
Proof.
  intros Hre Hrd Hpos Hb b. pose proof (to_i32_int (bulk_len_ c)) as Hi. fold b in Hi. pose proof (rd_room _ Hrd) as Hroom.
  pose proof (rd_max _ Hrd) as Hmax. assert (HM : REDIS_MAX_MESSAGE = 268435456) by done.
  assert (HS : read_sizes c = Ret (0, b, b)).
  { destruct (read_sizes_spec c Hrd) as (remain & new_size & HS & Hsz); [lia|].
    destruct Hsz as [(? & _)|[(_ & ? & _)|(_ & -> & ->)]]; [lia|clia|done]. }
  split_and!.
  - intros Hneg. rewrite (sized_nothing realloc_ok c s b Hrd HS) by lia. by rewrite (proj2 (Z.eqb_neq _ _)) by lia.
  - intros H0. rewrite (sized_nothing realloc_ok c s b Hrd HS) by lia. by rewrite H0.
  - intros Hsmall r c' s' HG. destruct (sized_receive realloc_ok Hre c s b b Hrd HS) as [[_ ?]|(n & _ & _ & Hn & HR)]; try lia.
    rewrite Hn in HR by lia. rewrite HG in HR. unfold receive in HR. destruct (sys_read b s) as [[res d] s1].
    replace (set_rbuf_len (rbuf_len_ c) c) with c in HR by (by destruct c).
    destruct res as [k|e].
    + destruct (k =? 0); [simplify_eq; eauto|].
      destruct (rbuf_max_len_ c <=? command_len_ c + k); [simplify_eq; eauto|].
      destruct (process_input d (stored d c)) as [[r2 c2]|] eqn:EP; [|done]. cbn [obind] in HR. simplify_eq.
      split; [|eauto]. by apply process_input_room in EP.
    + destruct e; simplify_eq; eauto.
  - intros Hbig. destruct (sized_receive realloc_ok Hre c s b b Hrd HS) as [[HG _]|(n & ? & ? & _)]; try lia. done.
Qed.

(** The connection after the header and the argument's length line, in one read. *)
Definition announced : RedisConn () :=
  match GetRequest (fun _ => true) idle_conn
      (mkSock [Arrive (bs "*1" ++ CRLF ++ bs "$4294967295" ++ CRLF)] [] []) with
  | Ret (_, c, _) => c
  | Fault _ => idle_conn
  end.

Lemma announced_reading : reading announced /\ bulk_len_ announced = 2 ^ 32 - 1 /\ rbuf_len_ announced = 16384.
Proof.
  split; [|by vm_compute].
  pose proof (GetRequest_wp (fun _ => true) (fun _ => eq_refl) idle_conn
    (mkSock [Arrive (bs "*1" ++ CRLF ++ bs "$4294967295" ++ CRLF)] [] []) idle_conn_reading ltac:(done)) as H.
  unfold announced. revert H.
  destruct (GetRequest _ _ _) as [[[r c'] s']|f] eqn:E; [|intros _; apply idle_conn_reading].
  simpl. intros (_ & _ & _ & H). apply H. left.
  apply (f_equal (fun o => match o with Ret (r, _, _) => Some r | Fault _ => None end)) in E.
  vm_compute in E. congruence.
Qed.

(** Bytes have come, but the next call reports an error. *)
Lemma announced_length_narrowed_witness :
  let s := mkSock [Arrive (bs "hello")] [] [] in
  GetRequest (fun _ => true) announced s = Ret (kReadError, announced, s).
Proof.
  destruct announced_reading as (Hr & Hb & Hl). intros s.
  destruct (announced_length_narrowed (fun _ => true) announced s) as (H & _);
    [done|exact Hr|rewrite Hl; lia|rewrite Hb; clia|].
  apply H. by rewrite Hb.
Defined.

(** * Responses *)

(** [SendReply] always returns; what it has written followed by what it still
    has to write is what was written and what it had to write before, in order;
    when it reports [kWriteAll] everything is written, and the queue is empty
    unless it held nothing but empty responses. *)
Theorem redis_SendReply_conserves {WV : Writev} {WL : WritevLaws WV} {U} (c : RedisConn U) s :
  sendable c -> response_ (client c) <> [] ->
  exists st c' s', SendReply c s = Ret (st, c', s') /\ sendable c' /\
    sent s' ++ pending c' = sent s ++ pending c /\
    (st = kWriteAll -> sent s' = sent s ++ pending c /\
       (response_ (client c') = [] \/ pending c = [] /\ c' = c)).
Proof.
  intros Hc Hr. destruct (redis_SendReply_spec c s Hc) as (st & c' & s' & HS & _ & Hc' & H).
  destruct (H Hr) as [H1 H2]. by exists st, c', s'.
Qed.

(** A connection with three responses queued. *)
Definition answering : RedisConn () :=
  set_client (write_resps [bs "+OK"; bs ":1"; bs "$2"] (client idle_conn)) idle_conn.

Lemma redis_SendReply_conserves_witness :
  exists st c' s', SendReply answering (mkSock [] [Accepts 4; WrFails EAGAIN] []) = Ret (st, c', s') /\
    sendable c' /\ sent s' ++ pending c' = [] ++ pending answering /\
    (st = kWriteAll -> sent s' = [] ++ pending answering /\
       (response_ (client c') = [] \/ pending answering = [] /\ c' = answering)).
Proof.
  apply (redis_SendReply_conserves answering (mkSock [] [Accepts 4; WrFails EAGAIN] [])); [by left|done].
Defined.

(** A response queued while a write is in progress is lost. The entries of the
    write were taken from the queue when it began; when they are written the whole
    queue is cleared, so that a later response is neither sent nor kept, and the
    caller is told that everything has been written. *)
Theorem late_response_lost {WV : Writev} {WL : WritevLaws WV} {U} (c : RedisConn U) r s c' s' :
  0 <= iov_idx_ c -> iov_ c <> [] -> last (iov_ c) <> Some [] ->
  SendReply (set_client (WriteResp r (client c)) c) s = Ret (kWriteAll, c', s') ->
  sent s' = sent s ++ concat (iov_ c) /\ response_ (client c') = [] /\ pending c' = [].
Proof.
  intros Hx Hi Hl HS. unfold SendReply in HS.
  set (c1 := set_client _ c) in HS. assert (Hr : response_ (client c1) <> []).
  { simpl. by destruct (response_ (client c)). }
  destruct (response_ (client c1)) as [|x rs] eqn:Er; [done|].
  assert (Hx1 : (iov_idx_ c1 <? 0) = false) by (apply Z.ltb_ge; exact Hx).
  rewrite Hx1 in HS. cbn [andb] in HS.
  destruct (writev_loop_spec (S (Z.to_nat (zlen (concat (iov_ c1))))) c1 s) as
    (res & c2 & s2 & HW & _ & Hres); try done; [zlen_pos; lia|].
  rewrite HW in HS. cbn [obind] in HS. destruct res as [[n e]|].
  - pose proof (write_stopped_spec n e c2) as Hw. destruct (write_stopped n e c2) as [st c3].
    destruct Hw as [Hst _]. congruence.
  - injection HS as <- <-. destruct Hres as (Hs & Hi2 & Hx2 & Hr2).
    split_and!; [exact Hs|done|]. unfold pending. by rewrite Hx2, Hr2.
Qed.

(** The same connection after a short write. *)
Definition half_sent : RedisConn () :=
  match SendReply answering (mkSock [] [Accepts 4; WrFails EAGAIN] []) with
  | Ret (_, c, _) => c
  | Fault _ => answering
  end.

Lemma late_response_lost_witness :
  exists c' s', SendReply (set_client (WriteResp (bs "late") (client half_sent)) half_sent)
      (mkSock [] [Accepts 100] []) = Ret (kWriteAll, c', s') /\
    sent s' = [] ++ concat (iov_ half_sent) /\ response_ (client c') = [] /\ pending c' = [].
Proof.
  eexists _, _. split; [vm_compute; reflexivity|].
  apply (late_response_lost half_sent (bs "late") (mkSock [] [Accepts 100] [])); vm_compute; done.
Defined.
