(* ===== verification/RedisServer.v ===== *)
(** The redis connection under the event loops: it meets the interface of the loops,
    and the thread that serves its own connections answers every command. *)
From S2P Require Import Pink Prelude Sys Slash PinkConn PinkEpoll ServerConns HolyThread ServeFacts.
From S2P Require Import RedisParser RedisParserFacts RedisCodec RedisCodecFacts RedisStream RedisConn RedisConnFacts.

(** * What the callbacks of the parser keep, the parser keeps *)
Section parser.
Context {SL : Slash} {U : Type} (P : U -> Prop).
Implicit Types p : RedisParser U.

Record callbacks_keep (st : RedisParserSettings U) : Prop := {
  ck_deal f argv u : RedisParser.DealMessage st = Some f -> P u -> P (f argv u).2;
  ck_complete f argvs u : Complete st = Some f -> P u -> P (f argvs u).2
}.

Definition same_settings p p' : Prop := parser_settings p' = parser_settings p.

Lemma status_settings st e p : same_settings p (SetParserStatus st e p).
Proof. by destruct st. Qed.

Definition flow_settings p (f : flow U) : Prop :=
  match f with Returns p' => same_settings p p' | Continues p' => same_settings p p' end.

Lemma FindNextSeparators_alive p : wp alive (fun _ => True) (FindNextSeparators p).
Proof. unfold FindNextSeparators. by repeat case_match. Qed.
Lemma split2args_alive fuel q a : wp alive (fun _ => True) (split2args_loop fuel q a).
Proof.
  revert q a. induction fuel as [|f IH]; intros q a; [done|]. cbn [split2args_loop]. destruct (skip_blanks q); [done|].
  destruct (get_token _ _ _ _) as [[arg rest]|]; [apply IH|done].
Qed.

Lemma header_settings p : wp alive (flow_settings p) (multibulk_header p).
Proof.
  unfold multibulk_header. case_match; [|done]. eapply alive_bind; [apply FindNextSeparators_alive|]. intros pos _.
  case_match; [done|]. destruct (GetNextNum pos p); [|done]. simpl. by case_match.
Qed.

Lemma bulk_header_settings p : wp alive (flow_settings p) (bulk_header p).
Proof.
  unfold bulk_header. case_match; [|done]. eapply alive_bind; [apply FindNextSeparators_alive|]. intros pos _.
  case_match; [done|]. case_match; [done|]. destruct (GetNextNum pos p); [|done]. simpl. by case_match.
Qed.

Lemma take_bulk_settings p : wp alive (same_settings p) (take_bulk p).
Proof. unfold take_bulk, mk_string. repeat case_match; done || (cbn [obind]; repeat case_match; done). Qed.

Lemma loop_settings fuel p : wp alive (flow_settings p) (multibulk_loop fuel p).
Proof.
  revert p. induction fuel as [|f IH]; intros p; [done|]. rewrite multibulk_loop_S. case_match; [done|].
  eapply alive_bind; [apply bulk_header_settings|]. intros [p1|p1] E1; [done|]. case_match; [done|]. case_match; [done|].
  eapply alive_bind; [apply take_bulk_settings|]. intros p2 E2. eapply wp_mono; [|apply IH].
  intros [p3|p3] E3; simpl in *; unfold same_settings in *; congruence.
Qed.

Lemma parse_command_settings p : wp alive (fun '(_, p') => same_settings p p') (parse_command p).
Proof.
  unfold parse_command. assert (E0 : same_settings p (choose_type p)) by (unfold choose_type; by case_match).
  set (p0 := choose_type p) in *. clearbody p0. case_match; [|case_match; [|done]].
  - eapply (alive_bind (same_settings p)); [|done]. unfold ProcessInlineBuffer. eapply alive_bind; [apply FindNextSeparators_alive|].
    intros pos _. case_match; [by case_match|]. eapply alive_bind; [apply split2args_alive|]. intros [a|] _; done.
  - eapply (alive_bind (same_settings p)); [|done]. unfold ProcessMultibulkBuffer. eapply alive_bind; [apply header_settings|].
    intros [p1|p1] E1; [simpl in *; unfold same_settings in *; congruence|].
    eapply alive_bind; [apply loop_settings|]. intros [p2|p2] E2; simpl in *; [unfold same_settings in *; congruence|].
    case_match; unfold same_settings in *; simpl; congruence.
Qed.

Lemma ProcessRequestBuffer_keeps fuel p u :
  callbacks_keep (parser_settings p) -> P u ->
  wp alive (fun '(p', u') => P u' /\ same_settings p p') (ProcessRequestBuffer fuel p u).
Proof.
  revert p u. induction fuel as [|f IH]; intros p u HK Hu; [done|]. rewrite ProcessRequestBuffer_S. case_match.
  - eapply alive_bind; [apply parse_command_settings|]. intros [ret p1] E1. case_match; [done|].
    assert (HD : let '(_, p2, u2) := deliver p1 u in P u2 /\ same_settings p1 p2).
    { unfold deliver. destruct (RedisParser.argv p1) as [|a cmd]; [done|]. cbn [set_argv set_argvs parser_settings].
      destruct (RedisParser.DealMessage (parser_settings p1)) as [g|] eqn:Eg; [|done]. rewrite E1 in Eg.
      pose proof (ck_deal _ HK g (a :: cmd) u Eg Hu) as Hg. destruct (g (a :: cmd) u) as [r u2]. simpl in Hg. by destruct (r =? 0). }
    destruct (deliver p1 u) as [[ok p2] u2]. destruct HD as [Eu2 E2]. unfold same_settings in *. destruct ok.
    + eapply wp_mono; [|apply IH; [|done]]; [|simpl; by rewrite E2, E1]. intros [p3 u3] [E3 E4]. split; [done|]. simpl in E4. congruence.
    + simpl. split; [done|congruence].
  - unfold finish_request. destruct (Complete (parser_settings p)) as [g|] eqn:Eg; [|done].
    pose proof (ck_complete _ HK g (argvs (set_argvs (map lower_name (argvs p)) p)) u Eg Hu) as Hg.
    destruct (g _ u) as [r u2]. simpl in Hg. by destruct (r =? 0).
Qed.

Lemma ProcessInputBuffer_keeps input p u :
  callbacks_keep (parser_settings p) -> P u ->
  wp alive (fun '(_, p', u') => P u' /\ same_settings p p') (ProcessInputBuffer input p u).
Proof.
  intros HK Hu. unfold ProcessInputBuffer. case_match; [|done]. case_match; [|by case_match].
  eapply alive_bind; [by apply ProcessRequestBuffer_keeps|]. intros [p' u'] [E1 E2]. done.
Qed.
End parser.

(** * The connection as the event loops see it *)
Section conn.
Context {SL : Slash} {WV : Writev} {U : Type}.
Context (DealMessage : RedisCmdArgsType -> U -> Z * list bytes * U).
Context (ProcessRedisCmds : list RedisCmdArgsType -> bool -> U -> list bytes * U).
Context (realloc_ok : Z -> bool).
Implicit Types c : RedisConn U.

#[local] Abbreviation settings := (conn_settings DealMessage ProcessRedisCmds).

Definition put_base (b : PinkConn) (cl : Client U) : Client U := mkClient (handle_type_ cl) (response_ cl) b (user cl).
Definition on_base (f : PinkConn -> PinkConn) c : RedisConn U := set_client (put_base (f (base (client c))) (client c)) c.

(** The callbacks that the constructor has given to the parser and that nothing
    replaces. A [RedisConn] can hold any, so that a call of [GetRequest] through the
    interface names them. *)
Definition with_callbacks c : RedisConn U := set_parser (set_parser_settings settings (redis_parser_ c)) c.

#[export] Instance redis_ops : ConnOps (RedisConn U) := {|
  conn_base c := base (client c);
  with_base := on_base;
  conn_GetRequest c s := GetRequest realloc_ok (with_callbacks c) s;
  conn_SendReply := SendReply;
  conn_WriteResp resp c := set_client (WriteResp resp (client c)) c;
  conn_TryResizeBuffer := TryResizeBuffer;
  conn_is_reply := default_is_reply (fun c => base (client c));
  conn_set_is_reply := default_set_is_reply on_base
|}.

Lemma with_callbacks_id c : parser_settings (redis_parser_ c) = settings -> with_callbacks c = c.
Proof. destruct c as [? ? ? ? ? ? ? ? ? p ?]. simpl. intros E. unfold with_callbacks, set_parser, set_parser_settings. simpl. rewrite <- E. by destruct p. Qed.

(** ** The reply flag *)

(** The connection has been marked for a reply exactly if it has got a response. *)
Definition marked (b : PinkConn) (rs : list bytes) (cl : Client U) : Prop :=
  (base cl = b /\ response_ cl = rs) \/ (base cl = set_is_reply true b /\ response_ cl <> []).

Lemma marked_write r b rs cl : marked b rs cl -> marked b rs (WriteResp r cl).
Proof.
  intros H. right. destruct H as [[H _]|[H _]]; simpl; rewrite H; (split; [done|]); by destruct (response_ cl).
Qed.

Lemma marked_writes resps b rs cl : marked b rs cl -> marked b rs (write_resps resps cl).
Proof. revert cl. induction resps as [|r resps IH]; intros cl H; [done|]. apply (IH (WriteResp r cl)). by apply marked_write. Qed.

Lemma marked_user u b rs cl : marked b rs cl -> marked b rs (set_user u cl).
Proof. done. Qed.

Lemma settings_marked b rs : callbacks_keep (marked b rs) settings.
Proof.
  split; intros f x cl; cbn [RedisParser.DealMessage Complete conn_settings]; intros [= <-] H.
  - unfold ParserDealMessageCb. case_bool_decide; [|done]. destruct (DealMessage x (user cl)) as [[r resps] u].
    by apply marked_writes, marked_user.
  - unfold ParserCompleteCb. destruct (ProcessRedisCmds x _ (user cl)) as [resps u]. by apply marked_writes, marked_user.
Qed.

(** What is left of the base by a call that may have got responses. *)
Definition base_after (b : PinkConn) (rs : list bytes) : PinkConn := match rs with [] => b | _ => set_is_reply true b end.

Lemma process_input_base d c :
  parser_settings (redis_parser_ c) = settings ->
  wp alive (fun '(_, c') => base (client c') = base_after (base (client c)) (response_ (client c')) /\
    parser_settings (redis_parser_ c') = settings /\ iov_idx_ c' = iov_idx_ c) (process_input d c).
Proof.
  intros Hset. unfold process_input. eapply alive_bind.
  { apply (ProcessInputBuffer_keeps (marked (base (client c)) (response_ (client c)))); [rewrite Hset; apply settings_marked|by left]. }
  intros [[ret p] cl] [HM HS]. unfold same_settings in HS. rewrite Hset in HS.
  set (c1 := if _ || _ then _ else _).
  assert (Hc1 : client c1 = cl /\ redis_parser_ c1 = p /\ iov_idx_ c1 = iov_idx_ c) by (unfold c1; by repeat case_match).
  destruct Hc1 as (Hc1 & Hp1 & Hx1). rewrite Hc1. destruct (response_ cl) as [|r rs] eqn:Er; simpl.
  - rewrite Hc1, Hp1, Er. split; [|done]. destruct HM as [[-> _]|[_ ?]]; done.
  - rewrite Er, Hp1. split; [|done]. destruct HM as [[-> _]|[-> _]]; done.
Qed.

(** A call of [GetRequest] changes nothing of the base class, or the reply flag. *)
Lemma GetRequest_base c s :
  parser_settings (redis_parser_ c) = settings ->
  wp alive (fun '(_, c', _) => (client c' = client c \/ base (client c') = base_after (base (client c)) (response_ (client c'))) /\
    parser_settings (redis_parser_ c') = settings /\ iov_idx_ c' = iov_idx_ c) (GetRequest realloc_ok c s).
Proof.
  intros Hset. unfold GetRequest. eapply (alive_bind (fun _ => True)).
  { unfold read_sizes, int_of. repeat (case_match; cbn [obind]; try done). }
  intros [[next remain] new_size] _. eapply (alive_bind (fun r => match r with None => True | Some c' => client c' = client c /\ redis_parser_ c' = redis_parser_ c /\ iov_idx_ c' = iov_idx_ c end)).
  { unfold enlarge, int_of. repeat (case_match; cbn [obind]; try done). }
  intros [c1|] H1; [|simpl; auto]. destruct H1 as (Hc1 & Hp1 & Hx1). rewrite <- Hc1, <- Hset, <- Hp1, <- Hx1. rewrite <- Hp1 in Hset.
  destruct (sys_read _ s) as [[[n|[]] d] s1]; try (simpl; by auto).
  case_match; [simpl; by auto|]. case_match; [done|]. unfold int_of. case_match; cbn [obind]; [|done]. case_match; cbn [obind]; [|done].
  case_match; [simpl; by auto|]. eapply alive_bind; [apply process_input_base; exact Hset|]. intros [r c2] (Hb2 & Hs2 & Hx2). simpl.
  split; [by right|]. simpl in Hx2. split; congruence.
Qed.

Lemma writev_loop_base fuel c s : wp alive (fun '(_, c', _) => base (client c') = base (client c)) (writev_loop fuel c s).
Proof.
  revert c s. induction fuel as [|f IH]; intros c s; [done|]. rewrite writev_loop_S. destruct (easy_writev _ _ s) as [[[[n e] iov] idx] s1].
  cbv zeta. case_match; [done|]. case_match; [|done]. eapply wp_mono; [|apply IH]. by intros [[? ?] ?].
Qed.

#[export] Instance redis_laws : ConnLaws (RedisConn U).
Proof.
  split; try done.
  - intros c s. pose proof (GetRequest_base (with_callbacks c) s eq_refl) as W. simpl.
    destruct (GetRequest _ _ s) as [[[r c'] s']|]; [|exact W]. destruct W as [[W|W] _]; [by rewrite W|].
    rewrite W. unfold base_after. by case_match.
  - intros c s. simpl. unfold SendReply. destruct (response_ (client c)) as [|r0 rs0] eqn:Er; [done|]. rewrite <- Er. cbv zeta. destruct (_ && _); [done|].
    set (c1 := if _ <? 0 then _ else _). assert (Hc1 : client c1 = client c) by (unfold c1; by case_match).
    pose proof (writev_loop_base (S (Z.to_nat (zlen (concat (iov_ c1))))) c1 s) as W.
    destruct (writev_loop _ c1 s) as [[[[[n e]|] c2] s2]|]; cbn [obind]; [|by rewrite W, Hc1|exact W].
    simpl in W. pose proof (write_stopped_spec n e c2) as HS. destruct (write_stopped n e c2) as [st c3]. destruct HS as (_ & _ & _ & ->).
    by rewrite W, Hc1.
  - intros now c. simpl. unfold TryResizeBuffer. cbv zeta. destruct (_ <? _); [|done]. destruct (_ =? _); [done|].
    destruct (_ || _); [|done]. by destruct (_ <? _).
Qed.
End conn.

(** * Sending on a patient socket *)

(** [easy_writev] on a socket that takes something at every grant or asks to wait:
    it takes some of the bytes, or reports [EAGAIN]. *)
Class WritevPatient (W : Writev) : Prop := {
  writev_patient iov idx s :
    concat iov <> [] -> patient (wrq s) -> zlen (concat iov) <= accepting (wrq s) ->
    let '(n, e, iov', idx', s') := easy_writev iov idx s in
    patient (wrq s') /\ accepting (wrq s) + zlen (concat iov') <= accepting (wrq s') + zlen (concat iov) /\
    ((0 < n /\ holdups (wrq s') = holdups (wrq s)) \/
     (n = -1 /\ e = EAGAIN /\ holdups (wrq s) = S (holdups (wrq s'))))
}.

#[export] Instance ref_writev_patient : WritevPatient ref_writev.
Proof.
  split. intros iov idx s Hne Hp Ha. simpl. destruct (sys_write (concat iov) s) as [r s'] eqn:W.
  destruct (sys_write_patient _ _ _ _ Hp Hne Ha W) as (Hp' & _ & [(n & -> & Hn & _ & Hac & Hh)|(-> & _ & Hac & Hh)]).
  - rewrite concat_take_off, zlen_zdrop by lia. split_and!; [done|lia|]. left. split; [lia|done].
  - split_and!; [done|lia|]. by right.
Qed.

Section send.
Context {WV : Writev} {WL : WritevLaws WV} {WP : WritevPatient WV} {U : Type}.
Implicit Types c : RedisConn U.

(** What reading works on. *)
Definition read_side c : HandleType * PinkConn * U * Z * Z * Z * Z * Z * RedisParser (Client U) * Z :=
  (handle_type_ (client c), base (client c), user (client c), rbuf_len_ c, rbuf_max_len_ c, msg_peak_ c, command_len_ c,
   last_read_pos_ c, redis_parser_ c, bulk_len_ c).

(** How a call ends. *)
Inductive replied c s : outcome (WriteStatus * RedisConn U * sock) -> Prop :=
  | RepliedAll c' s' :
      read_side c' = read_side c -> iov_idx_ c' < 0 -> concat (response_ (client c')) = [] ->
      sent s' = sent s ++ pending c -> rdq s' = rdq s -> patient (wrq s') ->
      accepting (wrq s) <= accepting (wrq s') + zlen (pending c) -> (holdups (wrq s') <= holdups (wrq s))%nat ->
      replied c s (Ret (kWriteAll, c', s'))
  | RepliedHalf c' s' :
      read_side c' = read_side c -> sendable c' -> response_ (client c') <> [] ->
      sent s' ++ pending c' = sent s ++ pending c -> zlen (pending c') <= zlen (pending c) -> rdq s' = rdq s -> patient (wrq s') ->
      accepting (wrq s) + zlen (pending c') <= accepting (wrq s') + zlen (pending c) ->
      (holdups (wrq s') < holdups (wrq s))%nat ->
      replied c s (Ret (kWriteHalf, c', s')).

Lemma concat_nil_last (l : list bytes) : l <> [] -> concat l = [] -> last l = Some [].
Proof.
  induction l as [|x l IH]; [done|]. intros _ H. simpl in H. apply app_eq_nil in H as [-> H]. destruct l; [done|]. by apply IH.
Qed.

Lemma writev_loop_patient fuel c s :
  iov_ c <> [] -> last (iov_ c) <> Some [] -> 0 <= iov_idx_ c -> zlen (concat (iov_ c)) < Z.of_nat fuel ->
  patient (wrq s) -> zlen (concat (iov_ c)) <= accepting (wrq s) ->
  exists r c' s', writev_loop fuel c s = Ret (r, c', s') /\ read_side c' = read_side c /\ patient (wrq s') /\
    (holdups (wrq s') <= holdups (wrq s))%nat /\
    match r with
    | None => accepting (wrq s) <= accepting (wrq s') + zlen (concat (iov_ c))
    | Some (n, e) => n = -1 /\ e = EAGAIN /\ (holdups (wrq s') < holdups (wrq s))%nat /\ zlen (concat (iov_ c')) <= zlen (concat (iov_ c)) /\
        accepting (wrq s) + zlen (concat (iov_ c')) <= accepting (wrq s') + zlen (concat (iov_ c))
    end.
Proof.
  revert c s. induction fuel as [|f IH]; intros c s Hne Hlast Hidx Hf Hp Ha; [zlen_pos; lia|].
  rewrite writev_loop_S. assert (Hcne : concat (iov_ c) <> []) by (intros H; by apply Hlast, concat_nil_last).
  pose proof (writev_sends (iov_ c) (iov_idx_ c) s) as W. pose proof (writev_patient (iov_ c) (iov_idx_ c) s Hcne Hp Ha) as WP'.
  destruct (easy_writev _ _ s) as [[[[n e] iov] idx] s1].
  destruct W as (k & Hs & Hc & Hk & Hlen & Hr & Hpos & Hi & Hl). destruct WP' as (Hp1 & Ha1 & Hn). cbv zeta.
  assert (Hz : zlen (concat iov) = zlen (concat (iov_ c)) - k) by (rewrite Hc, zlen_zdrop; lia).
  unfold all_sent. case_bool_decide as Hall.
  - eexists None, _, s1. split; [done|]. split; [done|]. split; [done|]. split; [destruct Hn as [[_ ->]|(_ & _ & ->)]; lia|].
    zlen_pos. lia.
  - assert (Hne' : iov <> []) by (intros ->; by destruct (iov_ c)). destruct Hn as [[Hn Hh]|(-> & -> & Hh)].
    + rewrite (proj2 (Z.ltb_lt _ _)) by done. specialize (Hpos Hn).
      destruct (IH (set_iov iov idx c) s1) as (r & c' & s' & -> & Hrs & Hp' & Hh' & Hres); simpl; try done; [by auto|lia|lia|].
      exists r, c', s'. split; [done|]. split; [exact Hrs|]. split; [done|]. split; [lia|]. simpl in Hres.
      destruct r as [[n' e']|]; [|lia]. destruct Hres as (? & ? & ? & ? & ?). split_and!; done || lia.
    + change (0 <? -1) with false. cbv iota. eexists (Some _), _, s1. split; [done|]. split_and!; try done; simpl; lia.
Qed.

Lemma write_stopped_again c : write_stopped (-1) EAGAIN c = (kWriteHalf, set_num_retry 0 c).
Proof. done. Qed.

Lemma redis_SendReply_patient c s :
  sendable c -> response_ (client c) <> [] -> patient (wrq s) -> zlen (pending c) <= accepting (wrq s) ->
  replied c s (SendReply c s).
Proof.
  intros Hsend Hr Hp Ha. unfold SendReply. destruct (response_ (client c)) as [|r0 rs0] eqn:Er; [done|]. rewrite <- Er. cbv zeta.
  set (iov := if iov_idx_ c <? 0 then iov_of (response_ (client c)) else iov_ c).
  assert (Hpe : concat iov = pending c).
  { unfold iov, pending. destruct (iov_idx_ c <? 0); [apply concat_iov_of|done]. }
  destruct ((iov_idx_ c <? 0) && bool_decide (iov = [])) eqn:E0; b2p.
  { match goal with H : iov = [] |- _ => rewrite H in Hpe end. unfold iov, pending in Hpe.
    apply RepliedAll; try done; rewrite <- ?Hpe; zlen_pos; try lia.
    - unfold pending in *. by rewrite (proj2 (Z.ltb_lt _ _)) in Hpe by lia.
    - unfold pending. rewrite <- Hpe. by rewrite app_nil_r. }
  set (c1 := if iov_idx_ c <? 0 then set_iov iov 0 c else c).
  assert (Hc1 : iov_ c1 = iov /\ 0 <= iov_idx_ c1 /\ client c1 = client c /\ read_side c1 = read_side c /\ iov <> [] /\ last iov <> Some []).
  { unfold c1, iov in *. destruct (iov_idx_ c <? 0) eqn:E; b2p; simpl in *.
    - b2p. split_and!; try done. apply last_iov_of.
    - destruct Hsend as [?|[? ?]]; [lia|]. split_and!; done. }
  destruct Hc1 as (Hi1 & Hx1 & Hcl1 & Hrs1 & Hne & Hl). set (fuel := S _).
  assert (Hf : zlen (concat (iov_ c1)) < Z.of_nat fuel) by (unfold fuel; zlen_pos; lia).
  destruct (writev_loop_spec fuel c1 s) as (res & c2 & s2 & HW & Hrd & Hres); rewrite ?Hi1; try done; [by rewrite <- Hi1|].
  destruct (writev_loop_patient fuel c1 s) as (res' & c2' & s2' & HW' & Hrs2 & Hp2 & Hh2 & Hres');
    rewrite ?Hi1, ?Hpe; try done; [by rewrite <- Hpe, <- Hi1|].
  rewrite HW in HW'. injection HW' as <- <- <-. rewrite HW. cbn [obind]. rewrite Hi1, Hpe in Hres, Hres'.
  rewrite Hrs1 in Hrs2. destruct res as [[n e]|].
  - destruct Hres' as (-> & -> & Hh & Hle & Hac). rewrite write_stopped_again. destruct Hres as (Hse & Hx2 & Hn2 & Hl2 & Hcl2).
    assert (Hp3 : pending (set_num_retry 0 c2) = concat (iov_ c2)) by (unfold pending; simpl; by rewrite (proj2 (Z.ltb_ge _ _))).
    apply RepliedHalf; try done; [right; split; done|simpl; by rewrite Hcl2, Hcl1, Er|by rewrite Hp3..].
  - destruct Hres as (Hse & Hi2 & Hx2 & Hr2). apply RepliedAll; try done; [lia|by rewrite Hr2].
Qed.
End send.

(** * Every command is answered *)
Section answers.
Context {SL : Slash} {SLL : SlashLaws SL} {WV : Writev} {WL : WritevLaws WV} {WP : WritevPatient WV} {U : Type}.
Context (realloc_ok : Z -> bool).
Hypothesis realloc_works : forall n, realloc_ok n = true.
Context (handle : RedisCmdArgsType -> U -> list bytes * U).
(** The state of the user when all is done. *)
Context (uf : U).
Implicit Types c : RedisConn U.
#[local] Instance server_ops : ConnOps (RedisConn U) := redis_ops (deal_ok handle) no_process realloc_ok.

(** What reading depends on. *)
Definition core c : HandleType * Z * Z * Z * Z * RedisParser (Client U) * Z :=
  (handle_type_ (client c), rbuf_len_ c, rbuf_max_len_ c, command_len_ c, last_read_pos_ c, redis_parser_ c, bulk_len_ c).

Lemma on_stream_core c c' rest todo : core c' = core c -> on_stream handle c rest todo -> on_stream handle c' rest todo.
Proof.
  intros E [Hr ? ? ? ? ?]. unfold core in E. injection E as E1 E2 E3 E4 E5 E6 E7.
  constructor; rewrite ?E1, ?E2, ?E3, ?E4, ?E5, ?E6, ?E7; try done.
  destruct Hr. constructor; rewrite ?E1, ?E2, ?E3, ?E4, ?E5, ?E6, ?E7; done.
Qed.

Lemma executed_from cs rs u : executed handle cs (rs, u) = (rs ++ (executed handle cs ([], u)).1, (executed handle cs ([], u)).2).
Proof.
  revert rs u. induction cs as [|a cs IH]; intros rs u; [by rewrite app_nil_r|]. unfold executed in *. cbn [fold_left].
  destruct (handle a u) as [new u1]. rewrite (IH (rs ++ new)), (IH ([] ++ new)). simpl. by rewrite app_assoc.
Qed.

(** Between a read and the reply to it. *)
Record served (todo : list RedisCmdArgsType) (now_out out : bytes) c (s : sock) : Prop := {
  sv_stream : on_stream handle c (incoming (rdq s)) todo;
  sv_plain : plain_queue (rdq s);
  sv_patient : patient (wrq s);
  sv_accepts : zlen out <= accepting (wrq s);
  sv_out : out = now_out ++ concat (executed handle todo ([], user (client c))).1;
  sv_user : (executed handle todo ([], user (client c))).2 = uf
}.

Definition waiting_for (n : nat) (out : bytes) c (s : sock) : Prop := exists todo,
  served todo [] out c s /\ iov_idx_ c < 0 /\ concat (response_ (client c)) = [] /\ PinkConn.is_reply_ (base (client c)) = false /\
  (2 * rd_work (rdq s) + holdups (wrq s) <= n)%nat.
Definition writing (n : nat) (out : bytes) c (s : sock) : Prop := exists todo,
  served todo (pending c) out c s /\ sendable c /\ response_ (client c) <> [] /\
  (2 * rd_work (rdq s) + holdups (wrq s) < n)%nat.

Lemma served_core todo o out c c' s :
  core c' = core c -> user (client c') = user (client c) -> served todo o out c s -> served todo o out c' s.
Proof. intros Hc Hu []. split; rewrite ?Hu; try done. by eapply on_stream_core. Qed.

Lemma redis_read n out c s : waiting_for n out c s -> (rdq s = [] /\ out = []) \/
  exists n' r c' s', (n' < n)%nat /\ conn_GetRequest c s = Ret (r, c', s') /\ (r = kReadHalf \/ r = kReadAll) /\
    conn_id (base (client c')) = conn_id (base (client c)) /\ is_waiting_del_ (base (client c')) = is_waiting_del_ (base (client c)) /\
    sent s' = sent s /\
    forall now, if conn_is_reply (at_time now c') then writing n' out (at_time now c') s' else waiting_for n' out (at_time now c') s'.
Proof.
  intros (todo & [Hst Hpl Hpa Hac Hout Hu] & Hx & Hre & Hf & Hn). destruct (decide (rdq s = [])) as [E0|Hne].
  { left. split; [done|]. rewrite E0 in Hst. destruct (on_stream_end handle c todo Hst) as (-> & _). exact Hout. }
  right. destruct (GetRequest_track realloc_ok realloc_works handle c s todo Hst Hpl) as
    (r & c' & s' & dn & todo' & HG & -> & Hr & Hst' & HO & Hpl' & Hwq & Hse & Hw).
  destruct Hw as [[? _]|Hw]; [done|]. pose proof (GetRequest_base (deal_ok handle) no_process realloc_ok c s (os_settings _ _ _ _ Hst)) as HB.
  rewrite HG in HB. destruct HB as (HB & _ & Hx'). exists (2 * rd_work (rdq s') + holdups (wrq s') + 1)%nat, r, c', s'.
  split; [rewrite Hwq; lia|]. split; [simpl; rewrite with_callbacks_id by apply Hst; exact HG|]. split; [done|].
  assert (Hb : base (client c') = base (client c) \/ (base (client c') = set_is_reply true (base (client c)) /\ response_ (client c') <> [])).
  { destruct HB as [->|HB]; [by left|]. destruct (response_ (client c')); [by left|by right]. }
  split; [by destruct Hb as [-> |[-> _]]|]. split; [by destruct Hb as [-> |[-> _]]|]. split; [done|]. intros now.
  unfold outbox in HO. rewrite executed_from in HO. injection HO as HR HU.
  rewrite executed_app in Hout, Hu. rewrite (surjective_pairing (executed handle dn ([], user (client c)))), executed_from in Hout, Hu.
  rewrite <- HU in Hout, Hu. cbn [fst snd] in Hout, Hu. rewrite concat_app in Hout.
  assert (HS : forall o, o = concat (executed handle dn ([], user (client c))).1 -> served todo' o out (at_time now c') s').
  { intros o ->. apply (served_core _ _ _ c'); [done..|]. split; rewrite ?Hwq; done. }
  assert (Hpc : concat (response_ (client c')) = concat (executed handle dn ([], user (client c))).1) by (rewrite HR, concat_app, Hre; done).
  destruct (conn_is_reply (at_time now c')) eqn:Ef.
  - exists todo'. split; [apply HS; unfold pending; simpl; by rewrite Hx', (proj2 (Z.ltb_lt _ _))|].
    split; [left; simpl; lia|]. split; [|lia]. simpl. destruct Hb as [Hb|[_ ?]]; [|done]. exfalso.
    unfold conn_is_reply in Ef. simpl in Ef. unfold default_is_reply in Ef. simpl in Ef. rewrite Hb in Ef. congruence.
  - assert (Hnil : concat (response_ (client c')) = []).
    { destruct HB as [->|HB]; [done|]. unfold conn_is_reply in Ef. simpl in Ef. unfold default_is_reply in Ef. simpl in Ef.
      rewrite HB in Ef. by destruct (response_ (client c')). }
    exists todo'. split; [apply HS; congruence|]. split; [simpl; lia|]. split; [exact Hnil|]. split; [exact Ef|lia].
Qed.

Lemma redis_write n out c s : writing n out c s ->
  exists n' c' s' out1 out2, (n' < n)%nat /\ base (client c') = base (client c) /\ out = out1 ++ out2 /\ sent s' = sent s ++ out1 /\
    (SendReply c s = Ret (kWriteHalf, c', s') /\ writing n' out2 c' s' \/
     SendReply c s = Ret (kWriteAll, c', s') /\ waiting_for n' out2 (conn_set_is_reply false c') s').
Proof.
  intros (todo & [Hst Hpl Hpa Hac Hout Hu] & Hs & Hr & Hn). set (rest := concat _) in Hout.
  assert (Hacc : zlen (pending c) <= accepting (wrq s)) by (rewrite Hout, zlen_app in Hac; pose proof (zlen_nonneg rest); lia).
  pose proof (redis_SendReply_patient c s Hs Hr Hpa Hacc) as HR. remember (SendReply c s) as m eqn:E.
  assert (Hside : forall c', read_side c' = read_side c -> core c' = core c /\ user (client c') = user (client c) /\ base (client c') = base (client c)).
  { intros c' H. unfold read_side in H. injection H as ? ? ? ? ? ? ? ? ? ?. unfold core. split_and!; congruence. }
  destruct HR as [c' s' Hrs Hx Hc0 Hse Hrd Hp' Ha' Hh|c' s' Hrs Hs' Hr' Hse Hle Hrd Hp' Ha' Hh];
    destruct (Hside c' Hrs) as (Hcore & Husr & Hbase).
  - exists (2 * rd_work (rdq s') + holdups (wrq s'))%nat, c', s', (pending c), rest. rewrite Hrd.
    split_and!; try done; [lia|]. right. split; [done|]. exists todo. split; [|split; [done|split; [done|split; [done|rewrite Hrd; lia]]]].
    apply (served_core _ _ _ c); [exact Hcore|exact Husr|]. split; rewrite ?Hrd; try done.
    rewrite Hout, zlen_app in Hac. lia.
  - destruct (app_eq_inv _ _ _ _ Hse) as [(k & Hk1 & Hk2)|(k & Hk1 & Hk2)].
    2:{ rewrite Hk2, zlen_app in Hle. assert (k = []) as -> by (apply zlen_zero; pose proof (zlen_nonneg k); lia). rewrite app_nil_r in Hk1.
        exists (2 * rd_work (rdq s') + holdups (wrq s') + 1)%nat, c', s', [], out. rewrite Hrd, app_nil_r.
        split_and!; try done; [lia|]. left. split; [done|]. exists todo. simpl in Hk2.
        split; [|split; [done|split; [done|rewrite Hrd; lia]]].
        apply (served_core _ _ _ c); [exact Hcore|exact Husr|]. split; rewrite ?Hrd; try done; [|by rewrite Hk2].
        rewrite Hk2 in Ha'. lia. }
    exists (2 * rd_work (rdq s') + holdups (wrq s') + 1)%nat, c', s', k, (pending c' ++ rest). rewrite Hrd.
    split_and!; try done; [lia|by rewrite Hout, Hk2, app_assoc|]. left. split; [done|]. exists todo.
    split; [|split; [done|split; [done|rewrite Hrd; lia]]].
    apply (served_core _ _ _ c); [exact Hcore|exact Husr|]. split; rewrite ?Hrd; try done.
    rewrite Hout, Hk2, !zlen_app in Hac. rewrite Hk2, zlen_app in Ha'. rewrite zlen_app. lia.
Qed.

Lemma redis_answers_all : answers_all waiting_for writing.
Proof. split; [apply redis_read|apply redis_write|]. intros c. by left. Qed.
End answers.

(** C2: in a [HolyThread] made with [async = false] every command gets its response. (The
    constructors' default is [async = true], where the loop arms nothing when a request
    is complete and waits for a notification: [holy_async_read].) A pipeline of commands that
    [SerializeRedisCommand] built arrives in any pieces at a new connection, smaller
    than its limit, and the socket takes something whenever it does not ask to wait:
    after no more events than twice the work of the reads and the waits of the
    socket, the handler has been called once per command, in order, with its
    arguments, the responses it gave are out, in the order of the commands, once and
    with nothing else, and the connection waits for input with nothing left to send.
    Reads and writes alternate, so that no response is queued while a write is in
    progress. *)
Theorem redis_holy_answers {SL : Slash} {SLL : SlashLaws SL} {WV : Writev} {WL : WritevLaws WV} {WP : WritevPatient WV} {U}
    realloc_ok (handle : RedisCmdArgsType -> U -> list bytes * U) fd ip start m u cmds outs p q w o times (t : server (RedisConn U))
    (Ops := redis_ops (deal_ok handle) no_process realloc_ok) :
  (forall k, realloc_ok k = true) -> REDIS_IOBUF_LEN <= m <= REDIS_MAX_MESSAGE ->
  Forall2 (fun argv out => SerializeRedisCommand argv = Ret (REDIS_OK, out)) cmds outs ->
  Forall (fun argv => argv <> []) cmds -> plain_queue q -> incoming q = concat outs -> zlen (concat outs) < m ->
  patient w -> zlen (concat (executed handle cmds ([], u)).1) <= accepting w ->
  At fd p (DFd fd) (new_RedisConn (deal_ok handle) no_process fd ip start kSynchronous m u) (mkSock q w o) EPOLLIN t ->
  (2 * rd_work q + holdups w <= length times)%nat ->
  exists k t' c' s', (k <= 2 * rd_work q + holdups w)%nat /\ polled false fd (take k times) t = Ret t' /\
    At fd p (DFd fd) c' s' EPOLLIN t' /\ sent s' = o ++ concat (executed handle cmds ([], u)).1 /\ rdq s' = [] /\
    user (client c') = (executed handle cmds ([], u)).2 /\ pending c' = [].
Proof.
  intros Hre Hm Hser Hne Hq Hin Hl Hp Ha HA Hn. pose proof (redis_laws (deal_ok handle) no_process realloc_ok) as CL.
  pose proof (serialized_commands cmds outs Hser) as Hst.
  assert (HW : waiting_for handle (executed handle cmds ([], u)).2 (2 * rd_work q + holdups w) (concat (executed handle cmds ([], u)).1)
    (new_RedisConn (deal_ok handle) no_process fd ip start kSynchronous m u) (mkSock q w o)).
  { exists cmds. split; [|by split_and!]. split; try done. simpl. rewrite Hin. by apply new_conn_on_stream. }
  destruct (holy_answers _ _ fd p times _ _ false _ _ t (redis_answers_all realloc_ok Hre handle _) HW HA Hn) as
    (k & n' & t' & c' & s' & Hk & HP & HA' & (todo & Hsv & Hx & Hc & _) & Hs & H0).
  exists k, t', c', s'. split_and!; try done.
  - pose proof (sv_stream _ _ _ _ _ _ _ Hsv) as Hos. rewrite H0 in Hos. destruct (on_stream_end handle c' todo Hos) as (-> & _).
    exact (sv_user _ _ _ _ _ _ _ Hsv).
  - unfold pending. by rewrite (proj2 (Z.ltb_lt _ _)).
Qed.

(** A handler that keeps the last value, and two commands in three pieces on a socket that takes
    four bytes, then asks to wait. *)
Definition keep_last (argv : RedisCmdArgsType) (v : bytes) : list bytes * bytes :=
  match argv with [_; _; v'] => ([bs "+OK" ++ CRLF], v') | _ => ([bs "+" ++ v ++ CRLF], v) end.
Definition set_get : list RedisCmdArgsType := [[bs "SET"; bs "k"; bs "7"]; [bs "GET"; bs "k"]].
Definition set_get_pieces : list arrival :=
  [Arrive (bs "*3" ++ CRLF ++ bs "$3" ++ CRLF ++ bs "SE"); Arrive (bs "T" ++ CRLF ++ bs "$1" ++ CRLF ++ bs "k" ++ CRLF ++ bs "$1" ++ CRLF ++ bs "7" ++ CRLF ++ bs "*2");
   Arrive (CRLF ++ bs "$3" ++ CRLF ++ bs "GET" ++ CRLF ++ bs "$1" ++ CRLF ++ bs "k" ++ CRLF)].
Definition slow_grants : list grant := Accepts 4 :: WrFails EAGAIN :: replicate 9 (Accepts 4).
Definition redis_settings {SL : Slash} : RedisConn bytes :=
  new_RedisConn (deal_ok keep_last) no_process 7 (bs "1.2.3.4:5") 0 kSynchronous REDIS_MAX_MESSAGE [].
Definition one_redis {SL : Slash} : server (RedisConn bytes) :=
  mkServer [(7, 1)] ∅ 60 (mkEpoll {[7 := (EPOLLIN, DFd 7)]} 3 []) None
    (mkWorld {[1 := redis_settings]} 2 [] {[7 := mkDesc 2 (mkSock set_get_pieces slow_grants [])]} []).

Lemma redis_holy_answers_witness (Ops := redis_ops (deal_ok keep_last) no_process (fun _ => true)) :
  exists k t' c' s', (k <= 101)%nat /\ polled false 7 (take k (replicate 101 5)) one_redis = Ret t' /\ At 7 1 (DFd 7) c' s' EPOLLIN t' /\
    sent s' = bs "+OK" ++ CRLF ++ bs "+7" ++ CRLF /\ rdq s' = [] /\ user (client c') = bs "7" /\ pending c' = [].
Proof.
  destruct (redis_holy_answers (fun _ => true) keep_last 7 (bs "1.2.3.4:5") 0 REDIS_MAX_MESSAGE [] set_get (map resp_command set_get)
    1 set_get_pieces slow_grants [] (replicate 101 5) one_redis) as (k & t' & c' & s' & Hk & HP & HA & Hs & H0 & Hu & Hpe); try done.
  - repeat constructor.
  - by repeat constructor.
  - repeat constructor; by eexists.
  - apply Forall_cons. split; [left; by exists 3%nat|]. apply Forall_cons. split; [by right|].
    apply Forall_replicate. left. by exists 3%nat.
  - exists k, t', c', s'. split; [exact Hk|]. by split_and!.
Defined.
