(* ===== verification/PbServer.v ===== *)
(** The protobuf connection under the event loops: it meets the interface of the
    loops, and the thread that serves its own connections answers every request. *)
From S2P Require Import Pink Prelude Sys PinkConn PinkEpoll ServerConns HolyThread ServeFacts.
From S2P Require Import PinkCli PinkCliFacts PbConn PbCli PbConnFacts PbTheorems.

(** * The connection as the event loops see it *)

(** The object: the members of [PbConn], those of its base class, and the state of
    the subclass. *)
Record PbObject (U : Type) : Type := mkPbObject { pb : PbConn; pb_base : PinkConn; pb_user : U }.
Arguments mkPbObject {U}. Arguments pb {U}. Arguments pb_base {U}. Arguments pb_user {U}.

Section conn.
Context {U : Type} (realloc_ok : Z -> bool) (DealMessage : PbConn -> U -> Z * list bytes * U).
Implicit Types o : PbObject U.

Definition put_pb (c : PbConn) o : PbObject U := mkPbObject c (pb_base o) (pb_user o).

(** [last_interaction()] is a member of the base class. *)
Definition set_sec (v : Z) (c : PbConn) : PbConn :=
  mkPbConn (header_len_ c) (rbuf_ c) (cur_pos_ c) (rbuf_len_ c) (remain_packet_len_ c) (connStatus_ c) (queue_ c)
    (item_pos_ c) (is_reply_ c) v.

#[export] Instance pb_ops : ConnOps (PbObject U) := {|
  conn_base := pb_base;
  with_base f o := mkPbObject (pb o) (f (pb_base o)) (pb_user o);
  conn_GetRequest o s :=
    let! (r, c, u, s) := GetRequest realloc_ok DealMessage (pb o) (pb_user o) s in
    Ret (r, mkPbObject c (pb_base o) u, s);
  conn_SendReply o s := let! (st, c, s) := SendReply (pb o) s in Ret (st, put_pb c o, s);
  conn_WriteResp resp o := put_pb (WriteResp resp (pb o)) o;
  conn_TryResizeBuffer now o := Ret (put_pb (TryResizeBuffer now (set_sec (last_interaction_ (pb_base o)) (pb o))) o);
  conn_is_reply o := is_reply (pb o);
  conn_set_is_reply b o := put_pb (set_is_reply b (pb o)) o
|}.

(** ** The counter of replies *)

(** Two items of the queue for each reply that is counted; sending and
    [set_is_reply(false)] change this, reading does not. *)
Definition balance (c : PbConn) : Z := 2 * is_reply_ c - zlen (queue_ c).
Definition balanced (c c' : PbConn) : Prop := 0 <= is_reply_ c' /\ balance c' = balance c.

Lemma balanced_trans c1 c2 c3 : balanced c1 c2 -> balanced c2 c3 -> balanced c1 c3.
Proof. unfold balanced. intros [] []. split; [done|congruence]. Qed.

Lemma balanced_write r c : 0 <= is_reply_ c -> balanced c (WriteResp r c).
Proof.
  intros H. unfold balanced, balance. simpl. rewrite (proj2 (Z.ltb_ge _ _)), zlen_app by lia.
  change (zlen [BuildInternalTag r; r]) with 2. lia.
Qed.

Lemma balanced_writes resps c : 0 <= is_reply_ c -> balanced c (write_all resps c).
Proof.
  revert c. induction resps as [|r resps IH]; intros c H; [done|]. pose proof (balanced_write r c H) as Hb.
  eapply balanced_trans; [exact Hb|]. apply (IH (WriteResp r c)), Hb.
Qed.

Definition next_balanced (c : PbConn) (n : next) : Prop :=
  match n with Done _ c' => balanced c c' | Again c' => balanced c c' end.

Lemma store_balanced d c : 0 <= is_reply_ c -> wp alive (balanced c) (store d c).
Proof. intros H. unfold store. by destruct (_ <? _). Qed.

Lemma header_balanced c s : 0 <= is_reply_ c -> wp alive (fun '(n, _) => next_balanced c n) (read_header c s).
Proof.
  intros H. unfold read_header. destruct (sys_read _ s) as [[[n|[]] d] s1]; try done. destruct (n =? 0); [done|].
  eapply alive_bind; [by apply store_balanced|]. intros c1 H1. by destruct (_ =? _).
Qed.

Lemma packet_balanced c s : 0 <= is_reply_ c -> wp alive (fun '(n, _) => next_balanced c n) (read_packet realloc_ok c s).
Proof.
  intros H. unfold read_packet. destruct (grow realloc_ok c) as [c0|] eqn:E; [|done].
  assert (H0 : balanced c c0).
  { unfold grow in E. destruct (_ <? _); [|by injection E as <-]. destruct (_ <? _); [|done].
    destruct (realloc_ok _); [|done]. by injection E as <-. }
  destruct (sys_read _ s) as [[[n|[]] d] s1]; try done. destruct (n =? 0); [done|].
  eapply alive_bind; [apply store_balanced, H0|]. intros c1 H1.
  pose proof (balanced_trans _ _ _ H0 H1). by destruct (_ =? _).
Qed.

Lemma complete_balanced c u : 0 <= is_reply_ c -> next_balanced c (complete DealMessage c u).1.
Proof.
  intros H. unfold complete. destruct (DealMessage c u) as [[r resps] u']. fold (write_all resps c).
  pose proof (balanced_writes resps c H). by destruct (r =? 0).
Qed.

Lemma GetRequest_balanced fuel c u s :
  0 <= is_reply_ c -> wp alive (fun '(_, c', _, _) => balanced c c') (GetRequest_loop realloc_ok DealMessage fuel c u s).
Proof.
  revert c u s. induction fuel as [|f IH]; intros c u s H; [done|]. rewrite GetRequest_loop_S.
  eapply (alive_bind (fun '(n, _, _) => next_balanced c n)).
  - destruct (connStatus_ c); try done.
    + eapply alive_bind; [by apply header_balanced|]. by intros [n s1].
    + eapply alive_bind; [by apply packet_balanced|]. by intros [n s1].
    + pose proof (complete_balanced c u H) as Hc. by destruct (complete DealMessage c u) as [n u1].
  - intros [[[r c1|c1] u1] s1] H1; [done|]. eapply wp_mono; [|apply IH, H1].
    intros [[[r c2] u2] s2] H2. by eapply balanced_trans.
Qed.

(** ** The laws *)

Lemma GetRequest_alive fuel c u s : wp alive (fun _ => True) (GetRequest_loop realloc_ok DealMessage fuel c u s).
Proof.
  revert c u s. induction fuel as [|f IH]; intros c u s; [done|]. rewrite GetRequest_loop_S.
  eapply (alive_bind (fun _ => True)); [|intros [[[r c1|c1] u1] s1] _; [done|apply IH]].
  destruct (connStatus_ c); try done.
  - unfold read_header, store. destruct (sys_read _ s) as [[[n|[]] d] s1]; try done. destruct (n =? 0); [done|].
    destruct (_ <? _); [done|]. cbn [obind]. by destruct (_ =? _).
  - unfold read_packet, store. destruct (grow realloc_ok c) as [c0|]; [|done].
    destruct (sys_read _ s) as [[[n|[]] d] s1]; try done. destruct (n =? 0); [done|].
    destruct (_ <? _); [done|]. cbn [obind]. by destruct (_ =? _).
  - by destruct (complete DealMessage c u).
Qed.

Lemma write_item_alive fuel item il nw c s : wp alive (fun _ => True) (write_item fuel item il nw c s).
Proof.
  revert il nw c s. induction fuel as [|f IH]; intros il nw c s; [done|]. rewrite write_item_S.
  destruct (_ <? _); [|done]. destruct (sys_write _ s) as [[n|e] s1]; [|done]. destruct (n =? 0); [done|].
  cbv zeta. destruct (_ =? _); apply IH.
Qed.

Lemma SendReply_alive fuel nw c s : wp alive (fun _ => True) (SendReply_loop fuel nw c s).
Proof.
  revert nw c s. induction fuel as [|f IH]; intros nw c s; [done|]. rewrite SendReply_loop_S.
  destruct (queue_ c) as [|item q]; [done|]. eapply alive_bind; [apply write_item_alive|].
  intros [[[[il nw1] err] c1] s1] _. destruct (nw1 =? -1); [done|]. destruct (negb _); [done|apply IH].
Qed.

#[export] Instance pb_laws : ConnLaws (PbObject U).
Proof.
  split; try done.
  - intros o s. simpl. unfold GetRequest. pose proof (GetRequest_alive 3 (pb o) (pb_user o) s) as W.
    by destruct (GetRequest_loop _ _ _ _ _ _) as [[[[r c] u] s1]|].
  - intros o s. simpl. unfold SendReply. pose proof (SendReply_alive (S (length (queue_ (pb o)))) 0 (pb o) s) as W.
    by destruct (SendReply_loop _ _ _ _) as [[[st c] s1]|].
Qed.
End conn.

(** * Sending on a patient socket *)
Section send.
Implicit Types c : PbConn.

(** What sending leaves alone. *)
Definition read_side c : Z * bytes * Z * Z * Z * ConnStatus * Z * Z :=
  (header_len_ c, rbuf_ c, cur_pos_ c, rbuf_len_ c, remain_packet_len_ c, connStatus_ c, is_reply_ c, sec c).

(** A part of a call on such a socket: bytes go from the queue to the socket. *)
Record calm c (s : sock) c' (s' : sock) : Prop := {
  cm_side : read_side c' = read_side c;
  cm_out : exists out, pending c = out ++ pending c' /\ sent s' = sent s ++ out;
  cm_rdq : rdq s' = rdq s;
  cm_patient : patient (wrq s');
  cm_accepts : accepting (wrq s) + zlen (pending c') <= accepting (wrq s') + zlen (pending c);
  cm_holdups : (holdups (wrq s') <= holdups (wrq s))%nat
}.

Lemma calm_refl c s : patient (wrq s) -> calm c s c s.
Proof. split; try done. exists []. by rewrite app_nil_r. Qed.

Lemma calm_trans c1 s1 c2 s2 c3 s3 : calm c1 s1 c2 s2 -> calm c2 s2 c3 s3 -> calm c1 s1 c3 s3.
Proof.
  intros [S1 (o1 & P1 & O1) R1 T1 A1 H1] [S2 (o2 & P2 & O2) R2 T2 A2 H2]. split; try congruence; try lia.
  exists (o1 ++ o2). by rewrite P1, P2, O2, O1, !app_assoc.
Qed.

(** [n] bytes of the first item are out. *)
Lemma calm_write c s s1 item q n pos q' :
  queue_ c = item :: q -> 0 <= item_pos_ c < zlen item -> 0 < n <= zlen (zdrop (item_pos_ c) item) ->
  patient (wrq s1) -> rdq s1 = rdq s -> sent s1 = sent s ++ ztake n (zdrop (item_pos_ c) item) ->
  accepting (wrq s) <= accepting (wrq s1) + 1 -> holdups (wrq s1) = holdups (wrq s) ->
  pending (set_queue q' pos c) = zdrop n (zdrop (item_pos_ c) item) ++ concat q ->
  calm c s (set_queue q' pos c) s1.
Proof.
  intros Hq Hp Hn Hpa Hr Hs Ha Hh HP. pose proof (pending_cons c item q Hq ltac:(lia)) as Hpc. split; try done; [|rewrite HP, Hpc, !zlen_app, (zlen_zdrop n) by lia; lia|lia].
  exists (ztake n (zdrop (item_pos_ c) item)). split; [|done]. rewrite HP, Hpc, app_assoc, ztake_zdrop. done.
Qed.

Lemma write_item_patient fuel item q nw0 c s :
  queue_ c = item :: q -> 0 <= item_pos_ c < zlen item -> zlen item < 2 ^ 64 -> (S (length (wrq s)) < fuel)%nat ->
  patient (wrq s) -> zlen (pending c) <= accepting (wrq s) ->
  exists il nw err c' s', write_item fuel item (zlen item) nw0 c s = Ret (il, nw, err, c', s') /\ calm c s c' s' /\
    ((queue_ c' = q /\ item_pos_ c' = 0 /\ il = 0 /\ nw <> -1) \/
     (queue_ c' = item :: q /\ 0 <= item_pos_ c' < zlen item /\ nw = -1 /\ err = Some EAGAIN /\
        (holdups (wrq s') < holdups (wrq s))%nat)).
Proof.
  revert c s nw0. induction fuel as [|f IH]; intros c s nw0 Hq Hp Hl Hf Hpa Hac; [lia|].
  rewrite write_item_S, to_u64_id, (proj2 (Z.ltb_lt _ _)) by lia.
  pose proof (zlen_zdrop (item_pos_ c) item ltac:(lia)) as Hz. set (d := zdrop (item_pos_ c) item) in *.
  pose proof (pending_cons c item q Hq ltac:(lia)) as Hpc. fold d in Hpc.
  assert (Hd : d <> []) by (intros E; rewrite E in Hz; change (zlen []) with 0 in Hz; lia).
  assert (Hda : zlen d <= accepting (wrq s)) by (rewrite Hpc, zlen_app in Hac; pose proof (zlen_nonneg (concat q)); lia).
  destruct (sys_write d s) as [res s1] eqn:W. pose proof (sys_write_grants _ _ _ _ W) as Hg.
  destruct (sys_write_patient _ _ _ _ Hpa Hd Hda W) as (Hpa1 & Hr1 & [(n & -> & Hn & Hs1 & Ha1 & Hh1)|(-> & Hs1 & Ha1 & Hh1)]).
  2:{ eexists _, _, _, c, s1. split; [done|]. split; [|right; split_and!; try done; lia].
      split; try done; [exists []; by rewrite app_nil_r|lia..]. }
  rewrite (proj2 (Z.eqb_neq _ _)) by lia. cbv zeta.
  assert (Hgr : (length (wrq s1) < length (wrq s))%nat) by (destruct Hg as [(_ & _ & ?)|(g & ->)]; [done|simpl; lia]).
  destruct (item_pos_ c + n =? zlen item) eqn:E; b2p.
  - destruct f as [|f]; [lia|]. rewrite write_item_S. simpl. eexists _, _, _, _, s1. split; [done|].
    split; [|left; simpl; rewrite Hq; split_and!; done || lia].
    apply (calm_write c s s1 item q n 0 (drop 1 (queue_ c))); try done. fold d. rewrite (zdrop_all n d) by lia.
    unfold pending. simpl. rewrite Hq. simpl. by rewrite zdrop_0.
  - assert (HC : calm c s (set_queue (queue_ c) (item_pos_ c + n) c) s1).
    { apply (calm_write c s s1 item q n (item_pos_ c + n) (queue_ c)); try done. fold d.
      rewrite (pending_cons _ item q) by (done || simpl; lia). simpl. unfold d. by rewrite zdrop_zdrop by lia. }
    destruct (IH (set_queue (queue_ c) (item_pos_ c + n) c) s1 n) as (il & nw & err & c' & s' & -> & HC' & Hres); try done;
      [simpl; lia|lia|pose proof (cm_accepts _ _ _ _ HC); lia|].
    eexists _, _, _, c', s'. split; [done|]. split; [by eapply calm_trans|].
    destruct Hres as [Hres|(? & ? & ? & ? & ?)]; [by left|right]. split_and!; done || lia.
Qed.

(** How a call ends. *)
Definition replied_calm c s (st : WriteStatus) c' s' : Prop :=
  calm c s c' s' /\ sendable c' /\
  ((st = kWriteAll /\ queue_ c' = []) \/ (st = kWriteHalf /\ (holdups (wrq s') < holdups (wrq s))%nat)).

Lemma SendReply_patient fuel nw c s :
  sendable c -> (length (queue_ c) < fuel)%nat -> patient (wrq s) -> zlen (pending c) <= accepting (wrq s) ->
  exists st c' s', SendReply_loop fuel nw c s = Ret (st, c', s') /\ replied_calm c s st c' s'.
Proof.
  revert nw c s. induction fuel as [|f IH]; intros nw c s [Hi Hp] Hf Hpa Hac; [lia|].
  rewrite SendReply_loop_S. destruct (queue_ c) as [|item q] eqn:Eq.
  { exists kWriteAll, c, s. split; [done|]. split; [by apply calm_refl|]. split; [split; rewrite Eq; done|by left]. }
  apply Forall_cons in Hi as [Hl Hi].
  destruct (write_item_patient (S (S (length (wrq s)))) item q nw c s) as (il & nw' & err & c1 & s1 & -> & HC & Hres);
    [done|lia|lia|lia|done|done|]. cbn [obind].
  destruct Hres as [(Hq & Hp1 & -> & Hnw)|(Hq & Hp1 & -> & -> & Hh)].
  - rewrite (proj2 (Z.eqb_neq _ _)), Hp1 by lia. cbn [negb Z.sub Z.eqb].
    destruct (IH nw' c1 s1) as (st & c' & s' & -> & HC' & Hs' & Hst).
    + unfold sendable. rewrite Hq. split; [done|]. destruct q; [done|]. apply Forall_cons in Hi as [? _]. lia.
    + rewrite Hq. simpl in Hf. lia.
    + apply HC.
    + pose proof (cm_accepts _ _ _ _ HC). lia.
    + exists st, c', s'. split; [done|]. split; [by eapply calm_trans|]. split; [done|].
      pose proof (cm_holdups _ _ _ _ HC). destruct Hst as [?|[-> ?]]; [by left|right]. split; [done|lia].
  - cbn [Z.eqb]. rewrite bool_decide_eq_true_2 by done. exists kWriteHalf, c1, s1. split; [done|].
    split; [done|]. split; [unfold sendable; rewrite Hq; split; [by constructor|done]|by right].
Qed.
End send.

(** * Every request is answered *)
Section answers.
Context {U : Type} (realloc_ok : Z -> bool).
Hypothesis realloc_works : forall n, realloc_ok n = true.
Context (handle : bytes -> U -> list bytes * U).
(** The state of the user when all is done. *)
Context (uf : U).
Implicit Types o : PbObject U.
#[local] Instance server_ops : ConnOps (PbObject U) := pb_ops realloc_ok (deal handle).

(** What the position in the stream depends on. *)
Definition message_side (c : PbConn) : Z * bytes * Z * Z * Z * ConnStatus :=
  (header_len_ c, rbuf_ c, cur_pos_ c, rbuf_len_ c, remain_packet_len_ c, connStatus_ c).

Lemma at_message_side c c' rest ms : message_side c' = message_side c -> at_message c rest ms -> at_message c' rest ms.
Proof.
  intros E. unfold message_side in E. injection E as E1 E2 E3 E4 E5 E6.
  intros [[]|(m & ms' & -> & [])]; [left|right; exists m, ms'; split; [done|]]; split; congruence.
Qed.

Lemma frames_app l1 l2 : frames (l1 ++ l2) = frames l1 ++ frames l2.
Proof. unfold frames. by rewrite map_app, concat_app. Qed.

(** A response that can be framed. *)
Definition fits (r : bytes) : Prop := 0 < zlen r < 2 ^ 32.

Lemma items_fit resps : Forall fits resps -> Forall (fun i : bytes => 0 < zlen i < 2 ^ 64) (items resps).
Proof.
  induction 1 as [|r resps Hr _ IH]; [done|]. unfold items in *. cbn [map concat app].
  apply Forall_cons. split; [unfold BuildInternalTag; rewrite zlen_be32; lia|]. apply Forall_cons. split; [unfold fits in Hr; lia|done].
Qed.

Lemma items_pending c resps :
  queue_ c = items resps -> item_pos_ c = 0 -> Forall fits resps -> sendable c /\ pending c = frames resps.
Proof.
  intros Hq Hp Hf. pose proof (items_fit resps Hf) as Hi. split.
  - split; [by rewrite Hq|]. rewrite Hq, Hp. destruct (items resps) as [|i l]; [done|]. apply Forall_cons in Hi as [? _]. lia.
  - unfold pending. rewrite Hq, Hp, zdrop_0. apply items_frames. eapply Forall_impl; [exact Hf|]. unfold fits. lia.
Qed.

(** The responses still to come. *)
Definition owed ms o : list bytes := (answers handle ms (pb_user o)).1.

Record served (ms : list bytes) (now_out out : bytes) o (s : sock) : Prop := {
  sv_stream : at_message (pb o) (incoming (rdq s)) ms;
  sv_plain : plain_queue (rdq s);
  sv_messages : Forall pb_message ms;
  sv_patient : patient (wrq s);
  sv_accepts : zlen out <= accepting (wrq s);
  sv_fits : Forall fits (owed ms o);
  sv_out : out = now_out ++ frames (owed ms o);
  sv_user : (answers handle ms (pb_user o)).2 = uf
}.

Definition work ms o (s : sock) : nat :=
  (2 * rd_work (rdq s) + holdups (wrq s) + 2 * Z.to_nat (is_reply_ (pb o)) + 2 * length (owed ms o))%nat.

Definition waiting (n : nat) (out : bytes) o (s : sock) : Prop := exists ms,
  served ms [] out o s /\ queue_ (pb o) = [] /\ item_pos_ (pb o) = 0 /\ 0 <= is_reply_ (pb o) /\ (work ms o s <= n)%nat.
Definition writing (n : nat) (out : bytes) o (s : sock) : Prop := exists ms,
  served ms (pending (pb o)) out o s /\ sendable (pb o) /\ 0 < is_reply_ (pb o) /\ (work ms o s < n)%nat.

Lemma served_side ms now_out out o o' s :
  message_side (pb o') = message_side (pb o) -> pb_user o' = pb_user o -> served ms now_out out o s -> served ms now_out out o' s.
Proof. intros Hm Hu []. split; unfold owed in *; rewrite ?Hu; try done. by eapply at_message_side. Qed.

Lemma pb_read n out o s : waiting n out o s -> (rdq s = [] /\ out = []) \/
  exists n' r o' s', (n' < n)%nat /\ conn_GetRequest o s = Ret (r, o', s') /\ (r = kReadHalf \/ r = kReadAll) /\
    conn_id (conn_base o') = conn_id (conn_base o) /\ is_waiting_del_ (conn_base o') = is_waiting_del_ (conn_base o) /\
    sent s' = sent s /\
    forall now, if conn_is_reply (at_time now o') then writing n' out (at_time now o') s' else waiting n' out (at_time now o') s'.
Proof.
  intros (ms & [Hst Hpl Hms Hpa Hac Hfit Hout Hu] & Hq & Hp & Hr & Hn). destruct (decide (rdq s = [])) as [E0|Hne].
  { left. split; [done|]. rewrite E0 in Hst. rewrite (at_message_end _ _ Hst) in Hout. exact Hout. }
  right. destruct (GetRequest_at realloc_ok realloc_works handle (pb o) s ms (pb_user o) Hst Hpl Hms) as
    (r & c' & s' & dn & ms' & HG & -> & Hok & Hst' & (Hpl' & Hwq & Hse) & [HQ HP] & Hw).
  destruct Hw as [[? _]|Hw]; [done|]. pose proof (GetRequest_balanced realloc_ok (deal handle) 3 (pb o) (pb_user o) s Hr) as HB.
  unfold GetRequest in HG. rewrite HG in HB. destruct HB as [Hr' HB]. unfold balance in HB. rewrite Hq in HQ, HB. simpl in HQ.
  set (new := (answers handle dn (pb_user o)).1) in *. rewrite HQ in HB.
  assert (Hlen : forall l, zlen (items l) = 2 * zlen l).
  { induction l as [|x l IH]; [done|]. change (items (x :: l)) with ([BuildInternalTag x; x] ++ items l).
    rewrite zlen_app, IH. unfold zlen. simpl. lia. }
  rewrite Hlen in HB. change (zlen (@nil bytes)) with 0 in HB.
  assert (Hcount : is_reply_ c' = is_reply_ (pb o) + zlen new) by lia. clear HB.
  set (o' := mkPbObject c' (pb_base o) (answers handle dn (pb_user o)).2).
  assert (Hdue : owed (dn ++ ms') o = new ++ owed ms' o') by (unfold owed; by rewrite answers_app).
  rewrite Hdue in Hfit, Hout. apply Forall_app in Hfit as [Hf1 Hf2]. rewrite frames_app in Hout.
  rewrite answers_app in Hu. apply Forall_app in Hms as [_ Hms'].
  assert (HS : forall now x, x = frames new -> served ms' x out (at_time now o') s').
  { intros now x ->. apply (served_side _ _ _ o'); [done..|]. split; rewrite ?Hwq; done. }
  assert (Hwork : (work ms' o' s' + 2 <= n)%nat).
  { unfold work in *. rewrite Hdue, length_app in Hn. change (is_reply_ (pb o')) with (is_reply_ c'). rewrite Hcount, Hwq. unfold zlen. lia. }
  exists (n - 1)%nat, r, o', s'. split; [lia|].
  split; [simpl; unfold GetRequest; rewrite HG; done|]. split; [done|]. split; [done|]. split; [done|]. split; [done|]. intros now.
  destruct (items_pending c' new HQ ltac:(congruence) Hf1) as [Hsend Hpend].
  destruct (conn_is_reply (at_time now o')) eqn:Ef; unfold conn_is_reply in Ef; simpl in Ef; unfold is_reply in Ef; simpl in Ef; b2p.
  - exists ms'. split; [by apply HS|]. split; [exact Hsend|]. split; [exact Ef|]. change (work ms' (at_time now o') s') with (work ms' o' s'). lia.
  - assert (new = []) as Hnil by (apply zlen_zero; pose proof (zlen_nonneg new); lia).
    exists ms'. split; [apply HS; by rewrite Hnil|]. split; [simpl; by rewrite HQ, Hnil|].
    split; [simpl; congruence|]. split; [exact Hr'|]. change (work ms' (at_time now o') s') with (work ms' o' s'). lia.
Qed.

Lemma pb_write n out o s : writing n out o s ->
  exists n' o' s' out1 out2, (n' < n)%nat /\ conn_base o' = conn_base o /\ out = out1 ++ out2 /\ sent s' = sent s ++ out1 /\
    (conn_SendReply o s = Ret (kWriteHalf, o', s') /\ writing n' out2 o' s' \/
     conn_SendReply o s = Ret (kWriteAll, o', s') /\ waiting n' out2 (conn_set_is_reply false o') s').
Proof.
  intros (ms & [Hst Hpl Hms Hpa Hac Hfit Hout Hu] & Hs & Hr & Hn).
  assert (Hacc : zlen (pending (pb o)) <= accepting (wrq s)).
  { rewrite Hout, zlen_app in Hac. pose proof (zlen_nonneg (frames (owed ms o))). lia. }
  destruct (SendReply_patient (S (length (queue_ (pb o)))) 0 (pb o) s Hs ltac:(lia) Hpa Hacc) as
    (st & c' & s' & E & [Hside (x & Hx & Hse) Hrd Hpa' Ha Hh] & Hs' & Hst').
  assert (HM : message_side c' = message_side (pb o) /\ is_reply_ c' = is_reply_ (pb o)).
  { unfold read_side in Hside. injection Hside as ? ? ? ? ? ? ? ?. unfold message_side. split; congruence. }
  destruct HM as [HM HI]. set (o' := put_pb c' o).
  assert (HS : forall y, y = pending c' -> served ms y (y ++ frames (owed ms o)) o' s').
  { intros y ->. apply (served_side _ _ _ o); [done..|]. split; rewrite ?Hrd; try done.
    rewrite Hout, Hx, <- app_assoc, zlen_app in Hac. rewrite Hx, zlen_app in Ha. lia. }
  exists (n - 1)%nat, o', s', x, (pending c' ++ frames (owed ms o)). split; [lia|]. split; [done|].
  split; [by rewrite Hout, Hx, app_assoc|]. split; [done|].
  assert (HE : conn_SendReply o s = Ret (st, o', s')) by (simpl; unfold SendReply; by rewrite E).
  destruct Hst' as [[-> Hq]|[-> Hh']].
  - right. split; [exact HE|]. destruct Hs' as [_ Hp']. rewrite Hq in Hp'.
    assert (Hnil : pending c' = []) by (unfold pending; by rewrite Hq, Hp'). exists ms. rewrite Hnil.
    split; [apply (served_side _ _ _ o'); [done..|]; by apply HS|]. split; [exact Hq|]. split; [exact Hp'|].
    unfold work in *. simpl. rewrite HI, Hrd. change (owed ms (put_pb (set_is_reply false c') o')) with (owed ms o).
    rewrite (proj2 (Z.ltb_ge _ _)) by lia. split; lia.
  - left. split; [exact HE|]. exists ms. split; [by apply HS|]. split; [exact Hs'|].
    unfold work in *. simpl. rewrite HI, Hrd. change (owed ms o') with (owed ms o). split; lia.
Qed.

Lemma pb_answers_all : answers_all waiting writing.
Proof. split; [apply pb_read|apply pb_write|]. intros o. by right. Qed.
End answers.

(** * Calls over the network *)

(** A service on messages: its responses are messages too. *)
Definition service {M R U} {P : Protobuf R} (h : M -> U -> list R * U) (m : M) (u : U) : list bytes * U :=
  let '(rs, u) := h m u in (map Serialize rs, u).

(** The responses to a sequence of requests, and the state after them. *)
Fixpoint serve_all {M R U} (h : M -> U -> list R * U) (ms : list M) (u : U) : list R * U :=
  match ms with
  | [] => ([], u)
  | m :: ms => let '(r, u) := h m u in let '(rs, u) := serve_all h ms u in (r ++ rs, u)
  end.

Lemma handle_all_service {M R U} {P : Protobuf R} (h : M -> U -> list R * U) ms u :
  handle_all (service h) ms u = (map Serialize (serve_all h ms u).1, (serve_all h ms u).2).
Proof.
  revert u. induction ms as [|m ms IH]; intros u; [done|]. cbn [handle_all serve_all]. unfold service at 1.
  destruct (h m u) as [r u1]. rewrite IH. destruct (serve_all h ms u1) as [rs u2]. simpl. by rewrite map_app.
Qed.

Lemma fits_fits {R} {P : Protobuf R} (rs : list R) : Forall pb_fits rs -> Forall fits (map Serialize rs).
Proof.
  intros H. apply Forall_map. eapply Forall_impl; [exact H|]. intros m Hm.
  unfold pb_fits, pb_message, kProtoMaxMessage, COMMAND_HEADER_LENGTH in Hm. unfold fits. lia.
Qed.


(** A service that counts and echoes, with an extra response to every second request;
    two requests in three pieces, on a socket that asks to wait in the middle. *)
Definition echo_service (m : bytes) (n : Z) : list bytes * Z := (if Z.even n then [m] else [m; bs "even"], n + 1).
Definition two_requests : list arrival :=
  [Arrive [NUL; NUL]; Arrive [NUL; "002"%char; "h"%char]; Arrive ["i"%char; NUL; NUL; NUL; "001"%char; "x"%char]].
Definition pb_grants : list grant := Accepts 3 :: WrFails EAGAIN :: replicate 20 (Accepts 2).
Definition one_pb : server (PbObject Z) :=
  mkServer [(7, 1)] ∅ 60 (mkEpoll {[7 := (EPOLLIN, DFd 7)]} 3 []) None
    (mkWorld {[1 := mkPbObject (new_PbConn 0) (new_PinkConn 7 (bs "1.2.3.4:5") 0) 0]} 2 [] {[7 := mkDesc 2 (mkSock two_requests pb_grants [])]} []).

